(** * GrainFS: an encrypting layer over a byte-level file backend

    A shallow embedding of the Go sources of GrainFS (content envelope,
    filename obfuscation, per-directory filemaps, path translation, file
    handles and the filesystem facade), followed by the properties proved
    about them.

    Conventions.
    - [[]byte] is [list byte]; Go strings are [string]; [int] values that are
      only compared or used as lengths are [nat], flag words are [Z].
    - A Go function returning [(T, error)] and touching the backend, the
      filemap cache or the random source is a computation in the monad [M]:
      it maps a [World] to a [result] and the next [World].  State written
      before an error is returned stays written, as in Go.
    - The primitives of Go's standard library that the sources call
      (SHA-256, HMAC, AES-CTR, AES-GCM, PBKDF2, JSON) are the fields of the
      class [Primitives], with the laws the proofs rely on.
    - The billy backend is outside the repository; [Backend] is an in-memory
      model of it (the tests of the repository run on billy's memfs). *)

From Stdlib Require Import ZArith NArith Lia List Ascii String DecimalString.
From Stdlib.Strings Require Import Byte.
From stdpp Require Import base gmap strings list fin_maps.

Open Scope string_scope.
Open Scope list_scope.

(** ** Errors and results *)

(** Go error values.  [Msg] is an error made by [fmt.Errorf] without [%w] (or
    by [errors.New]); [Wrap] is [fmt.Errorf("...: %w", e)].  The sentinel
    errors of [os] and [io] are constructors of their own. *)
Inductive error : Type :=
| ErrNotExist
| ErrExist
| ErrClosed
| EOF
| ErrUnexpectedEOF
| OutOfFuel
| Msg (s : string)
| Wrap (s : string) (e : error).

Inductive result (A : Type) : Type :=
| Ok (a : A)
| Err (e : error).

Arguments Ok {A} a.
Arguments Err {A} e.

(** [os.IsNotExist]: it predates [errors.Is] and does not look through
    [fmt.Errorf] wrappers. *)
Definition IsNotExist (e : error) : bool :=
  match e with
  | ErrNotExist => true
  | _ => false
  end.

Definition is_ok {A} (r : result A) : bool :=
  match r with
  | Ok _ => true
  | Err _ => false
  end.

(** ** Constants (crypto.go, config.go) *)

Definition NonceSize : nat := 12.
Definition TagSize : nat := 16.
Definition HMACSize : nat := 32.
Definition MaxFilenameLen : nat := 200.
Definition aes_BlockSize : nat := 16.

Definition ConfigVersion : string := "1.0.0".
Definition DefaultIterations : Z := 100000.
Definition SaltSize : nat := 32.
Definition KeySize : nat := 32.
Definition FilenameKeySize : nat := 32.

Definition GrainFSDir : string := ".grainfs".
Definition ConfigFile : string := "config.json".
Definition FilemapFile : string := "filemap.json".

(** Flag words of package [os] (values of the Linux port). *)
Definition O_RDONLY : Z := 0.
Definition O_WRONLY : Z := 1.
Definition O_RDWR : Z := 2.
Definition O_CREATE : Z := 64.
Definition O_EXCL : Z := 128.
Definition O_TRUNC : Z := 512.
Definition O_APPEND : Z := 1024.

Definition has_flag (flag bit : Z) : bool := negb (Z.land flag bit =? 0)%Z.

(** ** Strings and bytes *)

Definition bytes_of (s : string) : list byte := list_byte_of_string s.
Definition string_of (l : list byte) : string := string_of_list_byte l.

Definition slash : ascii := "/"%char.

Fixpoint no_slash (s : string) : bool :=
  match s with
  | EmptyString => true
  | String c r => negb (Ascii.eqb c slash) && no_slash r
  end.

(** [strings.HasPrefix]. *)
Fixpoint HasPrefix (s p : string) : bool :=
  match p, s with
  | EmptyString, _ => true
  | String c p', String d s' => Ascii.eqb c d && HasPrefix s' p'
  | String _ _, EmptyString => false
  end.

(** [strings.Split(s, "/")]. *)
Fixpoint Split (s : string) : list string :=
  match s with
  | EmptyString => [EmptyString]
  | String c r =>
      if Ascii.eqb c slash then EmptyString :: Split r
      else match Split r with
           | h :: t => String c h :: t
           | [] => [String c EmptyString]
           end
  end.

Fixpoint join_sep (l : list string) : string :=
  match l with
  | [] => ""
  | [x] => x
  | x :: r => x +:+ "/" +:+ join_sep r
  end.

(** The component loop of [filepath.Clean]: [out] is the stack of kept
    components, innermost first. *)
Fixpoint clean_loop (rooted : bool) (parts out : list string) : list string :=
  match parts with
  | [] => rev out
  | p :: r =>
      if String.eqb p "" || String.eqb p "." then clean_loop rooted r out
      else if String.eqb p ".." then
        match out with
        | top :: out' =>
            if String.eqb top ".." then clean_loop rooted r (p :: out)
            else clean_loop rooted r out'
        | [] => if rooted then clean_loop rooted r out
                else clean_loop rooted r (p :: out)
        end
      else clean_loop rooted r (p :: out)
  end.

Definition is_rooted (p : string) : bool :=
  match p with
  | String c _ => Ascii.eqb c slash
  | EmptyString => false
  end.

(** [filepath.Clean] on a Unix path. *)
Definition Clean (p : string) : string :=
  let body := join_sep (clean_loop (is_rooted p) (Split p) []) in
  if is_rooted p then "/" +:+ body
  else if String.eqb body "" then "." else body.

(** [filepath.Join]: empty elements are dropped, the rest joined and cleaned. *)
Definition Join (elems : list string) : string :=
  match List.filter (fun e => negb (String.eqb e "")) elems with
  | [] => ""
  | l => Clean (join_sep l)
  end.

(** [filepath.Base]. *)
Definition Base (p : string) : string :=
  if String.eqb p "" then "."
  else match rev (List.filter (fun e => negb (String.eqb e "")) (Split p)) with
       | last :: _ => last
       | [] => "/"
       end.

(** [filepath.Dir]: everything up to the last separator, cleaned. *)
Definition Dir (p : string) : string :=
  match rev (Split p) with
  | _ :: before => Clean (join_sep (rev before) +:+ (if before is [] then "" else "/"))
  | [] => "."
  end.

(** Components of a cleaned relative path; the root is the empty list.  The
    backend addresses its nodes by these. *)
Definition components (p : string) : list string :=
  clean_loop true (Split p) [].

(** [fmt.Sprintf("%s.%d", s, n)]. *)
Definition Sprintf_s_d (s : string) (n : nat) : string :=
  s +:+ "." +:+ NilEmpty.string_of_uint (Nat.to_uint n).


(** ** URL-safe base64 with padding ([base64.URLEncoding]) *)

Definition encodeURL : string :=
  "ABCDEFGHIJKLMNOPQRSTUVWXYZabcdefghijklmnopqrstuvwxyz0123456789-_".

Definition b64_char (i : N) : ascii :=
  nth (N.to_nat i) (list_ascii_of_string encodeURL) "="%char.

(** [EncodeToString]: three bytes give four characters; a last group of one
    or two bytes is padded with [=]. *)
Fixpoint EncodeToString (src : list byte) : string :=
  match src with
  | [] => ""
  | [a] =>
      let x := Byte.to_N a in
      String (b64_char (x / 4))
        (String (b64_char ((x mod 4) * 16)) "==")
  | [a; b] =>
      let x := Byte.to_N a in
      let y := Byte.to_N b in
      String (b64_char (x / 4))
        (String (b64_char ((x mod 4) * 16 + y / 16))
           (String (b64_char ((y mod 16) * 4)) "="))
  | a :: b :: c :: rest =>
      let x := Byte.to_N a in
      let y := Byte.to_N b in
      let z := Byte.to_N c in
      String (b64_char (x / 4))
        (String (b64_char ((x mod 4) * 16 + y / 16))
           (String (b64_char ((y mod 16) * 4 + z / 64))
              (String (b64_char (z mod 64)) (EncodeToString rest))))
  end.

(** ** Primitives of the Go standard library *)

(** [aes.NewCipher] accepts keys of 16, 24 or 32 bytes. *)
Definition aes_key_ok (key : list byte) : bool :=
  let n := length key in
  ((n =? 16) || (n =? 24) || (n =? 32))%nat.

(** The volume configuration of config.go. *)
Record Config : Type := mkConfig {
  Salt : list byte;
  Iterations : Z;
  Version : string
}.

(** A filemap: obfuscated basename to cleartext basename. *)
Abbreviation FilenameMap := (gmap string string).

(** [utf8.Valid]: the bytes are a sequence of well-formed UTF-8 encodings
    (no overlong forms, no surrogates, nothing above U+10FFFF). *)
Definition in_range (lo hi : N) (b : byte) : bool :=
  ((lo <=? Byte.to_N b) && (Byte.to_N b <=? hi))%N.

Fixpoint valid_utf8 (l : list byte) : bool :=
  match l with
  | [] => true
  | b0 :: r0 =>
      if (Byte.to_N b0 <=? 127)%N then valid_utf8 r0
      else
        match r0 with
        | [] => false
        | b1 :: r1 =>
            if in_range 194 223 b0
            then in_range 128 191 b1 && valid_utf8 r1
            else
              match r1 with
              | [] => false
              | b2 :: r2 =>
                  if in_range 224 239 b0
                  then in_range (if Byte.eqb b0 xe0 then 160 else 128)
                         (if Byte.eqb b0 xed then 159 else 191) b1
                       && in_range 128 191 b2 && valid_utf8 r2
                  else
                    match r2 with
                    | [] => false
                    | b3 :: r3 =>
                        in_range 240 244 b0
                        && in_range (if Byte.eqb b0 xf0 then 144 else 128)
                             (if Byte.eqb b0 xf4 then 143 else 191) b1
                        && in_range 128 191 b2 && in_range 128 191 b3
                        && valid_utf8 r3
                    end
              end
        end
  end.

Definition utf8_string (s : string) : bool := valid_utf8 (bytes_of s).

(** A filemap whose names, obfuscated and cleartext, are valid UTF-8:
    [encoding/json] writes these as they are, and replaces every byte
    that is not part of a well-formed encoding by U+FFFD. *)
Definition utf8_filemap (m : FilenameMap) : Prop :=
  map_Forall (fun k v => utf8_string k && utf8_string v = true) m.

Class Primitives : Type := {
  (** [sha256.Sum] of the bytes written to the hash. *)
  sha256_Sum : list byte -> list byte;
  (** [hmac.New(sha256.New, key)] fed with a message. *)
  hmac_sha256 : list byte -> list byte -> list byte;
  (** [cipher.NewCTR(block, iv).XORKeyStream] on a fresh stream. *)
  ctr_XORKeyStream : list byte -> list byte -> list byte -> list byte;
  (** [gcm.Seal(nil, nonce, plaintext, nil)], key first. *)
  gcm_Seal : list byte -> list byte -> list byte -> list byte;
  (** [gcm.Open(nil, nonce, ciphertext, nil)], key first. *)
  gcm_Open : list byte -> list byte -> list byte -> option (list byte);
  (** [pbkdf2.Key(password, salt, iterations, keyLen, sha256.New)]. *)
  pbkdf2_Key : list byte -> list byte -> Z -> nat -> list byte;
  (** [json.MarshalIndent] and [json.Unmarshal] on a filemap. *)
  json_Marshal : FilenameMap -> list byte;
  json_Unmarshal : list byte -> option FilenameMap;
  (** [json.Encoder.Encode] and [json.Decoder.Decode] on a [Config]. *)
  json_Encode : Config -> list byte;
  json_Decode : list byte -> option Config;

  sha256_length : forall x, length (sha256_Sum x) = 32;
  hmac_length : forall k x, length (hmac_sha256 k x) = 32;
  ctr_length : forall k iv x, length (ctr_XORKeyStream k iv x) = length x;
  ctr_involutive : forall k iv x,
    aes_key_ok k = true -> length iv = aes_BlockSize ->
    ctr_XORKeyStream k iv (ctr_XORKeyStream k iv x) = x;
  gcm_Seal_length : forall k n p,
    length (gcm_Seal k n p) = length p + TagSize;
  gcm_Open_Seal : forall k n p,
    aes_key_ok k = true -> length n = NonceSize ->
    gcm_Open k n (gcm_Seal k n p) = Some p;
  pbkdf2_length : forall pw salt it n, length (pbkdf2_Key pw salt it n) = n;
  (** What is marshalled is read back: the law of [encoding/json] on
      names that are valid UTF-8, the only ones it writes as they are. *)
  json_Unmarshal_Marshal : forall m,
    utf8_filemap m -> json_Unmarshal (json_Marshal m) = Some m;
  json_Decode_Encode : forall c, json_Decode (json_Encode c) = Some c
}.

(** ** The world: backend, filemap cache, random source *)

Inductive node : Type :=
| File (content : list byte)
| Directory.

(** What [os.FileInfo] carries that the sources read. *)
Record FileInfo : Type := mkFileInfo {
  fi_name : string;
  fi_size : nat;
  fi_isDir : bool
}.

Record World : Type := mkWorld {
  (** the nodes of the backend, by path components; the root is implicit *)
  backend : gmap (list string) node;
  (** [FilemapManager.cache] *)
  cache : gmap string FilenameMap;
  (** the bytes [crypto/rand] will deliver *)
  entropy : list byte
}.

Definition set_backend (b : gmap (list string) node) (w : World) : World :=
  mkWorld b (cache w) (entropy w).
Definition set_cache (c : gmap string FilenameMap) (w : World) : World :=
  mkWorld (backend w) c (entropy w).
Definition set_entropy (e : list byte) (w : World) : World :=
  mkWorld (backend w) (cache w) e.

(** ** The state-and-error monad *)

(** A Go function that mutates a state [S] and returns [(A, error)]. *)
Definition St (S A : Type) : Type := S -> result A * S.

Definition ret {S A} (a : A) : St S A := fun s => (Ok a, s).
Definition fail {S A} (e : error) : St S A := fun s => (Err e, s).
Definition bind {S A B} (m : St S A) (f : A -> St S B) : St S B :=
  fun s =>
    match m s with
    | (Ok a, s') => f a s'
    | (Err e, s') => (Err e, s')
    end.

(** Run [m] and hand its outcome to the caller, as Go's [x, err := m()]. *)
Definition attempt {S A} (m : St S A) : St S (result A) :=
  fun s => let (r, s') := m s in (Ok r, s').

(** [if err != nil { return fmt.Errorf("ctx: %w", err) }]. *)
Definition wrap {S A} (ctx : string) (m : St S A) : St S A :=
  fun s =>
    match m s with
    | (Err e, s') => (Err (Wrap ctx e), s')
    | r => r
    end.

Definition lift {S A} (r : result A) : St S A := fun s => (r, s).
Definition get {S} : St S S := fun s => (Ok s, s).
Definition modify {S} (f : S -> S) : St S unit := fun s => (Ok tt, f s).

(** A computation on the world, run from a state that pairs an object with
    the world. *)
Definition on_world {X A} (m : St World A) : St (X * World) A :=
  fun s =>
    let (r, w') := m (snd s) in (r, (fst s, w')).

(** A computation on a part [Y] of an object [X], run on the object. *)
Definition zoom {X Y A} (proj : X -> Y) (upd : Y -> X -> X)
    (m : St (Y * World) A) : St (X * World) A :=
  fun s =>
    let (r, s') := m (proj (fst s), snd s) in
    (r, (upd (fst s') (fst s), snd s')).

Abbreviation M := (St World).

Declare Scope go_scope.
Delimit Scope go_scope with go.
Notation "x <- c1 ;; c2" := (bind c1 (fun x => c2))
  (at level 100, c1 at next level, right associativity) : go_scope.
Notation "c1 ;;; c2" := (bind c1 (fun _ => c2))
  (at level 100, right associativity) : go_scope.
Open Scope go_scope.

(** [rand.Read] on a buffer of [n] bytes. *)
Definition rand_Read (n : nat) : M (list byte) :=
  fun w =>
    if (length (entropy w) <? n)%nat then (Err (Msg "rand: short read"), w)
    else (Ok (firstn n (entropy w)), set_entropy (skipn n (entropy w)) w).

(** ** The backend

    An in-memory model of the billy filesystem the sources wrap: nodes are
    addressed by the components of the cleaned path, parents of a created
    node are made on the way, an open handle is the key of its node, a
    position and the flag word it was opened with. *)

Record ufile : Type := mkUfile {
  u_key : list string;
  u_pos : nat;
  u_flag : Z
}.

Module Backend.

Abbreviation store := (gmap (list string) node).

(** The non-empty proper prefixes of a key, shortest first. *)
Fixpoint proper_prefixes (k : list string) : list (list string) :=
  match k with
  | [] => []
  | x :: r =>
      match r with
      | [] => []
      | _ => [x] :: List.map (cons x) (proper_prefixes r)
      end
  end.

Fixpoint mk_dirs (ks : list (list string)) (b : store) : result store :=
  match ks with
  | [] => Ok b
  | k :: r =>
      match b !! k with
      | None => mk_dirs r (<[k := Directory]> b)
      | Some Directory => mk_dirs r b
      | Some (File _) => Err (Msg "not a directory")
      end
  end.

Definition info_of (k : list string) (n : node) : FileInfo :=
  match n with
  | File c => mkFileInfo (List.last k ".") (length c) false
  | Directory => mkFileInfo (List.last k ".") 0 true
  end.

Definition is_child (parent k : list string) : bool :=
  match k with
  | [] => false
  | _ => bool_decide (removelast k = parent)
  end.

Definition children (parent : list string) (b : store) : list FileInfo :=
  omap (fun kn => if is_child parent (fst kn)
                  then Some (info_of (fst kn) (snd kn)) else None)
       (map_to_list b).

Definition readable (flag : Z) : bool :=
  has_flag flag O_RDWR || (flag =? O_RDONLY)%Z.
Definition writable (flag : Z) : bool :=
  has_flag flag O_RDWR || has_flag flag O_WRONLY.

Definition OpenFile (p : string) (flag : Z) : M ufile :=
  fun w =>
    let k := components p in
    let b := backend w in
    match k with
    | [] => (Err (Msg "cannot open directory"), w)
    | _ =>
        match b !! k with
        | None =>
            if has_flag flag O_CREATE then
              match mk_dirs (proper_prefixes k) b with
              | Err e => (Err e, w)
              | Ok b' => (Ok (mkUfile k 0 flag),
                          set_backend (<[k := File []]> b') w)
              end
            else (Err ErrNotExist, w)
        | Some Directory => (Err (Msg "cannot open directory"), w)
        | Some (File c) =>
            if has_flag flag O_CREATE && has_flag flag O_EXCL
            then (Err ErrExist, w)
            else
              let c' := if has_flag flag O_TRUNC then [] else c in
              let pos := if has_flag flag O_APPEND then length c' else 0 in
              (Ok (mkUfile k pos flag), set_backend (<[k := File c']> b) w)
        end
    end.

Definition Open (p : string) : M ufile := OpenFile p O_RDONLY.
Definition Create (p : string) : M ufile :=
  OpenFile p (Z.lor O_RDWR (Z.lor O_CREATE O_TRUNC)).

Definition content_of (u : ufile) (w : World) : result (list byte) :=
  match backend w !! u_key u with
  | Some (File c) => Ok c
  | _ => Err ErrNotExist
  end.

Definition set_pos (n : nat) (u : ufile) : ufile :=
  mkUfile (u_key u) n (u_flag u).

(** [File.Write]: the bytes go at the position of the handle, which
    advances; the number of bytes written is returned. *)
Definition Write (p : list byte) : St (ufile * World) nat :=
  fun s =>
    let (u, w) := s in
    if negb (writable (u_flag u)) then (Err (Msg "write not supported"), s)
    else
      match content_of u w with
      | Err e => (Err e, s)
      | Ok c =>
          let pos := u_pos u in
          let c' := firstn pos c ++ repeat x00 (pos - length c) ++ p
                    ++ skipn (pos + length p) c in
          (Ok (length p),
           (set_pos (pos + length p) u,
            set_backend (<[u_key u := File c']> (backend w)) w))
      end.

(** [io.ReadFull(u, buf)] with [len(buf) = n]: the bytes that are there
    are consumed also when they are too few. *)
Definition ReadFull (n : nat) : St (ufile * World) (list byte) :=
  fun s =>
    let (u, w) := s in
    if (n =? 0)%nat then (Ok [], s)
    else if negb (readable (u_flag u)) then (Err (Msg "read not supported"), s)
    else
      match content_of u w with
      | Err e => (Err e, s)
      | Ok c =>
          let rest := skipn (u_pos u) c in
          if (length rest =? 0)%nat then (Err EOF, s)
          else if (length rest <? n)%nat
          then (Err ErrUnexpectedEOF, (set_pos (u_pos u + length rest) u, w))
          else (Ok (firstn n rest), (set_pos (u_pos u + n) u, w))
      end.

(** [io.ReadAll(u)]. *)
Definition ReadAll : St (ufile * World) (list byte) :=
  fun s =>
    let (u, w) := s in
    if negb (readable (u_flag u)) then (Err (Msg "read not supported"), s)
    else
      match content_of u w with
      | Err e => (Err e, s)
      | Ok c =>
          let rest := skipn (u_pos u) c in
          (Ok rest, (set_pos (u_pos u + length rest) u, w))
      end.

(** [File.Seek(0, io.SeekStart)]. *)
Definition SeekStart0 : St (ufile * World) nat :=
  fun s => (Ok 0, (set_pos 0 (fst s), snd s)).

Definition Close : St (ufile * World) unit := ret tt.

Definition Stat (p : string) : M FileInfo :=
  fun w =>
    let k := components p in
    match k with
    | [] => (Ok (mkFileInfo "." 0 true), w)
    | _ =>
        match backend w !! k with
        | Some n => (Ok (info_of k n), w)
        | None => (Err ErrNotExist, w)
        end
    end.

Definition ReadDir (p : string) : M (list FileInfo) :=
  fun w =>
    let k := components p in
    let b := backend w in
    match k, b !! k with
    | [], _ | _, Some Directory => (Ok (children k b), w)
    | _, Some (File _) => (Err (Msg "not a directory"), w)
    | _, None => (Err ErrNotExist, w)
    end.

Definition MkdirAll (p : string) : M unit :=
  fun w =>
    let k := components p in
    match mk_dirs (proper_prefixes k ++ match k with [] => [] | _ => [k] end)
                  (backend w) with
    | Ok b' => (Ok tt, set_backend b' w)
    | Err e => (Err e, w)
    end.

(** Moving the subtree rooted at [from] below [to]. *)
Definition rekey (from to k : list string) : list string :=
  if bool_decide (firstn (length from) k = from)
  then to ++ skipn (length from) k else k.

Definition Rename (from to : string) : M unit :=
  fun w =>
    let kf := components from in
    let kt := components to in
    let b := backend w in
    match b !! kf with
    | None => (Err ErrNotExist, w)
    | Some (File c) =>
        match mk_dirs (proper_prefixes kt) (delete kf b) with
        | Ok b' => (Ok tt, set_backend (<[kt := File c]> b') w)
        | Err e => (Err e, w)
        end
    | Some Directory =>
        match mk_dirs (proper_prefixes kt) b with
        | Ok b' =>
            (Ok tt,
             set_backend
               (list_to_map
                  (List.map (fun kn => (rekey kf kt (fst kn), snd kn))
                     (map_to_list b'))) w)
        | Err e => (Err e, w)
        end
    end.

Definition Remove (p : string) : M unit :=
  fun w =>
    let k := components p in
    let b := backend w in
    match b !! k with
    | None => (Err ErrNotExist, w)
    | Some (File _) => (Ok tt, set_backend (delete k b) w)
    | Some Directory =>
        match children k b with
        | [] => (Ok tt, set_backend (delete k b) w)
        | _ => (Err (Msg "directory not empty"), w)
        end
    end.

End Backend.

(** ** crypto.go *)

Record GrainFS : Type := mkGrainFS {
  masterKey : list byte;
  filenameKey : list byte;
  rootPath : string
}.

(** [EncryptingWriter]; its [writer] is the handle of the file that owns it
    and its [gcm] is determined by the key. *)
Record EncryptingWriter : Type := mkEncryptingWriter {
  ew_key : list byte;
  ew_nonce : list byte;
  ew_buffer : list byte
}.

(** [DecryptingReader]; its [reader] is the handle of the file that owns it. *)
Record DecryptingReader : Type := mkDecryptingReader {
  dr_key : list byte;
  dr_nonce : list byte;
  dr_decrypted : list byte;
  dr_pos : nat;
  dr_initialized : bool
}.

Section Crypto.
Context `{Primitives}.

(** [aes.NewCipher] followed by [cipher.NewGCM] or [cipher.NewCTR]; only
    the key size can make it fail. *)
Definition aes_NewCipher {S} (key : list byte) : St S unit :=
  if aes_key_ok key then ret tt
  else fail (Wrap "failed to create cipher" (Msg "crypto/aes: invalid key size")).

Definition encryptData (key plaintext : list byte) : M (list byte) :=
  aes_NewCipher key ;;;
  nonce <- wrap "failed to generate nonce" (rand_Read NonceSize) ;;
  let ciphertext := gcm_Seal key nonce plaintext in
  ret (nonce ++ ciphertext).

Definition decryptData (key ciphertext : list byte) : result (list byte) :=
  if (length ciphertext <? NonceSize + TagSize)%nat
  then Err (Msg "ciphertext too short")
  else if negb (aes_key_ok key)
  then Err (Wrap "failed to create cipher" (Msg "crypto/aes: invalid key size"))
  else
    let nonce := firstn NonceSize ciphertext in
    let encrypted := skipn NonceSize ciphertext in
    match gcm_Open key nonce encrypted with
    | Some plaintext => Ok plaintext
    | None => Err (Wrap "failed to decrypt"
                     (Msg "cipher: message authentication failed"))
    end.

(** The deterministic token of a name: base64 of IV, CTR ciphertext, HMAC. *)
Definition obfuscateFilename (filenameKey : list byte) (filename : string)
    : result string :=
  if String.eqb filename "" then Err (Msg "filename cannot be empty")
  else
    let hash := sha256_Sum (filenameKey ++ bytes_of filename) in
    let iv := firstn aes_BlockSize hash in
    if negb (aes_key_ok filenameKey)
    then Err (Wrap "failed to create cipher" (Msg "crypto/aes: invalid key size"))
    else
      let plaintext := bytes_of filename in
      let ciphertext := ctr_XORKeyStream filenameKey iv plaintext in
      let mac := hmac_sha256 filenameKey (iv ++ ciphertext) in
      let combined := iv ++ ciphertext ++ mac in
      let encoded := EncodeToString combined in
      if (MaxFilenameLen <? String.length encoded)%nat
      then Err (Msg "obfuscated filename too long")
      else Ok encoded.

Definition NewEncryptingWriter (key : list byte)
    : St (ufile * World) EncryptingWriter :=
  aes_NewCipher key ;;;
  nonce <- wrap "failed to generate nonce" (on_world (rand_Read NonceSize)) ;;
  wrap "failed to write nonce" (Backend.Write nonce) ;;;
  ret (mkEncryptingWriter key nonce []).

(** [EncryptingWriter.Write]: the data is only buffered. *)
Definition EncryptingWriter_Write (p : list byte)
    : St (EncryptingWriter * World) nat :=
  modify (fun s => (mkEncryptingWriter (ew_key (fst s)) (ew_nonce (fst s))
                      (ew_buffer (fst s) ++ p), snd s)) ;;;
  ret (length p).

(** [EncryptingWriter.Close]: one sealed blob goes to the writer. *)
Definition EncryptingWriter_Close (ew : EncryptingWriter)
    : St (ufile * World) unit :=
  if (length (ew_buffer ew) =? 0)%nat then
    let encrypted := gcm_Seal (ew_key ew) (ew_nonce ew) [] in
    Backend.Write encrypted ;;; ret tt
  else
    let encrypted := gcm_Seal (ew_key ew) (ew_nonce ew) (ew_buffer ew) in
    Backend.Write encrypted ;;; ret tt.

Definition NewDecryptingReader {S} (key : list byte) : St S DecryptingReader :=
  aes_NewCipher key ;;;
  ret (mkDecryptingReader key [] [] 0 false).

Definition set_nonce (n : list byte) (dr : DecryptingReader) :=
  mkDecryptingReader (dr_key dr) n (dr_decrypted dr) (dr_pos dr) (dr_initialized dr).
Definition set_decrypted (d : list byte) (dr : DecryptingReader) :=
  mkDecryptingReader (dr_key dr) (dr_nonce dr) d (dr_pos dr) (dr_initialized dr).
Definition set_dr_pos (p : nat) (dr : DecryptingReader) :=
  mkDecryptingReader (dr_key dr) (dr_nonce dr) (dr_decrypted dr) p (dr_initialized dr).
Definition set_initialized (b : bool) (dr : DecryptingReader) :=
  mkDecryptingReader (dr_key dr) (dr_nonce dr) (dr_decrypted dr) (dr_pos dr) b.

(** The state of a reader's methods: the reader, and the handle it reads
    from together with the world. *)
Definition on_reader {A} (m : St (ufile * World) A)
    : St (DecryptingReader * (ufile * World)) A :=
  fun s => let (r, s') := m (snd s) in (r, (fst s, s')).

Definition modify_reader (f : DecryptingReader -> DecryptingReader)
    : St (DecryptingReader * (ufile * World)) unit :=
  modify (fun s => (f (fst s), snd s)).

(** [DecryptingReader.initialize]: nonce, then everything else, decrypted
    in one piece. *)
Definition DecryptingReader_initialize
    : St (DecryptingReader * (ufile * World)) unit :=
  r <- attempt (on_reader (Backend.ReadFull NonceSize)) ;;
  match r with
  | Err e =>
      modify_reader (set_nonce (repeat x00 NonceSize)) ;;;
      fail (Wrap "failed to read nonce" e)
  | Ok nonce =>
      modify_reader (set_nonce nonce) ;;;
      encrypted <- wrap "failed to read encrypted data"
                     (on_reader Backend.ReadAll) ;;
      dr <- get ;;
      match gcm_Open (dr_key (fst dr)) nonce encrypted with
      | None =>
          modify_reader (set_decrypted []) ;;;
          fail (Wrap "failed to decrypt data"
                  (Msg "cipher: message authentication failed"))
      | Some d => modify_reader (set_decrypted d)
      end
  end.

(** [DecryptingReader.Read] into a buffer of [n] bytes; [Err EOF] is
    [(0, io.EOF)]. *)
Definition DecryptingReader_Read (n : nat)
    : St (DecryptingReader * (ufile * World)) (list byte) :=
  s <- get ;;
  (if negb (dr_initialized (fst s)) then
     DecryptingReader_initialize ;;;
     modify_reader (set_initialized true)
   else ret tt) ;;;
  s <- get ;;
  let dr := fst s in
  let available := length (dr_decrypted dr) - dr_pos dr in
  if (available =? 0)%nat then fail EOF
  else
    let n' := if (available <? n)%nat then available else n in
    modify_reader (set_dr_pos (dr_pos dr + n')) ;;;
    ret (firstn n' (skipn (dr_pos dr) (dr_decrypted dr))).

End Crypto.

(** Run a computation on a handle that the caller drops afterwards
    ([defer file.Close()]). *)
Definition with_file {A} (u : ufile) (m : St (ufile * World) A) : M A :=
  fun w => let (r, s') := m (u, w) in (r, snd s').

(** ** config.go *)

Section ConfigGo.
Context `{Primitives}.

Definition saveConfig (config : Config) : M unit :=
  wrap "failed to create .grainfs directory" (Backend.MkdirAll GrainFSDir) ;;;
  let configPath := Join [GrainFSDir; ConfigFile] in
  file <- wrap "failed to create config file" (Backend.Create configPath) ;;
  wrap "failed to encode config"
    (with_file file (Backend.Write (json_Encode config))) ;;;
  ret tt.

Definition initializeConfig : M unit :=
  salt <- wrap "failed to generate salt" (rand_Read SaltSize) ;;
  saveConfig (mkConfig salt DefaultIterations ConfigVersion).

(** [loadConfig] calls itself once the configuration has been written;
    [fuel] bounds that recursion. *)
Fixpoint loadConfig (fuel : nat) : M Config :=
  match fuel with
  | 0 => fail OutOfFuel
  | S fuel' =>
      let configPath := Join [GrainFSDir; ConfigFile] in
      r <- attempt (Backend.Open configPath) ;;
      match r with
      | Err e =>
          if IsNotExist e then
            wrap "failed to initialize config" initializeConfig ;;;
            loadConfig fuel'
          else fail (Wrap "failed to open config file" e)
      | Ok file =>
          r <- attempt (with_file file Backend.ReadAll) ;;
          match r with
          | Err e => fail (Wrap "failed to decode config" e)
          | Ok data =>
              match json_Decode data with
              | None => fail (Wrap "failed to decode config" (Msg "json: syntax error"))
              | Some config =>
                  if negb (length (Salt config) =? SaltSize)%nat
                  then fail (Msg "invalid salt size")
                  else if (Iterations config <=? 0)%Z
                  then fail (Msg "invalid iterations")
                  else ret config
              end
          end
      end
  end.

Definition deriveKeys (password : string) (salt : list byte) (iterations : Z)
    : list byte * list byte :=
  let masterKey := pbkdf2_Key (bytes_of password) salt iterations KeySize in
  let filenameSalt := salt ++ bytes_of "filename" in
  let filenameKey := pbkdf2_Key masterKey filenameSalt iterations FilenameKeySize in
  (masterKey, filenameKey).

End ConfigGo.

(** ** filemap.go *)

Module Fs.

Definition cache_lookup (dir : string) : M (option FilenameMap) :=
  fun w => (Ok (cache w !! dir), w).

Definition cache_store (dir : string) (fm : FilenameMap) : M unit :=
  modify (fun w => set_cache (<[dir := fm]> (cache w)) w).

(** [GrainFSDir] itself or a path below it. *)
Definition is_sidecar (name : string) : bool :=
  String.eqb name GrainFSDir || HasPrefix name (GrainFSDir +:+ "/").

(** The methods below call [getObfuscatedPath], which calls them back on
    shorter directories.  They are written here over the translation
    [gop] of the level below; [getObfuscatedPath] ties the knot. *)
Section Level.
Context `{Primitives}.
Variable fs : GrainFS.
Variable gop : string -> M string.

(** config.go: [ensureGrainFSDir]. *)
Definition ensureGrainFSDir_at (dir : string) : M unit :=
  obfuscatedDir <- wrap "failed to get obfuscated directory path" (gop dir) ;;
  let grainfsPath := Join [obfuscatedDir; GrainFSDir] in
  Backend.MkdirAll grainfsPath.

Definition loadFilemap_at (dir : string) : M FilenameMap :=
  c <- cache_lookup dir ;;
  match c with
  | Some cached => ret cached
  | None =>
      obfuscatedDir <- wrap "failed to get obfuscated directory path" (gop dir) ;;
      let filemapPath := Join [obfuscatedDir; GrainFSDir; FilemapFile] in
      r <- attempt (Backend.Open filemapPath) ;;
      match r with
      | Err e =>
          if IsNotExist e then
            cache_store dir ∅ ;;; ret ∅
          else fail (Wrap "failed to open filemap" e)
      | Ok file =>
          encryptedData <- wrap "failed to read filemap"
                             (with_file file Backend.ReadAll) ;;
          decryptedData <- wrap "failed to decrypt filemap"
                             (lift (decryptData (masterKey fs) encryptedData)) ;;
          match json_Unmarshal decryptedData with
          | None => fail (Wrap "failed to unmarshal filemap"
                            (Msg "json: syntax error"))
          | Some filemap => cache_store dir filemap ;;; ret filemap
          end
      end
  end.

Definition saveFilemap_at (dir : string) (filemap : FilenameMap) : M unit :=
  let jsonData := json_Marshal filemap in
  encryptedData <- wrap "failed to encrypt filemap"
                     (encryptData (masterKey fs) jsonData) ;;
  obfuscatedDir <- wrap "failed to get obfuscated directory path" (gop dir) ;;
  let filemapPath := Join [obfuscatedDir; GrainFSDir; FilemapFile] in
  file <- wrap "failed to create filemap file" (Backend.Create filemapPath) ;;
  wrap "failed to write filemap"
    (with_file file (Backend.Write encryptedData)) ;;;
  cache_store dir filemap.

(** The map that [loadFilemap] returns is the object held by the cache,
    so the assignment [filemap[obfuscated] = original] is seen through
    the cache before [saveFilemap] runs. *)
Definition updateFilemap_at (dir original obfuscated : string) : M unit :=
  wrap "failed to ensure .grainfs directory" (ensureGrainFSDir_at dir) ;;;
  r <- attempt (loadFilemap_at dir) ;;
  match r with
  | Ok filemap =>
      let filemap' := <[obfuscated := original]> filemap in
      cache_store dir filemap' ;;;
      saveFilemap_at dir filemap'
  | Err e =>
      if IsNotExist e then
        saveFilemap_at dir (<[obfuscated := original]> ∅)
      else fail (Wrap "failed to load existing filemap" e)
  end.

Definition removeFromFilemap_at (dir obfuscated : string) : M unit :=
  r <- attempt (loadFilemap_at dir) ;;
  match r with
  | Ok filemap =>
      let filemap' := delete obfuscated filemap in
      cache_store dir filemap' ;;;
      saveFilemap_at dir filemap'
  | Err e =>
      if IsNotExist e then ret tt
      else fail (Wrap "failed to load filemap" e)
  end.

(** The collision loop of [obfuscateFilename]: [Ok (name, true)] is the
    [return] inside the loop (the name is already mapped to this
    original), [Ok (name, false)] is the [break] (the name is free).
    [fuel] bounds the number of candidates tried. *)
Fixpoint obfuscate_loop (fuel : nat) (dir filename obfuscated : string)
    (finalObfuscated : string) (counter : nat) : M (string * bool) :=
  match fuel with
  | 0 => fail OutOfFuel
  | S fuel' =>
      filemap <- wrap "failed to load filemap" (loadFilemap_at dir) ;;
      match filemap !! finalObfuscated with
      | Some existingOriginal =>
          if String.eqb existingOriginal filename
          then ret (finalObfuscated, true)
          else obfuscate_loop fuel' dir filename obfuscated
                 (Sprintf_s_d obfuscated counter) (S counter)
      | None => ret (finalObfuscated, false)
      end
  end.

Definition obfuscateFilename_at (fuel : nat) (dir filename : string)
    : M string :=
  if String.eqb filename "" then fail (Msg "filename cannot be empty")
  else if is_sidecar filename then ret filename
  else
    obfuscated <- wrap "failed to obfuscate filename"
                    (lift (obfuscateFilename (filenameKey fs) filename)) ;;
    r <- obfuscate_loop fuel dir filename obfuscated obfuscated 1 ;;
    if snd r then ret (fst r)
    else
      wrap "failed to update filemap"
        (updateFilemap_at dir filename (fst r)) ;;;
      ret (fst r).

Definition deobfuscateFilename_at (dir obfuscated : string) : M string :=
  if String.eqb obfuscated "" then fail (Msg "obfuscated filename cannot be empty")
  else if is_sidecar obfuscated then ret obfuscated
  else
    filemap <- wrap "failed to load filemap" (loadFilemap_at dir) ;;
    match filemap !! obfuscated with
    | Some original => ret original
    | None => fail (Msg "obfuscated filename not found in filemap")
    end.

(** The loop of [getObfuscatedPath] over the components. *)
Fixpoint gop_loop (fuel : nat) (parts : list string) (currentDir : string)
    (obfuscatedParts : list string) : M (list string) :=
  match parts with
  | [] => ret obfuscatedParts
  | part :: rest =>
      if String.eqb part "" || String.eqb part "."
      then gop_loop fuel rest currentDir obfuscatedParts
      else
        obfuscatedPart <- wrap "failed to obfuscate path component"
                            (obfuscateFilename_at fuel currentDir part) ;;
        gop_loop fuel rest (Join [currentDir; obfuscatedPart])
          (obfuscatedParts ++ [obfuscatedPart])
  end.

Definition getObfuscatedPath_at (fuel : nat) (userPath : string) : M string :=
  if String.eqb userPath "" || String.eqb userPath "." then ret "."
  else
    let userPath := Clean userPath in
    let parts := Split userPath in
    obfuscatedParts <- gop_loop fuel parts "." [] ;;
    match obfuscatedParts with
    | [] => ret "."
    | _ => ret (Join obfuscatedParts)
    end.

End Level.

Section Methods.
Context `{Primitives}.
Variable fs : GrainFS.

(** [fuel] bounds the depth of the directory whose filemaps are
    consulted and the number of candidates of the collision loop. *)
Fixpoint getObfuscatedPath (fuel : nat) (userPath : string) : M string :=
  match fuel with
  | 0 =>
      if String.eqb userPath "" || String.eqb userPath "." then ret "."
      else fail OutOfFuel
  | S fuel' => getObfuscatedPath_at fs (getObfuscatedPath fuel') fuel userPath
  end.

Definition loadFilemap (fuel : nat) : string -> M FilenameMap :=
  loadFilemap_at fs (getObfuscatedPath fuel).
Definition saveFilemap (fuel : nat) : string -> FilenameMap -> M unit :=
  saveFilemap_at fs (getObfuscatedPath fuel).
Definition ensureGrainFSDir (fuel : nat) : string -> M unit :=
  ensureGrainFSDir_at (getObfuscatedPath fuel).
Definition updateFilemap (fuel : nat) : string -> string -> string -> M unit :=
  updateFilemap_at fs (getObfuscatedPath fuel).
Definition removeFromFilemap (fuel : nat) : string -> string -> M unit :=
  removeFromFilemap_at fs (getObfuscatedPath fuel).
Definition obfuscateFilename (fuel : nat) : string -> string -> M string :=
  obfuscateFilename_at fs (getObfuscatedPath fuel) fuel.
Definition deobfuscateFilename (fuel : nat) : string -> string -> M string :=
  deobfuscateFilename_at fs (getObfuscatedPath fuel).

End Methods.

End Fs.

(** ** file.go *)

Record EncryptedFile : Type := mkEncryptedFile {
  underlying : ufile;
  fs_of : GrainFS;
  filename : string;
  obfuscated : string;
  flag : Z;
  isWriteMode : bool;
  isTempFile : bool;
  decryptingReader : option DecryptingReader;
  readInitialized : bool;
  encryptingWriter : option EncryptingWriter;
  closed : bool
}.

Definition set_underlying (u : ufile) (f : EncryptedFile) : EncryptedFile :=
  mkEncryptedFile u (fs_of f) (filename f) (obfuscated f) (flag f)
    (isWriteMode f) (isTempFile f) (decryptingReader f) (readInitialized f)
    (encryptingWriter f) (closed f).
Definition set_decryptingReader (r : option DecryptingReader) (f : EncryptedFile)
    : EncryptedFile :=
  mkEncryptedFile (underlying f) (fs_of f) (filename f) (obfuscated f) (flag f)
    (isWriteMode f) (isTempFile f) r (readInitialized f)
    (encryptingWriter f) (closed f).
Definition set_readInitialized (b : bool) (f : EncryptedFile) : EncryptedFile :=
  mkEncryptedFile (underlying f) (fs_of f) (filename f) (obfuscated f) (flag f)
    (isWriteMode f) (isTempFile f) (decryptingReader f) b
    (encryptingWriter f) (closed f).
Definition set_encryptingWriter (e : option EncryptingWriter) (f : EncryptedFile)
    : EncryptedFile :=
  mkEncryptedFile (underlying f) (fs_of f) (filename f) (obfuscated f) (flag f)
    (isWriteMode f) (isTempFile f) (decryptingReader f) (readInitialized f)
    e (closed f).
Definition set_closed (b : bool) (f : EncryptedFile) : EncryptedFile :=
  mkEncryptedFile (underlying f) (fs_of f) (filename f) (obfuscated f) (flag f)
    (isWriteMode f) (isTempFile f) (decryptingReader f) (readInitialized f)
    (encryptingWriter f) b.

(** [err == io.EOF]: identity with the sentinel, not [errors.Is]. *)
Definition is_EOF (e : error) : bool :=
  match e with
  | EOF => true
  | _ => false
  end.

Module Handle.
Section Methods.
Context `{Primitives}.

Abbreviation FileM := (St (EncryptedFile * World)).

Definition modify_file (g : EncryptedFile -> EncryptedFile) : FileM unit :=
  modify (fun s => (g (fst s), snd s)).

Definition on_underlying {A} (m : St (ufile * World) A) : FileM A :=
  zoom underlying set_underlying m.

(** Calling a method of [f.decryptingReader]. *)
Definition on_decryptingReader {A}
    (m : St (DecryptingReader * (ufile * World)) A) : FileM A :=
  fun s =>
    match decryptingReader (fst s) with
    | None => (Err (Msg "panic: nil pointer dereference"), s)
    | Some dr =>
        let (r, s') := m (dr, (underlying (fst s), snd s)) in
        (r, (set_decryptingReader (Some (fst s'))
               (set_underlying (fst (snd s')) (fst s)),
             snd (snd s')))
    end.

Definition initializeReader : FileM unit :=
  wrap "failed to seek to beginning" (on_underlying Backend.SeekStart0) ;;;
  s <- get ;;
  r <- attempt (NewDecryptingReader (masterKey (fs_of (fst s)))) ;;
  match r with
  | Err e =>
      modify_file (set_decryptingReader None) ;;;
      fail (Wrap "failed to create decrypting reader" e)
  | Ok dr =>
      modify_file (set_decryptingReader (Some dr)) ;;;
      r <- attempt (on_decryptingReader (DecryptingReader_Read 1)) ;;
      match r with
      | Err e =>
          if is_EOF e then on_decryptingReader (modify_reader (set_dr_pos 0))
          else fail (Wrap "failed to initialize decrypting reader" e)
      | Ok _ => on_decryptingReader (modify_reader (set_dr_pos 0))
      end
  end.

Definition ensure_reader : FileM unit :=
  s <- get ;;
  if negb (readInitialized (fst s)) then
    wrap "failed to initialize reader" initializeReader ;;;
    modify_file (set_readInitialized true)
  else ret tt.

(** [Read] into a buffer of [n] bytes: the bytes copied, or the error
    returned with [n = 0]. *)
Definition Read (n : nat) : FileM (list byte) :=
  s <- get ;;
  if closed (fst s) then fail ErrClosed
  else if isWriteMode (fst s) then fail (Msg "file opened for writing")
  else
    ensure_reader ;;;
    on_decryptingReader (DecryptingReader_Read n).

(** [ReadAt] into a buffer of [n] bytes at offset [off]: the bytes
    copied and whether [io.EOF] comes with them; [Err] is an error
    returned with [n = 0]. *)
Definition ReadAt (n : nat) (off : Z) : FileM (list byte * bool) :=
  s <- get ;;
  if closed (fst s) then fail ErrClosed
  else if isWriteMode (fst s) then fail (Msg "file opened for writing")
  else
    ensure_reader ;;;
    if (off <? 0)%Z then fail (Msg "negative offset")
    else
      s <- get ;;
      match decryptingReader (fst s) with
      | None => fail (Msg "decrypting reader not initialized")
      | Some dr =>
          if negb (dr_initialized dr)
          then fail (Msg "decrypting reader data not available")
          else if (Z.of_nat (length (dr_decrypted dr)) <=? off)%Z
          then fail EOF
          else
            let available := length (dr_decrypted dr) - Z.to_nat off in
            let n' := if (available <? n)%nat then available else n in
            ret (firstn n' (skipn (Z.to_nat off) (dr_decrypted dr)),
                 (available <? n)%nat)
      end.

Definition Write (p : list byte) : FileM nat :=
  s <- get ;;
  if closed (fst s) then fail ErrClosed
  else if negb (isWriteMode (fst s)) then fail (Msg "file not opened for writing")
  else
    (match encryptingWriter (fst s) with
     | Some _ => ret tt
     | None =>
         r <- attempt (on_underlying
                         (NewEncryptingWriter (masterKey (fs_of (fst s))))) ;;
         match r with
         | Err e => fail (Wrap "failed to initialize encrypting writer" e)
         | Ok ew => modify_file (set_encryptingWriter (Some ew))
         end
     end) ;;;
    s <- get ;;
    match encryptingWriter (fst s) with
    | None => fail (Msg "panic: nil pointer dereference")
    | Some ew =>
        modify_file (set_encryptingWriter
                       (Some (mkEncryptingWriter (ew_key ew) (ew_nonce ew)
                                (ew_buffer ew ++ p)))) ;;;
        ret (length p)
    end.

(** [Close]: the sealed blob is written only if a writer exists. *)
Definition Close : FileM unit :=
  s <- get ;;
  if closed (fst s) then ret tt
  else
    r1 <- match encryptingWriter (fst s) with
          | Some ew => attempt (on_underlying (EncryptingWriter_Close ew))
          | None => ret (Ok tt)
          end ;;
    r2 <- attempt (on_underlying Backend.Close) ;;
    modify_file (set_closed true) ;;;
    match r1, r2 with
    | Err e, _ => fail (Wrap "failed to finalize encryption" e)
    | Ok _, Err e => fail e
    | Ok _, Ok _ => ret tt
    end.

(** [Seek(offset, whence)] with [whence = io.SeekStart] iff [start]. *)
Definition Seek (offset : Z) (start : bool) : FileM nat :=
  s <- get ;;
  if closed (fst s) then fail ErrClosed
  else if isWriteMode (fst s) then
    match encryptingWriter (fst s) with
    | Some _ => fail (Msg "seeking not supported after writing to encrypted file")
    | None =>
        if (offset =? 0)%Z && start then on_underlying Backend.SeekStart0
        else fail (Msg "seeking not supported in write mode for encrypted files")
    end
  else if (offset =? 0)%Z && start then
    modify_file (set_readInitialized false) ;;;
    modify_file (set_decryptingReader None) ;;;
    on_underlying Backend.SeekStart0
  else fail (Msg "seeking not fully supported for encrypted files").

(** [io.ReadAll] on the handle: [Read] is called until it reports an
    error, and [io.EOF] ends the loop without error.  [sizes] lists the
    free space of the buffer at each call (512 bytes at first, then
    whatever [append] makes room for); the loop gives up when the list
    is used up. *)
Fixpoint ReadAll (sizes : list nat) (acc : list byte) : FileM (list byte) :=
  match sizes with
  | [] => fail OutOfFuel
  | bufsize :: sizes' =>
      r <- attempt (Read bufsize) ;;
      match r with
      | Ok chunk => ReadAll sizes' (acc ++ chunk)
      | Err e => if is_EOF e then ret acc else fail e
      end
  end.

End Methods.
End Handle.

(** ** grainfs.go *)

(** [FileInfoWrapper]: the backend's [FileInfo] under the original name. *)
Record FileInfoWrapper : Type := mkFileInfoWrapper {
  wrapped : FileInfo;
  originalName : string
}.

Module Facade.
Section Methods.
Context `{Primitives}.

(** [New]: the configuration is loaded (or made), the keys derived, and
    the filemap manager starts with an empty cache. *)
Definition New (fuel : nat) (password : string) : M GrainFS :=
  if String.eqb password "" then fail (Msg "password cannot be empty")
  else
    config <- wrap "failed to load config" (loadConfig fuel) ;;
    let keys := deriveKeys password (Salt config) (Iterations config) in
    modify (set_cache ∅) ;;;
    ret (mkGrainFS (fst keys) (snd keys) ".").

Variable fs : GrainFS.
Variable fuel : nat.

(** [dir := filepath.Dir(p); if dir == p { dir = "." }]. *)
Definition dir_of (p : string) : string :=
  let dir := Dir p in
  if String.eqb dir p then "." else dir.

Fixpoint mkdirAll_loop (parts : list string) (currentPath : string) : M unit :=
  match parts with
  | [] => ret tt
  | part :: rest =>
      if String.eqb part "" || String.eqb part "."
      then mkdirAll_loop rest currentPath
      else
        let currentPath :=
          if String.eqb currentPath "" then part
          else Join [currentPath; part] in
        obfuscatedPath <- wrap "failed to get obfuscated path"
                            (Fs.getObfuscatedPath fs fuel currentPath) ;;
        wrap "failed to create directory" (Backend.MkdirAll obfuscatedPath) ;;;
        wrap "failed to ensure .grainfs directory"
          (Fs.ensureGrainFSDir fs fuel currentPath) ;;;
        mkdirAll_loop rest currentPath
  end.

Definition mkdirAllInternal (path : string) : M unit :=
  if String.eqb path "" || String.eqb path "." then ret tt
  else mkdirAll_loop (Split (Clean path)) "".

Definition MkdirAll (path : string) : M unit := mkdirAllInternal path.

Definition openFileInternal (filename : string) (flag : Z) : M EncryptedFile :=
  if String.eqb filename "" then fail (Msg "filename cannot be empty")
  else
    let isCreating := has_flag flag O_CREATE in
    obfuscatedPath <-
      (if isCreating then
         let dir := dir_of filename in
         let basename := Base filename in
         (if negb (String.eqb dir ".")
          then wrap "failed to create directory" (mkdirAllInternal dir)
          else ret tt) ;;;
         obfuscatedDir <- wrap "failed to get obfuscated directory path"
                            (Fs.getObfuscatedPath fs fuel dir) ;;
         obfuscatedBasename <- wrap "failed to obfuscate filename"
                                 (Fs.obfuscateFilename fs fuel dir basename) ;;
         ret (Join [obfuscatedDir; obfuscatedBasename])
       else
         wrap "failed to get obfuscated path"
           (Fs.getObfuscatedPath fs fuel filename)) ;;
    underlyingFile <- Backend.OpenFile obfuscatedPath flag ;;
    ret (mkEncryptedFile underlyingFile fs filename obfuscatedPath flag
           (has_flag flag O_WRONLY || has_flag flag O_RDWR)
           false None false None false).

Definition OpenFile (filename : string) (flag : Z) : M EncryptedFile :=
  openFileInternal filename flag.

Definition Create (filename : string) : M EncryptedFile :=
  OpenFile filename (Z.lor O_RDWR (Z.lor O_CREATE O_TRUNC)).

Definition Open (filename : string) : M EncryptedFile :=
  OpenFile filename O_RDONLY.

Definition Stat (filename : string) : M FileInfoWrapper :=
  obfuscatedPath <- wrap "failed to get obfuscated path"
                      (Fs.getObfuscatedPath fs fuel filename) ;;
  info <- Backend.Stat obfuscatedPath ;;
  ret (mkFileInfoWrapper info (Base filename)).

Definition Rename (oldpath newpath : string) : M unit :=
  if String.eqb oldpath "" || String.eqb newpath ""
  then fail (Msg "paths cannot be empty")
  else
    oldObfuscated <- wrap "failed to get old obfuscated path"
                       (Fs.getObfuscatedPath fs fuel oldpath) ;;
    let newDir := dir_of newpath in
    let newBaseName := Base newpath in
    newObfuscated <- wrap "failed to obfuscate new filename"
                       (Fs.obfuscateFilename fs fuel newDir newBaseName) ;;
    newObfuscatedDir <- wrap "failed to get new obfuscated directory"
                          (Fs.getObfuscatedPath fs fuel newDir) ;;
    let newObfuscatedPath := Join [newObfuscatedDir; newObfuscated] in
    Backend.Rename oldObfuscated newObfuscatedPath ;;;
    let oldDir := dir_of oldpath in
    let oldObfuscatedBase := Base oldObfuscated in
    r <- attempt (Fs.removeFromFilemap fs fuel oldDir oldObfuscatedBase) ;;
    match r with
    | Err e =>
        attempt (Backend.Rename newObfuscatedPath oldObfuscated) ;;;
        fail (Wrap "failed to update old filemap" e)
    | Ok _ => ret tt
    end.

Definition Remove (filename : string) : M unit :=
  if String.eqb filename "" then fail (Msg "filename cannot be empty")
  else
    obfuscatedPath <- wrap "failed to get obfuscated path"
                        (Fs.getObfuscatedPath fs fuel filename) ;;
    Backend.Remove obfuscatedPath ;;;
    let dir := dir_of filename in
    let obfuscatedBase := Base obfuscatedPath in
    Fs.removeFromFilemap fs fuel dir obfuscatedBase.

(** The loop of [ReadDir] over the entries of the backend directory. *)
Fixpoint readDir_loop (path : string) (infos : list FileInfo)
    : M (list FileInfoWrapper) :=
  match infos with
  | [] => ret []
  | info :: rest =>
      if String.eqb (fi_name info) GrainFSDir then readDir_loop path rest
      else
        r <- attempt (Fs.deobfuscateFilename fs fuel path (fi_name info)) ;;
        match r with
        | Err _ => readDir_loop path rest
        | Ok originalName =>
            result <- readDir_loop path rest ;;
            ret (mkFileInfoWrapper info originalName :: result)
        end
  end.

Definition ReadDir (path : string) : M (list FileInfoWrapper) :=
  let path := if String.eqb path "" then "." else path in
  obfuscatedPath <- wrap "failed to get obfuscated path"
                      (Fs.getObfuscatedPath fs fuel path) ;;
  infos <- Backend.ReadDir obfuscatedPath ;;
  readDir_loop path infos.

End Methods.
End Facade.

(** * A reference instance of the primitives

    The laws of [Primitives] are satisfiable: this instance replaces every
    primitive by a simple function with the same interface.  It is used to
    run the model on concrete inputs. *)

Module Ref.

Definition byte_not (b : byte) : byte :=
  match Byte.of_N (255 - Byte.to_N b) with
  | Some c => c
  | None => b
  end.

Definition pad_to (n : nat) (l : list byte) : list byte :=
  firstn n (l ++ repeat x00 n).

Fixpoint bytes_eqb (a b : list byte) : bool :=
  match a, b with
  | [], [] => true
  | x :: a', y :: b' => Byte.eqb x y && bytes_eqb a' b'
  | _, _ => false
  end.

Definition tag_of (k n : list byte) : list byte := pad_to TagSize (k ++ n).

Definition seal (k n p : list byte) : list byte := p ++ tag_of k n.

Definition open (k n c : list byte) : option (list byte) :=
  let m := length c - TagSize in
  if (TagSize <=? length c)%nat && bytes_eqb (skipn m c) (tag_of k n)
  then Some (firstn m c) else None.

Fixpoint pos_to_bytes (p : positive) : list byte :=
  match p with
  | xH => []
  | xO q => x00 :: pos_to_bytes q
  | xI q => x01 :: pos_to_bytes q
  end.

Fixpoint bytes_to_pos (l : list byte) : option positive :=
  match l with
  | [] => Some xH
  | b :: r =>
      match bytes_to_pos r with
      | None => None
      | Some q =>
          if Byte.eqb b x00 then Some (xO q)
          else if Byte.eqb b x01 then Some (xI q)
          else None
      end
  end.

Definition marshal (m : FilenameMap) : list byte := pos_to_bytes (encode m).
Definition unmarshal (l : list byte) : option FilenameMap :=
  match bytes_to_pos l with
  | Some p => decode p
  | None => None
  end.

Definition config_tuple (c : Config) : string * Z * string :=
  (string_of (Salt c), Iterations c, Version c).
Definition encode_config (c : Config) : list byte :=
  pos_to_bytes (encode (config_tuple c)).
Definition decode_config (l : list byte) : option Config :=
  match bytes_to_pos l with
  | Some p =>
      match decode p with
      | Some (s, i, v) => Some (mkConfig (bytes_of s) i v)
      | None => None
      end
  | None => None
  end.

Lemma length_pad_to n l : length (pad_to n l) = n.
Proof.
  unfold pad_to. rewrite length_firstn, length_app, repeat_length. lia.
Qed.

Lemma byte_not_involutive b : byte_not (byte_not b) = b.
Proof. destruct b; reflexivity. Qed.

Lemma bytes_to_pos_to_bytes p : bytes_to_pos (pos_to_bytes p) = Some p.
Proof. induction p as [q IH|q IH|]; simpl; rewrite ?IH; reflexivity. Qed.

Lemma bytes_eqb_refl a : bytes_eqb a a = true.
Proof.
  induction a as [|x a IH]; simpl; [reflexivity|].
  rewrite IH, (byte_dec_lb (eq_refl x)). reflexivity.
Qed.

Lemma open_seal k n p : open k n (seal k n p) = Some p.
Proof.
  unfold open, seal.
  assert (Hl : length (tag_of k n) = TagSize) by apply length_pad_to.
  rewrite length_app, Hl.
  replace (length p + TagSize - TagSize) with (length p) by lia.
  replace (TagSize <=? length p + TagSize)%nat with true
    by (symmetry; apply Nat.leb_le; lia).
  rewrite skipn_app, skipn_all, Nat.sub_diag. simpl.
  rewrite bytes_eqb_refl.
  rewrite firstn_app, firstn_all, Nat.sub_diag. simpl.
  by rewrite app_nil_r.
Qed.

Definition prims : Primitives.
Proof.
  refine {|
    sha256_Sum := pad_to 32;
    hmac_sha256 := fun k x => pad_to 32 (x ++ k);
    ctr_XORKeyStream := fun _ _ x => List.map byte_not x;
    gcm_Seal := seal;
    gcm_Open := open;
    pbkdf2_Key := fun pw salt _ n => pad_to n (pw ++ salt);
    json_Marshal := marshal;
    json_Unmarshal := unmarshal;
    json_Encode := encode_config;
    json_Decode := decode_config
  |}.
  - intros x. apply length_pad_to.
  - intros k x. apply length_pad_to.
  - intros k iv x. apply length_map.
  - intros k iv x _ _. rewrite List.map_map.
    rewrite <- (List.map_id x) at 2. apply List.map_ext.
    intros b. apply byte_not_involutive.
  - intros k n p. unfold seal. rewrite length_app.
    f_equal. apply length_pad_to.
  - intros k n p _ _. apply open_seal.
  - intros pw salt it n. apply length_pad_to.
  - intros m _. unfold unmarshal, marshal.
    rewrite bytes_to_pos_to_bytes. apply decode_encode.
  - intros [s i v]. unfold decode_config, encode_config, config_tuple.
    rewrite bytes_to_pos_to_bytes, decode_encode. simpl.
    unfold bytes_of, string_of.
    by rewrite list_byte_of_string_of_list_byte.
Defined.

End Ref.

(** * Properties *)

(** ** Lists, strings and base64 *)

Lemma list_ind3 {A} (P : list A -> Prop) :
  P [] -> (forall a, P [a]) -> (forall a b, P [a; b]) ->
  (forall a b c l, P l -> P (a :: b :: c :: l)) ->
  forall l, P l.
Proof.
  intros H0 H1 H2 H3.
  fix IH 1. intros [|a [|b [|c l]]].
  - exact H0.
  - apply H1.
  - apply H2.
  - apply H3, IH.
Qed.

Lemma length_bytes_of (s : string) : length (bytes_of s) = String.length s.
Proof.
  unfold bytes_of, list_byte_of_string.
  rewrite length_map. induction s as [|c s IH]; simpl; congruence.
Qed.

Lemma bytes_of_inj (s1 s2 : string) : bytes_of s1 = bytes_of s2 -> s1 = s2.
Proof.
  intros Heq. rewrite <- (string_of_list_byte_of_string s1).
  rewrite <- (string_of_list_byte_of_string s2).
  unfold bytes_of in Heq. congruence.
Qed.

Lemma EncodeToString_length (l : list byte) :
  String.length (EncodeToString l) = 4 * ((length l + 2) / 3).
Proof.
  induction l as [|a|a b|a b c l IH] using list_ind3; try reflexivity.
  cbn [EncodeToString String.length length]. rewrite IH.
  replace (S (S (S (length l))) + 2) with ((length l + 2) + 1 * 3) by lia.
  rewrite Nat.div_add by lia. lia.
Qed.

(** Every character of the alphabet, and the padding, differs from the
    separator and from the dot. *)
Definition plain_char (c : ascii) : bool :=
  negb (Ascii.eqb c slash) && negb (Ascii.eqb c "."%char).

Fixpoint plain_string (s : string) : bool :=
  match s with
  | EmptyString => true
  | String c r => plain_char c && plain_string r
  end.

Lemma b64_char_plain (i : N) : plain_char (b64_char i) = true.
Proof.
  unfold b64_char.
  assert (Hall : forallb plain_char (list_ascii_of_string encodeURL) = true)
    by reflexivity.
  rewrite forallb_forall in Hall.
  destruct (nth_in_or_default (N.to_nat i) (list_ascii_of_string encodeURL)
              "="%char) as [Hin|Hd].
  - apply Hall, Hin.
  - rewrite Hd. reflexivity.
Qed.

Lemma EncodeToString_plain (l : list byte) :
  plain_string (EncodeToString l) = true.
Proof.
  induction l as [|a|a b|a b c l IH] using list_ind3;
    cbn [EncodeToString plain_string];
    rewrite ?b64_char_plain, ?IH; reflexivity.
Qed.

(** Strings of ASCII characters are valid UTF-8, and so is every base64
    encoding. *)
Fixpoint ascii_string (s : string) : bool :=
  match s with
  | EmptyString => true
  | String c r => (Byte.to_N (byte_of_ascii c) <=? 127)%N && ascii_string r
  end.

Lemma ascii_string_utf8 (s : string) :
  ascii_string s = true -> utf8_string s = true.
Proof.
  unfold utf8_string, bytes_of.
  induction s as [|c s IH]; [reflexivity|].
  cbn [ascii_string list_byte_of_string list_ascii_of_string List.map
       valid_utf8].
  intros Ha. apply andb_prop in Ha as [Hc Hs]. rewrite Hc. apply IH, Hs.
Qed.

Lemma b64_char_ascii (i : N) :
  (Byte.to_N (byte_of_ascii (b64_char i)) <=? 127)%N = true.
Proof.
  unfold b64_char.
  assert (Hall : forallb (fun c => (Byte.to_N (byte_of_ascii c) <=? 127)%N)
                   (list_ascii_of_string encodeURL) = true)
    by reflexivity.
  rewrite forallb_forall in Hall.
  destruct (nth_in_or_default (N.to_nat i) (list_ascii_of_string encodeURL)
              "="%char) as [Hin|Hd].
  - apply Hall, Hin.
  - rewrite Hd. reflexivity.
Qed.

Lemma EncodeToString_utf8 (l : list byte) :
  utf8_string (EncodeToString l) = true.
Proof.
  apply ascii_string_utf8.
  induction l as [|a|a b|a b c l IH] using list_ind3;
    cbn [EncodeToString ascii_string];
    rewrite ?b64_char_ascii, ?IH; reflexivity.
Qed.

(** The encoding is injective: the four characters of a group determine
    its three bytes, and the padding tells the length of the last group. *)

Ltac ndiv := zify; Z.to_euclidean_division_equations; lia.

Fixpoint index_of (c : ascii) (l : list ascii) : nat :=
  match l with
  | [] => 0
  | d :: r => if Ascii.eqb c d then 0 else S (index_of c r)
  end.

Definition b64_index (c : ascii) : N :=
  N.of_nat (index_of c (list_ascii_of_string encodeURL)).

Lemma b64_index_char (i : N) : (i < 64)%N -> b64_index (b64_char i) = i.
Proof.
  intros Hi.
  assert (Hall : forallb (fun n => N.eqb (b64_index (b64_char (N.of_nat n)))
                                     (N.of_nat n)) (seq 0 64) = true)
    by (vm_compute; reflexivity).
  rewrite forallb_forall in Hall.
  specialize (Hall (N.to_nat i)).
  rewrite N2Nat.id in Hall. apply N.eqb_eq, Hall, in_seq. lia.
Qed.

Lemma b64_char_inj (i j : N) :
  (i < 64)%N -> (j < 64)%N -> b64_char i = b64_char j -> i = j.
Proof.
  intros Hi Hj Heq.
  rewrite <- (b64_index_char i Hi), <- (b64_index_char j Hj). congruence.
Qed.

Lemma b64_char_not_pad (i : N) : (i < 64)%N -> b64_char i <> "="%char.
Proof.
  intros Hi.
  assert (Hall : forallb (fun n => negb (Ascii.eqb (b64_char (N.of_nat n)) "="%char))
                   (seq 0 64) = true)
    by (vm_compute; reflexivity).
  rewrite forallb_forall in Hall.
  specialize (Hall (N.to_nat i)).
  rewrite N2Nat.id in Hall. intros Heq. rewrite Heq in Hall.
  discriminate Hall. apply in_seq. lia.
Qed.

Lemma to_N_lt (b : byte) : (Byte.to_N b < 256)%N.
Proof. pose proof (Byte.to_N_bounded b). lia. Qed.

Lemma to_N_inj (a b : byte) : Byte.to_N a = Byte.to_N b -> a = b.
Proof.
  intros Heq. pose proof (Byte.of_to_N a) as Ha.
  rewrite Heq, Byte.of_to_N in Ha. congruence.
Qed.

Lemma sextet1_lt (x : N) : (x < 256 -> x / 4 < 64)%N.
Proof. intros. ndiv. Qed.
Lemma sextet2_lt (x y : N) : (y < 256 -> (x mod 4) * 16 + y / 16 < 64)%N.
Proof. intros. ndiv. Qed.
Lemma sextet2'_lt (x : N) : ((x mod 4) * 16 < 64)%N.
Proof. intros. ndiv. Qed.
Lemma sextet3_lt (y z : N) : (z < 256 -> (y mod 16) * 4 + z / 64 < 64)%N.
Proof. intros. ndiv. Qed.
Lemma sextet3'_lt (y : N) : ((y mod 16) * 4 < 64)%N.
Proof. intros. ndiv. Qed.
Lemma sextet4_lt (z : N) : (z mod 64 < 64)%N.
Proof. intros. ndiv. Qed.

Lemma sextet12_inj (x x' y y' : N) :
  (y < 256 -> y' < 256 ->
   x / 4 = x' / 4 ->
   (x mod 4) * 16 + y / 16 = (x' mod 4) * 16 + y' / 16 ->
   x = x' /\ y / 16 = y' / 16)%N.
Proof.
  intros Hy Hy' H1 H2.
  assert (Hm : (x mod 4 = x' mod 4)%N).
  { assert (Ha : (((x mod 4) * 16 + y / 16) / 16 = x mod 4)%N) by ndiv.
    assert (Hb : (((x' mod 4) * 16 + y' / 16) / 16 = x' mod 4)%N) by ndiv.
    rewrite <- Ha, <- Hb, H2. reflexivity. }
  split; [ndiv|]. rewrite Hm in H2. lia.
Qed.

Lemma sextet34_inj (y y' z z' : N) :
  (z < 256 -> z' < 256 ->
   y / 16 = y' / 16 ->
   (y mod 16) * 4 + z / 64 = (y' mod 16) * 4 + z' / 64 ->
   z mod 64 = z' mod 64 ->
   y = y' /\ z = z')%N.
Proof.
  intros Hz Hz' H1 H2 H3.
  assert (Hm : (y mod 16 = y' mod 16)%N).
  { assert (Ha : (((y mod 16) * 4 + z / 64) / 4 = y mod 16)%N) by ndiv.
    assert (Hb : (((y' mod 16) * 4 + z' / 64) / 4 = y' mod 16)%N) by ndiv.
    rewrite <- Ha, <- Hb, H2. reflexivity. }
  split; [ndiv|]. rewrite Hm in H2.
  assert (Hd : (z / 64 = z' / 64)%N) by lia. ndiv.
Qed.

Lemma sextet3_pad_inj (y y' : N) :
  (y / 16 = y' / 16 -> (y mod 16) * 4 = (y' mod 16) * 4 -> y = y')%N.
Proof. intros. ndiv. Qed.

Lemma sextet2_pad_inj (x x' : N) :
  (x / 4 = x' / 4 -> (x mod 4) * 16 = (x' mod 4) * 16 -> x = x')%N.
Proof. intros. ndiv. Qed.

Lemma EncodeToString_inj (l1 l2 : list byte) :
  EncodeToString l1 = EncodeToString l2 -> l1 = l2.
Proof.
  revert l2.
  induction l1 as [|a|a b|a b c l1 IH] using list_ind3;
    intros [|a' [|b' [|c' l2]]]; cbn [EncodeToString]; intros Heq;
    try discriminate Heq; try reflexivity.
  - (* one byte against one byte *)
    injection Heq as H1 H2.
    apply b64_char_inj in H1; [|apply sextet1_lt, to_N_lt..].
    apply b64_char_inj in H2; [|apply sextet2'_lt..].
    f_equal. apply to_N_inj. apply sextet2_pad_inj; assumption.
  - (* one byte against two: the third character is padding on one side *)
    injection Heq as _ _ H3. symmetry in H3.
    apply b64_char_not_pad in H3; [contradiction|apply sextet3'_lt].
  - injection Heq as _ _ H3. symmetry in H3.
    apply b64_char_not_pad in H3;
      [contradiction|apply sextet3_lt, to_N_lt].
  - injection Heq as _ _ H3.
    apply b64_char_not_pad in H3; [contradiction|apply sextet3'_lt].
  - (* two bytes against two bytes *)
    injection Heq as H1 H2 H3.
    apply b64_char_inj in H1; [|apply sextet1_lt, to_N_lt..].
    apply b64_char_inj in H2; [|apply sextet2_lt, to_N_lt..].
    apply b64_char_inj in H3; [|apply sextet3'_lt..].
    destruct (sextet12_inj _ _ _ _ (to_N_lt b) (to_N_lt b') H1 H2) as [Hx Hy].
    apply to_N_inj in Hx. subst a'.
    f_equal. f_equal. apply to_N_inj. apply sextet3_pad_inj; assumption.
  - injection Heq as _ _ _ H4. symmetry in H4.
    apply b64_char_not_pad in H4; [contradiction|apply sextet4_lt].
  - injection Heq as _ _ H3.
    apply b64_char_not_pad in H3;
      [contradiction|apply sextet3_lt, to_N_lt].
  - injection Heq as _ _ _ H4.
    apply b64_char_not_pad in H4; [contradiction|apply sextet4_lt].
  - (* a full group against a full group *)
    injection Heq as H1 H2 H3 H4 Hrest.
    apply b64_char_inj in H1; [|apply sextet1_lt, to_N_lt..].
    apply b64_char_inj in H2; [|apply sextet2_lt, to_N_lt..].
    apply b64_char_inj in H3; [|apply sextet3_lt, to_N_lt..].
    apply b64_char_inj in H4; [|apply sextet4_lt..].
    destruct (sextet12_inj _ _ _ _ (to_N_lt b) (to_N_lt b') H1 H2) as [Hx Hy].
    destruct (sextet34_inj _ _ _ _ (to_N_lt c) (to_N_lt c') Hy H3 H4) as [Hy' Hz].
    apply to_N_inj in Hx, Hy', Hz. subst.
    f_equal. f_equal. f_equal. apply IH, Hrest.
Qed.


(** ** Paths of one component *)

(** A name that is a single path component: not empty, not the dot, no
    separator. *)
Definition simple (n : string) : bool :=
  negb (String.eqb n "") && negb (String.eqb n ".") && no_slash n.

(** What the tokens of the filemap look like: not empty, no separator, and
    the first character is not a dot. *)
Definition token_like (s : string) : bool :=
  match s with
  | EmptyString => false
  | String c r => plain_char c && no_slash r
  end.

Lemma plain_no_slash (s : string) : plain_string s = true -> no_slash s = true.
Proof.
  induction s as [|c s IH]; simpl; [reflexivity|].
  unfold plain_char. intros Hp.
  apply andb_prop in Hp as [Hc Hs]. apply andb_prop in Hc as [Hc _].
  rewrite Hc, (IH Hs). reflexivity.
Qed.

Lemma plain_token_like (s : string) :
  plain_string s = true -> s <> "" -> token_like s = true.
Proof.
  destruct s as [|c s]; [congruence|]. simpl. intros Hp _.
  apply andb_prop in Hp as [Hc Hs]. rewrite Hc, (plain_no_slash _ Hs).
  reflexivity.
Qed.

Lemma no_slash_append (a b : string) :
  no_slash (a +:+ b) = no_slash a && no_slash b.
Proof.
  induction a as [|c a IH]; simpl; [reflexivity|].
  rewrite IH. apply andb_assoc.
Qed.

Lemma no_slash_uint (u : Decimal.uint) :
  no_slash (NilEmpty.string_of_uint u) = true.
Proof. induction u; simpl; auto. Qed.

Lemma token_like_Sprintf (s : string) (k : nat) :
  token_like s = true -> token_like (Sprintf_s_d s k) = true.
Proof.
  destruct s as [|c s]; [discriminate|]. unfold Sprintf_s_d. simpl.
  intros Ht. apply andb_prop in Ht as [Hc Hs]. rewrite Hc. simpl.
  rewrite no_slash_append, Hs. simpl. apply no_slash_uint.
Qed.

Lemma token_like_simple (s : string) : token_like s = true -> simple s = true.
Proof.
  destruct s as [|c s]; [discriminate|]. unfold simple. simpl.
  unfold plain_char. intros Ht.
  apply andb_prop in Ht as [Hc Hs]. apply andb_prop in Hc as [Hc1 Hc2].
  rewrite Hc1, Hs. simpl.
  apply negb_true_iff in Hc2. rewrite Hc2. reflexivity.
Qed.

Lemma token_like_not_sidecar (s : string) :
  token_like s = true -> Fs.is_sidecar s = false.
Proof.
  destruct s as [|c s]; [discriminate|]. simpl. unfold plain_char.
  intros Ht. apply andb_prop in Ht as [Hc _]. apply andb_prop in Hc as [_ Hc].
  apply negb_true_iff in Hc.
  unfold Fs.is_sidecar, GrainFSDir.
  change (".grainfs" +:+ "/") with (String "."%char "grainfs/").
  change (String.eqb (String c s) ".grainfs")
    with (Ascii.eqb c "."%char && String.eqb s "grainfs").
  change (HasPrefix (String c s) (String "."%char "grainfs/"))
    with (Ascii.eqb "."%char c && HasPrefix s "grainfs/").
  rewrite (Ascii.eqb_sym "."%char c), Hc. reflexivity.
Qed.

Lemma token_like_nonempty (s : string) : token_like s = true -> s <> "".
Proof. destruct s; [discriminate|congruence]. Qed.

Lemma simple_inv (n : string) :
  simple n = true -> n <> "" /\ n <> "." /\ no_slash n = true.
Proof.
  unfold simple. intros Hs.
  apply andb_prop in Hs as [Hs H3]. apply andb_prop in Hs as [H1 H2].
  apply negb_true_iff, String.eqb_neq in H1, H2. auto.
Qed.

Lemma Split_no_slash (n : string) : no_slash n = true -> Split n = [n].
Proof.
  induction n as [|c n IH]; simpl; [reflexivity|].
  intros Hn. apply andb_prop in Hn as [Hc Hn].
  apply negb_true_iff in Hc. rewrite Hc, (IH Hn). reflexivity.
Qed.

Lemma simple_not_rooted (n : string) : no_slash n = true -> is_rooted n = false.
Proof.
  destruct n as [|c n]; simpl; [reflexivity|].
  intros Hn. apply andb_prop in Hn as [Hc _]. by apply negb_true_iff in Hc.
Qed.

Lemma clean_loop_simple (rooted : bool) (n : string) (out : list string) :
  simple n = true -> n <> ".." ->
  clean_loop rooted [n] out = rev (n :: out).
Proof.
  intros Hs Hdd. apply simple_inv in Hs as (H1 & H2 & _).
  apply String.eqb_neq in H1, H2, Hdd. simpl.
  rewrite H1, H2, Hdd. reflexivity.
Qed.

Lemma Clean_simple (n : string) : simple n = true -> Clean n = n.
Proof.
  intros Hs. pose proof (simple_inv _ Hs) as (H1 & H2 & H3).
  unfold Clean. rewrite (simple_not_rooted _ H3), (Split_no_slash _ H3).
  destruct (String.eqb_spec n "..") as [->|Hdd]; [reflexivity|].
  rewrite (clean_loop_simple _ _ _ Hs Hdd). simpl.
  apply String.eqb_neq in H1. rewrite H1. reflexivity.
Qed.

Lemma Base_simple (n : string) : simple n = true -> Base n = n.
Proof.
  intros Hs. apply simple_inv in Hs as (H1 & _ & H3).
  unfold Base. rewrite (Split_no_slash _ H3).
  apply String.eqb_neq in H1. rewrite H1. simpl. rewrite H1. reflexivity.
Qed.

Lemma dir_of_simple (n : string) : simple n = true -> Facade.dir_of n = ".".
Proof.
  intros Hs. apply simple_inv in Hs as (_ & H2 & H3).
  unfold Facade.dir_of, Dir. rewrite (Split_no_slash _ H3).
  cbn [rev app join_sep].
  change (Clean ("" +:+ "")) with ".".
  destruct (String.eqb_spec "." n) as [Heq|Hne]; reflexivity.
Qed.

Lemma Join_dot_simple (n : string) : simple n = true -> Join ["."; n] = n.
Proof.
  intros Hs. pose proof (simple_inv _ Hs) as (H1 & H2 & H3).
  assert (Hj : Join ["."; n] = Clean ("." +:+ "/" +:+ n)).
  { unfold Join. cbn [List.filter].
    change (String.eqb "." "") with false.
    apply String.eqb_neq in H1. rewrite H1. reflexivity. }
  rewrite Hj. unfold Clean.
  change (is_rooted ("." +:+ "/" +:+ n)) with false.
  change (Split ("." +:+ "/" +:+ n)) with ("." :: Split n).
  rewrite (Split_no_slash _ H3).
  change (clean_loop false ["."; n] []) with (clean_loop false [n] []).
  pose proof (Clean_simple n Hs) as Hc. unfold Clean in Hc.
  rewrite (simple_not_rooted _ H3), (Split_no_slash _ H3) in Hc.
  exact Hc.
Qed.

Lemma Join_single_simple (n : string) : simple n = true -> Join [n] = n.
Proof.
  intros Hs. pose proof (simple_inv _ Hs) as (H1 & _).
  unfold Join. cbn [List.filter]. apply String.eqb_neq in H1. rewrite H1.
  cbn [negb join_sep]. apply Clean_simple, Hs.
Qed.

Lemma components_token (t : string) : token_like t = true -> components t = [t].
Proof.
  intros Ht. pose proof (token_like_simple _ Ht) as Hs.
  pose proof (simple_inv _ Hs) as (_ & _ & H3).
  unfold components. rewrite (Split_no_slash _ H3).
  rewrite clean_loop_simple; [reflexivity|assumption|].
  intros ->. discriminate Ht.
Qed.

(** ** The token of a name (crypto.go) *)

Section TokenFacts.
Context `{Primitives}.

(** The bytes that are encoded: IV, CTR ciphertext, HMAC. *)
Definition token_bytes (key : list byte) (name : string) : list byte :=
  let iv := firstn aes_BlockSize (sha256_Sum (key ++ bytes_of name)) in
  let ciphertext := ctr_XORKeyStream key iv (bytes_of name) in
  iv ++ ciphertext ++ hmac_sha256 key (iv ++ ciphertext).

Lemma iv_length (x : list byte) :
  length (firstn aes_BlockSize (sha256_Sum x)) = aes_BlockSize.
Proof.
  rewrite length_firstn, sha256_length. reflexivity.
Qed.

Lemma token_bytes_length (key : list byte) (name : string) :
  length (token_bytes key name) = 48 + String.length name.
Proof.
  unfold token_bytes. rewrite !length_app, iv_length, ctr_length,
    hmac_length, length_bytes_of. unfold aes_BlockSize. lia.
Qed.

Lemma token_length (key : list byte) (name : string) :
  String.length (EncodeToString (token_bytes key name))
  = 4 * ((String.length name + 50) / 3).
Proof.
  rewrite EncodeToString_length, token_bytes_length.
  f_equal. f_equal. lia.
Qed.

(** [obfuscateFilename] on a usable key and a non-empty name: the name is
    rejected exactly when its token is longer than 200 characters, that
    is when the name is longer than 102 bytes. *)
Lemma obfuscateFilename_eq (key : list byte) (name : string) :
  aes_key_ok key = true -> name <> "" ->
  obfuscateFilename key name
  = if (102 <? String.length name)%nat
    then Err (Msg "obfuscated filename too long")
    else Ok (EncodeToString (token_bytes key name)).
Proof.
  intros Hk Hn. unfold obfuscateFilename.
  apply String.eqb_neq in Hn. rewrite Hn, Hk. cbn [negb].
  fold (token_bytes key name). rewrite token_length.
  unfold MaxFilenameLen.
  destruct (Nat.ltb_spec 102 (String.length name)) as [Hlt|Hle].
  - replace (200 <? _)%nat with true; [reflexivity|].
    symmetry. apply Nat.ltb_lt.
    assert (51 <= (String.length name + 50) / 3)
      by (apply Nat.div_le_lower_bound; lia).
    lia.
  - replace (200 <? _)%nat with false; [reflexivity|].
    symmetry. apply Nat.ltb_ge.
    assert ((String.length name + 50) / 3 < 51)
      by (apply Nat.Div0.div_lt_upper_bound; lia).
    lia.
Qed.

Lemma obfuscateFilename_inv (key : list byte) (name t : string) :
  obfuscateFilename key name = Ok t ->
  name <> "" /\ aes_key_ok key = true /\
  t = EncodeToString (token_bytes key name) /\
  String.length name <= 102.
Proof.
  intros Hob.
  assert (Hn : name <> "").
  { intros ->. discriminate Hob. }
  assert (Hk : aes_key_ok key = true).
  { unfold obfuscateFilename in Hob. apply String.eqb_neq in Hn.
    rewrite Hn in Hob. destruct (aes_key_ok key); [reflexivity|discriminate]. }
  rewrite (obfuscateFilename_eq _ _ Hk Hn) in Hob.
  destruct (Nat.ltb_spec 102 (String.length name)); [discriminate|].
  injection Hob as <-. auto.
Qed.

Lemma token_is_token_like (key : list byte) (name t : string) :
  obfuscateFilename key name = Ok t -> token_like t = true.
Proof.
  intros Hob. apply obfuscateFilename_inv in Hob as (_ & _ & -> & _).
  apply plain_token_like; [apply EncodeToString_plain|].
  intros Hz. apply (f_equal String.length) in Hz.
  rewrite token_length in Hz. change (String.length "") with 0 in Hz.
  assert (16 <= (String.length name + 50) / 3)
    by (apply Nat.div_le_lower_bound; lia).
  lia.
Qed.

(** Two names with the same token are the same name. *)
Lemma obfuscateFilename_inj (key : list byte) (n1 n2 t : string) :
  obfuscateFilename key n1 = Ok t -> obfuscateFilename key n2 = Ok t ->
  n1 = n2.
Proof.
  intros H1 H2.
  apply obfuscateFilename_inv in H1 as (_ & Hk & Ht1 & _).
  apply obfuscateFilename_inv in H2 as (_ & _ & Ht2 & _).
  rewrite Ht1 in Ht2. apply EncodeToString_inj in Ht2.
  assert (Hlen : String.length n1 = String.length n2).
  { apply (f_equal (@length byte)) in Ht2.
    rewrite !token_bytes_length in Ht2. lia. }
  unfold token_bytes in Ht2.
  apply app_inj_1 in Ht2 as [Hiv Hrest]; [|by rewrite !iv_length].
  apply app_inj_1 in Hrest as [Hct _];
    [|by rewrite !ctr_length, !length_bytes_of].
  rewrite Hiv in Hct.
  apply (f_equal (ctr_XORKeyStream key
                    (firstn aes_BlockSize (sha256_Sum (key ++ bytes_of n2)))))
    in Hct.
  rewrite !ctr_involutive in Hct by (auto using iv_length).
  apply bytes_of_inj, Hct.
Qed.

End TokenFacts.

(** C5 (as the code has it).  On a usable key, a non-empty cleartext name is
    obfuscated if and only if it has at most 102 bytes; its token then has
    [4 * ceil ((16 + n + 32) / 3)] characters, at most 200.  A name of 103
    bytes or more, so also one of 143 bytes, is rejected with the error
    "obfuscated filename too long". *)
Theorem obfuscate_length_limit `{Primitives} (key : list byte) (name : string) :
  aes_key_ok key = true -> name <> "" ->
  (String.length name <= 102 ->
   exists t, obfuscateFilename key name = Ok t /\
             String.length t = 4 * ((String.length name + 50) / 3) /\
             String.length t <= MaxFilenameLen) /\
  (103 <= String.length name ->
   obfuscateFilename key name = Err (Msg "obfuscated filename too long")).
Proof.
  intros Hk Hn. rewrite (obfuscateFilename_eq _ _ Hk Hn). split.
  - intros Hle. replace (102 <? _)%nat with false
      by (symmetry; apply Nat.ltb_ge; lia).
    eexists. split; [reflexivity|]. rewrite token_length. split; [reflexivity|].
    assert ((String.length name + 50) / 3 < 51)
      by (apply Nat.Div0.div_lt_upper_bound; lia).
    unfold MaxFilenameLen. lia.
  - intros Hge. replace (102 <? _)%nat with true
      by (symmetry; apply Nat.ltb_lt; lia).
    reflexivity.
Qed.

(** A key of 32 bytes and names of 102, 103 and 143 bytes. *)
Definition key32 : list byte := repeat x01 32.
Definition name_of_length (n : nat) : string := string_of (repeat "a"%byte n).

Lemma obfuscate_length_limit_witness :
  (exists t, @obfuscateFilename Ref.prims key32 (name_of_length 102) = Ok t /\
             String.length t = 200 /\ String.length t <= MaxFilenameLen) /\
  @obfuscateFilename Ref.prims key32 (name_of_length 103)
  = Err (Msg "obfuscated filename too long").
Proof.
  assert (Hk : aes_key_ok key32 = true) by reflexivity.
  assert (Hn : forall n, n <> 0 -> name_of_length n <> "").
  { intros [|n] Hz; [congruence|discriminate]. }
  destruct (@obfuscate_length_limit Ref.prims key32 (name_of_length 102) Hk
              (Hn 102 ltac:(discriminate))) as [Hle _].
  destruct (@obfuscate_length_limit Ref.prims key32 (name_of_length 103) Hk
              (Hn 103 ltac:(discriminate))) as [_ Hgt].
  split.
  - apply Hle. vm_compute. lia.
  - apply Hgt. vm_compute. lia.
Defined.

(** C5 as stated fails: a cleartext name of 143 bytes is rejected. *)
Lemma name_of_143_bytes_rejected :
  String.length (name_of_length 143) = 143 /\
  @obfuscateFilename Ref.prims key32 (name_of_length 143)
  = Err (Msg "obfuscated filename too long").
Proof. split; vm_compute; reflexivity. Qed.

(** ** Reasoning in the monad *)

Section MonadLaws.
Context {S A B : Type}.

Lemma bind_Ok_inv (m : St S A) (k : A -> St S B) (s s' : S) (b : B) :
  bind m k s = (Ok b, s') ->
  exists a s1, m s = (Ok a, s1) /\ k a s1 = (Ok b, s').
Proof.
  unfold bind. destruct (m s) as [[a|e] s1]; [eauto|discriminate].
Qed.

Lemma bind_Ok (m : St S A) (k : A -> St S B) (s s1 : S) (a : A) :
  m s = (Ok a, s1) -> bind m k s = k a s1.
Proof. unfold bind. intros ->. reflexivity. Qed.

Lemma bind_Err (m : St S A) (k : A -> St S B) (s s1 : S) (e : error) :
  m s = (Err e, s1) -> bind m k s = (Err e, s1).
Proof. unfold bind. intros ->. reflexivity. Qed.

Lemma wrap_Ok_inv (ctx : string) (m : St S A) (s s' : S) (a : A) :
  wrap ctx m s = (Ok a, s') -> m s = (Ok a, s').
Proof.
  unfold wrap. destruct (m s) as [[a'|e] s1]; [auto|discriminate].
Qed.

Lemma wrap_Ok (ctx : string) (m : St S A) (s s' : S) (a : A) :
  m s = (Ok a, s') -> wrap ctx m s = (Ok a, s').
Proof. unfold wrap. intros ->. reflexivity. Qed.

Lemma wrap_Err (ctx : string) (m : St S A) (s s' : S) (e : error) :
  m s = (Err e, s') -> wrap ctx m s = (Err (Wrap ctx e), s').
Proof. unfold wrap. intros ->. reflexivity. Qed.

Lemma attempt_inv (m : St S A) (s s' : S) (r : result A) :
  attempt m s = (Ok r, s') -> m s = (r, s').
Proof.
  unfold attempt. destruct (m s) as [r' s1]. congruence.
Qed.

Lemma attempt_eq (m : St S A) (s : S) :
  attempt m s = (Ok (fst (m s)), snd (m s)).
Proof. unfold attempt. destruct (m s). reflexivity. Qed.

End MonadLaws.

(** A run is determined by its result and the state it leaves. *)
Lemma run_eq {S A} (r : result A * S) (a : result A) :
  fst r = a -> r = (a, snd r).
Proof. destruct r. cbn [fst snd]. intros ->. reflexivity. Defined.

Lemma run_ok {S A} (r : result A * S) :
  is_ok (fst r) = true -> exists a, r = (Ok a, snd r).
Proof.
  destruct r as [[a|e] s]; cbn [fst snd is_ok]; [eauto|discriminate].
Defined.

(** Take a hypothesis [H : c s = (Ok a, s')] apart along the binds of [c]. *)
Ltac minv H :=
  lazymatch type of H with
  | bind _ _ _ = (Ok _, _) =>
      let a := fresh "a" in
      let s := fresh "s" in
      let H1 := fresh H in
      apply bind_Ok_inv in H as (a & s & H1 & H);
      minv H1; minv H
  | wrap _ _ _ = (Ok _, _) => apply wrap_Ok_inv in H; minv H
  | attempt _ _ = (Ok _, _) => apply attempt_inv in H
  | ret _ _ = (Ok _, _) => unfold ret in H; injection H as H; subst
  | fail _ _ = (Ok _, _) => discriminate H
  | _ => idtac
  end.

(** ** C9: handles opened read-write are write-only *)

Section WriteMode.
Context `{Primitives}.

Lemma Read_write_mode (f : EncryptedFile) (w : World) (n : nat) :
  isWriteMode f = true ->
  Handle.Read n (f, w)
  = (Err (if closed f then ErrClosed else Msg "file opened for writing"), (f, w)).
Proof.
  intros Hm. unfold Handle.Read, bind, get. cbn [fst snd].
  rewrite Hm. destruct (closed f); reflexivity.
Qed.

Lemma ReadAt_write_mode (f : EncryptedFile) (w : World) (n : nat) (off : Z) :
  isWriteMode f = true ->
  Handle.ReadAt n off (f, w)
  = (Err (if closed f then ErrClosed else Msg "file opened for writing"), (f, w)).
Proof.
  intros Hm. unfold Handle.ReadAt, bind, get. cbn [fst snd].
  rewrite Hm. destruct (closed f); reflexivity.
Qed.

Lemma Write_read_mode (f : EncryptedFile) (w : World) (p : list byte) :
  isWriteMode f = false ->
  Handle.Write p (f, w)
  = (Err (if closed f then ErrClosed else Msg "file not opened for writing"), (f, w)).
Proof.
  intros Hm. unfold Handle.Write, bind, get. cbn [fst snd].
  rewrite Hm. destruct (closed f); reflexivity.
Qed.

Lemma openFileInternal_inv (fs : GrainFS) (fuel : nat) (name : string)
    (flag : Z) (w w' : World) (f : EncryptedFile) :
  Facade.openFileInternal fs fuel name flag w = (Ok f, w') ->
  exists u path,
    f = mkEncryptedFile u fs name path flag
          (has_flag flag O_WRONLY || has_flag flag O_RDWR)
          false None false None false.
Proof.
  unfold Facade.openFileInternal. intros Hopen.
  destruct (String.eqb name ""); [discriminate|].
  apply bind_Ok_inv in Hopen as (path & w1 & _ & Hopen).
  apply bind_Ok_inv in Hopen as (u & w2 & _ & Hopen).
  injection Hopen as <- _. eauto.
Qed.

End WriteMode.

(** C9.  A handle opened with [O_RDWR] in its flags, as every handle made by
    [Create] is, is in write mode and not closed; [Read] and [ReadAt] on it
    fail with "file opened for writing" and leave it as it was.  No handle
    in any state accepts both a [Read] and a [Write]. *)
Theorem rdwr_handle_is_write_only `{Primitives}
    (fs : GrainFS) (fuel : nat) (name : string) (w w' : World)
    (f : EncryptedFile) :
  (forall flag, has_flag flag O_RDWR = true ->
     Facade.openFileInternal fs fuel name flag w = (Ok f, w') ->
     isWriteMode f = true /\ closed f = false /\
     (forall n w2, Handle.Read n (f, w2)
                   = (Err (Msg "file opened for writing"), (f, w2))) /\
     (forall n off w2, Handle.ReadAt n off (f, w2)
                       = (Err (Msg "file opened for writing"), (f, w2)))) /\
  (Facade.Create fs fuel name w = (Ok f, w') ->
     isWriteMode f = true /\
     forall n w2, Handle.Read n (f, w2)
                  = (Err (Msg "file opened for writing"), (f, w2))) /\
  (forall (g : EncryptedFile) (w2 : World) (n : nat) (p : list byte),
     ~ (is_ok (fst (Handle.Read n (g, w2))) = true /\
        is_ok (fst (Handle.Write p (g, w2))) = true)).
Proof.
  assert (Hgen : forall flag, has_flag flag O_RDWR = true ->
     Facade.openFileInternal fs fuel name flag w = (Ok f, w') ->
     isWriteMode f = true /\ closed f = false /\
     (forall n w2, Handle.Read n (f, w2)
                   = (Err (Msg "file opened for writing"), (f, w2))) /\
     (forall n off w2, Handle.ReadAt n off (f, w2)
                       = (Err (Msg "file opened for writing"), (f, w2)))).
  { intros flag Hflag Hopen.
    apply openFileInternal_inv in Hopen as (u & path & ->).
    assert (Hm : isWriteMode
                   (mkEncryptedFile u fs name path flag
                      (has_flag flag O_WRONLY || has_flag flag O_RDWR)
                      false None false None false) = true).
    { cbn [isWriteMode]. rewrite Hflag. apply orb_true_r. }
    split; [exact Hm|]. split; [reflexivity|]. split.
    - intros n w2. rewrite (Read_write_mode _ _ _ Hm). reflexivity.
    - intros n off w2. rewrite (ReadAt_write_mode _ _ _ _ Hm). reflexivity. }
  split; [exact Hgen|]. split.
  - intros Hcreate.
    destruct (Hgen (Z.lor O_RDWR (Z.lor O_CREATE O_TRUNC)) eq_refl Hcreate)
      as (Hm & _ & Hread & _).
    auto.
  - intros g w2 n p [Hr Hw].
    destruct (isWriteMode g) eqn:Hm.
    + rewrite (Read_write_mode _ _ _ Hm) in Hr. discriminate Hr.
    + rewrite (Write_read_mode _ _ _ Hm) in Hw. discriminate Hw.
Qed.

(** ** C10: [ReadAt] and the cursor of [Read] *)

Section ReadAtCursor.
Context `{Primitives}.

(** Once the reader is set up, [ensure_reader] does nothing. *)
Lemma ensure_reader_initialized (f : EncryptedFile) (w : World) :
  readInitialized f = true ->
  Handle.ensure_reader (f, w) = (Ok tt, (f, w)).
Proof.
  intros Hi. unfold Handle.ensure_reader, bind, get. cbn [fst snd].
  rewrite Hi. reflexivity.
Qed.

(** [ensure_reader] touches neither the mode nor the closed flag, and on
    success the reader is marked as set up. *)
Lemma ensure_reader_inv (f f1 : EncryptedFile) (w w1 : World) :
  Handle.ensure_reader (f, w) = (Ok tt, (f1, w1)) ->
  readInitialized f1 = true /\ closed f1 = closed f /\
  isWriteMode f1 = isWriteMode f.
Proof.
  unfold Handle.ensure_reader. intros He.
  apply bind_Ok_inv in He as (s0 & s1 & Hget & He).
  unfold get in Hget. injection Hget as <- <-. cbn [fst] in He.
  destruct (readInitialized f) eqn:Hi.
  - injection He as <- <-. auto.
  - cbn [negb] in He.
    apply bind_Ok_inv in He as (u0 & [f2 w2] & Hinit & He).
    unfold Handle.modify_file, modify in He. injection He as <- <-.
    cbn [fst closed isWriteMode readInitialized set_readInitialized].
    split; [reflexivity|].
    apply wrap_Ok_inv in Hinit. unfold Handle.initializeReader in Hinit.
    apply bind_Ok_inv in Hinit as (p0 & [f3 w3] & Hseek & Hinit).
    apply wrap_Ok_inv in Hseek.
    unfold Handle.on_underlying, zoom, Backend.SeekStart0 in Hseek.
    cbn [fst snd] in Hseek. injection Hseek as _ <- <-.
    apply bind_Ok_inv in Hinit as (s2 & s3 & Hget & Hinit).
    unfold get in Hget. injection Hget as <- <-.
    apply bind_Ok_inv in Hinit as (r & s4 & Hnew & Hinit).
    apply attempt_inv in Hnew.
    unfold NewDecryptingReader, aes_NewCipher, bind, ret, fail in Hnew.
    cbn [fst] in Hnew.
    destruct (aes_key_ok _) in Hnew;
      injection Hnew as <- <-;
      [|apply bind_Ok_inv in Hinit as (? & ? & _ & Hinit); discriminate Hinit].
    apply bind_Ok_inv in Hinit as (u1 & s5 & Hset & Hinit).
    unfold Handle.modify_file, modify in Hset. injection Hset as _ <-.
    cbn [fst snd] in Hinit.
    apply bind_Ok_inv in Hinit as (r & [f6 w6] & Hread & Hinit).
    apply attempt_inv in Hread.
    unfold Handle.on_decryptingReader in Hread.
    cbn [fst snd decryptingReader set_decryptingReader] in Hread.
    destruct (DecryptingReader_Read 1 _) as [r' [dr' [u' w']]] in Hread.
    cbn [fst snd] in Hread. injection Hread as _ <- <-.
    assert (Hpos : forall a s,
               Handle.on_decryptingReader (modify_reader (set_dr_pos 0))
                 (set_decryptingReader (Some dr')
                    (set_underlying u'
                       (set_decryptingReader
                          (Some (mkDecryptingReader (masterKey (fs_of f))
                                   [] [] 0 false))
                          (set_underlying (Backend.set_pos 0 (underlying f)) f))),
                  w') = (Ok a, s) ->
               closed (fst s) = closed f /\ isWriteMode (fst s) = isWriteMode f).
    { intros a s Hm. unfold Handle.on_decryptingReader in Hm.
      cbn [fst snd decryptingReader set_decryptingReader] in Hm.
      unfold modify_reader, modify in Hm. cbn [fst snd] in Hm.
      injection Hm as _ <-. split; reflexivity. }
    destruct r as [a|e].
    + apply (Hpos _ _ Hinit).
    + destruct (is_EOF e); [apply (Hpos _ _ Hinit)|discriminate Hinit].
Qed.

Lemma ReadAt_initialized_state (f : EncryptedFile) (w : World) (n : nat) (off : Z) :
  readInitialized f = true ->
  snd (Handle.ReadAt n off (f, w)) = (f, w).
Proof.
  intros Hi. unfold Handle.ReadAt, bind at 1, get. cbn [fst snd].
  destruct (closed f); [reflexivity|].
  destruct (isWriteMode f); [reflexivity|].
  unfold bind at 1. rewrite (ensure_reader_initialized _ _ Hi).
  destruct (off <? 0)%Z; [reflexivity|].
  unfold bind, get. cbn [fst snd].
  destruct (decryptingReader f) as [dr|]; [|reflexivity].
  destruct (dr_initialized dr); [|reflexivity].
  destruct (_ <=? off)%Z; reflexivity.
Qed.

(** After [ensure_reader] the rest of [ReadAt] only reads the handle. *)
Lemma ReadAt_inv (f : EncryptedFile) (w : World) (n : nat) (off : Z)
    (out : list byte * bool) (s1 : EncryptedFile * World) :
  Handle.ReadAt n off (f, w) = (Ok out, s1) ->
  closed f = false /\ isWriteMode f = false /\
  Handle.ensure_reader (f, w) = (Ok tt, s1) /\
  exists dr, decryptingReader (fst s1) = Some dr /\
    (0 <= off < Z.of_nat (length (dr_decrypted dr)))%Z /\
    fst out = firstn n (skipn (Z.to_nat off) (dr_decrypted dr)) /\
    snd out = (length (dr_decrypted dr) - Z.to_nat off <? n)%nat.
Proof.
  unfold Handle.ReadAt. intros Hr.
  apply bind_Ok_inv in Hr as (s0 & s0' & Hget & Hr).
  unfold get in Hget. injection Hget as <- <-. cbn [fst] in Hr.
  destruct (closed f); [discriminate|].
  destruct (isWriteMode f); [discriminate|].
  apply bind_Ok_inv in Hr as ([] & s2 & Hens & Hr).
  destruct (Z.ltb_spec off 0); [discriminate|].
  apply bind_Ok_inv in Hr as (s3 & s3' & Hget & Hr).
  unfold get in Hget. injection Hget as <- <-.
  destruct (decryptingReader (fst s2)) as [dr|] eqn:Hdr; [|discriminate].
  destruct (dr_initialized dr); [|discriminate]. cbn [negb] in Hr.
  destruct (Z.leb_spec (Z.of_nat (length (dr_decrypted dr))) off);
    [discriminate|].
  unfold ret in Hr. injection Hr as <- <-.
  repeat split; auto. exists dr. cbn [fst snd].
  repeat split; auto; try lia.
  destruct (Nat.ltb_spec (length (dr_decrypted dr) - Z.to_nat off) n);
    [|reflexivity].
  rewrite (firstn_all2 (n:=n)); [|rewrite length_skipn; lia].
  rewrite firstn_all2; [reflexivity|rewrite length_skipn; lia].
Qed.

End ReadAtCursor.

(** C10.  On a read-mode handle a [ReadAt] that returns data copies it out
    of the decrypted buffer at the offset and does not move the cursor of
    [Read]: a handle whose reader is set up is left exactly as it was, and
    in every case the next [Read] returns what it would have returned
    without the [ReadAt], and leaves the same state. *)
Theorem ReadAt_keeps_read_cursor `{Primitives}
    (f : EncryptedFile) (w : World) (n : nat) (off : Z)
    (out : list byte * bool) (s1 : EncryptedFile * World) :
  isWriteMode f = false ->
  Handle.ReadAt n off (f, w) = (Ok out, s1) ->
  (exists dr, decryptingReader (fst s1) = Some dr /\
     fst out = firstn n (skipn (Z.to_nat off) (dr_decrypted dr))) /\
  (readInitialized f = true -> s1 = (f, w)) /\
  (forall k, Handle.Read k s1 = Handle.Read k (f, w)).
Proof.
  intros Hmode Hr.
  pose proof (ReadAt_inv _ _ _ _ _ _ Hr) as (Hc & _ & Hens & dr & Hdr & _ & Hout & _).
  split; [eauto|]. split.
  - intros Hi. pose proof (ReadAt_initialized_state f w n off Hi) as Hs.
    rewrite Hr in Hs. exact Hs.
  - intros k. destruct s1 as [f1 w1].
    pose proof (ensure_reader_inv _ _ _ _ Hens) as (Hi1 & Hc1 & Hm1).
    assert (HR : forall g v g1 v1,
               closed g = false -> isWriteMode g = false ->
               Handle.ensure_reader (g, v) = (Ok tt, (g1, v1)) ->
               Handle.Read k (g, v)
               = Handle.on_decryptingReader (DecryptingReader_Read k) (g1, v1)).
    { intros g v g1 v1 Hcg Hmg Heg.
      unfold Handle.Read, bind, get. cbn [fst snd].
      rewrite Hcg, Hmg, Heg. reflexivity. }
    rewrite (HR f w f1 w1 Hc Hmode Hens).
    apply HR; [congruence|congruence|].
    apply ensure_reader_initialized, Hi1.
Qed.

(** ** The backend: opening and reading a file *)

Lemma has_flag_RDONLY (bit : Z) : has_flag O_RDONLY bit = false.
Proof. reflexivity. Qed.

Lemma Backend_Open_inv (p : string) (w w1 : World) (u : ufile) :
  Backend.Open p w = (Ok u, w1) ->
  exists c, backend w !! components p = Some (File c) /\
            u = mkUfile (components p) 0 O_RDONLY /\
            w1 = set_backend (<[components p := File c]> (backend w)) w.
Proof.
  unfold Backend.Open, Backend.OpenFile. rewrite !has_flag_RDONLY.
  cbn [andb]. intros Ho.
  destruct (components p) as [|x k]; [discriminate|].
  destruct (backend w !! (x :: k)) as [[c|]|]; try discriminate.
  injection Ho as <- <-. eauto.
Qed.

Lemma Backend_Open_file (p : string) (w : World) (c : list byte) :
  components p <> [] ->
  backend w !! components p = Some (File c) ->
  Backend.Open p w
  = (Ok (mkUfile (components p) 0 O_RDONLY),
     set_backend (<[components p := File c]> (backend w)) w).
Proof.
  unfold Backend.Open, Backend.OpenFile. rewrite !has_flag_RDONLY.
  cbn [andb]. intros Hne Hl.
  destruct (components p) as [|x k]; [congruence|].
  rewrite Hl. reflexivity.
Qed.

Lemma with_file_ReadAll_file (u : ufile) (w : World) (c : list byte) :
  Backend.readable (u_flag u) = true ->
  backend w !! u_key u = Some (File c) ->
  with_file u Backend.ReadAll w = (Ok (skipn (u_pos u) c), w).
Proof.
  intros Hr Hl. unfold with_file, Backend.ReadAll, Backend.content_of.
  rewrite Hr, Hl. reflexivity.
Qed.

(** ** C2: the keys of a volume *)

Section Keys.
Context `{Primitives}.

Definition config_key : list string := [GrainFSDir; ConfigFile].

(** The backend holds a configuration that [loadConfig] accepts. *)
Definition holds_config (w : World) (c : Config) : Prop :=
  exists data, backend w !! config_key = Some (File data) /\
               json_Decode data = Some c /\
               length (Salt c) = SaltSize /\ (0 < Iterations c)%Z.

Lemma loadConfig_holds (fuel : nat) (w : World) (c : Config) :
  holds_config w c ->
  exists w1, loadConfig (S fuel) w = (Ok c, w1) /\ holds_config w1 c /\
             cache w1 = cache w /\ entropy w1 = entropy w.
Proof.
  intros (data & Hl & Hd & Hs & Hi).
  cbn [loadConfig].
  change (Join [GrainFSDir; ConfigFile]) with ".grainfs/config.json".
  assert (Hk : components ".grainfs/config.json" = config_key) by reflexivity.
  unfold bind at 1. rewrite attempt_eq.
  rewrite (Backend_Open_file _ _ data); rewrite Hk; [|discriminate|exact Hl].
  cbn [fst snd]. unfold bind at 1. rewrite attempt_eq.
  rewrite (with_file_ReadAll_file _ _ data);
    [|reflexivity|cbn [u_key backend set_backend]; apply lookup_insert_eq].
  cbn [fst snd u_pos]. rewrite drop_0, Hd, Hs.
  change (SaltSize =? SaltSize)%nat with true. cbn [negb].
  replace (Iterations c <=? 0)%Z with false by (symmetry; apply Z.leb_gt; lia).
  eexists. split; [reflexivity|]. split; [|split; reflexivity].
  exists data. cbn [backend set_backend]. rewrite lookup_insert_eq. auto.
Qed.

Lemma loadConfig_Ok_inv (fuel : nat) (w w1 : World) (c : Config) :
  loadConfig fuel w = (Ok c, w1) -> holds_config w1 c.
Proof.
  revert w. induction fuel as [|fuel IH]; intros w Hload; [discriminate|].
  cbn [loadConfig] in Hload.
  apply bind_Ok_inv in Hload as (r & w2 & Hopen & Hload).
  apply attempt_inv in Hopen.
  destruct r as [u|e].
  - apply Backend_Open_inv in Hopen as (data & Hl & -> & ->).
    apply bind_Ok_inv in Hload as (r & w3 & Hread & Hload).
    apply attempt_inv in Hread.
    rewrite (with_file_ReadAll_file _ _ data) in Hread;
      [|reflexivity|cbn [u_key backend set_backend]; apply lookup_insert_eq].
    injection Hread as <- <-. cbn [u_pos] in Hload. rewrite drop_0 in Hload.
    destruct (json_Decode data) as [c'|] eqn:Hd; [|discriminate].
    destruct (Nat.eqb_spec (length (Salt c')) SaltSize) as [Hs|];
      [|discriminate].
    cbn [negb] in Hload.
    destruct (Z.leb_spec (Iterations c') 0) as [|Hi]; [discriminate|].
    injection Hload as <- <-.
    exists data. cbn [backend set_backend]. rewrite lookup_insert_eq. auto.
  - destruct (IsNotExist e); [|discriminate].
    apply bind_Ok_inv in Hload as (? & w3 & _ & Hload).
    apply (IH _ Hload).
Qed.

Lemma deriveKeys_ok (password : string) (salt : list byte) (iterations : Z) :
  aes_key_ok (fst (deriveKeys password salt iterations)) = true /\
  aes_key_ok (snd (deriveKeys password salt iterations)) = true.
Proof.
  unfold deriveKeys, aes_key_ok. cbn [fst snd].
  rewrite !pbkdf2_length. split; reflexivity.
Qed.

Lemma New_inv (fuel : nat) (password : string) (w w1 : World) (fs : GrainFS) :
  Facade.New fuel password w = (Ok fs, w1) ->
  exists c, holds_config w1 c /\ cache w1 = ∅ /\
    fs = mkGrainFS (fst (deriveKeys password (Salt c) (Iterations c)))
                   (snd (deriveKeys password (Salt c) (Iterations c))) ".".
Proof.
  unfold Facade.New. intros Hn.
  destruct (String.eqb password ""); [discriminate|].
  apply bind_Ok_inv in Hn as (c & w2 & Hload & Hn).
  apply wrap_Ok_inv, loadConfig_Ok_inv in Hload.
  unfold bind, modify, ret in Hn. injection Hn as <- <-.
  exists c. split; [exact Hload|]. split; reflexivity.
Qed.

Lemma New_keys_ok (fuel : nat) (password : string) (w w1 : World) (fs : GrainFS) :
  Facade.New fuel password w = (Ok fs, w1) ->
  aes_key_ok (masterKey fs) = true /\ aes_key_ok (filenameKey fs) = true.
Proof.
  intros Hn. apply New_inv in Hn as (c & _ & _ & ->).
  apply deriveKeys_ok.
Qed.

End Keys.

(** A mount that succeeds leaves a configuration from which every later
    mount with the same password derives the same keys. *)
Lemma remount_same_keys `{Primitives}
    (fuel fuel' : nat) (password : string) (w w1 : World) (fs1 : GrainFS) :
  Facade.New fuel password w = (Ok fs1, w1) ->
  exists (c : Config) (fs2 : GrainFS) (w2 : World),
    holds_config w1 c /\
    Facade.New (S fuel') password w1 = (Ok fs2, w2) /\
    masterKey fs2 = masterKey fs1 /\
    filenameKey fs2 = filenameKey fs1 /\
    (masterKey fs1, filenameKey fs1)
    = deriveKeys password (Salt c) (Iterations c).
Proof.
  intros Hn.
  assert (Hpw : String.eqb password "" = false).
  { unfold Facade.New in Hn. destruct (String.eqb password "");
      [discriminate|reflexivity]. }
  apply New_inv in Hn as (c & Hc & _ & ->).
  destruct (loadConfig_holds fuel' w1 c Hc) as (w2 & Hload & _).
  exists c. eexists. eexists. split; [exact Hc|].
  unfold Facade.New. rewrite Hpw.
  unfold bind at 1. rewrite (wrap_Ok _ _ _ _ _ Hload).
  unfold bind, modify, ret. cbn [masterKey filenameKey].
  split; [reflexivity|]. split; [reflexivity|]. split; [reflexivity|].
  destruct (deriveKeys password (Salt c) (Iterations c)). reflexivity.
Qed.

(** A mount of a backend that holds a configuration succeeds. *)
Lemma New_holds `{Primitives} (fuel : nat) (password : string) (w : World)
    (c : Config) :
  password <> "" -> holds_config w c ->
  exists fs w1, Facade.New (S fuel) password w = (Ok fs, w1) /\
                (masterKey fs, filenameKey fs)
                = deriveKeys password (Salt c) (Iterations c).
Proof.
  intros Hpw Hc. apply String.eqb_neq in Hpw.
  destruct (loadConfig_holds fuel w c Hc) as (w1 & Hload & _).
  eexists. eexists. unfold Facade.New. rewrite Hpw.
  unfold bind at 1. rewrite (wrap_Ok _ _ _ _ _ Hload).
  unfold bind, modify, ret. cbn [masterKey filenameKey].
  split; [reflexivity|].
  destruct (deriveKeys password (Salt c) (Iterations c)). reflexivity.
Qed.

(** C2.  On a backend that holds a volume configuration, a mount with a
    password that is not empty succeeds, and so does a second mount of the
    backend it leaves; both derive the same master key and filename key,
    which are [deriveKeys] of the password and of the salt and iteration
    count read from the persisted configuration.  And whenever a mount
    succeeds, also one that writes the configuration first, every later
    mount with the same password succeeds with the same keys. *)
Theorem mount_twice_same_keys `{Primitives}
    (fuel fuel' : nat) (password : string) :
  (forall (w : World) (data : list byte) (c : Config),
      password <> "" ->
      backend w !! config_key = Some (File data) ->
      json_Decode data = Some c ->
      length (Salt c) = SaltSize -> (0 < Iterations c)%Z ->
      exists fs1 w1 fs2 w2,
        Facade.New (S fuel) password w = (Ok fs1, w1) /\
        Facade.New (S fuel') password w1 = (Ok fs2, w2) /\
        masterKey fs2 = masterKey fs1 /\
        filenameKey fs2 = filenameKey fs1 /\
        (masterKey fs1, filenameKey fs1)
        = deriveKeys password (Salt c) (Iterations c)) /\
  (forall (w w1 : World) (fs1 : GrainFS),
      Facade.New fuel password w = (Ok fs1, w1) ->
      exists (c : Config) (fs2 : GrainFS) (w2 : World),
        holds_config w1 c /\
        Facade.New (S fuel') password w1 = (Ok fs2, w2) /\
        masterKey fs2 = masterKey fs1 /\
        filenameKey fs2 = filenameKey fs1 /\
        (masterKey fs1, filenameKey fs1)
        = deriveKeys password (Salt c) (Iterations c)).
Proof.
  split.
  - intros w data c Hpw Hl Hd Hs Hi.
    assert (Hc : holds_config w c) by (exists data; auto).
    destruct (New_holds fuel password w c Hpw Hc) as (fs1 & w1 & Hn1 & Hk1).
    destruct (remount_same_keys (S fuel) fuel' password w w1 fs1 Hn1)
      as (c' & fs2 & w2 & _ & Hn2 & Hm & Hf & _).
    exists fs1, w1, fs2, w2. auto.
  - intros w w1 fs1. apply remount_same_keys.
Qed.

(** ** The filemap of a directory *)

Section FilemapLevel.
Context `{Primitives}.
Variable fs : GrainFS.
Variable gop : string -> M string.

Lemma cache_store_eq (dir : string) (fm : FilenameMap) (w : World) :
  Fs.cache_store dir fm w = (Ok tt, set_cache (<[dir := fm]> (cache w)) w).
Proof. reflexivity. Qed.

(** What [loadFilemap] returns is what the cache holds afterwards. *)
Lemma loadFilemap_post (dir : string) (w w' : World) (m : FilenameMap) :
  Fs.loadFilemap_at fs gop dir w = (Ok m, w') -> cache w' !! dir = Some m.
Proof.
  unfold Fs.loadFilemap_at. intros Hl.
  apply bind_Ok_inv in Hl as (c & w0 & Hc & Hl).
  unfold Fs.cache_lookup in Hc. injection Hc as <- <-.
  destruct (cache w !! dir) as [cached|] eqn:Hcache.
  - injection Hl as <- <-. exact Hcache.
  - apply bind_Ok_inv in Hl as (od & w1 & _ & Hl).
    apply bind_Ok_inv in Hl as (r & w2 & _ & Hl).
    destruct r as [file|e].
    + apply bind_Ok_inv in Hl as (enc & w3 & _ & Hl).
      apply bind_Ok_inv in Hl as (dec & w4 & _ & Hl).
      destruct (json_Unmarshal dec) as [filemap|]; [|discriminate].
      unfold bind in Hl. rewrite cache_store_eq in Hl.
      injection Hl as <- <-. apply lookup_insert_eq.
    + destruct (IsNotExist e); [|discriminate].
      unfold bind in Hl. rewrite cache_store_eq in Hl.
      injection Hl as <- <-. apply lookup_insert_eq.
Qed.

Lemma loadFilemap_hit (dir : string) (w : World) (m : FilenameMap) :
  cache w !! dir = Some m -> Fs.loadFilemap_at fs gop dir w = (Ok m, w).
Proof.
  intros Hc. unfold Fs.loadFilemap_at, bind, Fs.cache_lookup.
  rewrite Hc. reflexivity.
Qed.

Lemma saveFilemap_post (dir : string) (fm : FilenameMap) (w w' : World) :
  Fs.saveFilemap_at fs gop dir fm w = (Ok tt, w') -> cache w' !! dir = Some fm.
Proof.
  unfold Fs.saveFilemap_at. intros Hs.
  apply bind_Ok_inv in Hs as (enc & w1 & _ & Hs).
  apply bind_Ok_inv in Hs as (od & w2 & _ & Hs).
  apply bind_Ok_inv in Hs as (file & w3 & _ & Hs).
  apply bind_Ok_inv in Hs as (n & w4 & _ & Hs).
  rewrite cache_store_eq in Hs. injection Hs as <-.
  apply lookup_insert_eq.
Qed.

Lemma updateFilemap_post (dir original obf : string) (w w' : World) :
  Fs.updateFilemap_at fs gop dir original obf w = (Ok tt, w') ->
  exists m, cache w' !! dir = Some (<[obf := original]> m).
Proof.
  unfold Fs.updateFilemap_at. intros Hu.
  apply bind_Ok_inv in Hu as (? & w1 & _ & Hu).
  apply bind_Ok_inv in Hu as (r & w2 & _ & Hu).
  destruct r as [filemap|e].
  - apply bind_Ok_inv in Hu as (? & w3 & _ & Hu).
    apply saveFilemap_post in Hu. eauto.
  - destruct (IsNotExist e); [|discriminate].
    apply saveFilemap_post in Hu. eauto.
Qed.

(** The collision loop ends on a name that looks like a token, with the
    filemap of the directory in the cache: the name is mapped to the
    original (flag [true]) or free (flag [false]). *)
Lemma obfuscate_loop_post (fuel : nat) (dir name T final : string)
    (counter : nat) (w w' : World) (t : string) (b : bool) :
  token_like T = true -> token_like final = true ->
  Fs.obfuscate_loop fs gop fuel dir name T final counter w = (Ok (t, b), w') ->
  token_like t = true /\
  exists m, cache w' !! dir = Some m /\
            m !! t = if b then Some name else None.
Proof.
  intros HT. revert final counter w.
  induction fuel as [|fuel IH]; intros final counter w Hf Hloop;
    [discriminate|].
  cbn [Fs.obfuscate_loop] in Hloop.
  apply bind_Ok_inv in Hloop as (m & w1 & Hload & Hloop).
  apply wrap_Ok_inv, loadFilemap_post in Hload.
  destruct (m !! final) as [existing|] eqn:Hm.
  - destruct (String.eqb_spec existing name) as [->|Hne].
    + injection Hloop as <- <- <-. eauto.
    + apply IH in Hloop; [exact Hloop|].
      apply token_like_Sprintf, HT.
  - injection Hloop as <- <- <-. eauto.
Qed.

(** After a successful [obfuscateFilename] the name returned is either the
    sidecar name passed through, or a token that the cached filemap of the
    directory maps to the original. *)
Lemma obfuscateFilename_post (fuel : nat) (dir name t : string) (w w' : World) :
  Fs.obfuscateFilename_at fs gop fuel dir name w = (Ok t, w') ->
  name <> "" /\
  ((Fs.is_sidecar name = true /\ t = name /\ w' = w) \/
   (Fs.is_sidecar name = false /\ token_like t = true /\
    exists m, cache w' !! dir = Some m /\ m !! t = Some name)).
Proof.
  unfold Fs.obfuscateFilename_at. intros Hob.
  destruct (String.eqb_spec name "") as [|Hne]; [discriminate|].
  split; [exact Hne|].
  destruct (Fs.is_sidecar name) eqn:Hside.
  - injection Hob as <- <-. auto.
  - right. split; [reflexivity|].
    apply bind_Ok_inv in Hob as (T & w1 & HT & Hob).
    apply wrap_Ok_inv in HT. unfold lift in HT. injection HT as HT <-.
    apply token_is_token_like in HT.
    apply bind_Ok_inv in Hob as ([t' b] & w2 & Hloop & Hob).
    apply (obfuscate_loop_post _ _ _ _ _ _ _ _ _ _ HT HT) in Hloop
      as (Ht & m & Hc & Hm).
    cbn [fst snd] in Hob. destruct b.
    + injection Hob as <- <-. eauto.
    + apply bind_Ok_inv in Hob as ([] & w3 & Hupd & Hob).
      injection Hob as <- <-. split; [exact Ht|].
      apply wrap_Ok_inv, updateFilemap_post in Hupd as (m' & Hc').
      exists (<[t' := name]> m'). split; [exact Hc'|apply lookup_insert_eq].
Qed.

Lemma deobfuscateFilename_hit (dir t name : string) (w : World) (m : FilenameMap) :
  token_like t = true -> cache w !! dir = Some m -> m !! t = Some name ->
  Fs.deobfuscateFilename_at fs gop dir t w = (Ok name, w).
Proof.
  intros Ht Hc Hm. unfold Fs.deobfuscateFilename_at.
  pose proof (token_like_nonempty _ Ht) as Hne.
  apply String.eqb_neq in Hne. rewrite Hne, (token_like_not_sidecar _ Ht).
  unfold bind. rewrite (wrap_Ok _ _ _ _ _ (loadFilemap_hit _ _ _ Hc)), Hm.
  reflexivity.
Qed.

End FilemapLevel.

(** C3.  In every directory, the name that [obfuscateFilename] returns is
    taken back to the original by [deobfuscateFilename], which leaves the
    state as it is. *)
Theorem deobfuscate_obfuscate `{Primitives}
    (fs : GrainFS) (fuel : nat) (dir name t : string) (w w' : World) :
  Fs.obfuscateFilename fs fuel dir name w = (Ok t, w') ->
  Fs.deobfuscateFilename fs fuel dir t w' = (Ok name, w').
Proof.
  unfold Fs.obfuscateFilename, Fs.deobfuscateFilename. intros Hob.
  apply obfuscateFilename_post in Hob
    as (Hne & [(Hside & -> & ->)|(_ & Ht & m & Hc & Hm)]).
  - unfold Fs.deobfuscateFilename_at.
    apply String.eqb_neq in Hne. rewrite Hne, Hside. reflexivity.
  - apply (deobfuscateFilename_hit _ _ _ _ _ _ _ Ht Hc Hm).
Qed.

(** ** C6: listing a directory *)

Section Listing.
Context `{Primitives}.
Variable fs : GrainFS.
Variable fuel : nat.

(** What [ReadDir] makes of one backend entry when the filemap [m] of the
    directory is in the cache. *)
Definition entry_of (m : FilenameMap) (info : FileInfo) : option FileInfoWrapper :=
  let name := fi_name info in
  if String.eqb name GrainFSDir then None
  else if String.eqb name "" then None
  else if Fs.is_sidecar name then Some (mkFileInfoWrapper info name)
  else match m !! name with
       | Some original => Some (mkFileInfoWrapper info original)
       | None => None
       end.

(** An entry of the result: it wraps a listed backend entry that is not the
    sidecar, under the name that [deobfuscateFilename] gives it. *)
Definition listed_from (path : string) (infos : list FileInfo) (w : World)
    (e : FileInfoWrapper) : Prop :=
  In (wrapped e) infos /\
  fi_name (wrapped e) <> GrainFSDir /\
  ((Fs.is_sidecar (fi_name (wrapped e)) = true /\
    originalName e = fi_name (wrapped e)) \/
   (exists m, cache w !! path = Some m /\
              m !! fi_name (wrapped e) = Some (originalName e))).

Lemma deobfuscateFilename_cached (path name : string) (w : World) (m : FilenameMap) :
  cache w !! path = Some m ->
  Fs.deobfuscateFilename fs fuel path name w
  = (if String.eqb name "" then Err (Msg "obfuscated filename cannot be empty")
     else if Fs.is_sidecar name then Ok name
     else match m !! name with
          | Some original => Ok original
          | None => Err (Msg "obfuscated filename not found in filemap")
          end, w).
Proof.
  intros Hc. unfold Fs.deobfuscateFilename, Fs.deobfuscateFilename_at.
  destruct (String.eqb name ""); [reflexivity|].
  destruct (Fs.is_sidecar name); [reflexivity|].
  unfold bind. rewrite (wrap_Ok _ _ _ _ _ (loadFilemap_hit _ _ _ _ _ Hc)).
  destruct (m !! name); reflexivity.
Qed.

Lemma deobfuscateFilename_inv (path name original : string) (w w' : World) :
  Fs.deobfuscateFilename fs fuel path name w = (Ok original, w') ->
  (Fs.is_sidecar name = true /\ original = name /\ w' = w) \/
  (exists m, cache w' !! path = Some m /\ m !! name = Some original).
Proof.
  unfold Fs.deobfuscateFilename, Fs.deobfuscateFilename_at. intros Hd.
  destruct (String.eqb name ""); [discriminate|].
  destruct (Fs.is_sidecar name).
  - injection Hd as <- <-. auto.
  - right. apply bind_Ok_inv in Hd as (m & w1 & Hload & Hd).
    apply wrap_Ok_inv, loadFilemap_post in Hload.
    destruct (m !! name) as [o|] eqn:Hm; [|discriminate].
    injection Hd as <- <-. eauto.
Qed.

Lemma omap_cons_eq {A B} (f : A -> option B) (x : A) (l : list A) :
  omap f (x :: l)
  = match f x with Some y => y :: omap f l | None => omap f l end.
Proof. reflexivity. Qed.

(** With the filemap of the directory in the cache the loop is a filter. *)
Lemma readDir_loop_cached (path : string) (infos : list FileInfo)
    (w : World) (m : FilenameMap) :
  cache w !! path = Some m ->
  Facade.readDir_loop fs fuel path infos w = (Ok (omap (entry_of m) infos), w).
Proof.
  intros Hc. induction infos as [|info rest IH]; [reflexivity|].
  cbn [Facade.readDir_loop]. rewrite omap_cons_eq. unfold entry_of at 1.
  destruct (String.eqb (fi_name info) GrainFSDir); [exact IH|].
  unfold bind at 1. rewrite attempt_eq.
  rewrite (deobfuscateFilename_cached _ _ _ _ Hc). cbn [fst snd].
  destruct (String.eqb (fi_name info) "").
  { exact IH. }
  destruct (Fs.is_sidecar (fi_name info)).
  { unfold bind. rewrite IH. reflexivity. }
  destruct (m !! fi_name info).
  - unfold bind. rewrite IH. reflexivity.
  - exact IH.
Qed.

Lemma listed_from_cons (path : string) (info : FileInfo) (infos : list FileInfo)
    (w : World) (res : list FileInfoWrapper) :
  Forall (listed_from path infos w) res ->
  Forall (listed_from path (info :: infos) w) res.
Proof.
  intros Hall. eapply Forall_impl; [exact Hall|].
  intros e (Hin & Hne & Hd). split; [right; exact Hin|auto].
Qed.

(** The loop never fails, and everything it returns is listed. *)
Lemma readDir_loop_sound (path : string) (infos : list FileInfo) (w : World) :
  exists res w',
    Facade.readDir_loop fs fuel path infos w = (Ok res, w') /\
    Forall (listed_from path infos w') res.
Proof.
  revert w. induction infos as [|info rest IH]; intros w.
  { exists [], w. split; [reflexivity|constructor]. }
  cbn [Facade.readDir_loop].
  destruct (String.eqb_spec (fi_name info) GrainFSDir) as [Hside|Hside].
  { destruct (IH w) as (res & w' & Hl & Hall).
    exists res, w'. split; [exact Hl|apply listed_from_cons, Hall]. }
  unfold bind at 1. rewrite attempt_eq.
  destruct (Fs.deobfuscateFilename fs fuel path (fi_name info) w)
    as [[original|e] w1] eqn:Hd; cbn [fst snd].
  - apply deobfuscateFilename_inv in Hd as [(Hs & -> & ->)|(m & Hc & Hm)].
    + destruct (IH w) as (res & w' & Hl & Hall).
      exists (mkFileInfoWrapper info (fi_name info) :: res), w'.
      unfold bind. rewrite Hl. split; [reflexivity|].
      constructor; [|apply listed_from_cons, Hall].
      split; [left; reflexivity|]. split; [exact Hside|]. left. auto.
    + exists (mkFileInfoWrapper info original :: omap (entry_of m) rest), w1.
      unfold bind. rewrite (readDir_loop_cached _ _ _ _ Hc).
      split; [reflexivity|].
      constructor.
      * split; [left; reflexivity|]. split; [exact Hside|]. right. eauto.
      * apply listed_from_cons.
        destruct (IH w1) as (res & w' & Hl & Hall).
        rewrite (readDir_loop_cached _ _ _ _ Hc) in Hl.
        injection Hl as <- <-. exact Hall.
  - destruct (IH w1) as (res & w' & Hl & Hall).
    exists res, w'. split; [exact Hl|apply listed_from_cons, Hall].
Qed.

Lemma deobfuscateFilename_cold (path name : string) (w w' : World)
    (m : FilenameMap) :
  Fs.loadFilemap fs fuel path w = (Ok m, w') ->
  Fs.deobfuscateFilename fs fuel path name w
  = if String.eqb name ""
    then (Err (Msg "obfuscated filename cannot be empty"), w)
    else if Fs.is_sidecar name then (Ok name, w)
    else (match m !! name with
          | Some original => Ok original
          | None => Err (Msg "obfuscated filename not found in filemap")
          end, w').
Proof.
  intros Hload. unfold Fs.deobfuscateFilename, Fs.deobfuscateFilename_at.
  destruct (String.eqb name ""); [reflexivity|].
  destruct (Fs.is_sidecar name); [reflexivity|].
  unfold bind. unfold Fs.loadFilemap in Hload.
  rewrite (wrap_Ok _ _ _ _ _ Hload).
  destruct (m !! name); reflexivity.
Qed.

Lemma deobfuscateFilename_failing (path name : string) (w w' : World)
    (e : error) :
  Fs.loadFilemap fs fuel path w = (Err e, w') ->
  Fs.deobfuscateFilename fs fuel path name w
  = if String.eqb name ""
    then (Err (Msg "obfuscated filename cannot be empty"), w)
    else if Fs.is_sidecar name then (Ok name, w)
    else (Err (Wrap "failed to load filemap" e), w').
Proof.
  intros Hload. unfold Fs.deobfuscateFilename, Fs.deobfuscateFilename_at.
  destruct (String.eqb name ""); [reflexivity|].
  destruct (Fs.is_sidecar name); [reflexivity|].
  unfold bind. unfold Fs.loadFilemap in Hload.
  rewrite (wrap_Err _ _ _ _ _ Hload). reflexivity.
Qed.

(** The filemap is not in the cache but loads: the first entry that
    needs it loads it, and the result is the listing filtered through the
    loaded map. *)
Lemma readDir_loop_cold (path : string) (infos : list FileInfo)
    (w w' : World) (m : FilenameMap) :
  Fs.loadFilemap fs fuel path w = (Ok m, w') ->
  exists w3,
    Facade.readDir_loop fs fuel path infos w = (Ok (omap (entry_of m) infos), w3)
    /\ (w3 = w \/ w3 = w').
Proof.
  intros Hload.
  pose proof (loadFilemap_post _ _ _ _ _ _ Hload) as Hc'.
  induction infos as [|info rest IH]; [exists w; split; [reflexivity|auto]|].
  destruct IH as (w3 & IH & Hw3).
  cbn [Facade.readDir_loop]. rewrite omap_cons_eq. unfold entry_of at 1.
  destruct (String.eqb (fi_name info) GrainFSDir); [eauto|].
  unfold bind at 1.
  rewrite attempt_eq, (deobfuscateFilename_cold _ _ _ _ _ Hload).
  destruct (String.eqb (fi_name info) ""); [cbn [fst snd]; eauto|].
  destruct (Fs.is_sidecar (fi_name info)).
  { cbn [fst snd]. unfold bind. rewrite IH. eauto. }
  exists w'. split; [|auto].
  destruct (m !! fi_name info); cbn [fst snd].
  - unfold bind. rewrite (readDir_loop_cached _ _ _ _ Hc'). reflexivity.
  - apply (readDir_loop_cached _ _ _ _ Hc').
Qed.

(** The filemap does not load, and the failure leaves the state as it is:
    every entry that needs the map is dropped. *)
Lemma readDir_loop_failing (path : string) (infos : list FileInfo)
    (w : World) (e : error) :
  Fs.loadFilemap fs fuel path w = (Err e, w) ->
  Facade.readDir_loop fs fuel path infos w = (Ok (omap (entry_of ∅) infos), w).
Proof.
  intros Hload. induction infos as [|info rest IH]; [reflexivity|].
  cbn [Facade.readDir_loop]. rewrite omap_cons_eq. unfold entry_of at 1.
  destruct (String.eqb (fi_name info) GrainFSDir); [exact IH|].
  unfold bind at 1.
  rewrite attempt_eq, (deobfuscateFilename_failing _ _ _ _ _ Hload).
  destruct (String.eqb (fi_name info) ""); [exact IH|].
  destruct (Fs.is_sidecar (fi_name info)).
  { cbn [fst snd]. unfold bind. rewrite IH. reflexivity. }
  cbn [fst snd]. rewrite lookup_empty. exact IH.
Qed.

End Listing.

(** C6.  [ReadDir] translates the path and lists the backend directory; if
    these two steps succeed, [ReadDir] succeeds whatever the entries are.
    Every entry it returns wraps a listed backend entry whose name is not
    [.grainfs], under the name that the filemap of the directory gives to
    the backend name, which is the name the entry shows.  The result is
    exactly the listing filtered through the filemap of the directory, in
    order: with the filemap in the cache, and also when it is not cached
    and [loadFilemap] brings it in, the sidecar and every name the map
    does not have are dropped without an error; and when [loadFilemap]
    fails, every entry that needs the map is dropped as well. *)
Theorem ReadDir_lists_deobfuscated `{Primitives}
    (fs : GrainFS) (fuel : nat) (path op : string) (w w1 w2 : World)
    (infos : list FileInfo) :
  let p := if String.eqb path "" then "." else path in
  Fs.getObfuscatedPath fs fuel p w = (Ok op, w1) ->
  Backend.ReadDir op w1 = (Ok infos, w2) ->
  exists res w3,
    Facade.ReadDir fs fuel path w = (Ok res, w3) /\
    Forall (listed_from p infos w3) res /\
    (forall m, cache w2 !! p = Some m ->
               res = omap (entry_of m) infos /\ w3 = w2) /\
    (forall m w', Fs.loadFilemap fs fuel p w2 = (Ok m, w') ->
                  res = omap (entry_of m) infos /\ (w3 = w2 \/ w3 = w')) /\
    (forall e, Fs.loadFilemap fs fuel p w2 = (Err e, w2) ->
               res = omap (entry_of ∅) infos /\ w3 = w2).
Proof.
  intros p Hgop Hlist.
  destruct (readDir_loop_sound fs fuel p infos w2) as (res & w3 & Hloop & Hall).
  exists res, w3. split; [|split; [exact Hall|split; [|split]]].
  - unfold Facade.ReadDir. fold p.
    unfold bind at 1. rewrite (wrap_Ok _ _ _ _ _ Hgop).
    unfold bind. rewrite Hlist. exact Hloop.
  - intros m Hc. rewrite (readDir_loop_cached _ _ _ _ _ _ Hc) in Hloop.
    injection Hloop as <- <-. auto.
  - intros m w' Hload.
    destruct (readDir_loop_cold fs fuel p infos w2 w' m Hload)
      as (w3' & Hcold & Hw3).
    rewrite Hcold in Hloop. injection Hloop as <- <-. auto.
  - intros e Hload.
    rewrite (readDir_loop_failing fs fuel p infos w2 e Hload) in Hloop.
    injection Hloop as <- <-. auto.
Qed.

(** ** The root directory *)

Definition sidecar_key : list string := [GrainFSDir].
Definition root_filemap_key : list string := [GrainFSDir; FilemapFile].

(** The flags of [Create]. *)
Definition create_flags : Z := Z.lor O_RDWR (Z.lor O_CREATE O_TRUNC).

Lemma World_eta (w : World) : mkWorld (backend w) (cache w) (entropy w) = w.
Proof. destruct w. reflexivity. Qed.

(** Creating or truncating a file whose parents exist. *)
Lemma Backend_Create_file (p : string) (w : World) :
  components p <> [] ->
  backend w !! components p <> Some Directory ->
  Backend.mk_dirs (Backend.proper_prefixes (components p)) (backend w)
  = Ok (backend w) ->
  Backend.OpenFile p create_flags w
  = (Ok (mkUfile (components p) 0 create_flags),
     set_backend (<[components p := File []]> (backend w)) w).
Proof.
  intros Hne Hnd Hmk. unfold Backend.OpenFile.
  destruct (components p) as [|x k] eqn:Hk; [congruence|].
  destruct (backend w !! (x :: k)) as [[c|]|].
  - reflexivity.
  - congruence.
  - change (has_flag create_flags O_CREATE) with true. cbv iota.
    rewrite Hmk. reflexivity.
Qed.

Lemma Backend_OpenFile_create_inv (p : string) (w w1 : World) (u : ufile) (t : string) :
  components p = [t] ->
  Backend.OpenFile p create_flags w = (Ok u, w1) ->
  u = mkUfile [t] 0 create_flags /\
  w1 = set_backend (<[[t] := File []]> (backend w)) w.
Proof.
  intros Hk Ho. unfold Backend.OpenFile in Ho. rewrite Hk in Ho.
  destruct (backend w !! [t]) as [[c|]|].
  - injection Ho as <- <-. auto.
  - discriminate.
  - change (has_flag create_flags O_CREATE) with true in Ho. cbv iota in Ho.
    cbn [Backend.proper_prefixes Backend.mk_dirs] in Ho.
    injection Ho as <- <-. auto.
Qed.

(** Appending through a handle that stands at the end of its file. *)
Lemma Backend_Write_at (u : ufile) (w : World) (c p : list byte) :
  Backend.writable (u_flag u) = true ->
  backend w !! u_key u = Some (File c) ->
  u_pos u = length c ->
  Backend.Write p (u, w)
  = (Ok (length p),
     (Backend.set_pos (length c + length p) u,
      set_backend (<[u_key u := File (c ++ p)]> (backend w)) w)).
Proof.
  intros Hw Hl Hpos. unfold Backend.Write, Backend.content_of.
  rewrite Hw, Hl, Hpos. cbn [negb].
  rewrite firstn_all, Nat.sub_diag, skipn_all2 by lia.
  cbn [repeat app]. rewrite app_nil_r. reflexivity.
Qed.

(** Reading a file through the handle that [Backend.Open] has just made. *)
Lemma read_back (k : list string) (b : gmap (list string) node) (w : World)
    (c : list byte) :
  with_file (mkUfile k 0 O_RDONLY) Backend.ReadAll
    (set_backend (<[k := File c]> b) w)
  = (Ok c, set_backend (<[k := File c]> b) w).
Proof.
  rewrite (with_file_ReadAll_file _ _ c);
    [|reflexivity|cbn [u_key backend set_backend]; apply lookup_insert_eq].
  cbn [u_pos]. rewrite drop_0. reflexivity.
Qed.

Lemma getObfuscatedPath_dot `{Primitives} (fs : GrainFS) (fuel : nat) (w : World) :
  Fs.getObfuscatedPath fs fuel "." w = (Ok ".", w).
Proof. destruct fuel; reflexivity. Qed.

Section RootFilemap.
Context `{Primitives}.
Variable fs : GrainFS.
Variable gop : string -> M string.
Hypothesis gop_root : forall w, gop "." w = (Ok ".", w).

(** The content envelope: nonce, then ciphertext and tag. *)
Definition sealed (key nonce plaintext : list byte) : list byte :=
  nonce ++ gcm_Seal key nonce plaintext.

(** The root is ready for its filemap to be written: the master key is
    usable, the sidecar directory exists and no directory stands where the
    filemap goes. *)
Definition root_ready (w : World) : Prop :=
  aes_key_ok (masterKey fs) = true /\
  backend w !! sidecar_key = Some Directory /\
  backend w !! root_filemap_key <> Some Directory.

(** The world after the filemap [fm] of the root has been saved: the
    sidecar file holds its envelope, the cache holds [fm], twelve bytes of
    entropy are gone. *)
Definition saved_world (w : World) (fm : FilenameMap) : World :=
  mkWorld
    (<[root_filemap_key :=
         File (sealed (masterKey fs) (firstn NonceSize (entropy w))
                 (json_Marshal fm))]> (backend w))
    (<["." := fm]> (cache w))
    (skipn NonceSize (entropy w)).

Lemma ensureGrainFSDir_root (w : World) :
  backend w !! sidecar_key = Some Directory ->
  Fs.ensureGrainFSDir_at gop "." w = (Ok tt, w).
Proof.
  intros Hs. unfold Fs.ensureGrainFSDir_at, bind.
  rewrite (wrap_Ok _ _ _ _ _ (gop_root w)).
  change (Join ["."; GrainFSDir]) with ".grainfs".
  unfold Backend.MkdirAll. change (components ".grainfs") with sidecar_key.
  cbn [Backend.proper_prefixes sidecar_key app Backend.mk_dirs].
  fold sidecar_key. rewrite Hs. unfold set_backend. rewrite World_eta.
  reflexivity.
Qed.

Lemma encryptData_eq (key plaintext : list byte) (w : World) :
  aes_key_ok key = true -> NonceSize <= length (entropy w) ->
  encryptData key plaintext w
  = (Ok (sealed key (firstn NonceSize (entropy w)) plaintext),
     set_entropy (skipn NonceSize (entropy w)) w).
Proof.
  intros Hk He. unfold encryptData, aes_NewCipher, bind, wrap, rand_Read, ret.
  rewrite Hk.
  replace (length (entropy w) <? NonceSize)%nat with false
    by (symmetry; apply Nat.ltb_ge; exact He).
  reflexivity.
Qed.

Lemma saveFilemap_root (w : World) (fm : FilenameMap) :
  root_ready w -> NonceSize <= length (entropy w) ->
  Fs.saveFilemap_at fs gop "." fm w = (Ok tt, saved_world w fm).
Proof.
  intros (Hk & Hs & Hf) He. unfold Fs.saveFilemap_at.
  unfold bind at 1. rewrite (wrap_Ok _ _ _ _ _ (encryptData_eq _ _ _ Hk He)).
  unfold bind at 1. rewrite (wrap_Ok _ _ _ _ _ (gop_root _)).
  change (Join ["."; GrainFSDir; FilemapFile]) with ".grainfs/filemap.json".
  unfold bind at 1. unfold Backend.Create. fold create_flags.
  assert (Hcreate :
            Backend.OpenFile ".grainfs/filemap.json" create_flags
              (set_entropy (skipn NonceSize (entropy w)) w)
            = (Ok (mkUfile root_filemap_key 0 create_flags),
               set_backend (<[root_filemap_key := File []]> (backend w))
                 (set_entropy (skipn NonceSize (entropy w)) w))).
  { apply (Backend_Create_file ".grainfs/filemap.json"
             (set_entropy (skipn NonceSize (entropy w)) w)).
    - discriminate.
    - exact Hf.
    - change (components ".grainfs/filemap.json") with root_filemap_key.
      cbn [Backend.proper_prefixes root_filemap_key List.map Backend.mk_dirs].
      fold sidecar_key. cbn [set_entropy backend]. rewrite Hs. reflexivity. }
  rewrite (wrap_Ok _ _ _ _ _ Hcreate).
  unfold bind at 1.
  assert (Hw : forall enc b c e,
             wrap "failed to write filemap"
               (with_file (mkUfile root_filemap_key 0 create_flags)
                  (Backend.Write enc))
               (mkWorld (<[root_filemap_key := File []]> b) c e)
             = (Ok (length enc),
                mkWorld (<[root_filemap_key := File enc]> b) c e)).
  { intros enc b c e. apply wrap_Ok. unfold with_file.
    rewrite (Backend_Write_at _ _ [] enc);
      [|reflexivity|apply lookup_insert_eq|reflexivity].
    cbn [snd app set_backend backend cache entropy u_key].
    rewrite insert_insert_eq. reflexivity. }
  unfold set_backend, set_entropy. cbn [backend cache entropy].
  rewrite Hw. rewrite cache_store_eq. reflexivity.
Qed.

Lemma root_ready_saved (w : World) (fm : FilenameMap) :
  root_ready w -> root_ready (saved_world w fm).
Proof.
  intros (Hk & Hs & Hf). split; [exact Hk|]. split.
  - cbn [saved_world backend]. rewrite lookup_insert_ne; [exact Hs|discriminate].
  - cbn [saved_world backend]. rewrite lookup_insert_eq. discriminate.
Qed.

Lemma updateFilemap_root (w : World) (m : FilenameMap) (original obf : string) :
  root_ready w -> NonceSize <= length (entropy w) ->
  cache w !! "." = Some m ->
  Fs.updateFilemap_at fs gop "." original obf w
  = (Ok tt, saved_world w (<[obf := original]> m)).
Proof.
  intros Hr He Hc. unfold Fs.updateFilemap_at.
  unfold bind at 1.
  rewrite (wrap_Ok _ _ _ _ _ (ensureGrainFSDir_root _ (proj1 (proj2 Hr)))).
  unfold bind at 1. rewrite attempt_eq, (loadFilemap_hit _ _ _ _ _ Hc).
  cbn [fst snd]. unfold bind. rewrite cache_store_eq.
  rewrite saveFilemap_root; [|exact Hr|exact He].
  unfold saved_world, set_cache. cbn [backend cache entropy].
  rewrite insert_insert_eq. reflexivity.
Qed.

Lemma removeFromFilemap_root (w : World) (m : FilenameMap) (obf : string) :
  root_ready w -> NonceSize <= length (entropy w) ->
  cache w !! "." = Some m ->
  Fs.removeFromFilemap_at fs gop "." obf w
  = (Ok tt, saved_world w (delete obf m)).
Proof.
  intros Hr He Hc. unfold Fs.removeFromFilemap_at.
  unfold bind at 1. rewrite attempt_eq, (loadFilemap_hit _ _ _ _ _ Hc).
  cbn [fst snd]. unfold bind. rewrite cache_store_eq.
  rewrite saveFilemap_root; [|exact Hr|exact He].
  unfold saved_world, set_cache. cbn [backend cache entropy].
  rewrite insert_insert_eq. reflexivity.
Qed.

(** The first load of the root filemap of a volume that has none. *)
Lemma loadFilemap_root_absent (w : World) :
  cache w !! "." = None -> backend w !! root_filemap_key = None ->
  Fs.loadFilemap_at fs gop "." w
  = (Ok ∅, set_cache (<["." := ∅]> (cache w)) w).
Proof.
  intros Hc Hb. unfold Fs.loadFilemap_at, bind at 1, Fs.cache_lookup.
  rewrite Hc. unfold bind at 1. rewrite (wrap_Ok _ _ _ _ _ (gop_root w)).
  change (Join ["."; GrainFSDir; FilemapFile]) with ".grainfs/filemap.json".
  unfold bind at 1. rewrite attempt_eq.
  unfold Backend.Open, Backend.OpenFile.
  change (components ".grainfs/filemap.json") with root_filemap_key.
  cbn [root_filemap_key]. fold root_filemap_key. rewrite Hb.
  rewrite has_flag_RDONLY. reflexivity.
Qed.

(** The first load of a root filemap that was saved before: what was saved
    comes back. *)
Lemma loadFilemap_root_saved (w : World) (nonce : list byte) (fm : FilenameMap) :
  aes_key_ok (masterKey fs) = true -> length nonce = NonceSize ->
  utf8_filemap fm ->
  cache w !! "." = None ->
  backend w !! root_filemap_key
  = Some (File (sealed (masterKey fs) nonce (json_Marshal fm))) ->
  exists w', Fs.loadFilemap_at fs gop "." w = (Ok fm, w') /\
             cache w' !! "." = Some fm.
Proof.
  intros Hk Hn Hu Hc Hb.
  assert (Hload : exists w', Fs.loadFilemap_at fs gop "." w = (Ok fm, w')).
  { unfold Fs.loadFilemap_at, bind at 1, Fs.cache_lookup.
    rewrite Hc. unfold bind at 1. rewrite (wrap_Ok _ _ _ _ _ (gop_root w)).
    change (Join ["."; GrainFSDir; FilemapFile]) with ".grainfs/filemap.json".
    unfold bind at 1. rewrite attempt_eq.
    assert (Hne : components ".grainfs/filemap.json" <> []) by discriminate.
    rewrite (Backend_Open_file _ _ _ Hne Hb).
    cbn [fst snd]. unfold bind at 1.
    rewrite (wrap_Ok _ _ _ _ _ (read_back _ _ _ _)).
    unfold bind at 1.
    assert (Hdec : decryptData (masterKey fs)
                     (sealed (masterKey fs) nonce (json_Marshal fm))
                   = Ok (json_Marshal fm)).
    { unfold decryptData, sealed.
      rewrite length_app, gcm_Seal_length, Hn.
      replace (_ <? _)%nat with false by (symmetry; apply Nat.ltb_ge; lia).
      rewrite Hk. cbn [negb].
      rewrite <- Hn at 1. rewrite firstn_app, firstn_all, Nat.sub_diag.
      cbn [firstn]. rewrite app_nil_r.
      rewrite <- Hn at 1. rewrite skipn_app, skipn_all, Nat.sub_diag.
      rewrite drop_0, app_nil_l.
      rewrite gcm_Open_Seal by auto. reflexivity. }
    unfold lift. rewrite Hdec. unfold wrap at 1.
    rewrite (json_Unmarshal_Marshal _ Hu). unfold bind. rewrite cache_store_eq.
    eexists. reflexivity. }
  destruct Hload as (w' & Hload). exists w'. split; [exact Hload|].
  apply (loadFilemap_post _ _ _ _ _ _ Hload).
Qed.

End RootFilemap.

(** ** The collision loop as a function of the filemap *)

(** What the collision loop computes once the filemap [m] of the directory
    is in the cache. *)
Fixpoint loop_pure (fuel : nat) (m : FilenameMap) (name T final : string)
    (counter : nat) : result (string * bool) :=
  match fuel with
  | 0 => Err OutOfFuel
  | S fuel' =>
      match m !! final with
      | Some existing =>
          if String.eqb existing name then Ok (final, true)
          else loop_pure fuel' m name T (Sprintf_s_d T counter) (S counter)
      | None => Ok (final, false)
      end
  end.

Section LoopFacts.
Context `{Primitives}.
Variable fs : GrainFS.

Lemma obfuscate_loop_hit (gop : string -> M string) (fuel : nat)
    (dir name T final : string) (counter : nat) (w : World) (m : FilenameMap) :
  cache w !! dir = Some m ->
  Fs.obfuscate_loop fs gop fuel dir name T final counter w
  = (loop_pure fuel m name T final counter, w).
Proof.
  intros Hc. revert final counter.
  induction fuel as [|fuel IH]; intros final counter; [reflexivity|].
  cbn [Fs.obfuscate_loop loop_pure]. unfold bind.
  rewrite (wrap_Ok _ _ _ _ _ (loadFilemap_hit _ _ _ _ _ Hc)).
  destruct (m !! final) as [existing|]; [|reflexivity].
  destruct (String.eqb existing name); [reflexivity|apply IH].
Qed.

(** A run of the loop that succeeds has loaded the filemap, and its outcome
    is the one computed from that filemap. *)
Lemma obfuscate_loop_inv (gop : string -> M string) (fuel : nat)
    (dir name T final : string) (counter : nat) (w w1 : World)
    (t : string) (b : bool) :
  Fs.obfuscate_loop fs gop fuel dir name T final counter w = (Ok (t, b), w1) ->
  exists m, Fs.loadFilemap_at fs gop dir w = (Ok m, w1) /\
            cache w1 !! dir = Some m /\
            loop_pure fuel m name T final counter = Ok (t, b).
Proof.
  destruct fuel as [|fuel]; [discriminate|].
  intros Hloop. pose proof Hloop as Hloop'.
  cbn [Fs.obfuscate_loop] in Hloop.
  apply bind_Ok_inv in Hloop as (m & w' & Hload & Hloop).
  apply wrap_Ok_inv in Hload.
  pose proof (loadFilemap_post _ _ _ _ _ _ Hload) as Hc.
  assert (Hrest : (match m !! final with
                   | Some existing =>
                       if String.eqb existing name then ret (final, true)
                       else Fs.obfuscate_loop fs gop fuel dir name T
                              (Sprintf_s_d T counter) (S counter)
                   | None => ret (final, false)
                   end) w'
                  = (loop_pure (S fuel) m name T final counter, w')).
  { cbn [loop_pure]. destruct (m !! final) as [existing|]; [|reflexivity].
    destruct (String.eqb existing name); [reflexivity|].
    apply obfuscate_loop_hit, Hc. }
  rewrite Hrest in Hloop. injection Hloop as Hp <-.
  exists m. auto.
Qed.

(** Running the loop again on a larger filemap that maps the name found to
    the original finds the same name. *)
Lemma loop_pure_rerun (fuel : nat) (m m' : FilenameMap) (name T final : string)
    (counter : nat) (t : string) (b : bool) :
  loop_pure fuel m name T final counter = Ok (t, b) ->
  m ⊆ m' -> m' !! t = Some name ->
  loop_pure fuel m' name T final counter = Ok (t, true).
Proof.
  intros Hrun Hsub Ht. revert final counter Hrun.
  induction fuel as [|fuel IH]; intros final counter Hrun; [discriminate|].
  cbn [loop_pure] in *.
  destruct (m !! final) as [existing|] eqn:Hm.
  - rewrite (lookup_weaken _ _ _ _ Hm Hsub).
    destruct (String.eqb existing name); [congruence|].
    apply IH, Hrun.
  - injection Hrun as <- <-. rewrite Ht, String.eqb_refl. reflexivity.
Qed.

Lemma loop_pure_found (fuel : nat) (m : FilenameMap) (name T final : string)
    (counter : nat) (t : string) (b : bool) :
  loop_pure fuel m name T final counter = Ok (t, b) ->
  m !! t = if b then Some name else None.
Proof.
  revert final counter.
  induction fuel as [|fuel IH]; intros final counter Hrun; [discriminate|].
  cbn [loop_pure] in Hrun.
  destruct (m !! final) as [existing|] eqn:Hm.
  - destruct (String.eqb_spec existing name) as [->|Hne].
    + injection Hrun as <- <-. exact Hm.
    + apply (IH _ _ Hrun).
  - injection Hrun as <- <-. exact Hm.
Qed.

End LoopFacts.
(** ** Names in the root directory *)

(** A backend name of one component. *)
Definition single (t : string) : Prop :=
  simple t = true /\ components t = [t].

Lemma token_like_single (t : string) : token_like t = true -> single t.
Proof.
  intros Ht. split; [apply token_like_simple, Ht|apply components_token, Ht].
Qed.

Lemma simple_sidecar (name : string) :
  simple name = true -> Fs.is_sidecar name = true -> name = GrainFSDir.
Proof.
  intros Hs Hside. apply simple_inv in Hs as (_ & _ & Hns).
  unfold Fs.is_sidecar in Hside. apply orb_prop in Hside as [Heq|Hpre].
  - apply String.eqb_eq, Heq.
  - exfalso. revert Hns Hpre. unfold GrainFSDir.
    change (".grainfs" +:+ "/") with ".grainfs/".
    destruct name as [|c1 [|c2 [|c3 [|c4 [|c5 [|c6 [|c7 [|c8 [|c9 r]]]]]]]]];
      cbn [HasPrefix]; try discriminate;
      try (rewrite ?andb_false_r; discriminate).
    cbn [no_slash]. intros Hns Hpre.
    repeat (apply andb_prop in Hpre as [? Hpre]).
    repeat (apply andb_prop in Hns as [? Hns]).
    match goal with
    | Hs : negb (Ascii.eqb c9 slash) = true,
      He : Ascii.eqb "/"%char c9 = true |- _ =>
        apply Ascii.eqb_eq in He; subst c9; discriminate Hs
    end.
Qed.

Section RootNames.
Context `{Primitives}.
Variable fs : GrainFS.
Variable gop : string -> M string.
Hypothesis gop_root : forall w, gop "." w = (Ok ".", w).

Lemma MkdirAll_cache (p : string) (w w' : World) (r : result unit) :
  Backend.MkdirAll p w = (r, w') -> cache w' = cache w.
Proof.
  unfold Backend.MkdirAll. destruct (Backend.mk_dirs _ _); intros Hm;
    injection Hm as _ <-; reflexivity.
Qed.

Lemma updateFilemap_root_inv (w w1 : World) (m : FilenameMap)
    (original obf : string) :
  cache w !! "." = Some m ->
  Fs.updateFilemap_at fs gop "." original obf w = (Ok tt, w1) ->
  cache w1 !! "." = Some (<[obf := original]> m).
Proof.
  intros Hc Hu. unfold Fs.updateFilemap_at in Hu.
  apply bind_Ok_inv in Hu as ([] & we & Hens & Hu).
  apply wrap_Ok_inv in Hens. unfold Fs.ensureGrainFSDir_at in Hens.
  apply bind_Ok_inv in Hens as (od & w0 & Hg & Hens).
  apply wrap_Ok_inv in Hg. rewrite gop_root in Hg. injection Hg as <- <-.
  apply MkdirAll_cache in Hens.
  assert (Hce : cache we !! "." = Some m) by (rewrite Hens; exact Hc).
  apply bind_Ok_inv in Hu as (r & w2 & Hload & Hu).
  apply attempt_inv in Hload.
  rewrite (loadFilemap_hit _ _ _ _ _ Hce) in Hload. injection Hload as <- <-.
  apply bind_Ok_inv in Hu as ([] & w3 & _ & Hu).
  apply (saveFilemap_post _ _ _ _ _ _ Hu).
Qed.

(** [obfuscateFilename] in the root on a name that the cached filemap
    already maps from its token: nothing changes. *)
Lemma obfuscate_root_mapped (fuel : nat) (name T : string) (w : World)
    (m : FilenameMap) :
  Fs.is_sidecar name = false ->
  obfuscateFilename (filenameKey fs) name = Ok T ->
  cache w !! "." = Some m -> m !! T = Some name ->
  Fs.obfuscateFilename_at fs gop (S fuel) "." name w = (Ok T, w).
Proof.
  intros Hside HT Hc Hm. unfold Fs.obfuscateFilename_at.
  pose proof (obfuscateFilename_inv _ _ _ HT) as (Hne & _).
  apply String.eqb_neq in Hne. rewrite Hne, Hside.
  unfold bind at 1, lift. rewrite HT. unfold wrap at 1.
  unfold bind at 1. rewrite (obfuscate_loop_hit _ _ _ _ _ _ _ _ _ _ Hc).
  cbn [loop_pure]. rewrite Hm, String.eqb_refl. reflexivity.
Qed.

(** [obfuscateFilename] in the root on a name whose token the filemap does
    not have: the mapping is added and the filemap saved. *)
Lemma obfuscate_root_fresh (fuel : nat) (name T : string) (w w1 : World)
    (m : FilenameMap) :
  Fs.is_sidecar name = false ->
  obfuscateFilename (filenameKey fs) name = Ok T ->
  Fs.loadFilemap_at fs gop "." w = (Ok m, w1) ->
  m !! T = None ->
  root_ready fs w1 -> NonceSize <= length (entropy w1) ->
  Fs.obfuscateFilename_at fs gop (S fuel) "." name w
  = (Ok T, saved_world fs w1 (<[T := name]> m)).
Proof.
  intros Hside HT Hload Hm Hr He. unfold Fs.obfuscateFilename_at.
  pose proof (obfuscateFilename_inv _ _ _ HT) as (Hne & _).
  apply String.eqb_neq in Hne. rewrite Hne, Hside.
  unfold bind at 1, lift. rewrite HT. unfold wrap at 1.
  unfold bind at 1. cbn [Fs.obfuscate_loop]. unfold bind at 1.
  rewrite (wrap_Ok _ _ _ _ _ Hload), Hm. unfold ret at 1. cbn [fst snd].
  pose proof (loadFilemap_post _ _ _ _ _ _ Hload) as Hc.
  unfold bind.
  rewrite (wrap_Ok _ _ _ _ _
             (updateFilemap_root fs gop gop_root _ _ name T Hr He Hc)).
  reflexivity.
Qed.

(** What a successful [obfuscateFilename] in the root leaves behind, and
    that asking again, in any state with the same cache, gives the same
    name and changes nothing. *)
Lemma obfuscate_root_again (fuel : nat) (name t : string) (w w1 : World) :
  simple name = true ->
  Fs.obfuscateFilename_at fs gop fuel "." name w = (Ok t, w1) ->
  single t /\
  forall (gop' : string -> M string) (w3 : World),
    cache w3 = cache w1 ->
    Fs.obfuscateFilename_at fs gop' fuel "." name w3 = (Ok t, w3).
Proof.
  intros Hs Hob. pose proof Hob as Hpost.
  apply obfuscateFilename_post in Hpost
    as (Hne & [(Hside & -> & ->)|(Hside & Ht & m' & Hc' & Hm')]).
  - pose proof (simple_sidecar _ Hs Hside) as ->.
    split; [split; reflexivity|]. intros gop' w3 _. reflexivity.
  - split; [apply token_like_single, Ht|]. intros gop' w3 Hcache.
    unfold Fs.obfuscateFilename_at in *.
    apply String.eqb_neq in Hne. rewrite Hne, Hside in *.
    apply bind_Ok_inv in Hob as (T & w0 & HT & Hob).
    apply wrap_Ok_inv in HT. unfold lift in HT. injection HT as HT <-.
    apply bind_Ok_inv in Hob as ([t' b] & wl & Hloop & Hob).
    apply obfuscate_loop_inv in Hloop as (m & _ & Hc & Hpure).
    pose proof (loop_pure_found _ _ _ _ _ _ _ _ Hpure) as Hfound.
    cbn [fst snd] in Hob.
    assert (Hsub : t' = t /\ m ⊆ m').
    { destruct b.
      - injection Hob as <- <-. split; [reflexivity|].
        rewrite Hc in Hc'. injection Hc' as <-. reflexivity.
      - apply bind_Ok_inv in Hob as ([] & w2 & Hupd & Hob).
        injection Hob as <- <-. split; [reflexivity|].
        apply wrap_Ok_inv in Hupd.
        apply (updateFilemap_root_inv _ _ _ _ _ Hc) in Hupd.
        rewrite Hupd in Hc'. injection Hc' as <-.
        apply insert_subseteq, Hfound. }
    destruct Hsub as [-> Hsub].
    unfold bind at 1, lift. rewrite HT. unfold wrap at 1.
    unfold bind at 1.
    rewrite (obfuscate_loop_hit _ _ _ _ _ _ _ _ w3 m')
      by (rewrite Hcache; exact Hc').
    rewrite (loop_pure_rerun _ _ _ _ _ _ _ _ _ Hpure Hsub Hm').
    reflexivity.
Qed.

End RootNames.

(** ** The facade on names of one component *)

(** The handle that [Create] returns for the backend name [t], and the one
    that [Open] returns. *)
Definition write_handle (fs : GrainFS) (name t : string) : EncryptedFile :=
  mkEncryptedFile (mkUfile [t] 0 create_flags) fs name t create_flags
    true false None false None false.

Definition read_handle (fs : GrainFS) (name t : string) : EncryptedFile :=
  mkEncryptedFile (mkUfile [t] 0 O_RDONLY) fs name t O_RDONLY
    false false None false None false.

Section FacadeSimple.
Context `{Primitives}.
Variable fs : GrainFS.

Lemma getObfuscatedPath_simple (n : nat) (name : string) (w : World) :
  simple name = true ->
  Fs.getObfuscatedPath fs (S n) name w
  = match Fs.obfuscateFilename_at fs (Fs.getObfuscatedPath fs n) (S n) "." name w with
    | (Ok t, w1) => (Ok (Join [t]), w1)
    | (Err e, w1) => (Err (Wrap "failed to obfuscate path component" e), w1)
    end.
Proof.
  intros Hs. pose proof (simple_inv _ Hs) as (H1 & H2 & H3).
  cbn [Fs.getObfuscatedPath]. unfold Fs.getObfuscatedPath_at.
  apply String.eqb_neq in H1, H2. rewrite H1, H2. cbn [orb].
  rewrite (Clean_simple _ Hs), (Split_no_slash _ H3).
  cbn [Fs.gop_loop]. rewrite H1, H2. cbn [orb].
  unfold bind, wrap.
  destruct (Fs.obfuscateFilename_at _ _ _ _ _ _) as [[t|e] w1]; reflexivity.
Qed.

(** [getObfuscatedPath] on a name of the root is [obfuscateFilename] in
    the root. *)
Lemma getObfuscatedPath_simple_Ok (n : nat) (name t : string) (w w1 : World) :
  simple name = true ->
  Fs.obfuscateFilename_at fs (Fs.getObfuscatedPath fs n) (S n) "." name w
  = (Ok t, w1) ->
  simple t = true ->
  Fs.getObfuscatedPath fs (S n) name w = (Ok t, w1).
Proof.
  intros Hs Hob Ht. rewrite (getObfuscatedPath_simple _ _ _ Hs), Hob.
  rewrite (Join_single_simple _ Ht). reflexivity.
Qed.

Lemma Create_simple (n : nat) (name t : string) (w w1 : World) :
  simple name = true ->
  Fs.obfuscateFilename_at fs (Fs.getObfuscatedPath fs (S n)) (S n) "." name w
  = (Ok t, w1) ->
  simple t = true ->
  Facade.Create fs (S n) name w
  = match Backend.OpenFile t create_flags w1 with
    | (Ok u, w2) =>
        (Ok (mkEncryptedFile u fs name t create_flags
               true false None false None false), w2)
    | (Err e, w2) => (Err e, w2)
    end.
Proof.
  intros Hs Hob Ht. pose proof (simple_inv _ Hs) as (H1 & _).
  unfold Facade.Create, Facade.OpenFile, Facade.openFileInternal.
  fold create_flags.
  apply String.eqb_neq in H1. rewrite H1.
  change (has_flag create_flags O_CREATE) with true. cbv iota.
  rewrite (dir_of_simple _ Hs), (Base_simple _ Hs).
  change (negb (String.eqb "." ".")) with false. cbv iota.
  unfold bind at 1. unfold bind at 1. unfold bind at 1. unfold ret at 1.
  unfold bind at 1.
  rewrite (wrap_Ok _ _ _ _ _ (getObfuscatedPath_dot _ _ _)).
  unfold bind at 1. unfold Fs.obfuscateFilename.
  rewrite (wrap_Ok _ _ _ _ _ Hob). unfold ret at 1.
  rewrite (Join_dot_simple _ Ht).
  unfold bind.
  destruct (Backend.OpenFile t create_flags w1) as [[u|e] w2]; reflexivity.
Qed.

Lemma Open_eq (fuel : nat) (name : string) (w : World) :
  name <> "" ->
  Facade.Open fs fuel name w
  = match Fs.getObfuscatedPath fs fuel name w with
    | (Ok p, w1) =>
        match Backend.OpenFile p O_RDONLY w1 with
        | (Ok u, w2) =>
            (Ok (mkEncryptedFile u fs name p O_RDONLY
                   false false None false None false), w2)
        | (Err e, w2) => (Err e, w2)
        end
    | (Err e, w1) => (Err (Wrap "failed to get obfuscated path" e), w1)
    end.
Proof.
  intros Hne. unfold Facade.Open, Facade.OpenFile, Facade.openFileInternal.
  apply String.eqb_neq in Hne. rewrite Hne.
  rewrite !has_flag_RDONLY. cbv iota. cbn [orb].
  unfold bind, wrap.
  destruct (Fs.getObfuscatedPath fs fuel name w) as [[p|e] w1]; [|reflexivity].
  destruct (Backend.OpenFile p O_RDONLY w1) as [[u|e] w2]; reflexivity.
Qed.

Lemma Stat_eq (fuel : nat) (name : string) (w : World) :
  Facade.Stat fs fuel name w
  = match Fs.getObfuscatedPath fs fuel name w with
    | (Ok p, w1) =>
        match Backend.Stat p w1 with
        | (Ok info, w2) => (Ok (mkFileInfoWrapper info (Base name)), w2)
        | (Err e, w2) => (Err e, w2)
        end
    | (Err e, w1) => (Err (Wrap "failed to get obfuscated path" e), w1)
    end.
Proof.
  unfold Facade.Stat, bind, wrap.
  destruct (Fs.getObfuscatedPath fs fuel name w) as [[p|e] w1]; [|reflexivity].
  destruct (Backend.Stat p w1) as [[info|e] w2]; reflexivity.
Qed.

End FacadeSimple.

(** ** Writing and reading through a handle *)

Section HandleFacts.
Context `{Primitives}.
Variable fs : GrainFS.

(** The write handle after its first [Write]: the nonce is on the backend,
    the data in the buffer. *)
Definition written_handle (name t : string) (nonce data : list byte) : EncryptedFile :=
  mkEncryptedFile (mkUfile [t] NonceSize create_flags) fs name t create_flags
    true false None false
    (Some (mkEncryptingWriter (masterKey fs) nonce data)) false.

Lemma Write_first (name t : string) (data : list byte) (w : World) :
  backend w !! [t] = Some (File []) ->
  aes_key_ok (masterKey fs) = true -> NonceSize <= length (entropy w) ->
  Handle.Write data (write_handle fs name t, w)
  = (Ok (length data),
     (written_handle name t (firstn NonceSize (entropy w)) data,
      mkWorld (<[[t] := File (firstn NonceSize (entropy w))]> (backend w))
        (cache w) (skipn NonceSize (entropy w)))).
Proof.
  intros Hb Hk He. unfold Handle.Write.
  unfold bind at 1, get. cbn [fst snd write_handle closed isWriteMode negb
                               encryptingWriter].
  unfold bind at 1. unfold bind at 1. rewrite attempt_eq.
  assert (Hnew : Handle.on_underlying (NewEncryptingWriter (masterKey fs))
                   (write_handle fs name t, w)
                 = (Ok (mkEncryptingWriter (masterKey fs)
                          (firstn NonceSize (entropy w)) []),
                    (set_underlying (mkUfile [t] NonceSize create_flags)
                       (write_handle fs name t),
                     mkWorld (<[[t] := File (firstn NonceSize (entropy w))]>
                                (backend w))
                       (cache w) (skipn NonceSize (entropy w))))).
  { unfold Handle.on_underlying, zoom, NewEncryptingWriter, aes_NewCipher.
    rewrite Hk. unfold bind at 1, ret at 1.
    cbn [fst snd write_handle underlying].
    unfold bind at 1, wrap at 1, on_world, rand_Read. cbn [fst snd].
    replace (length (entropy w) <? NonceSize)%nat with false
      by (symmetry; apply Nat.ltb_ge; exact He).
    unfold bind at 1.
    rewrite (wrap_Ok _ _ _ _ _
               (Backend_Write_at (mkUfile [t] 0 create_flags)
                  (set_entropy (skipn NonceSize (entropy w)) w) []
                  (firstn NonceSize (entropy w)) eq_refl Hb eq_refl)).
    unfold ret. cbn [fst snd app length Backend.set_pos u_key u_flag].
    rewrite length_firstn, Nat.min_l by exact He.
    reflexivity. }
  change (masterKey (fs_of (write_handle fs name t))) with (masterKey fs).
  rewrite Hnew. cbn [fst snd].
  unfold Handle.modify_file, modify, bind, get, ret.
  cbn [fst snd encryptingWriter set_encryptingWriter set_underlying
         ew_key ew_nonce ew_buffer app underlying fs_of filename obfuscated
         flag isWriteMode isTempFile decryptingReader readInitialized closed].
  reflexivity.
Qed.

(** A [Write] through a fresh write handle succeeds only with a usable
    master key and twelve bytes of entropy. *)
Lemma Write_first_inv (name t : string) (data : list byte) (w : World)
    (n : nat) (s : EncryptedFile * World) :
  Handle.Write data (write_handle fs name t, w) = (Ok n, s) ->
  aes_key_ok (masterKey fs) = true /\ NonceSize <= length (entropy w).
Proof.
  unfold Handle.Write. intros Hw.
  apply bind_Ok_inv in Hw as (s0 & s0' & Hget & Hw).
  unfold get in Hget. injection Hget as <- <-.
  cbn [fst write_handle closed isWriteMode negb encryptingWriter] in Hw.
  apply bind_Ok_inv in Hw as ([] & s1 & Hnew & _).
  apply bind_Ok_inv in Hnew as (r & s2 & Hnew & Hset).
  apply attempt_inv in Hnew. destruct r as [ew|e]; [|discriminate].
  unfold Handle.on_underlying, zoom, NewEncryptingWriter, aes_NewCipher in Hnew.
  cbn [fst snd underlying write_handle fs_of] in Hnew.
  destruct (aes_key_ok (masterKey fs)); [split; [reflexivity|]|discriminate].
  unfold bind at 1, ret at 1 in Hnew.
  unfold bind at 1, wrap at 1, on_world, rand_Read in Hnew.
  cbn [fst snd] in Hnew.
  destruct (Nat.ltb_spec (length (entropy w)) NonceSize); [discriminate|].
  assumption.
Qed.

(** [Close] after the first [Write]: the envelope is complete. *)
Lemma Close_written (name t : string) (nonce data : list byte) (w : World) :
  backend w !! [t] = Some (File nonce) -> length nonce = NonceSize ->
  Handle.Close (written_handle name t nonce data, w)
  = (Ok tt,
     (set_closed true
        (set_underlying
           (mkUfile [t]
              (NonceSize + length (gcm_Seal (masterKey fs) nonce data))
              create_flags)
           (written_handle name t nonce data)),
      set_backend (<[[t] := File (sealed (masterKey fs) nonce data)]> (backend w)) w)).
Proof.
  intros Hb Hn. unfold Handle.Close.
  unfold bind at 1, get. cbn [fst snd written_handle closed encryptingWriter].
  assert (Hseal : forall enc,
             Handle.on_underlying (Backend.Write enc ;;; ret tt)
               (written_handle name t nonce data, w)
             = (Ok tt,
                (set_underlying
                   (mkUfile [t] (NonceSize + length enc) create_flags)
                   (written_handle name t nonce data),
                 set_backend (<[[t] := File (nonce ++ enc)]> (backend w)) w))).
  { intros enc. unfold Handle.on_underlying, zoom.
    cbn [fst snd written_handle underlying].
    unfold bind.
    rewrite (Backend_Write_at (mkUfile [t] NonceSize create_flags) _ nonce enc
               eq_refl Hb (eq_sym Hn)).
    unfold ret. cbn [fst snd Backend.set_pos u_key u_flag]. rewrite Hn.
    reflexivity. }
  assert (Hclose : Handle.on_underlying (EncryptingWriter_Close
                      (mkEncryptingWriter (masterKey fs) nonce data))
                     (written_handle name t nonce data, w)
                   = (Ok tt,
                      (set_underlying
                         (mkUfile [t]
                            (NonceSize
                             + length (gcm_Seal (masterKey fs) nonce data))
                            create_flags)
                         (written_handle name t nonce data),
                       set_backend
                         (<[[t] := File (sealed (masterKey fs) nonce data)]>
                            (backend w)) w))).
  { unfold EncryptingWriter_Close. cbn [ew_buffer ew_key ew_nonce].
    destruct data as [|b data]; cbn [length Nat.eqb]; apply Hseal. }
  unfold bind at 1. rewrite attempt_eq, Hclose. cbn [fst snd].
  reflexivity.
Qed.

(** [Close] on a write handle that was never written to: nothing reaches
    the backend. *)
Lemma Close_unwritten (name t : string) (w : World) :
  Handle.Close (write_handle fs name t, w)
  = (Ok tt, (set_closed true (write_handle fs name t), w)).
Proof. reflexivity. Qed.

End HandleFacts.

(** ** Reading an envelope back *)

Lemma ReadFull_ok (u : ufile) (w : World) (c : list byte) (n : nat) :
  Backend.readable (u_flag u) = true ->
  backend w !! u_key u = Some (File c) ->
  0 < n -> u_pos u + n <= length c ->
  Backend.ReadFull n (u, w)
  = (Ok (firstn n (skipn (u_pos u) c)), (Backend.set_pos (u_pos u + n) u, w)).
Proof.
  intros Hr Hb Hn Hlen. unfold Backend.ReadFull, Backend.content_of.
  rewrite Hr, Hb. cbn [negb].
  replace (n =? 0)%nat with false by (symmetry; apply Nat.eqb_neq; lia).
  rewrite length_skipn.
  replace (length c - u_pos u =? 0)%nat with false
    by (symmetry; apply Nat.eqb_neq; lia).
  replace (length c - u_pos u <? n)%nat with false
    by (symmetry; apply Nat.ltb_ge; lia).
  reflexivity.
Qed.

Lemma ReadFull_at_end (u : ufile) (w : World) (c : list byte) (n : nat) :
  Backend.readable (u_flag u) = true ->
  backend w !! u_key u = Some (File c) ->
  0 < n -> length c <= u_pos u ->
  Backend.ReadFull n (u, w) = (Err EOF, (u, w)).
Proof.
  intros Hr Hb Hn Hlen. unfold Backend.ReadFull, Backend.content_of.
  rewrite Hr, Hb. cbn [negb].
  replace (n =? 0)%nat with false by (symmetry; apply Nat.eqb_neq; lia).
  rewrite length_skipn.
  replace (length c - u_pos u =? 0)%nat with true
    by (symmetry; apply Nat.eqb_eq; lia).
  reflexivity.
Qed.

Lemma ReadAll_ok (u : ufile) (w : World) (c : list byte) :
  Backend.readable (u_flag u) = true ->
  backend w !! u_key u = Some (File c) ->
  Backend.ReadAll (u, w)
  = (Ok (skipn (u_pos u) c),
     (Backend.set_pos (u_pos u + length (skipn (u_pos u) c)) u, w)).
Proof.
  intros Hr Hb. unfold Backend.ReadAll, Backend.content_of.
  rewrite Hr, Hb. reflexivity.
Qed.

Lemma attempt_of {S A} (m : St S A) (s s' : S) (r : result A) :
  m s = (r, s') -> attempt m s = (Ok r, s').
Proof. unfold attempt. intros ->. reflexivity. Qed.

Section ReaderFacts.
Context `{Primitives}.
Variable fs : GrainFS.

(** The read handle once its reader is set up: the whole plaintext is in
    the buffer and the cursor stands at [pos]. *)
Definition ready_handle (name t : string) (endpos : nat)
    (nonce data : list byte) (pos : nat) : EncryptedFile :=
  mkEncryptedFile (mkUfile [t] endpos O_RDONLY) fs name t O_RDONLY
    false false
    (Some (mkDecryptingReader (masterKey fs) nonce data pos true))
    true None false.

Lemma initialize_sealed (t : string) (nonce data : list byte) (w : World)
    (dr : DecryptingReader) :
  backend w !! [t] = Some (File (sealed (masterKey fs) nonce data)) ->
  length nonce = NonceSize -> aes_key_ok (masterKey fs) = true ->
  dr_key dr = masterKey fs ->
  DecryptingReader_initialize (dr, (mkUfile [t] 0 O_RDONLY, w))
  = (Ok tt,
     (set_decrypted data (set_nonce nonce dr),
      (mkUfile [t] (length (sealed (masterKey fs) nonce data)) O_RDONLY, w))).
Proof.
  intros Hb Hn Hk Hdr. unfold DecryptingReader_initialize.
  assert (Hlen : length (sealed (masterKey fs) nonce data)
                 = NonceSize + length (gcm_Seal (masterKey fs) nonce data)).
  { unfold sealed. rewrite length_app, Hn. reflexivity. }
  assert (Hfirst : firstn NonceSize (sealed (masterKey fs) nonce data) = nonce).
  { unfold sealed. rewrite <- Hn, firstn_app, firstn_all, Nat.sub_diag.
    cbn [firstn]. apply app_nil_r. }
  assert (Hfull : on_reader (Backend.ReadFull NonceSize)
                    (dr, (mkUfile [t] 0 O_RDONLY, w))
                  = (Ok nonce, (dr, (mkUfile [t] NonceSize O_RDONLY, w)))).
  { unfold on_reader. cbn [fst snd].
    rewrite (ReadFull_ok (mkUfile [t] 0 O_RDONLY) _ _ NonceSize eq_refl Hb);
      [|unfold NonceSize; lia|cbn [u_pos]; lia].
    cbn [fst snd u_pos]. rewrite drop_0, Hfirst. reflexivity. }
  unfold bind at 1. rewrite (attempt_of _ _ _ _ Hfull).
  unfold bind at 1, modify_reader at 1, modify at 1. cbn [fst snd].
  unfold bind at 1, wrap at 1, on_reader at 1. cbn [fst snd].
  rewrite (ReadAll_ok (mkUfile [t] NonceSize O_RDONLY) _ _ eq_refl Hb).
  cbn [fst snd u_pos Backend.set_pos].
  assert (Hrest : skipn NonceSize (sealed (masterKey fs) nonce data)
                  = gcm_Seal (masterKey fs) nonce data).
  { unfold sealed. rewrite <- Hn, skipn_app, skipn_all, Nat.sub_diag.
    reflexivity. }
  rewrite Hrest. unfold bind at 1, get at 1. cbn [fst snd set_nonce dr_key].
  rewrite Hdr, gcm_Open_Seal by assumption.
  unfold modify_reader, modify. cbn [fst snd u_key u_flag].
  rewrite Hlen. reflexivity.
Qed.

(** The first [Read] of a fresh reader sets it up and serves from the
    start of the plaintext. *)
Lemma DecryptingReader_Read_fresh (t : string) (nonce data : list byte)
    (w : World) (n : nat) :
  backend w !! [t] = Some (File (sealed (masterKey fs) nonce data)) ->
  length nonce = NonceSize -> aes_key_ok (masterKey fs) = true ->
  exists r dr,
    DecryptingReader_Read n
      (mkDecryptingReader (masterKey fs) [] [] 0 false,
       (mkUfile [t] 0 O_RDONLY, w))
    = (r, (dr, (mkUfile [t] (length (sealed (masterKey fs) nonce data))
                  O_RDONLY, w))) /\
    set_dr_pos 0 dr = mkDecryptingReader (masterKey fs) nonce data 0 true /\
    match r with Ok _ => True | Err e => is_EOF e = true end.
Proof.
  intros Hb Hn Hk. unfold DecryptingReader_Read.
  unfold bind at 1, get at 1. cbn [fst snd dr_initialized negb].
  unfold bind at 1. unfold bind at 1.
  rewrite (initialize_sealed t nonce data w
             (mkDecryptingReader (masterKey fs) [] [] 0 false)
             Hb Hn Hk eq_refl).
  unfold modify_reader at 1, modify at 1. cbn [fst snd].
  unfold bind at 1, get at 1.
  cbn [fst snd set_initialized set_decrypted set_nonce dr_decrypted dr_pos
         dr_key dr_nonce dr_initialized].
  rewrite Nat.sub_0_r.
  destruct (length data =? 0)%nat.
  - eexists. eexists. split; [reflexivity|]. split; reflexivity.
  - eexists. eexists. split; [reflexivity|]. split; [reflexivity|exact I].
Qed.

Lemma initializeReader_sealed (name t : string) (nonce data : list byte) (w : World) :
  backend w !! [t] = Some (File (sealed (masterKey fs) nonce data)) ->
  length nonce = NonceSize -> aes_key_ok (masterKey fs) = true ->
  Handle.initializeReader (read_handle fs name t, w)
  = (Ok tt,
     (set_readInitialized false
        (ready_handle name t (length (sealed (masterKey fs) nonce data))
           nonce data 0), w)).
Proof.
  intros Hb Hn Hk. unfold Handle.initializeReader.
  assert (Hseek : wrap "failed to seek to beginning"
                    (Handle.on_underlying Backend.SeekStart0)
                    (read_handle fs name t, w)
                  = (Ok 0, (read_handle fs name t, w))) by reflexivity.
  unfold bind at 1. rewrite Hseek.
  unfold bind at 1, get at 1. cbn [fst snd].
  assert (Hnew : forall s : EncryptedFile * World,
             attempt (NewDecryptingReader (masterKey fs)) s
             = (Ok (Ok (mkDecryptingReader (masterKey fs) [] [] 0 false)), s)).
  { intros s. apply attempt_of.
    unfold NewDecryptingReader, aes_NewCipher. rewrite Hk. reflexivity. }
  change (masterKey (fs_of (read_handle fs name t))) with (masterKey fs).
  unfold bind at 1. rewrite Hnew.
  unfold bind at 1, Handle.modify_file at 1, modify at 1. cbn [fst snd].
  destruct (DecryptingReader_Read_fresh t nonce data w 1 Hb Hn Hk)
    as (r & dr & Hread & Hdr & Hr).
  assert (Hon : Handle.on_decryptingReader (DecryptingReader_Read 1)
                  (set_decryptingReader
                     (Some (mkDecryptingReader (masterKey fs) [] [] 0 false))
                     (read_handle fs name t), w)
                = (r, (set_decryptingReader (Some dr)
                         (set_underlying
                            (mkUfile [t]
                               (length (sealed (masterKey fs) nonce data))
                               O_RDONLY)
                            (set_decryptingReader
                               (Some (mkDecryptingReader (masterKey fs)
                                        [] [] 0 false))
                               (read_handle fs name t))), w))).
  { unfold Handle.on_decryptingReader.
    cbn [fst snd decryptingReader set_decryptingReader underlying read_handle].
    rewrite Hread. reflexivity. }
  unfold bind at 1. rewrite (attempt_of _ _ _ _ Hon).
  assert (Hfin : Handle.on_decryptingReader (modify_reader (set_dr_pos 0))
                   (set_decryptingReader (Some dr)
                      (set_underlying
                         (mkUfile [t]
                            (length (sealed (masterKey fs) nonce data))
                            O_RDONLY)
                         (set_decryptingReader
                            (Some (mkDecryptingReader (masterKey fs)
                                     [] [] 0 false))
                            (read_handle fs name t))), w)
                 = (Ok tt,
                    (set_readInitialized false
                       (ready_handle name t
                          (length (sealed (masterKey fs) nonce data))
                          nonce data 0), w))).
  { unfold Handle.on_decryptingReader, modify_reader, modify.
    cbn [fst snd decryptingReader set_decryptingReader underlying
           set_underlying]. rewrite Hdr. reflexivity. }
  destruct r as [chunk|e]; [exact Hfin|].
  rewrite Hr. exact Hfin.
Qed.

Lemma ensure_reader_sealed (name t : string) (nonce data : list byte) (w : World) :
  backend w !! [t] = Some (File (sealed (masterKey fs) nonce data)) ->
  length nonce = NonceSize -> aes_key_ok (masterKey fs) = true ->
  Handle.ensure_reader (read_handle fs name t, w)
  = (Ok tt,
     (ready_handle name t (length (sealed (masterKey fs) nonce data))
        nonce data 0, w)).
Proof.
  intros Hb Hn Hk. unfold Handle.ensure_reader.
  unfold bind at 1, get at 1. cbn [fst snd read_handle readInitialized negb].
  fold (read_handle fs name t).
  unfold bind at 1.
  rewrite (wrap_Ok _ _ _ _ _ (initializeReader_sealed name t nonce data w Hb Hn Hk)).
  reflexivity.
Qed.

(** The first [Read] on a fresh read handle sets the reader up and then
    reads as from a handle that is set up. *)
Lemma Read_fresh (name t : string) (nonce data : list byte) (w : World) (n : nat) :
  backend w !! [t] = Some (File (sealed (masterKey fs) nonce data)) ->
  length nonce = NonceSize -> aes_key_ok (masterKey fs) = true ->
  Handle.Read n (read_handle fs name t, w)
  = Handle.Read n
      (ready_handle name t (length (sealed (masterKey fs) nonce data))
         nonce data 0, w).
Proof.
  intros Hb Hn Hk. unfold Handle.Read at 1, bind at 1, get at 1.
  cbn [fst snd read_handle closed isWriteMode].
  fold (read_handle fs name t).
  unfold bind at 1. rewrite (ensure_reader_sealed name t nonce data w Hb Hn Hk).
  unfold Handle.Read, bind at 1, get at 1.
  cbn [fst snd ready_handle closed isWriteMode].
  unfold bind at 1.
  rewrite ensure_reader_initialized by reflexivity. reflexivity.
Qed.

Lemma Read_ready (name t : string) (endpos : nat) (nonce data : list byte)
    (pos n : nat) (w : World) :
  Handle.Read n (ready_handle name t endpos nonce data pos, w)
  = if (length data - pos =? 0)%nat
    then (Err EOF, (ready_handle name t endpos nonce data pos, w))
    else
      let n' := if (length data - pos <? n)%nat then length data - pos else n in
      (Ok (firstn n' (skipn pos data)),
       (ready_handle name t endpos nonce data (pos + n'), w)).
Proof.
  unfold Handle.Read, bind at 1, get at 1.
  cbn [fst snd ready_handle closed isWriteMode].
  fold (ready_handle name t endpos nonce data pos).
  unfold bind at 1.
  rewrite ensure_reader_initialized by reflexivity.
  unfold Handle.on_decryptingReader.
  cbn [fst snd ready_handle decryptingReader underlying].
  unfold DecryptingReader_Read, bind at 1, get at 1.
  cbn [fst snd dr_initialized negb]. unfold bind at 1, ret at 1.
  unfold bind at 1, get at 1. cbn [fst snd dr_decrypted dr_pos].
  destruct (length data - pos =? 0)%nat; [reflexivity|].
  reflexivity.
Qed.

(** Reading everything from a handle that is set up: what is left of the
    plaintext after the cursor comes back, provided the buffers offered are
    not empty and numerous enough. *)
Lemma ReadAll_ready (name t : string) (endpos : nat) (nonce data : list byte)
    (w : World) (sizes : list nat) :
  Forall (fun b => 1 <= b) sizes ->
  forall (pos : nat) (acc : list byte),
    pos <= length data -> length data - pos < length sizes ->
    exists f', Handle.ReadAll sizes acc
                 (ready_handle name t endpos nonce data pos, w)
               = (Ok (acc ++ skipn pos data), (f', w)).
Proof.
  induction 1 as [|b sizes Hb Hall IH]; intros pos acc Hpos Hlen;
    [cbn [length] in Hlen; lia|].
  cbn [Handle.ReadAll]. unfold bind at 1. rewrite attempt_eq, Read_ready.
  destruct (Nat.eqb_spec (length data - pos) 0) as [Hz|Hnz].
  - cbn [fst snd is_EOF]. eexists. unfold ret.
    rewrite skipn_all2 by lia. rewrite app_nil_r. reflexivity.
  - cbv zeta. cbn [fst snd].
    set (n' := if (length data - pos <? b)%nat then length data - pos else b).
    assert (Hn' : 1 <= n' /\ pos + n' <= length data).
    { unfold n'. destruct (Nat.ltb_spec (length data - pos) b); lia. }
    destruct (IH (pos + n') (acc ++ firstn n' (skipn pos data)))
      as (f' & Hr); [lia|cbn [length] in Hlen; lia|].
    exists f'. rewrite Hr. f_equal. f_equal.
    rewrite <- app_assoc. f_equal.
    rewrite <- (firstn_skipn n' (skipn pos data)) at 2.
    f_equal. rewrite skipn_skipn. f_equal. lia.
Qed.

(** Reading from a file that is empty on the backend: the nonce cannot be
    read, and the error that [Read] returns is not [io.EOF]. *)
Lemma Read_empty_file (name t : string) (n : nat) (w : World) :
  backend w !! [t] = Some (File []) ->
  aes_key_ok (masterKey fs) = true ->
  fst (Handle.Read n (read_handle fs name t, w))
  = Err (Wrap "failed to initialize reader"
           (Wrap "failed to initialize decrypting reader"
              (Wrap "failed to read nonce" EOF))).
Proof.
  intros Hb Hk.
  assert (Hinit : fst (Handle.initializeReader (read_handle fs name t, w))
                  = Err (Wrap "failed to initialize decrypting reader"
                           (Wrap "failed to read nonce" EOF))).
  { unfold Handle.initializeReader.
    assert (Hseek : wrap "failed to seek to beginning"
                      (Handle.on_underlying Backend.SeekStart0)
                      (read_handle fs name t, w)
                    = (Ok 0, (read_handle fs name t, w))) by reflexivity.
    unfold bind at 1. rewrite Hseek.
    unfold bind at 1, get at 1. cbn [fst snd].
    assert (Hnew : forall s : EncryptedFile * World,
               attempt (NewDecryptingReader (masterKey fs)) s
               = (Ok (Ok (mkDecryptingReader (masterKey fs) [] [] 0 false)), s)).
    { intros s. apply attempt_of.
      unfold NewDecryptingReader, aes_NewCipher. rewrite Hk. reflexivity. }
    change (masterKey (fs_of (read_handle fs name t))) with (masterKey fs).
    unfold bind at 1. rewrite Hnew.
    unfold bind at 1, Handle.modify_file at 1, modify at 1. cbn [fst snd].
    assert (Hread : exists s',
               Handle.on_decryptingReader (DecryptingReader_Read 1)
                 (set_decryptingReader
                    (Some (mkDecryptingReader (masterKey fs) [] [] 0 false))
                    (read_handle fs name t), w)
               = (Err (Wrap "failed to read nonce" EOF), s')).
    { unfold Handle.on_decryptingReader.
      cbn [fst snd decryptingReader set_decryptingReader underlying read_handle].
      unfold DecryptingReader_Read.
      unfold bind at 1, get at 1. cbn [fst snd dr_initialized negb].
      unfold bind at 1. unfold bind at 1.
      unfold DecryptingReader_initialize.
      assert (Hfull : forall dr,
                 on_reader (Backend.ReadFull NonceSize)
                   (dr, (mkUfile [t] 0 O_RDONLY, w))
                 = (Err EOF, (dr, (mkUfile [t] 0 O_RDONLY, w)))).
      { intros dr. unfold on_reader. cbn [fst snd].
        rewrite (ReadFull_at_end (mkUfile [t] 0 O_RDONLY) _ [] NonceSize
                   eq_refl Hb);
          [reflexivity|unfold NonceSize; lia|cbn [length]; lia]. }
      unfold bind at 1. rewrite (attempt_of _ _ _ _ (Hfull _)).
      eexists. reflexivity. }
    destruct Hread as (s' & Hread).
    unfold bind at 1. rewrite (attempt_of _ _ _ _ Hread). reflexivity. }
  unfold Handle.Read, bind at 1, get at 1.
  cbn [fst snd read_handle closed isWriteMode].
  fold (read_handle fs name t).
  unfold bind at 1, Handle.ensure_reader at 1, bind at 1, get at 1.
  cbn [fst snd read_handle readInitialized negb].
  fold (read_handle fs name t).
  unfold bind at 1, wrap at 1.
  destruct (Handle.initializeReader (read_handle fs name t, w)) as [r s'].
  cbn [fst] in Hinit. subst r. reflexivity.
Qed.

End ReaderFacts.

(** ** C1: what is written is read back *)

Section RoundTrip.
Context `{Primitives}.
Variable fs : GrainFS.

Lemma Create_simple_eq (n : nat) (name : string) (w : World) :
  simple name = true ->
  Facade.Create fs (S n) name w
  = match Fs.obfuscateFilename_at fs (Fs.getObfuscatedPath fs (S n)) (S n)
            "." name w with
    | (Ok t, w1) =>
        match Backend.OpenFile (Join ["."; t]) create_flags w1 with
        | (Ok u, w2) =>
            (Ok (mkEncryptedFile u fs name (Join ["."; t]) create_flags
                   true false None false None false), w2)
        | (Err e, w2) => (Err e, w2)
        end
    | (Err e, w1) => (Err (Wrap "failed to obfuscate filename" e), w1)
    end.
Proof.
  intros Hs. pose proof (simple_inv _ Hs) as (H1 & _).
  unfold Facade.Create, Facade.OpenFile, Facade.openFileInternal.
  fold create_flags.
  apply String.eqb_neq in H1. rewrite H1.
  change (has_flag create_flags O_CREATE) with true. cbv iota.
  rewrite (dir_of_simple _ Hs), (Base_simple _ Hs).
  change (negb (String.eqb "." ".")) with false. cbv iota.
  unfold bind at 1. unfold bind at 1. unfold bind at 1. unfold ret at 1.
  unfold bind at 1.
  rewrite (wrap_Ok _ _ _ _ _ (getObfuscatedPath_dot _ _ _)).
  unfold bind at 1, wrap at 1. unfold Fs.obfuscateFilename.
  destruct (Fs.obfuscateFilename_at _ _ _ _ _ _) as [[t|e] w1]; [|reflexivity].
  unfold ret at 1. unfold bind.
  destruct (Backend.OpenFile _ create_flags w1) as [[u|e] w2]; reflexivity.
Qed.

(** A successful [Create] of a name of the root: the backend name is a
    single component, the file is there and empty, and the handle is a
    fresh write handle on it. *)
Lemma Create_simple_inv (n : nat) (name : string) (w w2 : World) (f : EncryptedFile) :
  simple name = true ->
  Facade.Create fs (S n) name w = (Ok f, w2) ->
  exists t w1,
    Fs.obfuscateFilename_at fs (Fs.getObfuscatedPath fs (S n)) (S n) "." name w
    = (Ok t, w1) /\
    single t /\ f = write_handle fs name t /\
    w2 = set_backend (<[[t] := File []]> (backend w1)) w1.
Proof.
  intros Hs Hc. rewrite (Create_simple_eq _ _ _ Hs) in Hc.
  destruct (Fs.obfuscateFilename_at _ _ _ _ _ _) as [[t|e] w1] eqn:Hob;
    [|discriminate].
  destruct (obfuscate_root_again fs _ (getObfuscatedPath_dot fs (S n))
              _ _ _ _ _ Hs Hob) as ((Hst & Hct) & _).
  rewrite (Join_dot_simple _ Hst) in Hc.
  destruct (Backend.OpenFile t create_flags w1) as [[u|e] w2'] eqn:Hopen;
    [|discriminate].
  injection Hc as <- <-.
  apply (Backend_OpenFile_create_inv _ _ _ _ _ Hct) in Hopen as (-> & ->).
  exists t, w1. split; [reflexivity|]. split; [split; assumption|].
  split; reflexivity.
Qed.

Lemma ReadAll_fresh (name t : string) (nonce data : list byte) (w : World)
    (sizes : list nat) :
  backend w !! [t] = Some (File (sealed (masterKey fs) nonce data)) ->
  length nonce = NonceSize -> aes_key_ok (masterKey fs) = true ->
  Forall (fun b => 1 <= b) sizes -> length data < length sizes ->
  exists f', Handle.ReadAll sizes [] (read_handle fs name t, w)
             = (Ok data, (f', w)).
Proof.
  intros Hb Hn Hk Hall Hlen.
  destruct (ReadAll_ready fs name t
              (length (sealed (masterKey fs) nonce data)) nonce data w
              sizes Hall 0 []) as (f' & Hr); [lia|lia|].
  exists f'. rewrite drop_0 in Hr. cbn [app] in Hr. rewrite <- Hr.
  destruct sizes as [|b sizes]; [cbn [length] in Hlen; lia|].
  cbn [Handle.ReadAll]. unfold bind, attempt.
  rewrite (Read_fresh fs name t nonce data w b Hb Hn Hk). reflexivity.
Qed.

End RoundTrip.

(** For a file name that is a single path component and for every data:
    when [Create], [Write] of the data and [Close] succeed, [Open] of the
    same name succeeds, and reading the handle to the end returns exactly
    the data. *)
Lemma roundtrip_when_written `{Primitives}
    (fs : GrainFS) (n : nat) (name : string) (data : list byte)
    (w w1 : World) (f : EncryptedFile) (k : nat)
    (s2 s3 : EncryptedFile * World) :
  simple name = true ->
  Facade.Create fs (S n) name w = (Ok f, w1) ->
  Handle.Write data (f, w1) = (Ok k, s2) ->
  Handle.Close s2 = (Ok tt, s3) ->
  exists f' w4,
    Facade.Open fs (S n) name (snd s3) = (Ok f', w4) /\
    forall sizes, Forall (fun b => 1 <= b) sizes ->
                  length data < length sizes ->
                  exists s5, Handle.ReadAll sizes [] (f', w4) = (Ok data, s5).
Proof.
  intros Hs Hcreate Hwrite Hclose.
  apply (Create_simple_inv _ _ _ _ _ _ Hs) in Hcreate
    as (t & w0 & Hob & Hsingle & -> & ->).
  destruct (obfuscate_root_again fs _ (getObfuscatedPath_dot fs (S n))
              _ _ _ _ _ Hs Hob) as (_ & Hagain).
  destruct Hsingle as [Hst Hct].
  pose proof (Write_first_inv _ _ _ _ _ _ _ Hwrite) as (Hk & He).
  rewrite (Write_first fs name t data _ (lookup_insert_eq _ _ _) Hk He)
    in Hwrite.
  injection Hwrite as _ <-.
  assert (Hnonce : length (firstn NonceSize (entropy w0)) = NonceSize).
  { rewrite length_firstn. cbn [entropy set_backend] in He. lia. }
  rewrite (Close_written fs name t _ data _ (lookup_insert_eq _ _ _) Hnonce)
    in Hclose.
  injection Hclose as <-. cbn [snd].
  set (w3 := set_backend _ _).
  assert (Hb3 : backend w3 !! [t]
                = Some (File (sealed (masterKey fs)
                                (firstn NonceSize (entropy w0)) data))).
  { unfold w3. cbn [backend set_backend]. apply lookup_insert_eq. }
  assert (Hgop : Fs.getObfuscatedPath fs (S n) name w3 = (Ok t, w3)).
  { apply (getObfuscatedPath_simple_Ok _ _ _ _ _ _ Hs); [|exact Hst].
    apply Hagain. reflexivity. }
  pose proof (simple_inv _ Hs) as (Hne & _).
  rewrite (Open_eq _ _ _ _ Hne), Hgop.
  assert (Hopen : Backend.OpenFile t O_RDONLY w3
                  = (Ok (mkUfile [t] 0 O_RDONLY),
                     set_backend (<[[t] := File (sealed (masterKey fs)
                                     (firstn NonceSize (entropy w0)) data)]>
                                    (backend w3)) w3)).
  { pose proof (Backend_Open_file t w3
                  (sealed (masterKey fs) (firstn NonceSize (entropy w0)) data))
      as Ho.
    rewrite Hct in Ho. apply Ho; [discriminate|exact Hb3]. }
  rewrite Hopen. eexists. eexists. split; [reflexivity|].
  intros sizes Hall Hlen. fold (read_handle fs name t).
  destruct (ReadAll_fresh fs name t (firstn NonceSize (entropy w0)) data
              (set_backend
                 (<[[t] := File (sealed (masterKey fs)
                                   (firstn NonceSize (entropy w0)) data)]>
                    (backend w3)) w3) sizes) as (f' & Hr); auto.
  - cbn [backend set_backend]. apply lookup_insert_eq.
  - eexists. exact Hr.
Qed.

(** ** The state of the root directory *)

Section RootState.
Context `{Primitives}.
Variable fs : GrainFS.

(** The root directory holds the filemap [m], in the cache or still to be
    loaded from a volume that has none, and its entries with token-like
    names are those of [files]. *)
Definition root_state (w : World) (m : FilenameMap) (files : gmap string node) : Prop :=
  root_ready fs w /\
  (cache w !! "." = Some m \/
   (cache w !! "." = None /\ backend w !! root_filemap_key = None /\ m = ∅)) /\
  (forall t, token_like t = true -> backend w !! [t] = files !! t).

Lemma token_key_ne_sidecar (t : string) :
  token_like t = true -> [t] <> sidecar_key /\ [t] <> root_filemap_key.
Proof.
  intros Ht. split; [|discriminate].
  intros Heq. injection Heq as ->. discriminate Ht.
Qed.

(** Changing the node of a token-like name. *)
Lemma root_state_put (w w' : World) (m : FilenameMap) (files : gmap string node)
    (t : string) (nd : node) :
  root_state w m files -> token_like t = true ->
  cache w' = cache w -> backend w' = <[[t] := nd]> (backend w) ->
  root_state w' m (<[t := nd]> files).
Proof.
  intros ((Hk & Hs & Hf) & Hc & Hfiles) Ht Hcache Hback.
  destruct (token_key_ne_sidecar _ Ht) as [Hn1 Hn2].
  split; [|split].
  - split; [exact Hk|]. rewrite Hback, !lookup_insert_ne by assumption. auto.
  - rewrite Hcache, Hback, lookup_insert_ne by assumption. exact Hc.
  - intros t' Ht'. rewrite Hback.
    destruct (decide (t = t')) as [->|Hne].
    + rewrite !lookup_insert_eq. reflexivity.
    + rewrite !lookup_insert_ne by congruence. apply Hfiles, Ht'.
Qed.

Lemma root_state_remove (w w' : World) (m : FilenameMap) (files : gmap string node)
    (t : string) :
  root_state w m files -> token_like t = true ->
  cache w' = cache w -> backend w' = delete [t] (backend w) ->
  root_state w' m (delete t files).
Proof.
  intros ((Hk & Hs & Hf) & Hc & Hfiles) Ht Hcache Hback.
  destruct (token_key_ne_sidecar _ Ht) as [Hn1 Hn2].
  split; [|split].
  - split; [exact Hk|]. rewrite Hback, !lookup_delete_ne by assumption. auto.
  - rewrite Hcache, Hback, lookup_delete_ne by assumption. exact Hc.
  - intros t' Ht'. rewrite Hback.
    destruct (decide (t = t')) as [->|Hne].
    + rewrite !lookup_delete_eq. reflexivity.
    + rewrite !lookup_delete_ne by congruence. apply Hfiles, Ht'.
Qed.

Lemma root_state_saved (w : World) (m m' : FilenameMap) (files : gmap string node) :
  root_state w m files -> root_state (saved_world fs w m') m' files.
Proof.
  intros (Hr & _ & Hfiles). split; [|split].
  - apply root_ready_saved, Hr.
  - left. cbn [saved_world cache]. apply lookup_insert_eq.
  - intros t Ht. cbn [saved_world backend].
    rewrite lookup_insert_ne; [apply Hfiles, Ht|].
    apply not_eq_sym, token_key_ne_sidecar, Ht.
Qed.

Variable gop : string -> M string.
Hypothesis gop_root : forall w, gop "." w = (Ok ".", w).

Lemma root_state_load (w : World) (m : FilenameMap) (files : gmap string node) :
  root_state w m files ->
  exists wl, Fs.loadFilemap_at fs gop "." w = (Ok m, wl) /\
             root_state wl m files /\ cache wl !! "." = Some m /\
             entropy wl = entropy w.
Proof.
  intros (Hr & [Hc|(Hc & Hb & ->)] & Hfiles).
  - exists w. split; [apply loadFilemap_hit, Hc|].
    split; [split; auto|auto].
  - exists (set_cache (<["." := ∅]> (cache w)) w).
    split; [apply (loadFilemap_root_absent _ _ gop_root _ Hc Hb)|].
    split; [|split; [apply lookup_insert_eq|reflexivity]].
    split; [exact Hr|]. split; [left; apply lookup_insert_eq|exact Hfiles].
Qed.

(** [obfuscateFilename] in the root, by the state of the root. *)
Lemma obfuscate_state_mapped (fuel : nat) (name T : string) (w : World)
    (m : FilenameMap) (files : gmap string node) :
  root_state w m files ->
  Fs.is_sidecar name = false ->
  obfuscateFilename (filenameKey fs) name = Ok T ->
  m !! T = Some name ->
  exists w', Fs.obfuscateFilename_at fs gop (S fuel) "." name w = (Ok T, w') /\
             root_state w' m files /\ entropy w' = entropy w.
Proof.
  intros Hst Hside HT Hm.
  destruct (root_state_load _ _ _ Hst) as (wl & Hload & Hstl & Hc & He).
  exists wl. split; [|auto].
  unfold Fs.obfuscateFilename_at.
  pose proof (obfuscateFilename_inv _ _ _ HT) as (Hne & _).
  apply String.eqb_neq in Hne. rewrite Hne, Hside.
  unfold bind at 1, lift. rewrite HT. unfold wrap at 1.
  unfold bind at 1. cbn [Fs.obfuscate_loop]. unfold bind at 1.
  rewrite (wrap_Ok _ _ _ _ _ Hload), Hm, String.eqb_refl. reflexivity.
Qed.

Lemma obfuscate_state_fresh (fuel : nat) (name T : string) (w : World)
    (m : FilenameMap) (files : gmap string node) :
  root_state w m files ->
  Fs.is_sidecar name = false ->
  obfuscateFilename (filenameKey fs) name = Ok T ->
  m !! T = None -> NonceSize <= length (entropy w) ->
  exists w', Fs.obfuscateFilename_at fs gop (S fuel) "." name w = (Ok T, w') /\
             root_state w' (<[T := name]> m) files /\
             entropy w' = skipn NonceSize (entropy w) /\
             backend w' !! root_filemap_key
             = Some (File (sealed (masterKey fs) (firstn NonceSize (entropy w))
                             (json_Marshal (<[T := name]> m)))).
Proof.
  intros Hst Hside HT Hm He.
  destruct (root_state_load _ _ _ Hst) as (wl & Hload & Hstl & Hc & Hel).
  exists (saved_world fs wl (<[T := name]> m)).
  split; [|split; [|split]].
  - apply (obfuscate_root_fresh fs gop gop_root _ _ _ _ _ _ Hside HT Hload Hm).
    + apply Hstl.
    + rewrite Hel. exact He.
  - apply (root_state_saved _ _ _ _ Hstl).
  - cbn [saved_world entropy]. rewrite Hel. reflexivity.
  - cbn [saved_world backend]. rewrite Hel. apply lookup_insert_eq.
Qed.

End RootState.

(** ** The facade, by the state of the root *)

Lemma Backend_Stat_missing (p a : string) (w : World) :
  components p = [a] -> backend w !! [a] = None ->
  Backend.Stat p w = (Err ErrNotExist, w).
Proof.
  intros Hk Hb. unfold Backend.Stat. rewrite Hk, Hb. reflexivity.
Qed.

Lemma Backend_Open_missing (p a : string) (w : World) :
  components p = [a] -> backend w !! [a] = None ->
  Backend.OpenFile p O_RDONLY w = (Err ErrNotExist, w).
Proof.
  intros Hk Hb. unfold Backend.OpenFile. rewrite Hk, Hb.
  rewrite has_flag_RDONLY. reflexivity.
Qed.

Lemma Backend_Rename_file (from to a b : string) (c : list byte) (w : World) :
  components from = [a] -> components to = [b] ->
  backend w !! [a] = Some (File c) ->
  Backend.Rename from to w
  = (Ok tt, set_backend (<[[b] := File c]> (delete [a] (backend w))) w).
Proof.
  intros Ha Hb Hl. unfold Backend.Rename. rewrite Ha, Hb, Hl. reflexivity.
Qed.

Section FacadeState.
Context `{Primitives}.
Variable fs : GrainFS.
Variable n : nat.

(** The token of a name of the root that is not the sidecar. *)
Definition token_of (name T : string) : Prop :=
  simple name = true /\ Fs.is_sidecar name = false /\
  obfuscateFilename (filenameKey fs) name = Ok T.

Lemma token_of_like (name T : string) : token_of name T -> token_like T = true.
Proof. intros (_ & _ & HT). apply (token_is_token_like _ _ _ HT). Qed.

Lemma token_of_inj (n1 n2 T1 T2 : string) :
  token_of n1 T1 -> token_of n2 T2 -> n1 <> n2 -> T1 <> T2.
Proof.
  intros (_ & _ & H1) (_ & _ & H2) Hne ->.
  apply Hne, (obfuscateFilename_inj _ _ _ _ H1 H2).
Qed.

Lemma gop_state_mapped (name T : string) (w : World) (m : FilenameMap)
    (files : gmap string node) :
  root_state fs w m files -> token_of name T -> m !! T = Some name ->
  exists w', Fs.getObfuscatedPath fs (S n) name w = (Ok T, w') /\
             root_state fs w' m files /\ entropy w' = entropy w.
Proof.
  intros Hst Htok Hm. pose proof (token_of_like _ _ Htok) as Hlike.
  destruct Htok as (Hs & Hside & HT).
  destruct (obfuscate_state_mapped fs _ (getObfuscatedPath_dot fs n)
              n name T w m files Hst Hside HT Hm) as (w' & Hob & Hst' & He).
  exists w'. split; [|auto].
  apply (getObfuscatedPath_simple_Ok _ _ _ _ _ _ Hs Hob).
  apply token_like_simple, Hlike.
Qed.

Lemma gop_state_fresh (name T : string) (w : World) (m : FilenameMap)
    (files : gmap string node) :
  root_state fs w m files -> token_of name T -> m !! T = None ->
  NonceSize <= length (entropy w) ->
  exists w', Fs.getObfuscatedPath fs (S n) name w = (Ok T, w') /\
             root_state fs w' (<[T := name]> m) files /\
             entropy w' = skipn NonceSize (entropy w) /\
             backend w' !! root_filemap_key
             = Some (File (sealed (masterKey fs) (firstn NonceSize (entropy w))
                             (json_Marshal (<[T := name]> m)))).
Proof.
  intros Hst Htok Hm He. pose proof (token_of_like _ _ Htok) as Hlike.
  destruct Htok as (Hs & Hside & HT).
  destruct (obfuscate_state_fresh fs _ (getObfuscatedPath_dot fs n)
              n name T w m files Hst Hside HT Hm He)
    as (w' & Hob & Hst' & He' & Hb').
  exists w'. split; [|auto].
  apply (getObfuscatedPath_simple_Ok _ _ _ _ _ _ Hs Hob).
  apply token_like_simple, Hlike.
Qed.

(** [Create] of a name that the root does not have yet. *)
Lemma Create_state (name T : string) (w : World) (m : FilenameMap)
    (files : gmap string node) :
  root_state fs w m files -> token_of name T ->
  m !! T = None -> files !! T = None ->
  NonceSize <= length (entropy w) ->
  exists w', Facade.Create fs (S n) name w = (Ok (write_handle fs name T), w') /\
             root_state fs w' (<[T := name]> m) (<[T := File []]> files) /\
             entropy w' = skipn NonceSize (entropy w).
Proof.
  intros Hst Htok Hm Hf He. pose proof (token_of_like _ _ Htok) as Hlike.
  destruct Htok as (Hs & Hside & HT).
  destruct (obfuscate_state_fresh fs _ (getObfuscatedPath_dot fs (S n))
              n name T w m files Hst Hside HT Hm He)
    as (w1 & Hob & Hst1 & He1 & _).
  exists (set_backend (<[[T] := File []]> (backend w1)) w1).
  split; [|split].
  - rewrite (Create_simple fs n name T w w1 Hs Hob (token_like_simple _ Hlike)).
    pose proof (Backend_Create_file T w1) as Hc.
    rewrite (components_token _ Hlike) in Hc. rewrite Hc; [reflexivity|..].
    + discriminate.
    + destruct Hst1 as (_ & _ & Hfiles). rewrite (Hfiles _ Hlike), Hf.
      discriminate.
    + reflexivity.
  - apply (root_state_put fs w1 _ _ _ T (File []) Hst1 Hlike); reflexivity.
  - exact He1.
Qed.

(** [Write] of the data and [Close] on the handle of a new file. *)
Lemma Write_Close_state (name T : string) (data : list byte) (w : World)
    (m : FilenameMap) (files : gmap string node) :
  root_state fs w m files -> token_like T = true ->
  files !! T = Some (File []) ->
  NonceSize <= length (entropy w) ->
  exists s2 s3,
    Handle.Write data (write_handle fs name T, w) = (Ok (length data), s2) /\
    Handle.Close s2 = (Ok tt, s3) /\
    root_state fs (snd s3) m
      (<[T := File (sealed (masterKey fs) (firstn NonceSize (entropy w)) data)]>
         files) /\
    entropy (snd s3) = skipn NonceSize (entropy w).
Proof.
  intros Hst Hlike Hf He.
  assert (Hb : backend w !! [T] = Some (File [])).
  { destruct Hst as (_ & _ & Hfiles). rewrite (Hfiles _ Hlike). exact Hf. }
  assert (Hk : aes_key_ok (masterKey fs) = true) by apply Hst.
  eexists. eexists. split; [apply (Write_first fs name T data w Hb Hk He)|].
  assert (Hnonce : length (firstn NonceSize (entropy w)) = NonceSize).
  { rewrite length_firstn. lia. }
  split; [apply Close_written; [apply lookup_insert_eq|exact Hnonce]|].
  cbn [snd]. split; [|reflexivity].
  replace (<[T := File (sealed (masterKey fs) (firstn NonceSize (entropy w)) data)]>
             files)
    with (<[T := File (sealed (masterKey fs) (firstn NonceSize (entropy w)) data)]>
            (<[T := File (firstn NonceSize (entropy w))]> files))
    by apply insert_insert_eq.
  apply (root_state_put fs
           (mkWorld (<[[T] := File (firstn NonceSize (entropy w))]> (backend w))
              (cache w) (skipn NonceSize (entropy w))) _ m _ T);
    [|exact Hlike|reflexivity|reflexivity].
  apply (root_state_put fs w _ m files T _ Hst Hlike); reflexivity.
Qed.

Lemma removeFromFilemap_state (obf : string) (w : World) (m : FilenameMap)
    (files : gmap string node) :
  root_state fs w m files -> NonceSize <= length (entropy w) ->
  exists w', Fs.removeFromFilemap fs (S n) "." obf w = (Ok tt, w') /\
             root_state fs w' (delete obf m) files /\
             entropy w' = skipn NonceSize (entropy w).
Proof.
  intros Hst He.
  destruct (root_state_load fs _ (getObfuscatedPath_dot fs (S n)) _ _ _ Hst)
    as (wl & Hload & Hstl & Hc & Hel).
  exists (saved_world fs wl (delete obf m)). split; [|split].
  - unfold Fs.removeFromFilemap, Fs.removeFromFilemap_at.
    unfold bind at 1. rewrite (attempt_of _ _ _ _ Hload).
    unfold bind. rewrite cache_store_eq.
    rewrite (saveFilemap_root fs _ (getObfuscatedPath_dot fs (S n)));
      [|apply Hstl|cbn [entropy set_cache]; rewrite Hel; exact He].
    unfold saved_world, set_cache. cbn [backend cache entropy].
    rewrite insert_insert_eq. reflexivity.
  - apply (root_state_saved _ _ _ _ _ Hstl).
  - cbn [saved_world entropy]. rewrite Hel. reflexivity.
Qed.

(** [Rename] of a file of the root to a name that the root does not have. *)
Lemma Rename_state (old new Told Tnew : string) (c : list byte) (w : World)
    (m : FilenameMap) (files : gmap string node) :
  root_state fs w m files ->
  token_of old Told -> token_of new Tnew -> old <> new ->
  m !! Told = Some old -> m !! Tnew = None ->
  files !! Told = Some (File c) ->
  2 * NonceSize <= length (entropy w) ->
  exists w', Facade.Rename fs (S n) old new w = (Ok tt, w') /\
             root_state fs w' (delete Told (<[Tnew := new]> m))
               (<[Tnew := File c]> (delete Told files)) /\
             entropy w' = skipn NonceSize (skipn NonceSize (entropy w)).
Proof.
  intros Hst Hold Hnew Hne Hmo Hmn Hf He.
  pose proof (token_of_like _ _ Hold) as Hlo.
  pose proof (token_of_like _ _ Hnew) as Hln.
  destruct (gop_state_mapped old Told w m files Hst Hold Hmo)
    as (w1 & Hgop & Hst1 & He1).
  destruct Hnew as (Hsn & Hsiden & HTn).
  destruct (obfuscate_state_fresh fs _ (getObfuscatedPath_dot fs (S n))
              n new Tnew w1 m files Hst1 Hsiden HTn Hmn)
    as (w2 & Hob & Hst2 & He2 & _); [rewrite He1; lia|].
  set (w3 := set_backend (<[[Tnew] := File c]> (delete [Told] (backend w2))) w2).
  assert (Hst3 : root_state fs w3 (<[Tnew := new]> m)
                   (<[Tnew := File c]> (delete Told files))).
  { eapply (root_state_put fs (set_backend (delete [Told] (backend w2)) w2));
      [|exact Hln|reflexivity|reflexivity].
    apply (root_state_remove fs w2 _ _ files Told Hst2 Hlo); reflexivity. }
  destruct (removeFromFilemap_state Told w3 _ _ Hst3)
    as (w4 & Hrem & Hst4 & He4).
  { unfold w3. cbn [entropy set_backend]. rewrite He2, length_skipn, He1. lia. }
  exists w4. split; [|split].
  - unfold Facade.Rename.
    destruct Hold as (Hso & _ & _).
    pose proof (simple_inv _ Hso) as (Ho1 & _).
    pose proof (simple_inv _ Hsn) as (Hn1 & _).
    apply String.eqb_neq in Ho1, Hn1. rewrite Ho1, Hn1. cbn [orb].
    rewrite (dir_of_simple _ Hsn), (Base_simple _ Hsn), (dir_of_simple _ Hso).
    unfold bind at 1. rewrite (wrap_Ok _ _ _ _ _ Hgop).
    unfold bind at 1. unfold Fs.obfuscateFilename.
    rewrite (wrap_Ok _ _ _ _ _ Hob).
    unfold bind at 1.
    rewrite (wrap_Ok _ _ _ _ _ (getObfuscatedPath_dot _ _ _)).
    rewrite (Join_dot_simple _ (token_like_simple _ Hln)).
    rewrite (Base_simple _ (token_like_simple _ Hlo)).
    unfold bind at 1.
    rewrite (Backend_Rename_file Told Tnew Told Tnew c w2
               (components_token _ Hlo) (components_token _ Hln)).
    + fold w3. unfold bind. rewrite (attempt_of _ _ _ _ Hrem). reflexivity.
    + destruct Hst2 as (_ & _ & Hfiles). rewrite (Hfiles _ Hlo). exact Hf.
  - exact Hst4.
  - rewrite He4. unfold w3. cbn [entropy set_backend]. rewrite He2, He1.
    reflexivity.
Qed.

(** [Stat] and [Open] of a name that the root does not have: the backend
    reports that the file does not exist, and the mapping of the name has
    been added to the filemap and saved. *)
Lemma Stat_state_missing (name T : string) (w : World) (m : FilenameMap)
    (files : gmap string node) :
  root_state fs w m files -> token_of name T ->
  m !! T = None -> files !! T = None ->
  NonceSize <= length (entropy w) ->
  exists w', Facade.Stat fs (S n) name w = (Err ErrNotExist, w') /\
             root_state fs w' (<[T := name]> m) files /\
             entropy w' = skipn NonceSize (entropy w) /\
             backend w' !! root_filemap_key
             = Some (File (sealed (masterKey fs) (firstn NonceSize (entropy w))
                             (json_Marshal (<[T := name]> m)))).
Proof.
  intros Hst Htok Hm Hf He. pose proof (token_of_like _ _ Htok) as Hlike.
  destruct (gop_state_fresh name T w m files Hst Htok Hm He)
    as (w' & Hgop & Hst' & He' & Hb').
  exists w'. split; [|auto].
  rewrite Stat_eq, Hgop.
  rewrite (Backend_Stat_missing T T w' (components_token _ Hlike));
    [reflexivity|].
  destruct Hst' as (_ & _ & Hfiles). rewrite (Hfiles _ Hlike). exact Hf.
Qed.

Lemma Open_state_missing (name T : string) (w : World) (m : FilenameMap)
    (files : gmap string node) :
  root_state fs w m files -> token_of name T ->
  m !! T = None -> files !! T = None ->
  NonceSize <= length (entropy w) ->
  exists w', Facade.Open fs (S n) name w = (Err ErrNotExist, w') /\
             root_state fs w' (<[T := name]> m) files /\
             entropy w' = skipn NonceSize (entropy w) /\
             backend w' !! root_filemap_key
             = Some (File (sealed (masterKey fs) (firstn NonceSize (entropy w))
                             (json_Marshal (<[T := name]> m)))).
Proof.
  intros Hst Htok Hm Hf He. pose proof (token_of_like _ _ Htok) as Hlike.
  destruct (gop_state_fresh name T w m files Hst Htok Hm He)
    as (w' & Hgop & Hst' & He' & Hb').
  exists w'. split; [|auto].
  destruct Htok as (Hs & _). pose proof (simple_inv _ Hs) as (Hne & _).
  rewrite (Open_eq _ _ _ _ Hne), Hgop.
  rewrite (Backend_Open_missing T T w' (components_token _ Hlike));
    [reflexivity|].
  destruct Hst' as (_ & _ & Hfiles). rewrite (Hfiles _ Hlike). exact Hf.
Qed.

(** [Open] of a file of the root. *)
Lemma Open_state (name T : string) (c : list byte) (w : World)
    (m : FilenameMap) (files : gmap string node) :
  root_state fs w m files -> token_of name T ->
  m !! T = Some name -> files !! T = Some (File c) ->
  exists w', Facade.Open fs (S n) name w = (Ok (read_handle fs name T), w') /\
             root_state fs w' m files /\ entropy w' = entropy w /\
             backend w' !! [T] = Some (File c).
Proof.
  intros Hst Htok Hm Hf. pose proof (token_of_like _ _ Htok) as Hlike.
  destruct (gop_state_mapped name T w m files Hst Htok Hm)
    as (w1 & Hgop & Hst1 & He1).
  assert (Hb : backend w1 !! [T] = Some (File c)).
  { destruct Hst1 as (_ & _ & Hfiles). rewrite (Hfiles _ Hlike). exact Hf. }
  exists (set_backend (<[[T] := File c]> (backend w1)) w1).
  split; [|split; [|split]].
  - destruct Htok as (Hs & _). pose proof (simple_inv _ Hs) as (Hne & _).
    rewrite (Open_eq _ _ _ _ Hne), Hgop.
    pose proof (Backend_Open_file T w1 c) as Ho.
    rewrite (components_token _ Hlike) in Ho.
    unfold Backend.Open in Ho. rewrite Ho; [reflexivity|discriminate|exact Hb].
  - replace files with (<[T := File c]> files) by (apply insert_id, Hf).
    apply (root_state_put fs w1 _ m files T (File c) Hst1 Hlike); reflexivity.
  - exact He1.
  - apply lookup_insert_eq.
Qed.

End FacadeState.

(** ** A volume made on an empty backend *)

Section FreshVolume.
Context `{Primitives}.

(** The configuration that [initializeConfig] writes from the entropy. *)
Definition first_config (e : list byte) : Config :=
  mkConfig (firstn SaltSize e) DefaultIterations ConfigVersion.

(** The world after [initializeConfig] on an empty backend. *)
Definition initialized_world (w : World) : World :=
  mkWorld
    (<[config_key := File (json_Encode (first_config (entropy w)))]>
       (<[sidecar_key := Directory]> ∅))
    (cache w) (skipn SaltSize (entropy w)).

Lemma initializeConfig_empty (w : World) :
  backend w = ∅ -> SaltSize <= length (entropy w) ->
  initializeConfig w = (Ok tt, initialized_world w).
Proof.
  destruct w as [b c e]. cbn [backend entropy]. intros -> He.
  unfold initializeConfig, bind at 1, wrap at 1, rand_Read.
  cbn [entropy]. replace (length e <? SaltSize)%nat with false
    by (symmetry; apply Nat.ltb_ge, He).
  unfold saveConfig.
  change (Join [GrainFSDir; ConfigFile]) with ".grainfs/config.json".
  unfold bind at 1, wrap at 1, Backend.MkdirAll.
  change (components GrainFSDir) with sidecar_key.
  cbn [sidecar_key Backend.proper_prefixes app Backend.mk_dirs backend set_entropy
       set_backend cache entropy].
  rewrite lookup_empty.
  unfold bind at 1, wrap at 1, Backend.Create, Backend.OpenFile.
  change (components ".grainfs/config.json") with config_key.
  cbn [backend set_backend set_entropy cache entropy].
  rewrite lookup_insert_ne by discriminate. rewrite lookup_empty.
  change (has_flag (Z.lor O_RDWR (Z.lor O_CREATE O_TRUNC)) O_CREATE) with true.
  cbn [config_key Backend.proper_prefixes List.map Backend.mk_dirs].
  change [GrainFSDir] with sidecar_key. rewrite lookup_insert_eq.
  unfold bind at 1, wrap at 1, with_file, Backend.Write.
  cbn [u_flag u_key u_pos set_backend backend cache entropy].
  change (Backend.writable (Z.lor O_RDWR (Z.lor O_CREATE O_TRUNC))) with true.
  cbn [negb]. unfold Backend.content_of.
  cbn [u_key backend set_backend set_entropy cache entropy].
  rewrite lookup_insert_eq. cbn [firstn length Nat.sub repeat app Nat.add snd].
  rewrite skipn_nil, app_nil_r, insert_insert_eq.
  reflexivity.
Qed.

Lemma loadConfig_again (fuel : nat) (w : World) (c : Config) :
  holds_config w c -> loadConfig (S fuel) w = (Ok c, w).
Proof.
  intros (data & Hl & Hd & Hs & Hi).
  cbn [loadConfig].
  change (Join [GrainFSDir; ConfigFile]) with ".grainfs/config.json".
  assert (Hk : components ".grainfs/config.json" = config_key) by reflexivity.
  unfold bind at 1. rewrite attempt_eq.
  rewrite (Backend_Open_file _ _ data); rewrite Hk; [|discriminate|exact Hl].
  cbn [fst snd]. unfold bind at 1. rewrite attempt_eq.
  rewrite (with_file_ReadAll_file _ _ data);
    [|reflexivity|cbn [u_key backend set_backend]; apply lookup_insert_eq].
  cbn [fst snd u_pos]. rewrite drop_0, Hd, Hs.
  change (SaltSize =? SaltSize)%nat with true. cbn [negb].
  replace (Iterations c <=? 0)%Z with false by (symmetry; apply Z.leb_gt; lia).
  unfold ret. f_equal. rewrite (insert_id _ _ _ Hl).
  destruct w; reflexivity.
Qed.

(** The volume that [New] makes on an empty backend with the password. *)
Definition first_volume (password : string) (e : list byte) : GrainFS :=
  let c := first_config e in
  let keys := deriveKeys password (Salt c) (Iterations c) in
  mkGrainFS (fst keys) (snd keys) ".".

Lemma holds_first_config (w : World) :
  SaltSize <= length (entropy w) ->
  holds_config (initialized_world w) (first_config (entropy w)).
Proof.
  intros He. exists (json_Encode (first_config (entropy w))).
  split; [apply lookup_insert_eq|]. split; [apply json_Decode_Encode|].
  split; [|reflexivity].
  cbn [first_config Salt]. rewrite length_firstn. lia.
Qed.

(** [New] on an empty backend: with fuel for the second [loadConfig] and
    entropy for the salt, the volume is made and mounted. *)
Lemma New_empty (k : nat) (password : string) (w : World) :
  password <> "" -> backend w = ∅ -> SaltSize <= length (entropy w) ->
  Facade.New (S (S k)) password w
  = (Ok (first_volume password (entropy w)),
     set_cache ∅ (initialized_world w)).
Proof.
  intros Hpw Hb He. unfold Facade.New.
  apply String.eqb_neq in Hpw. rewrite Hpw.
  assert (Hload : loadConfig (S (S k)) w
                  = (Ok (first_config (entropy w)), initialized_world w)).
  { cbn [loadConfig].
    change (Join [GrainFSDir; ConfigFile]) with ".grainfs/config.json".
    unfold bind at 1. rewrite attempt_eq.
    unfold Backend.Open, Backend.OpenFile.
    change (components ".grainfs/config.json") with config_key.
    rewrite Hb, lookup_empty, has_flag_RDONLY.
    cbn [config_key fst snd IsNotExist].
    unfold bind at 1, wrap at 1.
    rewrite (initializeConfig_empty w Hb He).
    apply (loadConfig_again k), holds_first_config, He. }
  unfold bind at 1. rewrite (wrap_Ok _ _ _ _ _ Hload).
  reflexivity.
Qed.

Lemma first_volume_state (password : string) (w : World) :
  root_state (first_volume password (entropy w))
    (set_cache ∅ (initialized_world w)) ∅ ∅.
Proof.
  split; [split; [|split]|split].
  - apply deriveKeys_ok.
  - cbn [set_cache initialized_world backend].
    rewrite lookup_insert_ne by discriminate. apply lookup_insert_eq.
  - cbn [set_cache initialized_world backend].
    rewrite !lookup_insert_ne by discriminate. rewrite lookup_empty.
    discriminate.
  - right. cbn [set_cache initialized_world backend cache].
    rewrite !lookup_insert_ne by discriminate. rewrite !lookup_empty. auto.
  - intros t Ht. cbn [set_cache initialized_world backend].
    rewrite lookup_insert_ne by discriminate.
    rewrite lookup_insert_ne by (apply not_eq_sym, token_key_ne_sidecar, Ht).
    rewrite !lookup_empty. reflexivity.
Qed.

End FreshVolume.

(** ** C4: rename, then look at the old name *)

Section RenameScenario.
Context `{Primitives}.
Variable fs : GrainFS.
Variable n : nat.

(** The token of a name under the filename key of the volume. *)
Definition token (name : string) : string :=
  EncodeToString (token_bytes (filenameKey fs) name).

(** A name that the root can hold: one component of at most 102 bytes that
    is not the sidecar. *)
Definition root_name (name : string) : bool :=
  simple name && negb (Fs.is_sidecar name) && (String.length name <=? 102)%nat.

Lemma token_of_token (name : string) :
  aes_key_ok (filenameKey fs) = true -> root_name name = true ->
  token_of fs name (token name).
Proof.
  intros Hk Hn. unfold root_name in Hn.
  apply andb_prop in Hn as [Hn Hlen]. apply andb_prop in Hn as [Hs Hside].
  apply negb_true_iff in Hside. apply Nat.leb_le in Hlen.
  split; [exact Hs|]. split; [exact Hside|].
  pose proof (simple_inv _ Hs) as (Hne & _).
  rewrite (obfuscateFilename_eq _ _ Hk Hne).
  replace (102 <? String.length name)%nat with false
    by (symmetry; apply Nat.ltb_ge, Hlen).
  reflexivity.
Qed.

(** The filemap of the root after [old] has been created, renamed to [new]
    and looked up again. *)
Definition remapped (old new : string) : FilenameMap :=
  <[token old := old]> (<[token new := new]> ∅).

(** On an empty root: a file is created under [old] with [data], renamed to
    [new]; then [Stat] of [old] reports that it does not exist, [new] reads
    back as [data], and the filemap of the root holds [new] and, again,
    [old]. *)
Lemma rename_then_stat (old new : string) (data : list byte) (w : World) :
  root_state fs w ∅ ∅ -> aes_key_ok (filenameKey fs) = true ->
  root_name old = true -> root_name new = true -> old <> new ->
  5 * NonceSize <= length (entropy w) ->
  exists f w1 s2 s3 w4 w5 f' w6,
    Facade.Create fs (S n) old w = (Ok f, w1) /\
    Handle.Write data (f, w1) = (Ok (length data), s2) /\
    Handle.Close s2 = (Ok tt, s3) /\
    Facade.Rename fs (S n) old new (snd s3) = (Ok tt, w4) /\
    Facade.Stat fs (S n) old w4 = (Err ErrNotExist, w5) /\
    Facade.Open fs (S n) new w5 = (Ok f', w6) /\
    (forall sizes, Forall (fun b => 1 <= b) sizes ->
                   length data < length sizes ->
                   exists f'', Handle.ReadAll sizes [] (f', w6)
                               = (Ok data, (f'', w6))) /\
    exists w7, Fs.loadFilemap fs (S n) "." w6 = (Ok (remapped old new), w7).
Proof.
  intros Hst Hk Hold Hnew Hne He.
  pose proof (token_of_token old Hk Hold) as Hto.
  pose proof (token_of_token new Hk Hnew) as Htn.
  pose proof (token_of_inj fs _ _ _ _ Hto Htn Hne) as Htne.
  pose proof (token_of_like fs _ _ Htn) as Hln.
  unfold NonceSize in He.
  destruct (Create_state fs n old (token old) w ∅ ∅ Hst Hto)
    as (w1 & Hcreate & Hst1 & He1);
    [apply lookup_empty|apply lookup_empty|unfold NonceSize; lia|].
  destruct (Write_Close_state fs old (token old) data w1 _ _ Hst1
              (token_of_like fs _ _ Hto))
    as (s2 & s3 & Hwrite & Hclose & Hst3 & He3);
    [apply lookup_insert_eq
    |rewrite He1, length_skipn; unfold NonceSize; lia|].
  set (c := sealed (masterKey fs) (firstn NonceSize (entropy w1)) data) in *.
  destruct (Rename_state fs n old new (token old) (token new) c (snd s3) _ _
              Hst3 Hto Htn Hne)
    as (w4 & Hrename & Hst4 & He4);
    [apply lookup_insert_eq
    |rewrite lookup_insert_ne by exact Htne; apply lookup_empty
    |apply lookup_insert_eq
    |rewrite He3, length_skipn, He1, length_skipn; unfold NonceSize; lia|].
  destruct (Stat_state_missing fs n old (token old) w4 _ _ Hst4 Hto)
    as (w5 & Hstat & Hst5 & He5 & _);
    [apply lookup_delete_eq
    |rewrite lookup_insert_ne by (apply not_eq_sym, Htne);
     apply lookup_delete_eq
    |rewrite He4, !length_skipn, He3, length_skipn, He1, length_skipn;
     unfold NonceSize; lia|].
  assert (Hm : <[token old := old]>
                 (delete (token old)
                    (<[token new := new]> (<[token old := old]> ∅)))
               = remapped old new).
  { unfold remapped. rewrite insert_delete_eq.
    rewrite (insert_insert_ne ∅ (token new) (token old))
      by (apply not_eq_sym, Htne).
    apply insert_insert_eq. }
  rewrite Hm in Hst5.
  destruct (Open_state fs n new (token new) c w5 _ _ Hst5 Htn)
    as (w6 & Hopen & Hst6 & _ & Hb6);
    [unfold remapped; rewrite lookup_insert_ne by exact Htne;
     apply lookup_insert_eq
    |apply lookup_insert_eq|].
  destruct (root_state_load fs _ (getObfuscatedPath_dot fs (S n)) _ _ _ Hst6)
    as (w7 & Hload & _).
  exists (write_handle fs old (token old)), w1, s2, s3, w4, w5,
    (read_handle fs new (token new)), w6.
  repeat (split; [assumption|]). split; [|exists w7; exact Hload].
  intros sizes Hall Hlen.
  apply (ReadAll_fresh fs new (token new) (firstn NonceSize (entropy w1)) data
           w6 sizes Hb6); auto.
  - rewrite length_firstn, He1, length_skipn. unfold NonceSize. lia.
  - apply Hst.
Qed.

Lemma remapped_size (old new : string) :
  token old <> token new -> size (remapped old new) = 2.
Proof.
  intros Htne. unfold remapped.
  rewrite map_size_insert_None
    by (rewrite lookup_insert_ne by (apply not_eq_sym, Htne); apply lookup_empty).
  rewrite map_size_insert_None by apply lookup_empty.
  rewrite map_size_empty. reflexivity.
Qed.

End RenameScenario.

(** C4.  On a volume made on an empty backend: "old.txt" is created with
    the content "X" and renamed to "new.txt".  Then [Stat] of "old.txt"
    reports that the file does not exist and "new.txt" reads back as "X",
    but the filemap of the root does not hold the one entry of "new.txt":
    the [Stat] of the old name has put the mapping of "old.txt" back, and
    the filemap has two entries. *)
Theorem rename_then_stat_remaps_old_name `{Primitives}
    (k : nat) (password : string) (w0 : World) :
  password <> "" -> backend w0 = ∅ ->
  SaltSize + 5 * NonceSize <= length (entropy w0) ->
  exists fs w f w1 s2 s3 w4 w5 f' w6 w7,
    Facade.New (S (S k)) password w0 = (Ok fs, w) /\
    Facade.Create fs (S k) "old.txt" w = (Ok f, w1) /\
    Handle.Write [x58] (f, w1) = (Ok 1, s2) /\
    Handle.Close s2 = (Ok tt, s3) /\
    Facade.Rename fs (S k) "old.txt" "new.txt" (snd s3) = (Ok tt, w4) /\
    Facade.Stat fs (S k) "old.txt" w4 = (Err ErrNotExist, w5) /\
    Facade.Open fs (S k) "new.txt" w5 = (Ok f', w6) /\
    (forall sizes, Forall (fun b => 1 <= b) sizes -> 1 < length sizes ->
                   exists f'', Handle.ReadAll sizes [] (f', w6)
                               = (Ok [x58], (f'', w6))) /\
    Fs.loadFilemap fs (S k) "." w6
    = (Ok (<[token fs "old.txt" := "old.txt"]>
             (<[token fs "new.txt" := "new.txt"]> ∅)), w7) /\
    token fs "old.txt" <> token fs "new.txt" /\
    size (<[token fs "old.txt" := "old.txt"]>
            (<[token fs "new.txt" := "new.txt"]> (∅ : FilenameMap))) = 2.
Proof.
  intros Hpw Hb He.
  set (fs := first_volume password (entropy w0)).
  set (w := set_cache ∅ (initialized_world w0)).
  assert (Hk : aes_key_ok (filenameKey fs) = true) by apply deriveKeys_ok.
  assert (Hne : "old.txt" <> "new.txt") by discriminate.
  destruct (rename_then_stat fs k "old.txt" "new.txt" [x58] w
              (first_volume_state password w0) Hk eq_refl eq_refl Hne)
    as (f & w1 & s2 & s3 & w4 & w5 & f' & w6 & Hcreate & Hwrite & Hclose
        & Hrename & Hstat & Hopen & Hread & w7 & Hload).
  { unfold w. cbn [set_cache initialized_world entropy].
    rewrite length_skipn. lia. }
  assert (Htne : token fs "old.txt" <> token fs "new.txt").
  { apply (token_of_inj fs "old.txt" "new.txt"); [| |exact Hne];
      apply token_of_token; auto. }
  exists fs, w, f, w1, s2, s3, w4, w5, f', w6, w7.
  split; [apply New_empty; [exact Hpw|exact Hb|lia]|].
  split; [exact Hcreate|]. split; [exact Hwrite|]. split; [exact Hclose|].
  split; [exact Hrename|]. split; [exact Hstat|]. split; [exact Hopen|].
  split; [exact Hread|]. split; [exact Hload|]. split; [exact Htne|].
  apply (remapped_size fs _ _ Htne).
Qed.

(** A world with an empty backend, an empty cache and [n] bytes of
    entropy. *)
Definition empty_world (n : nat) : World := mkWorld ∅ ∅ (repeat x07 n).

Lemma rename_then_stat_remaps_old_name_witness :
  exists fs w4 w5 f' w6 m w7,
    @Facade.Stat Ref.prims fs 1 "old.txt" w4 = (Err ErrNotExist, w5) /\
    @Facade.Open Ref.prims fs 1 "new.txt" w5 = (Ok f', w6) /\
    @Fs.loadFilemap Ref.prims fs 1 "." w6 = (Ok m, w7) /\ size m = 2.
Proof.
  destruct (@rename_then_stat_remaps_old_name Ref.prims 0 "pw" (empty_world 92))
    as (fs & w & f & w1 & s2 & s3 & w4 & w5 & f' & w6 & w7 & _ & _ & _ & _
        & _ & Hstat & Hopen & _ & Hload & _ & Hsize).
  - discriminate.
  - reflexivity.
  - vm_compute. lia.
  - exists fs, w4, w5, f', w6.
    exists (<[@token Ref.prims fs "old.txt" := "old.txt"]>
              (<[@token Ref.prims fs "new.txt" := "new.txt"]> ∅)), w7.
    split; [exact Hstat|]. split; [exact Hopen|]. split; [exact Hload|].
    exact Hsize.
Defined.

(** ** C7: files without content *)

Section EmptyFiles.
Context `{Primitives}.
Variable fs : GrainFS.
Variable n : nat.

Lemma decryptData_sealed (key nonce p : list byte) :
  aes_key_ok key = true -> length nonce = NonceSize ->
  decryptData key (sealed key nonce p) = Ok p.
Proof.
  intros Hk Hn. unfold decryptData, sealed.
  rewrite length_app, gcm_Seal_length, Hn.
  replace (_ <? _)%nat with false by (symmetry; apply Nat.ltb_ge; lia).
  rewrite Hk. cbn [negb].
  rewrite <- Hn at 1. rewrite firstn_app, firstn_all, Nat.sub_diag.
  cbn [firstn]. rewrite app_nil_r.
  rewrite <- Hn at 1. rewrite skipn_app, skipn_all, Nat.sub_diag.
  rewrite drop_0, app_nil_l.
  rewrite gcm_Open_Seal by auto. reflexivity.
Qed.

Lemma sealed_length (key nonce p : list byte) :
  length nonce = NonceSize ->
  length (sealed key nonce p) = NonceSize + length p + TagSize.
Proof.
  intros Hn. unfold sealed. rewrite length_app, gcm_Seal_length, Hn. lia.
Qed.

(** The error of a read whose reader cannot be set up because the backend
    file ends before the nonce. *)
Definition no_nonce_error : error :=
  Wrap "failed to initialize reader"
    (Wrap "failed to initialize decrypting reader"
       (Wrap "failed to read nonce" EOF)).

(** A new file of the root that gets no content, on its two ways.  After
    [Write] of no bytes and [Close] the backend holds a nonce and a tag, and
    the first [Read] returns [io.EOF]; after [Close] alone the backend holds
    no byte at all, and the first [Read] fails on the nonce. *)
Lemma empty_file_paths (name T : string) (w : World) (m : FilenameMap)
    (files : gmap string node) (b : nat) :
  root_state fs w m files -> token_of fs name T ->
  m !! T = None -> files !! T = None ->
  2 * NonceSize <= length (entropy w) ->
  exists f w1,
    Facade.Create fs (S n) name w = (Ok f, w1) /\
    (exists s2 s3 f' w4 nonce,
        Handle.Write [] (f, w1) = (Ok 0, s2) /\
        Handle.Close s2 = (Ok tt, s3) /\
        length nonce = NonceSize /\
        backend (snd s3) !! [T] = Some (File (sealed (masterKey fs) nonce [])) /\
        Facade.Open fs (S n) name (snd s3) = (Ok f', w4) /\
        fst (Handle.Read b (f', w4)) = Err EOF) /\
    (exists s3 f' w4,
        Handle.Close (f, w1) = (Ok tt, s3) /\
        backend (snd s3) !! [T] = Some (File []) /\
        Facade.Open fs (S n) name (snd s3) = (Ok f', w4) /\
        fst (Handle.Read b (f', w4)) = Err no_nonce_error).
Proof.
  intros Hst Htok Hm Hf He.
  pose proof (token_of_like fs _ _ Htok) as Hlike.
  assert (Hk : aes_key_ok (masterKey fs) = true) by apply Hst.
  unfold NonceSize in He.
  destruct (Create_state fs n name T w m files Hst Htok Hm Hf)
    as (w1 & Hcreate & Hst1 & He1); [unfold NonceSize; lia|].
  exists (write_handle fs name T), w1. split; [exact Hcreate|]. split.
  - destruct (Write_Close_state fs name T [] w1 _ _ Hst1 Hlike)
      as (s2 & s3 & Hwrite & Hclose & Hst3 & He3);
      [apply lookup_insert_eq
      |rewrite He1, length_skipn; unfold NonceSize; lia|].
    set (nonce := firstn NonceSize (entropy w1)) in *.
    assert (Hn : length nonce = NonceSize).
    { unfold nonce. rewrite length_firstn, He1, length_skipn.
      unfold NonceSize. lia. }
    destruct (Open_state fs n name T (sealed (masterKey fs) nonce [])
                (snd s3) _ _ Hst3 Htok)
      as (w4 & Hopen & _ & _ & Hb4);
      [apply lookup_insert_eq|apply lookup_insert_eq|].
    exists s2, s3, (read_handle fs name T), w4, nonce.
    split; [exact Hwrite|]. split; [exact Hclose|]. split; [exact Hn|].
    split; [|split; [exact Hopen|]].
    + destruct Hst3 as (_ & _ & Hfiles).
      rewrite (Hfiles _ Hlike). apply lookup_insert_eq.
    + rewrite (Read_fresh fs name T nonce [] w4 b Hb4 Hn Hk), Read_ready.
      reflexivity.
  - rewrite Close_unwritten. cbn [snd].
    destruct (Open_state fs n name T [] w1 _ _ Hst1 Htok)
      as (w4 & Hopen & _ & _ & Hb4);
      [apply lookup_insert_eq|apply lookup_insert_eq|].
    exists (set_closed true (write_handle fs name T), w1),
      (read_handle fs name T), w4.
    split; [reflexivity|]. cbn [snd]. split; [|split; [exact Hopen|]].
    + destruct Hst1 as (_ & _ & Hfiles).
      rewrite (Hfiles _ Hlike). apply lookup_insert_eq.
    + apply (Read_empty_file fs name T b w4 Hb4 Hk).
Qed.

End EmptyFiles.

(** C7.  On a volume made on an empty backend, for a new file of the root:
    [Write] of zero bytes followed by [Close] leaves the minimal envelope,
    a nonce and a tag, which decrypts to the empty byte string, and the
    first [Read] of the file returns [io.EOF].  When the file is created and
    closed with no [Write] at all, no envelope is written: the backend file
    has no byte, and the first [Read] does not return [io.EOF] but the
    error of the missing nonce. *)
Theorem close_without_write_leaves_no_envelope `{Primitives}
    (k : nat) (password name : string) (w0 : World) (b : nat) :
  password <> "" -> backend w0 = ∅ -> root_name name = true ->
  SaltSize + 2 * NonceSize <= length (entropy w0) ->
  exists fs w f w1,
    Facade.New (S (S k)) password w0 = (Ok fs, w) /\
    Facade.Create fs (S k) name w = (Ok f, w1) /\
    (exists s2 s3 f' w4 envelope,
        Handle.Write [] (f, w1) = (Ok 0, s2) /\
        Handle.Close s2 = (Ok tt, s3) /\
        backend (snd s3) !! [token fs name] = Some (File envelope) /\
        length envelope = NonceSize + TagSize /\
        decryptData (masterKey fs) envelope = Ok [] /\
        Facade.Open fs (S k) name (snd s3) = (Ok f', w4) /\
        fst (Handle.Read b (f', w4)) = Err EOF) /\
    (exists s3 f' w4 e,
        Handle.Close (f, w1) = (Ok tt, s3) /\
        backend (snd s3) !! [token fs name] = Some (File []) /\
        Facade.Open fs (S k) name (snd s3) = (Ok f', w4) /\
        fst (Handle.Read b (f', w4)) = Err e /\
        e = no_nonce_error /\ is_EOF e = false).
Proof.
  intros Hpw Hb Hname He.
  set (fs := first_volume password (entropy w0)).
  set (w := set_cache ∅ (initialized_world w0)).
  assert (Hk : aes_key_ok (filenameKey fs) = true) by apply deriveKeys_ok.
  assert (Hmk : aes_key_ok (masterKey fs) = true) by apply deriveKeys_ok.
  destruct (empty_file_paths fs k name (token fs name) w ∅ ∅ b
              (first_volume_state password w0)
              (token_of_token fs name Hk Hname))
    as (f & w1 & Hcreate & Hwritten & Hunwritten);
    [apply lookup_empty|apply lookup_empty| |].
  { unfold w. cbn [set_cache initialized_world entropy].
    rewrite length_skipn. lia. }
  exists fs, w, f, w1.
  split; [apply New_empty; [exact Hpw|exact Hb|lia]|].
  split; [exact Hcreate|]. split.
  - destruct Hwritten
      as (s2 & s3 & f' & w4 & nonce & Hwrite & Hclose & Hn & Hfile & Hopen
          & Hread).
    exists s2, s3, f', w4, (sealed (masterKey fs) nonce []).
    split; [exact Hwrite|]. split; [exact Hclose|]. split; [exact Hfile|].
    split; [rewrite (sealed_length _ _ _ Hn); cbn [length]; lia|].
    split; [apply (decryptData_sealed _ _ _ Hmk Hn)|].
    split; [exact Hopen|exact Hread].
  - destruct Hunwritten as (s3 & f' & w4 & Hclose & Hfile & Hopen & Hread).
    exists s3, f', w4, no_nonce_error.
    split; [exact Hclose|]. split; [exact Hfile|]. split; [exact Hopen|].
    split; [exact Hread|]. split; reflexivity.
Qed.

Lemma close_without_write_leaves_no_envelope_witness :
  exists fs w1 f s3 f' w4,
    @Facade.Create Ref.prims fs 1 "empty.txt"
      (set_cache ∅ (@initialized_world Ref.prims (empty_world 56)))
    = (Ok f, w1) /\
    @Handle.Close Ref.prims (f, w1) = (Ok tt, s3) /\
    @Facade.Open Ref.prims fs 1 "empty.txt" (snd s3) = (Ok f', w4) /\
    fst (@Handle.Read Ref.prims 16 (f', w4)) = Err no_nonce_error.
Proof.
  destruct (@close_without_write_leaves_no_envelope Ref.prims 0 "pw"
              "empty.txt" (empty_world 56) 16)
    as (fs & w & f & w1 & Hnew & Hcreate & _
        & s3 & f' & w4 & e & Hclose & _ & Hopen & Hread & He & _).
  - discriminate.
  - reflexivity.
  - reflexivity.
  - vm_compute. lia.
  - exists fs, w1, f, s3, f', w4.
    rewrite (@New_empty Ref.prims 0 "pw" (empty_world 56)) in Hnew;
      [|discriminate|reflexivity|vm_compute; lia].
    injection Hnew as _ <-.
    split; [exact Hcreate|]. split; [exact Hclose|]. split; [exact Hopen|].
    rewrite <- He. exact Hread.
Defined.

(** ** C8: what path translation leaves behind *)

Lemma Backend_Create_inv (p : string) (w w1 : World) (u : ufile) :
  Backend.Create p w = (Ok u, w1) ->
  u = mkUfile (components p) 0 create_flags /\
  backend w1 !! components p = Some (File []) /\
  cache w1 = cache w /\ entropy w1 = entropy w.
Proof.
  unfold Backend.Create, Backend.OpenFile. fold create_flags. intros Ho.
  destruct (components p) as [|x k] eqn:Hk; [discriminate|].
  destruct (backend w !! (x :: k)) as [[c|]|].
  - injection Ho as <- <-. cbn [backend set_backend cache entropy].
    rewrite lookup_insert_eq. auto.
  - discriminate.
  - change (has_flag create_flags O_CREATE) with true in Ho. cbv iota in Ho.
    destruct (Backend.mk_dirs _ _) as [b'|e]; [|discriminate].
    injection Ho as <- <-. cbn [backend set_backend cache entropy].
    rewrite lookup_insert_eq. auto.
Qed.

Lemma encryptData_inv `{Primitives} (key plaintext enc : list byte) (w w1 : World) :
  encryptData key plaintext w = (Ok enc, w1) ->
  aes_key_ok key = true /\
  enc = sealed key (firstn NonceSize (entropy w)) plaintext /\
  NonceSize <= length (entropy w) /\
  backend w1 = backend w /\ cache w1 = cache w.
Proof.
  unfold encryptData, aes_NewCipher, bind, wrap, rand_Read, ret.
  destruct (aes_key_ok key); [|discriminate].
  destruct (Nat.ltb_spec (length (entropy w)) NonceSize); [discriminate|].
  intros Henc. injection Henc as <- <-. auto.
Qed.

Section Persist.
Context `{Primitives}.
Variable fs : GrainFS.
Variable gop : string -> M string.

(** The filemap [fm] of [dir] is in the cache and, sealed, in the sidecar
    file of the directory [od] of the backend. *)
Definition persisted (dir : string) (fm : FilenameMap) (w : World) : Prop :=
  cache w !! dir = Some fm /\
  exists od nonce,
    length nonce = NonceSize /\
    backend w !! components (Join [od; GrainFSDir; FilemapFile])
    = Some (File (sealed (masterKey fs) nonce (json_Marshal fm))).

(** What is persisted can be read back when its names are valid UTF-8:
    the envelope decrypts to the encoding of the filemap. *)
Lemma persisted_decrypts (key nonce : list byte) (fm : FilenameMap) :
  aes_key_ok key = true -> length nonce = NonceSize -> utf8_filemap fm ->
  match decryptData key (sealed key nonce (json_Marshal fm)) with
  | Ok data => json_Unmarshal data
  | Err _ => None
  end = Some fm.
Proof.
  intros Hk Hn Hu. rewrite (decryptData_sealed _ _ _ Hk Hn).
  apply json_Unmarshal_Marshal, Hu.
Qed.

Lemma saveFilemap_persisted (dir : string) (fm : FilenameMap) (w w' : World) :
  Fs.saveFilemap_at fs gop dir fm w = (Ok tt, w') -> persisted dir fm w'.
Proof.
  intros Hs. split; [apply (saveFilemap_post _ _ _ _ _ _ Hs)|].
  unfold Fs.saveFilemap_at in Hs.
  apply bind_Ok_inv in Hs as (enc & w1 & Henc & Hs).
  apply wrap_Ok_inv, encryptData_inv in Henc as (Hk & -> & He & _ & _).
  apply bind_Ok_inv in Hs as (od & w2 & _ & Hs).
  apply bind_Ok_inv in Hs as (file & w3 & Hcreate & Hs).
  apply wrap_Ok_inv, Backend_Create_inv in Hcreate as (-> & Hb3 & _ & _).
  apply bind_Ok_inv in Hs as (k & w4 & Hwrite & Hs).
  apply wrap_Ok_inv in Hwrite. unfold with_file in Hwrite.
  rewrite (Backend_Write_at
             (mkUfile (components (Join [od; GrainFSDir; FilemapFile])) 0
                create_flags) w3 [] _ eq_refl Hb3 eq_refl) in Hwrite.
  injection Hwrite as _ <-.
  rewrite cache_store_eq in Hs. injection Hs as <-.
  exists od, (firstn NonceSize (entropy w)).
  split; [rewrite length_firstn; lia|].
  cbn [backend set_cache set_backend u_key app]. apply lookup_insert_eq.
Qed.

(** No failure of [loadFilemap] passes for a missing file: the second
    branch of [updateFilemap] is never taken. *)
Lemma loadFilemap_Err (dir : string) (w w' : World) (e : error) :
  Fs.loadFilemap_at fs gop dir w = (Err e, w') -> IsNotExist e = false.
Proof.
  unfold Fs.loadFilemap_at, bind at 1, Fs.cache_lookup.
  destruct (cache w !! dir) as [cached|]; [discriminate|].
  unfold bind at 1, wrap at 1.
  destruct (gop dir w) as [[od|e0] w1];
    [|intros Hl; injection Hl as <- _; reflexivity].
  unfold bind at 1. rewrite attempt_eq.
  destruct (Backend.Open _ w1) as [[file|e0] w2]; cbn [fst snd].
  - unfold bind at 1, wrap at 1.
    destruct (with_file file Backend.ReadAll w2) as [[enc|e1] w3];
      [|intros Hl; injection Hl as <- _; reflexivity].
    unfold bind at 1, wrap at 1, lift.
    destruct (decryptData (masterKey fs) enc) as [dec|e1];
      [|intros Hl; injection Hl as <- _; reflexivity].
    destruct (json_Unmarshal dec) as [filemap|];
      [discriminate|intros Hl; injection Hl as <- _; reflexivity].
  - destruct (IsNotExist e0); [discriminate|].
    intros Hl. injection Hl as <- _. reflexivity.
Qed.

Lemma updateFilemap_persisted (dir original obf : string) (w w' : World) :
  Fs.updateFilemap_at fs gop dir original obf w = (Ok tt, w') ->
  exists m, persisted dir (<[obf := original]> m) w'.
Proof.
  unfold Fs.updateFilemap_at. intros Hu.
  apply bind_Ok_inv in Hu as (? & w1 & _ & Hu).
  apply bind_Ok_inv in Hu as (r & w2 & _ & Hu).
  destruct r as [filemap|e].
  - apply bind_Ok_inv in Hu as (? & w3 & _ & Hu).
    apply saveFilemap_persisted in Hu. eauto.
  - destruct (IsNotExist e); [|discriminate].
    apply saveFilemap_persisted in Hu. eauto.
Qed.

(** The effect of one [obfuscateFilename] that succeeds on a name other
    than the sidecar: the filemap of the directory is loaded; if it maps
    the token to the name already, nothing else happens; if the token is
    not mapped yet, the mapping is inserted and the filemap is saved. *)
Definition mapping_effect (dir name t : string) (w w' : World) : Prop :=
  exists m0 w1,
    Fs.loadFilemap_at fs gop dir w = (Ok m0, w1) /\
    ((m0 !! t = Some name /\ w' = w1) \/
     (m0 !! t = None /\
      exists m, persisted dir (<[t := name]> m) w')).

Lemma obfuscateFilename_effect (fuel : nat) (dir name t : string) (w w' : World) :
  Fs.is_sidecar name = false ->
  Fs.obfuscateFilename_at fs gop fuel dir name w = (Ok t, w') ->
  mapping_effect dir name t w w'.
Proof.
  unfold Fs.obfuscateFilename_at. intros Hside Hob.
  destruct (String.eqb name ""); [discriminate|]. rewrite Hside in Hob.
  apply bind_Ok_inv in Hob as (T & w0 & HT & Hob).
  apply wrap_Ok_inv in HT. unfold lift in HT. injection HT as HT <-.
  apply token_is_token_like in HT.
  apply bind_Ok_inv in Hob as ([t' b] & w1 & Hloop & Hob).
  pose proof (obfuscate_loop_post _ _ _ _ _ _ _ _ _ _ _ _ HT HT Hloop)
    as (_ & m' & Hc' & Hm').
  apply obfuscate_loop_inv in Hloop as (m0 & Hload & Hc & _).
  rewrite Hc in Hc'. injection Hc' as <-.
  exists m0, w1. split; [exact Hload|].
  cbn [fst snd] in Hob. destruct b.
  - injection Hob as <- <-. left. auto.
  - apply bind_Ok_inv in Hob as ([] & w2 & Hupd & Hob).
    injection Hob as <- <-. right. split; [exact Hm'|].
    apply wrap_Ok_inv in Hupd.
    apply (updateFilemap_persisted _ _ _ _ _ Hupd).
Qed.

End Persist.

(** The last component that [getObfuscatedPath] translates: empty
    components and dots are passed over. *)
Fixpoint final_part (parts : list string) : option string :=
  match parts with
  | [] => None
  | part :: rest =>
      match final_part rest with
      | Some b => Some b
      | None =>
          if String.eqb part "" || String.eqb part "." then None
          else Some part
      end
  end.

Section LastComponent.
Context `{Primitives}.
Variable fs : GrainFS.
Variable gop : string -> M string.

Lemma gop_loop_skip (fuel : nat) (parts : list string) (cur : string)
    (acc : list string) (w : World) :
  final_part parts = None ->
  Fs.gop_loop fs gop fuel parts cur acc w = (Ok acc, w).
Proof.
  induction parts as [|part rest IH]; intros Hf; [reflexivity|].
  cbn [final_part] in Hf. cbn [Fs.gop_loop].
  destruct (final_part rest); [discriminate|].
  destruct (String.eqb part "" || String.eqb part "."); [|discriminate].
  apply IH. reflexivity.
Qed.

(** The state in which [getObfuscatedPath] ends is the state in which the
    [obfuscateFilename] of the last component ends. *)
Lemma gop_loop_last (fuel : nat) (parts : list string) (base : string) :
  final_part parts = Some base ->
  forall (cur : string) (acc ps : list string) (w w' : World),
    Fs.gop_loop fs gop fuel parts cur acc w = (Ok ps, w') ->
    exists dir wa t ps0,
      Fs.obfuscateFilename_at fs gop fuel dir base wa = (Ok t, w') /\
      ps = ps0 ++ [t].
Proof.
  induction parts as [|part rest IH]; intros Hf cur acc ps w w' Hloop;
    [discriminate|].
  cbn [final_part] in Hf. cbn [Fs.gop_loop] in Hloop.
  destruct (final_part rest) as [b|] eqn:Hrest.
  - injection Hf as ->.
    destruct (String.eqb part "" || String.eqb part ".").
    + apply (IH eq_refl _ _ _ _ _ Hloop).
    + apply bind_Ok_inv in Hloop as (o & w1 & _ & Hloop).
      apply (IH eq_refl _ _ _ _ _ Hloop).
  - destruct (String.eqb part "" || String.eqb part "."); [discriminate|].
    injection Hf as ->.
    apply bind_Ok_inv in Hloop as (o & w1 & Hob & Hloop).
    apply wrap_Ok_inv in Hob.
    rewrite (gop_loop_skip _ _ _ _ _ Hrest) in Hloop.
    injection Hloop as <- <-. exists cur, w, o, acc. auto.
Qed.

Lemma getObfuscatedPath_last (fuel : nat) (path base p : string) (w w' : World) :
  final_part (Split (Clean path)) = Some base ->
  Fs.is_sidecar base = false ->
  Fs.getObfuscatedPath_at fs gop fuel path w = (Ok p, w') ->
  exists dir wa t ps0,
    p = Join (ps0 ++ [t]) /\
    mapping_effect fs gop dir base t wa w' /\
    exists m, cache w' !! dir = Some m /\ m !! t = Some base.
Proof.
  intros Hf Hside Hgop. unfold Fs.getObfuscatedPath_at in Hgop.
  destruct (String.eqb_spec path "") as [->|_]; [discriminate|].
  destruct (String.eqb_spec path ".") as [->|_]; [discriminate|].
  cbn [orb] in Hgop.
  apply bind_Ok_inv in Hgop as (ps & w1 & Hloop & Hgop).
  destruct (gop_loop_last _ _ _ Hf _ _ _ _ _ Hloop)
    as (dir & wa & t & ps0 & Hob & ->).
  assert (Hp : p = Join (ps0 ++ [t]) /\ w' = w1).
  { destruct (ps0 ++ [t]) as [|x r] eqn:Hps.
    - destruct ps0; discriminate.
    - injection Hgop as <- <-. auto. }
  destruct Hp as [-> ->].
  exists dir, wa, t, ps0. split; [reflexivity|].
  split; [apply (obfuscateFilename_effect _ _ _ _ _ _ _ _ Hside Hob)|].
  apply obfuscateFilename_post in Hob
    as (_ & [(Hs & _)|(_ & _ & m & Hc & Hm)]); [congruence|eauto].
Qed.

End LastComponent.

(** The calls that [getObfuscatedPath] makes, component by component:
    [translated parts cur w ts w'] when the loop over [parts], started in
    the directory [cur] and the state [w], ends in [w'] after one
    [obfuscateFilename] for each component that is not passed over,
    returning the tokens [ts]; each of these calls has its effect on the
    filemap of the directory it is made in. *)
Inductive translated `{Primitives} (fs : GrainFS) (gop : string -> M string)
    (fuel : nat) : list string -> string -> World -> list string -> World -> Prop :=
| translated_nil (cur : string) (w : World) :
    translated fs gop fuel [] cur w [] w
| translated_skip (part : string) (rest : list string) (cur : string)
    (w w' : World) (ts : list string) :
    String.eqb part "" || String.eqb part "." = true ->
    translated fs gop fuel rest cur w ts w' ->
    translated fs gop fuel (part :: rest) cur w ts w'
| translated_step (part : string) (rest : list string) (cur t : string)
    (w w1 w' : World) (ts : list string) :
    String.eqb part "" || String.eqb part "." = false ->
    Fs.obfuscateFilename_at fs gop fuel cur part w = (Ok t, w1) ->
    (Fs.is_sidecar part = false -> mapping_effect fs gop cur part t w w1) ->
    translated fs gop fuel rest (Join [cur; t]) w1 ts w' ->
    translated fs gop fuel (part :: rest) cur w (t :: ts) w'.

Section EveryComponent.
Context `{Primitives}.
Variable fs : GrainFS.
Variable gop : string -> M string.

Lemma gop_loop_translated (fuel : nat) (parts : list string) :
  forall (cur : string) (acc ps : list string) (w w' : World),
    Fs.gop_loop fs gop fuel parts cur acc w = (Ok ps, w') ->
    exists ts, ps = acc ++ ts /\ translated fs gop fuel parts cur w ts w'.
Proof.
  induction parts as [|part rest IH]; intros cur acc ps w w' Hloop.
  - injection Hloop as <- <-. exists []. rewrite app_nil_r.
    split; [reflexivity|constructor].
  - cbn [Fs.gop_loop] in Hloop.
    destruct (String.eqb part "" || String.eqb part ".") eqn:Hskip.
    + destruct (IH _ _ _ _ _ Hloop) as (ts & -> & Htr).
      exists ts. split; [reflexivity|].
      apply translated_skip; assumption.
    + apply bind_Ok_inv in Hloop as (t & w1 & Hob & Hloop).
      apply wrap_Ok_inv in Hob.
      destruct (IH _ _ _ _ _ Hloop) as (ts & -> & Htr).
      exists (t :: ts). rewrite <- app_assoc. split; [reflexivity|].
      apply (translated_step fs gop fuel part rest cur t w w1 w' ts Hskip Hob);
        [|exact Htr].
      intros Hside. apply (obfuscateFilename_effect _ _ _ _ _ _ _ _ Hside Hob).
Qed.

Lemma getObfuscatedPath_translated (fuel : nat) (path p : string) (w w' : World) :
  path <> "" -> path <> "." ->
  Fs.getObfuscatedPath_at fs gop fuel path w = (Ok p, w') ->
  exists ts, translated fs gop fuel (Split (Clean path)) "." w ts w' /\
             p = match ts with [] => "." | _ => Join ts end.
Proof.
  intros H1 H2 Hgop. unfold Fs.getObfuscatedPath_at in Hgop.
  apply String.eqb_neq in H1, H2. rewrite H1, H2 in Hgop. cbn [orb] in Hgop.
  apply bind_Ok_inv in Hgop as (ps & w1 & Hloop & Hgop).
  destruct (gop_loop_translated _ _ _ _ _ _ _ Hloop) as (ts & -> & Htr).
  cbn [app] in Hgop. exists ts.
  destruct ts; injection Hgop as <- <-; auto.
Qed.

End EveryComponent.

Section MissingName.
Context `{Primitives}.
Variable fs : GrainFS.
Variable n : nat.

(** The filemap of the root holds the mapping of [name], in the cache and
    in the sidecar file, from which a mount with an empty cache loads it
    when the names of the filemap are valid UTF-8. *)
Definition leaves_mapping (name : string) (w : World) : Prop :=
  exists m nonce,
    m !! token fs name = Some name /\
    cache w !! "." = Some m /\
    length nonce = NonceSize /\
    backend w !! root_filemap_key
    = Some (File (sealed (masterKey fs) nonce (json_Marshal m))) /\
    (utf8_filemap m ->
     exists w', Fs.loadFilemap fs (S n) "." (set_cache ∅ w) = (Ok m, w')).

(** A mount with an empty cache loads a filemap of the root that holds the
    mapping of [name]. *)
Definition reloads_mapping (name : string) (w : World) : Prop :=
  exists m w',
    Fs.loadFilemap fs (S n) "." (set_cache ∅ w) = (Ok m, w') /\
    m !! token fs name = Some name.

Lemma utf8_filemap_token (name : string) (m : FilenameMap) :
  utf8_string name = true -> utf8_filemap m ->
  utf8_filemap (<[token fs name := name]> m).
Proof.
  intros Hname Hm. apply map_Forall_insert_2; [|exact Hm].
  unfold token. rewrite EncodeToString_utf8, Hname. reflexivity.
Qed.

Lemma saved_leaves_mapping (name : string) (w : World) (m : FilenameMap)
    (files : gmap string node) (nonce : list byte) :
  root_state fs w (<[token fs name := name]> m) files ->
  length nonce = NonceSize ->
  backend w !! root_filemap_key
  = Some (File (sealed (masterKey fs) nonce
                  (json_Marshal (<[token fs name := name]> m)))) ->
  leaves_mapping name w.
Proof.
  intros (Hr & Hc & _) Hn Hb.
  exists (<[token fs name := name]> m), nonce.
  split; [apply lookup_insert_eq|].
  split; [destruct Hc as [Hc|(_ & Hb' & _)]; [exact Hc|congruence]|].
  split; [exact Hn|]. split; [exact Hb|]. intros Hu.
  destruct (loadFilemap_root_saved fs _ (getObfuscatedPath_dot fs (S n))
              (set_cache ∅ w) nonce (<[token fs name := name]> m))
    as (w' & Hload & _);
    [apply Hr|exact Hn|exact Hu|apply lookup_empty|exact Hb|].
  exists w'. exact Hload.
Qed.

Lemma leaves_mapping_reloads (name : string) (w : World) :
  (forall m, cache w !! "." = Some m -> utf8_filemap m) ->
  leaves_mapping name w -> reloads_mapping name w.
Proof.
  intros Hu (m & nonce & Hm & Hc & _ & _ & Hload).
  destruct (Hload (Hu m Hc)) as (w' & Hl). exists m, w'. auto.
Qed.

(** [Stat] and [Open] of a name that the root neither maps nor holds. *)
Lemma missing_name_effects (name : string) (w : World) (m : FilenameMap)
    (files : gmap string node) :
  root_state fs w m files -> aes_key_ok (filenameKey fs) = true ->
  root_name name = true ->
  m !! token fs name = None -> files !! token fs name = None ->
  NonceSize <= length (entropy w) ->
  exists w1 w2,
    Facade.Stat fs (S n) name w = (Err ErrNotExist, w1) /\
    leaves_mapping name w1 /\
    Facade.Open fs (S n) name w = (Err ErrNotExist, w2) /\
    leaves_mapping name w2 /\
    (utf8_string name = true -> utf8_filemap m ->
     reloads_mapping name w1 /\ reloads_mapping name w2).
Proof.
  intros Hst Hk Hname Hm Hf He.
  pose proof (token_of_token fs name Hk Hname) as Htok.
  assert (Hn : length (firstn NonceSize (entropy w)) = NonceSize)
    by (rewrite length_firstn; lia).
  destruct (Stat_state_missing fs n name _ w m files Hst Htok Hm Hf He)
    as (w1 & Hstat & Hst1 & _ & Hb1).
  destruct (Open_state_missing fs n name _ w m files Hst Htok Hm Hf He)
    as (w2 & Hopen & Hst2 & _ & Hb2).
  exists w1, w2.
  split; [exact Hstat|].
  split; [apply (saved_leaves_mapping name w1 m files _ Hst1 Hn Hb1)|].
  split; [exact Hopen|].
  split; [apply (saved_leaves_mapping name w2 m files _ Hst2 Hn Hb2)|].
  intros Hu Hum.
  assert (Hcached : forall v,
             root_state fs v (<[token fs name := name]> m) files ->
             backend v !! root_filemap_key <> None ->
             forall m', cache v !! "." = Some m' -> utf8_filemap m').
  { intros v (_ & [Hc|(_ & Hb' & _)] & _) Hb m' Hc'; [|contradiction].
    rewrite Hc in Hc'. injection Hc' as <-.
    apply utf8_filemap_token; assumption. }
  split; apply leaves_mapping_reloads.
  - apply (Hcached w1 Hst1). rewrite Hb1. discriminate.
  - apply (saved_leaves_mapping name w1 m files _ Hst1 Hn Hb1).
  - apply (Hcached w2 Hst2). rewrite Hb2. discriminate.
  - apply (saved_leaves_mapping name w2 m files _ Hst2 Hn Hb2).
Qed.

End MissingName.

(** C8.  Path translation writes.  Each [obfuscateFilename] that
    [getObfuscatedPath] makes for a component loads the filemap of the
    directory and, when the token of the component is not mapped yet,
    inserts the mapping and saves the filemap; a [getObfuscatedPath] that
    succeeds has made such a call for every component of the path, and the
    state in which it ends holds the mapping of the final component.
    Hence, on a volume made on an empty backend, [Stat] and [Open] of a
    name that does not exist fail with the error of the missing file and
    leave the mapping of the name in the filemap of the root, in the cache
    and in the sidecar file, from where a later mount loads it when the
    name is valid UTF-8, which is what [encoding/json] writes as it is. *)
Theorem path_translation_leaves_mappings `{Primitives} (n : nat) :
  (forall (fs : GrainFS) (dir name t : string) (w w' : World),
      Fs.is_sidecar name = false ->
      Fs.obfuscateFilename_at fs (Fs.getObfuscatedPath fs n) (S n) dir name w
      = (Ok t, w') ->
      mapping_effect fs (Fs.getObfuscatedPath fs n) dir name t w w') /\
  (forall (fs : GrainFS) (path p : string) (w w' : World),
      path <> "" -> path <> "." ->
      Fs.getObfuscatedPath fs (S n) path w = (Ok p, w') ->
      exists ts,
        translated fs (Fs.getObfuscatedPath fs n) (S n) (Split (Clean path))
          "." w ts w' /\
        p = match ts with [] => "." | _ => Join ts end) /\
  (forall (fs : GrainFS) (path base p : string) (w w' : World),
      final_part (Split (Clean path)) = Some base ->
      Fs.is_sidecar base = false ->
      Fs.getObfuscatedPath fs (S n) path w = (Ok p, w') ->
      exists dir wa t ps0,
        p = Join (ps0 ++ [t]) /\
        mapping_effect fs (Fs.getObfuscatedPath fs n) dir base t wa w' /\
        exists m, cache w' !! dir = Some m /\ m !! t = Some base) /\
  (forall (password name : string) (w0 : World),
      password <> "" -> backend w0 = ∅ -> root_name name = true ->
      SaltSize + NonceSize <= length (entropy w0) ->
      exists fs w w1 w2,
        Facade.New (S (S n)) password w0 = (Ok fs, w) /\
        Facade.Stat fs (S n) name w = (Err ErrNotExist, w1) /\
        leaves_mapping fs n name w1 /\
        Facade.Open fs (S n) name w = (Err ErrNotExist, w2) /\
        leaves_mapping fs n name w2 /\
        (utf8_string name = true ->
         reloads_mapping fs n name w1 /\ reloads_mapping fs n name w2)).
Proof.
  split; [|split; [|split]].
  - intros fs dir name t w w' Hside Hob.
    apply (obfuscateFilename_effect _ _ _ _ _ _ _ _ Hside Hob).
  - intros fs path p w w' Hne Hnd Hgop.
    apply (getObfuscatedPath_translated fs _ (S n) path p w w' Hne Hnd Hgop).
  - intros fs path base p w w' Hf Hside Hgop.
    apply (getObfuscatedPath_last fs _ (S n) path base p w w' Hf Hside Hgop).
  - intros password name w0 Hpw Hb Hname He.
    set (fs := first_volume password (entropy w0)).
    set (w := set_cache ∅ (initialized_world w0)).
    assert (Hk : aes_key_ok (filenameKey fs) = true) by apply deriveKeys_ok.
    destruct (missing_name_effects fs n name w ∅ ∅
                (first_volume_state password w0) Hk Hname)
      as (w1 & w2 & Hstat & Hl1 & Hopen & Hl2 & Hre);
      [apply lookup_empty|apply lookup_empty| |].
    { unfold w. cbn [set_cache initialized_world entropy].
      rewrite length_skipn. lia. }
    exists fs, w, w1, w2.
    split; [apply New_empty; [exact Hpw|exact Hb|lia]|].
    split; [exact Hstat|]. split; [exact Hl1|]. split; [exact Hopen|].
    split; [exact Hl2|].
    intros Hu. apply (Hre Hu). apply map_Forall_empty.
Qed.

(** The volume that the password "pw" makes on the empty world, and the
    world in which it is mounted. *)
Definition pw_volume (n : nat) : GrainFS :=
  @first_volume Ref.prims "pw" (entropy (empty_world n)).
Definition pw_world (n : nat) : World :=
  set_cache ∅ (@initialized_world Ref.prims (empty_world n)).

Lemma path_translation_leaves_mappings_witness :
  (exists t w',
      @Fs.obfuscateFilename_at Ref.prims (pw_volume 44)
        (@Fs.getObfuscatedPath Ref.prims (pw_volume 44) 0) 1 "." "ghost.txt"
        (pw_world 44) = (Ok t, w') /\
      @mapping_effect Ref.prims (pw_volume 44)
        (@Fs.getObfuscatedPath Ref.prims (pw_volume 44) 0) "." "ghost.txt" t
        (pw_world 44) w') /\
  (exists p w' dir t m ts,
      @Fs.getObfuscatedPath Ref.prims (pw_volume 44) 1 "ghost.txt" (pw_world 44)
      = (Ok p, w') /\
      cache w' !! dir = Some m /\ m !! t = Some "ghost.txt" /\
      @translated Ref.prims (pw_volume 44)
        (@Fs.getObfuscatedPath Ref.prims (pw_volume 44) 0) 1 ["ghost.txt"] "."
        (pw_world 44) ts w') /\
  (exists fs w w1,
      @Facade.New Ref.prims 2 "pw" (empty_world 44) = (Ok fs, w) /\
      @Facade.Stat Ref.prims fs 1 "ghost.txt" w = (Err ErrNotExist, w1) /\
      @leaves_mapping Ref.prims fs 0 "ghost.txt" w1 /\
      @reloads_mapping Ref.prims fs 0 "ghost.txt" w1).
Proof.
  destruct (@path_translation_leaves_mappings Ref.prims 0)
    as (H1 & Hall & H2 & H3).
  split; [|split].
  - destruct (run_ok (@Fs.obfuscateFilename_at Ref.prims (pw_volume 44)
                        (@Fs.getObfuscatedPath Ref.prims (pw_volume 44) 0) 1
                        "." "ghost.txt" (pw_world 44))) as (t & Hrun);
      [vm_compute; reflexivity|].
    eexists t, _. split; [exact Hrun|].
    apply (H1 (pw_volume 44) "." "ghost.txt" t (pw_world 44) _ eq_refl Hrun).
  - destruct (run_ok (@Fs.getObfuscatedPath Ref.prims (pw_volume 44) 1
                        "ghost.txt" (pw_world 44))) as (p & Hrun);
      [vm_compute; reflexivity|].
    destruct (H2 (pw_volume 44) "ghost.txt" "ghost.txt" p (pw_world 44) _
                eq_refl eq_refl Hrun)
      as (dir & wa & t & ps0 & _ & _ & m & Hc & Hm).
    destruct (Hall (pw_volume 44) "ghost.txt" p (pw_world 44) _
                ltac:(discriminate) ltac:(discriminate) Hrun)
      as (ts & Htr & _).
    eexists p, _, dir, t, m, ts. split; [exact Hrun|]. auto.
  - destruct (H3 "pw" "ghost.txt" (empty_world 44))
      as (fs & w & w1 & w2 & Hnew & Hstat & Hl1 & _ & _ & Hre);
      [discriminate|reflexivity|reflexivity|vm_compute; lia|].
    exists fs, w, w1. split; [exact Hnew|]. split; [exact Hstat|].
    split; [exact Hl1|]. apply Hre. reflexivity.
Defined.

(** ** Concrete runs on the reference primitives *)

(** A file "hello.txt" of the root of the volume [pw_volume 56]: created,
    written, closed and opened again. *)
Definition hello : list byte := bytes_of "Hello, GrainFS!".
Definition hello_handle : EncryptedFile :=
  write_handle (pw_volume 56) "hello.txt"
    (@token Ref.prims (pw_volume 56) "hello.txt").
Definition hello_created : result EncryptedFile * World :=
  @Facade.Create Ref.prims (pw_volume 56) 1 "hello.txt" (pw_world 56).
Definition hello_written : result nat * (EncryptedFile * World) :=
  Handle.Write hello (hello_handle, snd hello_created).
Definition hello_closed : result unit * (EncryptedFile * World) :=
  @Handle.Close Ref.prims (snd hello_written).
Definition hello_opened : result EncryptedFile * World :=
  @Facade.Open Ref.prims (pw_volume 56) 1 "hello.txt" (snd (snd hello_closed)).

(** C1 as it is written fails: a name of 103 bytes is not empty, and
    [Create] rejects it on the freshly made volume. *)
Lemma create_rejects_name_of_103_bytes :
  @Facade.New Ref.prims 2 "pw" (empty_world 56)
  = (Ok (pw_volume 56), pw_world 56) /\
  name_of_length 103 <> "" /\
  fst (@Facade.Create Ref.prims (pw_volume 56) 1 (name_of_length 103)
         (pw_world 56))
  = Err (Wrap "failed to obfuscate filename"
           (Wrap "failed to obfuscate filename"
              (Msg "obfuscated filename too long"))).
Proof.
  split; [apply New_empty; [discriminate|reflexivity|vm_compute; lia]|].
  split; [discriminate|]. vm_compute. reflexivity.
Qed.

Lemma mount_twice_same_keys_witness :
  (exists fs1 w1 fs2 w2,
      @Facade.New Ref.prims 1 "pw" (pw_world 32) = (Ok fs1, w1) /\
      @Facade.New Ref.prims 1 "pw" w1 = (Ok fs2, w2) /\
      masterKey fs2 = masterKey fs1 /\ filenameKey fs2 = filenameKey fs1) /\
  (exists (fs2 : GrainFS) (w2 : World),
      @Facade.New Ref.prims 1 "pw" (pw_world 32) = (Ok fs2, w2) /\
      masterKey fs2 = masterKey (pw_volume 32) /\
      filenameKey fs2 = filenameKey (pw_volume 32)).
Proof.
  destruct (@mount_twice_same_keys Ref.prims 0 0 "pw") as [Hheld _].
  destruct (@mount_twice_same_keys Ref.prims 2 0 "pw") as [_ Hmounted].
  split.
  - destruct (Hheld (pw_world 32)
                (@json_Encode Ref.prims
                   (first_config (entropy (empty_world 32))))
                (first_config (entropy (empty_world 32))))
      as (fs1 & w1 & fs2 & w2 & Hn1 & Hn2 & Hm & Hf & _).
    + discriminate.
    + vm_compute. reflexivity.
    + vm_compute. reflexivity.
    + vm_compute. reflexivity.
    + reflexivity.
    + exists fs1, w1, fs2, w2. auto.
  - destruct (Hmounted (empty_world 32) (pw_world 32) (pw_volume 32))
      as (c & fs2 & w2 & _ & Hnew & Hm & Hf & _).
    + apply run_eq. vm_compute. reflexivity.
    + exists fs2, w2. auto.
Defined.

Lemma deobfuscate_obfuscate_witness :
  exists t w',
    @Fs.obfuscateFilename Ref.prims (pw_volume 44) 1 "." "notes.txt" (pw_world 44)
    = (Ok t, w') /\
    @Fs.deobfuscateFilename Ref.prims (pw_volume 44) 1 "." t w'
    = (Ok "notes.txt", w').
Proof.
  destruct (run_ok (@Fs.obfuscateFilename Ref.prims (pw_volume 44) 1 "."
                      "notes.txt" (pw_world 44))) as (t & Hrun);
    [vm_compute; reflexivity|].
  eexists t, _. split; [exact Hrun|].
  apply (@deobfuscate_obfuscate Ref.prims (pw_volume 44) 1 "." "notes.txt" t
           (pw_world 44) _ Hrun).
Defined.

(** The world of "hello.txt" as a later mount finds it: the backend as it
    is, no filemap in the cache. *)
Definition hello_remounted : World := set_cache ∅ (snd hello_opened).

Lemma ReadDir_lists_deobfuscated_witness :
  (exists res w3,
      @Facade.ReadDir Ref.prims (pw_volume 56) 1 "" (snd hello_opened)
      = (Ok res, w3) /\
      List.map originalName res = ["hello.txt"]) /\
  (exists infos m res w3,
      cache hello_remounted !! "." = None /\
      fst (Backend.ReadDir "." hello_remounted) = Ok infos /\
      fst (@Fs.loadFilemap Ref.prims (pw_volume 56) 1 "." hello_remounted)
      = Ok m /\
      @Facade.ReadDir Ref.prims (pw_volume 56) 1 "" hello_remounted
      = (Ok res, w3) /\
      res = omap (entry_of m) infos /\
      List.map originalName res = ["hello.txt"]).
Proof.
  split.
  - destruct (run_ok (Backend.ReadDir "." (snd hello_opened)))
      as (infos & Hlist); [vm_compute; reflexivity|].
    destruct (@ReadDir_lists_deobfuscated Ref.prims (pw_volume 56) 1 "" "."
                (snd hello_opened) (snd hello_opened) _ infos
                (getObfuscatedPath_dot _ _ _) Hlist)
      as (res & w3 & Hrd & _ & _).
    exists res, w3. split; [exact Hrd|].
    assert (Hres : fst (@Facade.ReadDir Ref.prims (pw_volume 56) 1 ""
                          (snd hello_opened)) = Ok res)
      by (rewrite Hrd; reflexivity).
    vm_compute in Hres. injection Hres as <-. reflexivity.
  - assert (Hlist : Backend.ReadDir "." hello_remounted
                    = (Ok (Backend.children [] (backend hello_remounted)),
                       hello_remounted)) by reflexivity.
    destruct (run_ok (@Fs.loadFilemap Ref.prims (pw_volume 56) 1 "."
                        hello_remounted)) as (m & Hload);
      [vm_compute; reflexivity|].
    destruct (@ReadDir_lists_deobfuscated Ref.prims (pw_volume 56) 1 "" "."
                hello_remounted hello_remounted hello_remounted _
                (getObfuscatedPath_dot _ _ _) Hlist)
      as (res & w3 & Hrd & _ & _ & Hcold & _).
    destruct (Hcold m _ Hload) as [Hres _].
    exists (Backend.children [] (backend hello_remounted)), m, res, w3.
    split; [reflexivity|]. split; [reflexivity|].
    split; [rewrite Hload; reflexivity|]. split; [exact Hrd|].
    split; [exact Hres|].
    assert (Hfst : fst (@Facade.ReadDir Ref.prims (pw_volume 56) 1 ""
                          hello_remounted) = Ok res)
      by (rewrite Hrd; reflexivity).
    vm_compute in Hfst. injection Hfst as <-. reflexivity.
Defined.

Lemma rdwr_handle_is_write_only_witness :
  isWriteMode hello_handle = true /\
  @Handle.Read Ref.prims 16 (hello_handle, snd hello_created)
  = (Err (Msg "file opened for writing"), (hello_handle, snd hello_created)) /\
  @Handle.ReadAt Ref.prims 16 0 (hello_handle, snd hello_created)
  = (Err (Msg "file opened for writing"), (hello_handle, snd hello_created)).
Proof.
  destruct (@rdwr_handle_is_write_only Ref.prims (pw_volume 56) 1 "hello.txt"
              (pw_world 56) (snd hello_created) hello_handle)
    as (Hflag & Hcreate & _).
  destruct (Hflag create_flags eq_refl) as (Hm & _ & _ & Hat).
  { apply run_eq. vm_compute. reflexivity. }
  destruct Hcreate as (_ & Hread).
  { apply run_eq. vm_compute. reflexivity. }
  split; [exact Hm|]. split; [apply Hread|apply Hat].
Defined.

Lemma ReadAt_keeps_read_cursor_witness :
  exists out s1,
    @Handle.ReadAt Ref.prims 5 7
      (read_handle (pw_volume 56) "hello.txt"
         (@token Ref.prims (pw_volume 56) "hello.txt"), snd hello_opened)
    = (Ok out, s1) /\
    fst out = bytes_of "Grain" /\
    @Handle.Read Ref.prims 5 s1
    = @Handle.Read Ref.prims 5
        (read_handle (pw_volume 56) "hello.txt"
           (@token Ref.prims (pw_volume 56) "hello.txt"), snd hello_opened).
Proof.
  destruct (run_ok (@Handle.ReadAt Ref.prims 5 7
                      (read_handle (pw_volume 56) "hello.txt"
                         (@token Ref.prims (pw_volume 56) "hello.txt"),
                       snd hello_opened))) as (out & Hrun);
    [vm_compute; reflexivity|].
  destruct (@ReadAt_keeps_read_cursor Ref.prims
              (read_handle (pw_volume 56) "hello.txt"
                 (@token Ref.prims (pw_volume 56) "hello.txt"))
              (snd hello_opened) 5 7%Z out _ eq_refl Hrun)
    as (_ & _ & Hread).
  eexists out, _. split; [exact Hrun|]. split; [|apply Hread].
  assert (Hout : fst (@Handle.ReadAt Ref.prims 5 7
                        (read_handle (pw_volume 56) "hello.txt"
                           (@token Ref.prims (pw_volume 56) "hello.txt"),
                         snd hello_opened)) = Ok out)
    by (rewrite Hrun; reflexivity).
  vm_compute in Hout. injection Hout as <-. reflexivity.
Defined.

(** ** C1: the round trip, from the first call to the last *)

(** A new file of the root: every step of the round trip succeeds. *)
Lemma roundtrip_on_root `{Primitives} (fs : GrainFS) (n : nat)
    (name T : string) (data : list byte) (w : World) (m : FilenameMap)
    (files : gmap string node) :
  root_state fs w m files -> token_of fs name T ->
  m !! T = None -> files !! T = None ->
  2 * NonceSize <= length (entropy w) ->
  exists f w1 s2 s3 f' w4,
    Facade.Create fs (S n) name w = (Ok f, w1) /\
    Handle.Write data (f, w1) = (Ok (length data), s2) /\
    Handle.Close s2 = (Ok tt, s3) /\
    Facade.Open fs (S n) name (snd s3) = (Ok f', w4) /\
    forall sizes, Forall (fun b => 1 <= b) sizes ->
                  length data < length sizes ->
                  exists f'', Handle.ReadAll sizes [] (f', w4)
                              = (Ok data, (f'', w4)).
Proof.
  intros Hst Htok Hm Hf He.
  pose proof (token_of_like fs _ _ Htok) as Hlike.
  unfold NonceSize in He.
  destruct (Create_state fs n name T w m files Hst Htok Hm Hf)
    as (w1 & Hcreate & Hst1 & He1); [unfold NonceSize; lia|].
  destruct (Write_Close_state fs name T data w1 _ _ Hst1 Hlike)
    as (s2 & s3 & Hwrite & Hclose & Hst3 & He3);
    [apply lookup_insert_eq
    |rewrite He1, length_skipn; unfold NonceSize; lia|].
  destruct (Open_state fs n name T
              (sealed (masterKey fs) (firstn NonceSize (entropy w1)) data)
              (snd s3) _ _ Hst3 Htok)
    as (w4 & Hopen & _ & _ & Hb4);
    [apply lookup_insert_eq|apply lookup_insert_eq|].
  exists (write_handle fs name T), w1, s2, s3, (read_handle fs name T), w4.
  split; [exact Hcreate|]. split; [exact Hwrite|]. split; [exact Hclose|].
  split; [exact Hopen|].
  intros sizes Hall Hlen.
  apply (ReadAll_fresh fs name T (firstn NonceSize (entropy w1)) data
           w4 sizes Hb4); auto.
  - rewrite length_firstn, He1, length_skipn. unfold NonceSize. lia.
  - apply Hst.
Qed.

(** C1 (as the code has it).  For a file name that is a single path
    component and for every data: when [Create], [Write] of the data and
    [Close] succeed, [Open] of the same name succeeds, and reading the
    handle to the end returns exactly the data.  On a volume made on an
    empty backend the whole sequence succeeds for every name of one
    component of at most 102 bytes other than the sidecar: the name is
    created, the data written, the file closed and opened again, and
    reading it to the end returns exactly the data. *)
Theorem create_write_read_roundtrip `{Primitives} :
  (forall (fs : GrainFS) (n : nat) (name : string) (data : list byte)
          (w w1 : World) (f : EncryptedFile) (k : nat)
          (s2 s3 : EncryptedFile * World),
      simple name = true ->
      Facade.Create fs (S n) name w = (Ok f, w1) ->
      Handle.Write data (f, w1) = (Ok k, s2) ->
      Handle.Close s2 = (Ok tt, s3) ->
      exists f' w4,
        Facade.Open fs (S n) name (snd s3) = (Ok f', w4) /\
        forall sizes, Forall (fun b => 1 <= b) sizes ->
                      length data < length sizes ->
                      exists s5, Handle.ReadAll sizes [] (f', w4)
                                 = (Ok data, s5)) /\
  (forall (n : nat) (password name : string) (data : list byte) (w0 : World),
      password <> "" -> backend w0 = ∅ -> root_name name = true ->
      SaltSize + 2 * NonceSize <= length (entropy w0) ->
      exists fs w f w1 s2 s3 f' w4,
        Facade.New (S (S n)) password w0 = (Ok fs, w) /\
        Facade.Create fs (S n) name w = (Ok f, w1) /\
        Handle.Write data (f, w1) = (Ok (length data), s2) /\
        Handle.Close s2 = (Ok tt, s3) /\
        Facade.Open fs (S n) name (snd s3) = (Ok f', w4) /\
        forall sizes, Forall (fun b => 1 <= b) sizes ->
                      length data < length sizes ->
                      exists f'', Handle.ReadAll sizes [] (f', w4)
                                  = (Ok data, (f'', w4))).
Proof.
  split.
  - intros fs n name data w w1 f k s2 s3.
    apply roundtrip_when_written.
  - intros n password name data w0 Hpw Hb Hname He.
    set (fs := first_volume password (entropy w0)).
    set (w := set_cache ∅ (initialized_world w0)).
    assert (Hk : aes_key_ok (filenameKey fs) = true) by apply deriveKeys_ok.
    destruct (roundtrip_on_root fs n name (token fs name) data w ∅ ∅
                (first_volume_state password w0)
                (token_of_token fs name Hk Hname))
      as (f & w1 & s2 & s3 & f' & w4 & Hsteps);
      [apply lookup_empty|apply lookup_empty| |].
    { unfold w. cbn [set_cache initialized_world entropy].
      rewrite length_skipn. lia. }
    exists fs, w, f, w1, s2, s3, f', w4.
    split; [apply New_empty; [exact Hpw|exact Hb|lia]|exact Hsteps].
Qed.

Lemma create_write_read_roundtrip_witness :
  (exists f' w4 s5,
      hello_opened = (Ok f', w4) /\
      @Handle.ReadAll Ref.prims (repeat 4 16) [] (f', w4) = (Ok hello, s5)) /\
  (exists fs w f w1 s2 s3 f' w4 f'',
      @Facade.New Ref.prims 2 "pw" (empty_world 56) = (Ok fs, w) /\
      @Facade.Create Ref.prims fs 1 "hello.txt" w = (Ok f, w1) /\
      Handle.Write hello (f, w1) = (Ok 15, s2) /\
      @Handle.Close Ref.prims s2 = (Ok tt, s3) /\
      @Facade.Open Ref.prims fs 1 "hello.txt" (snd s3) = (Ok f', w4) /\
      @Handle.ReadAll Ref.prims (repeat 4 16) [] (f', w4)
      = (Ok hello, (f'', w4))).
Proof.
  destruct (@create_write_read_roundtrip Ref.prims) as [Hwritten Hfresh].
  assert (Hsizes : Forall (fun b => 1 <= b) (repeat 4 16))
    by (repeat constructor).
  assert (Hlen : length hello < length (repeat 4 16)) by (vm_compute; lia).
  split.
  - destruct (Hwritten (pw_volume 56) 0 "hello.txt" hello (pw_world 56)
                (snd hello_created) hello_handle (length hello)
                (snd hello_written) (snd hello_closed))
      as (f' & w4 & Hopen & Hread).
    + reflexivity.
    + apply run_eq. vm_compute. reflexivity.
    + apply run_eq. vm_compute. reflexivity.
    + apply run_eq. vm_compute. reflexivity.
    + destruct (Hread (repeat 4 16) Hsizes Hlen) as (s5 & Hr).
      exists f', w4, s5. split; [exact Hopen|exact Hr].
  - destruct (Hfresh 0 "pw" "hello.txt" hello (empty_world 56))
      as (fs & w & f & w1 & s2 & s3 & f' & w4 & Hnew & Hcreate & Hwrite
          & Hclose & Hopen & Hread).
    + discriminate.
    + reflexivity.
    + reflexivity.
    + vm_compute. lia.
    + destruct (Hread (repeat 4 16) Hsizes Hlen) as (f'' & Hr).
      exists fs, w, f, w1, s2, s3, f', w4, f''. auto 10.
Defined.

(** The round trip of a file below directories, run on the reference
    primitives.  [Create] keeps the filemap of a directory under its
    cleartext path, [getObfuscatedPath] under its translated path, which it
    translates again when the filemap is loaded: tokens of tokens. *)
Definition nested_roundtrip (name : string) (data : list byte)
    : result (list byte) :=
  match @Facade.Create Ref.prims (pw_volume 400) 8 name (pw_world 400) with
  | (Err e, _) => Err (Wrap "create" e)
  | (Ok f, w1) =>
      match Handle.Write data (f, w1) with
      | (Err e, _) => Err (Wrap "write" e)
      | (Ok _, s2) =>
          match @Handle.Close Ref.prims s2 with
          | (Err e, _) => Err (Wrap "close" e)
          | (Ok _, s3) =>
              match @Facade.Open Ref.prims (pw_volume 400) 8 name (snd s3) with
              | (Err e, _) => Err (Wrap "open" e)
              | (Ok f', w4) =>
                  fst (@Handle.ReadAll Ref.prims (repeat 4 (S (length data)))
                         [] (f', w4))
              end
          end
      end
  end.

(** Below one directory with a short name the data is read back. *)
Example nested_roundtrip_hello :
  nested_roundtrip "docs/hello.txt" hello = Ok hello.
Proof. vm_compute. reflexivity. Qed.

(** Below two directories the file is created, written and closed, but
    [Open] fails: the token of a token of the first directory is a name of
    more than 102 bytes. *)
Example nested_open_fails :
  nested_roundtrip "a/b/hello.txt" hello
  = Err (Wrap "open"
           (Wrap "failed to get obfuscated path"
              (Wrap "failed to obfuscate path component"
                 (Wrap "failed to load filemap"
                    (Wrap "failed to get obfuscated directory path"
                       (Wrap "failed to obfuscate path component"
                          (Wrap "failed to load filemap"
                             (Wrap "failed to get obfuscated directory path"
                                (Wrap "failed to obfuscate path component"
                                   (Wrap "failed to obfuscate filename"
                                      (Msg "obfuscated filename too long"))))))))))).
Proof. vm_compute. reflexivity. Qed.

(** * More of crypto.go *)

(** ** Decoding URL-safe base64 ([base64.URLEncoding.DecodeString]) *)

(** The value of a character of the alphabet. *)
Definition b64_value (c : ascii) : option N :=
  let i := b64_index c in
  if (i <? 64)%N then Some i else None.

(** [byte(n)]: the low eight bits. *)
Definition byte_of_N (n : N) : byte :=
  match Byte.of_N (n mod 256) with
  | Some b => b
  | None => x00
  end.

Definition is_pad (c : ascii) : bool := Ascii.eqb c "="%char.

(** The decoder passes over line feeds and carriage returns. *)
Definition is_newline (c : ascii) : bool :=
  Ascii.eqb c "010"%char || Ascii.eqb c "013"%char.

(** Groups of four characters give three bytes; only the last group may
    end in one or two padding characters; everything else is corrupt
    input. *)
Fixpoint decode_quanta (l : list ascii) : option (list byte) :=
  match l with
  | [] => Some []
  | a :: b :: c :: d :: rest =>
      match b64_value a, b64_value b with
      | Some x, Some y =>
          if is_pad c then
            if is_pad d then
              match rest with
              | [] => Some [byte_of_N (x * 4 + y / 16)]
              | _ => None
              end
            else None
          else
            match b64_value c with
            | Some z =>
                if is_pad d then
                  match rest with
                  | [] => Some [byte_of_N (x * 4 + y / 16);
                                byte_of_N ((y mod 16) * 16 + z / 4)]
                  | _ => None
                  end
                else
                  match b64_value d with
                  | Some u =>
                      match decode_quanta rest with
                      | Some r =>
                          Some (byte_of_N (x * 4 + y / 16)
                                :: byte_of_N ((y mod 16) * 16 + z / 4)
                                :: byte_of_N ((z mod 4) * 64 + u) :: r)
                      | None => None
                      end
                  | None => None
                  end
            | None => None
            end
      | _, _ => None
      end
  | _ => None
  end.

Definition DecodeString (s : string) : option (list byte) :=
  decode_quanta
    (List.filter (fun c => negb (is_newline c)) (list_ascii_of_string s)).

(** [hmac.Equal]. *)
Fixpoint hmac_Equal (a b : list byte) : bool :=
  match a, b with
  | [], [] => true
  | x :: a', y :: b' => Byte.eqb x y && hmac_Equal a' b'
  | _, _ => false
  end.

Section Deobfuscate.
Context `{Primitives}.

(** [deobfuscateFilename] of crypto.go: decode, check the length, verify
    the HMAC, decrypt. *)
Definition deobfuscateFilename (filenameKey : list byte) (obfuscated : string)
    : result string :=
  if String.eqb obfuscated ""
  then Err (Msg "obfuscated filename cannot be empty")
  else
    match DecodeString obfuscated with
    | None => Err (Wrap "failed to decode filename"
                     (Msg "illegal base64 data"))
    | Some combined =>
        if (length combined <? aes_BlockSize + HMACSize)%nat
        then Err (Msg "obfuscated filename too short")
        else
          let iv := firstn aes_BlockSize combined in
          let ciphertext :=
            firstn (length combined - HMACSize - aes_BlockSize)
              (skipn aes_BlockSize combined) in
          let receivedMAC := skipn (length combined - HMACSize) combined in
          let expectedMAC := hmac_sha256 filenameKey (iv ++ ciphertext) in
          if negb (hmac_Equal receivedMAC expectedMAC)
          then Err (Msg "filename authentication failed")
          else if negb (aes_key_ok filenameKey)
          then Err (Wrap "failed to create cipher"
                      (Msg "crypto/aes: invalid key size"))
          else Ok (string_of (ctr_XORKeyStream filenameKey iv ciphertext))
    end.

End Deobfuscate.

Lemma b64_value_char (i : N) : (i < 64)%N -> b64_value (b64_char i) = Some i.
Proof.
  intros Hi. unfold b64_value. rewrite (b64_index_char i Hi).
  apply N.ltb_lt in Hi. rewrite Hi. reflexivity.
Qed.

Lemma is_pad_char (i : N) : (i < 64)%N -> is_pad (b64_char i) = false.
Proof.
  intros Hi. unfold is_pad. apply Ascii.eqb_neq, b64_char_not_pad, Hi.
Qed.

Lemma byte_of_to_N (a : byte) : byte_of_N (Byte.to_N a) = a.
Proof.
  unfold byte_of_N. rewrite N.mod_small by apply to_N_lt.
  rewrite Byte.of_to_N. reflexivity.
Qed.

Lemma join_byte1 (x y : N) :
  (y < 256)%N -> (x / 4 * 4 + ((x mod 4) * 16 + y / 16) / 16 = x)%N.
Proof. intros. ndiv. Qed.

Lemma join_byte1_pad (x : N) : (x / 4 * 4 + (x mod 4) * 16 / 16 = x)%N.
Proof. ndiv. Qed.

Lemma join_byte2 (x y z : N) :
  (y < 256)%N -> (z < 256)%N ->
  ((((x mod 4) * 16 + y / 16) mod 16) * 16 + ((y mod 16) * 4 + z / 64) / 4 = y)%N.
Proof. intros. ndiv. Qed.

Lemma join_byte2_pad (x y : N) :
  (y < 256)%N ->
  ((((x mod 4) * 16 + y / 16) mod 16) * 16 + (y mod 16) * 4 / 4 = y)%N.
Proof. intros. ndiv. Qed.

Lemma join_byte3 (y z : N) :
  (z < 256)%N ->
  ((((y mod 16) * 4 + z / 64) mod 4) * 64 + z mod 64 = z)%N.
Proof. intros. ndiv. Qed.

(** What [EncodeToString] writes has no line break to pass over. *)
Lemma encoded_no_newline (l : list byte) :
  List.filter (fun c => negb (is_newline c))
    (list_ascii_of_string (EncodeToString l))
  = list_ascii_of_string (EncodeToString l).
Proof.
  assert (Hchar : forall i, is_newline (b64_char i) = false).
  { intros i. unfold b64_char.
    assert (Hall : forallb (fun c => negb (is_newline c))
                     (list_ascii_of_string encodeURL) = true) by reflexivity.
    rewrite forallb_forall in Hall.
    destruct (nth_in_or_default (N.to_nat i) (list_ascii_of_string encodeURL)
                "="%char) as [Hin|Hd].
    - apply negb_true_iff, Hall, Hin.
    - rewrite Hd. reflexivity. }
  induction l as [|a|a b|a b c l IH] using list_ind3;
    cbn [EncodeToString list_ascii_of_string List.filter];
    rewrite ?Hchar; cbn [negb]; try reflexivity.
  rewrite IH. reflexivity.
Qed.

Lemma decode_quanta_encoded (l : list byte) :
  decode_quanta (list_ascii_of_string (EncodeToString l)) = Some l.
Proof.
  induction l as [|a|a b|a b c l IH] using list_ind3.
  - reflexivity.
  - cbn [EncodeToString list_ascii_of_string decode_quanta].
    pose proof (to_N_lt a) as Ha.
    rewrite (b64_value_char _ (sextet1_lt _ Ha)).
    rewrite (b64_value_char _ (sextet2'_lt _)).
    change (is_pad "="%char) with true. cbv iota.
    rewrite join_byte1_pad, byte_of_to_N. reflexivity.
  - cbn [EncodeToString list_ascii_of_string decode_quanta].
    pose proof (to_N_lt a) as Ha. pose proof (to_N_lt b) as Hb.
    rewrite (b64_value_char _ (sextet1_lt _ Ha)).
    rewrite (b64_value_char _ (sextet2_lt (Byte.to_N a) _ Hb)).
    rewrite (is_pad_char _ (sextet3'_lt _)).
    rewrite (b64_value_char _ (sextet3'_lt _)).
    change (is_pad "="%char) with true. cbv iota.
    rewrite join_byte1 by assumption.
    rewrite join_byte2_pad by assumption.
    rewrite !byte_of_to_N. reflexivity.
  - cbn [EncodeToString list_ascii_of_string decode_quanta].
    pose proof (to_N_lt a) as Ha. pose proof (to_N_lt b) as Hb.
    pose proof (to_N_lt c) as Hc.
    rewrite (b64_value_char _ (sextet1_lt _ Ha)).
    rewrite (b64_value_char _ (sextet2_lt (Byte.to_N a) _ Hb)).
    rewrite (is_pad_char _ (sextet3_lt (Byte.to_N b) _ Hc)).
    rewrite (b64_value_char _ (sextet3_lt (Byte.to_N b) _ Hc)).
    rewrite (is_pad_char _ (sextet4_lt _)).
    rewrite (b64_value_char _ (sextet4_lt _)).
    rewrite IH.
    rewrite join_byte1, join_byte2, join_byte3 by assumption.
    rewrite !byte_of_to_N. reflexivity.
Qed.

Lemma DecodeString_EncodeToString (l : list byte) :
  DecodeString (EncodeToString l) = Some l.
Proof.
  unfold DecodeString. rewrite encoded_no_newline.
  apply decode_quanta_encoded.
Qed.

Lemma hmac_Equal_refl (a : list byte) : hmac_Equal a a = true.
Proof.
  induction a as [|x a IH]; [reflexivity|].
  cbn [hmac_Equal]. rewrite IH, andb_true_r. apply Byte.byte_dec_lb. reflexivity.
Qed.

Lemma hmac_Equal_eq (a b : list byte) : hmac_Equal a b = true -> a = b.
Proof.
  revert b. induction a as [|x a IH]; intros [|y b] Heq;
    try reflexivity; try discriminate.
  cbn [hmac_Equal] in Heq. apply andb_prop in Heq as [Hxy Hab].
  apply Byte.byte_dec_bl in Hxy. rewrite Hxy, (IH _ Hab). reflexivity.
Qed.

Lemma string_of_bytes_of (s : string) : string_of (bytes_of s) = s.
Proof. apply string_of_list_byte_of_string. Qed.

Lemma EncodeToString_nonempty (l : list byte) : l <> [] -> EncodeToString l <> "".
Proof.
  destruct l as [|a [|b [|c l]]]; [congruence|discriminate..].
Qed.

Section TokenParts.
Context `{Primitives}.

(** A token taken apart: the received IV, ciphertext and MAC of a string
    of at least 48 bytes that ends in 32 bytes of MAC. *)
Lemma split_combined (iv ct mac : list byte) :
  length iv = aes_BlockSize -> length mac = HMACSize ->
  let combined := iv ++ ct ++ mac in
  firstn aes_BlockSize combined = iv /\
  firstn (length combined - HMACSize - aes_BlockSize)
    (skipn aes_BlockSize combined) = ct /\
  skipn (length combined - HMACSize) combined = mac.
Proof.
  intros Hiv Hmac combined. unfold combined.
  rewrite <- Hiv, <- Hmac. clear Hiv Hmac.
  split; [|split].
  - apply take_app_length.
  - rewrite drop_app_length.
    replace (length (iv ++ ct ++ mac) - length mac - length iv)
      with (length ct) by (rewrite !length_app; lia).
    apply take_app_length.
  - replace (length (iv ++ ct ++ mac) - length mac)
      with (length (iv ++ ct)) by (rewrite !length_app; lia).
    rewrite app_assoc. apply drop_app_length.
Qed.

Lemma deobfuscateFilename_combined (key iv ct mac : list byte) :
  length iv = aes_BlockSize -> length mac = HMACSize ->
  deobfuscateFilename key (EncodeToString (iv ++ ct ++ mac))
  = if negb (hmac_Equal mac (hmac_sha256 key (iv ++ ct)))
    then Err (Msg "filename authentication failed")
    else if negb (aes_key_ok key)
    then Err (Wrap "failed to create cipher"
                (Msg "crypto/aes: invalid key size"))
    else Ok (string_of (ctr_XORKeyStream key iv ct)).
Proof.
  intros Hiv Hmac. unfold deobfuscateFilename.
  assert (Hne : EncodeToString (iv ++ ct ++ mac) <> "").
  { apply EncodeToString_nonempty. destruct iv; [discriminate Hiv|discriminate]. }
  apply String.eqb_neq in Hne. rewrite Hne, DecodeString_EncodeToString.
  destruct (split_combined iv ct mac Hiv Hmac) as (H1 & H2 & H3).
  cbv zeta in H1, H2, H3. rewrite H1, H2, H3.
  replace (length (iv ++ ct ++ mac) <? aes_BlockSize + HMACSize)%nat with false;
    [reflexivity|].
  symmetry. apply Nat.ltb_ge. rewrite !length_app, Hiv, Hmac. lia.
Qed.

End TokenParts.

(** X1.  [deobfuscateFilename] of crypto.go takes every token back to its
    name: it is a left inverse of [obfuscateFilename] under the same key. *)
Theorem deobfuscate_token `{Primitives} (key : list byte) (name t : string) :
  obfuscateFilename key name = Ok t ->
  deobfuscateFilename key t = Ok name.
Proof.
  intros Hob. apply obfuscateFilename_inv in Hob as (_ & Hk & -> & _).
  unfold token_bytes.
  rewrite deobfuscateFilename_combined;
    [|apply iv_length|apply hmac_length].
  rewrite hmac_Equal_refl, Hk. cbn [negb].
  rewrite ctr_involutive by (auto using iv_length).
  rewrite string_of_bytes_of. reflexivity.
Qed.

Lemma deobfuscate_token_witness :
  exists t, @obfuscateFilename Ref.prims key32 "notes.txt" = Ok t /\
            @deobfuscateFilename Ref.prims key32 t = Ok "notes.txt".
Proof.
  destruct (@obfuscateFilename Ref.prims key32 "notes.txt") as [t|e] eqn:Hob.
  - exists t. split; [reflexivity|].
    apply (@deobfuscate_token Ref.prims key32 "notes.txt" t Hob).
  - vm_compute in Hob. discriminate.
Defined.

(** X2.  What [deobfuscateFilename] rejects: the empty string; a string
    that decodes to fewer than 48 bytes, the size of an IV and a MAC; and
    a string of the right shape whose last 32 bytes are not the HMAC of
    what precedes them, whatever the key. *)
Theorem deobfuscate_rejects `{Primitives} (key : list byte) :
  deobfuscateFilename key ""
  = Err (Msg "obfuscated filename cannot be empty") /\
  (forall combined : list byte,
      combined <> [] -> length combined < aes_BlockSize + HMACSize ->
      deobfuscateFilename key (EncodeToString combined)
      = Err (Msg "obfuscated filename too short")) /\
  (forall iv ct mac : list byte,
      length iv = aes_BlockSize -> length mac = HMACSize ->
      mac <> hmac_sha256 key (iv ++ ct) ->
      deobfuscateFilename key (EncodeToString (iv ++ ct ++ mac))
      = Err (Msg "filename authentication failed")).
Proof.
  split; [reflexivity|]. split.
  - intros combined Hne Hlen. unfold deobfuscateFilename.
    apply EncodeToString_nonempty, String.eqb_neq in Hne.
    rewrite Hne, DecodeString_EncodeToString.
    apply Nat.ltb_lt in Hlen. rewrite Hlen. reflexivity.
  - intros iv ct mac Hiv Hmac Hbad.
    rewrite (deobfuscateFilename_combined key iv ct mac Hiv Hmac).
    destruct (hmac_Equal mac (hmac_sha256 key (iv ++ ct))) eqn:Heq;
      [|reflexivity].
    apply hmac_Equal_eq in Heq. contradiction.
Qed.

Lemma deobfuscate_rejects_witness :
  @deobfuscateFilename Ref.prims key32 (EncodeToString (repeat x01 47))
  = Err (Msg "obfuscated filename too short") /\
  @deobfuscateFilename Ref.prims key32
    (EncodeToString (repeat x01 16 ++ bytes_of "a" ++ repeat x02 32))
  = Err (Msg "filename authentication failed").
Proof.
  destruct (@deobfuscate_rejects Ref.prims key32) as (_ & Hshort & Hmac).
  split.
  - apply Hshort; [discriminate|vm_compute; lia].
  - apply Hmac; [reflexivity|reflexivity|].
    vm_compute. discriminate.
Defined.

(** X3.  [encryptData] and [decryptData]: with a usable key and twelve
    bytes of randomness, the output is the nonce, the ciphertext and the
    tag, 28 bytes longer than the plaintext; it starts with the random
    bytes drawn; [decryptData] gives the plaintext back; and nothing but
    the source of randomness has changed.  Whatever is shorter than a
    nonce and a tag is rejected. *)
Theorem encryptData_decryptData `{Primitives}
    (key plaintext : list byte) (w : World) :
  (aes_key_ok key = true -> NonceSize <= length (entropy w) ->
   exists enc w',
     encryptData key plaintext w = (Ok enc, w') /\
     length enc = NonceSize + length plaintext + TagSize /\
     firstn NonceSize enc = firstn NonceSize (entropy w) /\
     decryptData key enc = Ok plaintext /\
     backend w' = backend w /\ cache w' = cache w /\
     entropy w' = skipn NonceSize (entropy w)) /\
  (forall c : list byte,
      length c < NonceSize + TagSize ->
      decryptData key c = Err (Msg "ciphertext too short")).
Proof.
  split.
  - intros Hk He.
    assert (Hn : length (firstn NonceSize (entropy w)) = NonceSize)
      by (rewrite length_firstn; lia).
    eexists. eexists. split; [apply (encryptData_eq key plaintext w Hk He)|].
    split; [rewrite (sealed_length _ _ _ Hn); reflexivity|].
    split.
    { unfold sealed. rewrite <- Hn at 1. apply take_app_length. }
    split; [apply (decryptData_sealed _ _ _ Hk Hn)|].
    split; [reflexivity|]. split; reflexivity.
  - intros c Hc. unfold decryptData. apply Nat.ltb_lt in Hc. rewrite Hc.
    reflexivity.
Qed.

Lemma encryptData_decryptData_witness :
  (exists enc w',
      @encryptData Ref.prims key32 hello (empty_world 12) = (Ok enc, w') /\
      length enc = 43 /\
      @decryptData Ref.prims key32 enc = Ok hello) /\
  @decryptData Ref.prims key32 (repeat x01 27)
  = Err (Msg "ciphertext too short").
Proof.
  destruct (@encryptData_decryptData Ref.prims key32 hello (empty_world 12))
    as [Hround Hshort].
  split.
  - destruct Hround as (enc & w' & Henc & Hlen & _ & Hdec & _);
      [reflexivity|vm_compute; lia|].
    exists enc, w'. split; [exact Henc|]. split; [exact Hlen|exact Hdec].
  - apply Hshort. vm_compute. lia.
Defined.

(** X4.  A token is safe as a name of the backend: it has between 68 and
    200 characters, a multiple of four and more than the name has; it has
    no path separator and does not start with a dot, so that it is one
    path component; and it is never the reserved name of the sidecar or a
    path below it. *)
Theorem token_is_a_path_component `{Primitives}
    (key : list byte) (name t : string) :
  obfuscateFilename key name = Ok t ->
  String.length t = 4 * ((String.length name + 50) / 3) /\
  68 <= String.length t <= MaxFilenameLen /\
  String.length name < String.length t /\
  no_slash t = true /\
  components t = [t] /\
  Base t = t /\
  Fs.is_sidecar t = false.
Proof.
  intros Hob. pose proof (token_is_token_like _ _ _ Hob) as Hlike.
  apply obfuscateFilename_inv in Hob as (Hne & _ & -> & Hlen).
  assert (Hpos : 1 <= String.length name).
  { destruct name; [congruence|cbn [String.length]; lia]. }
  rewrite token_length.
  assert (Hlo : 17 <= (String.length name + 50) / 3)
    by (apply Nat.div_le_lower_bound; lia).
  assert (Hhi : (String.length name + 50) / 3 < 51)
    by (apply Nat.Div0.div_lt_upper_bound; lia).
  assert (Hgt : String.length name < 4 * ((String.length name + 50) / 3)).
  { pose proof (Nat.Div0.div_mod (String.length name + 50) 3).
    pose proof (Nat.mod_upper_bound (String.length name + 50) 3). lia. }
  split; [reflexivity|]. split; [unfold MaxFilenameLen; lia|].
  split; [exact Hgt|].
  split; [apply plain_no_slash, EncodeToString_plain|].
  split; [apply components_token, Hlike|].
  split; [apply Base_simple, token_like_simple, Hlike|].
  apply token_like_not_sidecar, Hlike.
Qed.

Lemma token_is_a_path_component_witness :
  exists t, @obfuscateFilename Ref.prims key32 "notes.txt" = Ok t /\
            String.length t = 76 /\ components t = [t].
Proof.
  destruct (@obfuscateFilename Ref.prims key32 "notes.txt") as [t|e] eqn:Hob.
  - destruct (@token_is_a_path_component Ref.prims key32 "notes.txt" t Hob)
      as (Hlen & _ & _ & _ & Hc & _).
    exists t. split; [reflexivity|]. split; [exact Hlen|exact Hc].
  - vm_compute in Hob. discriminate.
Defined.

(** X5.  Under one key two different names never get the same token, and
    a token cannot be obfuscated twice more: the token of a token is
    longer than 102 bytes, which [obfuscateFilename] rejects. *)
Theorem tokens_do_not_collide `{Primitives}
    (key : list byte) (n1 n2 t1 t2 : string) :
  obfuscateFilename key n1 = Ok t1 ->
  obfuscateFilename key n2 = Ok t2 ->
  (t1 = t2 -> n1 = n2) /\
  (n2 = t1 ->
   obfuscateFilename key t2 = Err (Msg "obfuscated filename too long")).
Proof.
  intros H1 H2. split.
  - intros <-. apply (obfuscateFilename_inj _ _ _ _ H1 H2).
  - intros ->.
    pose proof (obfuscateFilename_inv _ _ _ H1) as (Hne1 & Hk & Ht1 & _).
    pose proof (obfuscateFilename_inv _ _ _ H2) as (Hne2 & _ & Ht2 & _).
    assert (Hl1 : 68 <= String.length t1).
    { rewrite Ht1, token_length.
      assert (1 <= String.length n1)
        by (destruct n1; [congruence|cbn [String.length]; lia]).
      assert (17 <= (String.length n1 + 50) / 3)
        by (apply Nat.div_le_lower_bound; lia).
      lia. }
    assert (Hl2 : 103 <= String.length t2).
    { rewrite Ht2, token_length.
      assert (39 <= (String.length t1 + 50) / 3)
        by (apply Nat.div_le_lower_bound; lia).
      lia. }
    assert (Hne : t2 <> "").
    { intros ->. cbn [String.length] in Hl2. lia. }
    rewrite (obfuscateFilename_eq _ _ Hk Hne).
    replace (102 <? String.length t2)%nat with true
      by (symmetry; apply Nat.ltb_lt; lia).
    reflexivity.
Qed.

Lemma tokens_do_not_collide_witness :
  exists t1 t2,
    @obfuscateFilename Ref.prims key32 "a" = Ok t1 /\
    @obfuscateFilename Ref.prims key32 t1 = Ok t2 /\
    @obfuscateFilename Ref.prims key32 t2
    = Err (Msg "obfuscated filename too long").
Proof.
  destruct (@obfuscateFilename Ref.prims key32 "a") as [t1|e] eqn:H1;
    [|vm_compute in H1; discriminate].
  destruct (@obfuscateFilename Ref.prims key32 t1) as [t2|e] eqn:H2.
  - exists t1, t2. split; [reflexivity|]. split; [exact H2|].
    apply (@tokens_do_not_collide Ref.prims key32 "a" t1 t1 t2 H1 H2).
    reflexivity.
  - exfalso. vm_compute in H1. injection H1 as <-.
    vm_compute in H2. discriminate.
Defined.

(** * More of file.go *)

(** [File.Truncate(size)] of the backend: the content is cut or padded
    with zeros; the position stays. *)
Definition Backend_Truncate (size : nat) : St (ufile * World) unit :=
  fun s =>
    let (u, w) := s in
    if negb (Backend.writable (u_flag u)) then (Err (Msg "truncate not supported"), s)
    else
      match Backend.content_of u w with
      | Err e => (Err e, s)
      | Ok c =>
          let c' := firstn size c ++ repeat x00 (size - length c) in
          (Ok tt, (u, set_backend (<[u_key u := File c']> (backend w)) w))
      end.

(** [EncryptedFileInfo]: the backend's [FileInfo] with the size and the
    name that the file reports. *)
Record EncryptedFileInfo : Type := mkEncryptedFileInfo {
  efi_info : FileInfo;
  actualSize : nat;
  efi_originalName : string
}.

Module File.
Section Methods.
Context `{Primitives}.

Definition Name (f : EncryptedFile) : string := filename f.

(** [Truncate]: only to size zero, only in write mode; the writer is
    dropped, the backend file emptied and rewound. *)
Definition Truncate (size : Z) : St (EncryptedFile * World) unit :=
  s <- get ;;
  if closed (fst s) then fail ErrClosed
  else if negb (isWriteMode (fst s)) then fail (Msg "file not opened for writing")
  else if (size =? 0)%Z then
    Handle.modify_file (set_encryptingWriter None) ;;;
    Handle.on_underlying (Backend_Truncate 0) ;;;
    Handle.on_underlying Backend.SeekStart0 ;;;
    ret tt
  else fail (Msg "truncation to non-zero size not supported for encrypted files").

(** [Stat]: the backend is asked about the obfuscated path; the size is
    that of the plaintext once the reader holds it, and that of the
    backend file before. *)
Definition Stat : St (EncryptedFile * World) EncryptedFileInfo :=
  s <- get ;;
  if closed (fst s) then fail ErrClosed
  else
    info <- on_world (Backend.Stat (obfuscated (fst s))) ;;
    match decryptingReader (fst s) with
    | Some dr =>
        if dr_initialized dr
        then ret (mkEncryptedFileInfo info (length (dr_decrypted dr))
                    (filename (fst s)))
        else ret (mkEncryptedFileInfo info (fi_size info) (filename (fst s)))
    | None => ret (mkEncryptedFileInfo info (fi_size info) (filename (fst s)))
    end.

End Methods.
End File.

(** ** A handle that has been closed *)

Lemma Close_closes `{Primitives} (s s' : EncryptedFile * World) (r : result unit) :
  Handle.Close s = (r, s') -> closed (fst s') = true.
Proof.
  unfold Handle.Close, bind at 1, get. cbn [fst snd].
  destruct (closed (fst s)) eqn:Hc.
  - intros Hr. injection Hr as _ <-. exact Hc.
  - unfold bind at 1.
    destruct (match encryptingWriter (fst s) with
              | Some ew =>
                  attempt (Handle.on_underlying (EncryptingWriter_Close ew))
              | None => ret (Ok tt)
              end s) as [[r1|e1] s1] eqn:H1.
    + unfold bind at 1, attempt.
      destruct (Handle.on_underlying Backend.Close s1) as [r2 s2].
      unfold bind, Handle.modify_file, modify.
      destruct r1, r2; intros Hr; injection Hr as _ <-; reflexivity.
    + exfalso. destruct (encryptingWriter (fst s)).
      * unfold attempt in H1.
        destruct (Handle.on_underlying _ s); discriminate.
      * discriminate.
Qed.

(** X6.  [Close] always leaves the handle closed, also when sealing or
    the backend fails.  On a closed handle [Read], [ReadAt], [Write],
    [Seek], [Truncate] and [Stat] fail with [os.ErrClosed] and a second
    [Close] succeeds; none of them changes the handle or the backend. *)
Theorem closed_handle_is_inert `{Primitives} :
  (forall (s s' : EncryptedFile * World) (r : result unit),
      Handle.Close s = (r, s') -> closed (fst s') = true) /\
  (forall (f : EncryptedFile) (w : World),
      closed f = true ->
      (forall n, Handle.Read n (f, w) = (Err ErrClosed, (f, w))) /\
      (forall n off, Handle.ReadAt n off (f, w) = (Err ErrClosed, (f, w))) /\
      (forall p, Handle.Write p (f, w) = (Err ErrClosed, (f, w))) /\
      (forall off start, Handle.Seek off start (f, w) = (Err ErrClosed, (f, w))) /\
      (forall size, File.Truncate size (f, w) = (Err ErrClosed, (f, w))) /\
      File.Stat (f, w) = (Err ErrClosed, (f, w)) /\
      Handle.Close (f, w) = (Ok tt, (f, w))).
Proof.
  split; [apply @Close_closes|].
  intros f w Hc.
  repeat split; intros;
    unfold Handle.Read, Handle.ReadAt, Handle.Write, Handle.Seek,
      File.Truncate, File.Stat, Handle.Close, bind, get;
    cbn [fst snd]; rewrite Hc; reflexivity.
Qed.

Lemma closed_handle_is_inert_witness :
  closed (fst (snd hello_closed)) = true /\
  @Handle.Read Ref.prims 4 (snd hello_closed)
  = (Err ErrClosed, snd hello_closed) /\
  Handle.Write hello (snd hello_closed) = (Err ErrClosed, snd hello_closed).
Proof.
  destruct (@closed_handle_is_inert Ref.prims) as [Hclose Hinert].
  assert (Hc : closed (fst (snd hello_closed)) = true).
  { apply (Hclose (snd hello_written) (snd hello_closed) (fst hello_closed)).
    unfold hello_closed. destruct (@Handle.Close Ref.prims (snd hello_written)).
    reflexivity. }
  split; [exact Hc|].
  destruct (Hinert (fst (snd hello_closed)) (snd (snd hello_closed)) Hc)
    as (Hread & _ & Hwrite & _).
  rewrite <- surjective_pairing in Hread, Hwrite.
  split; [apply Hread|apply Hwrite].
Defined.

(** ** Several writes *)

(** The chunks written one after the other, as a caller's loop or
    [io.Copy] does; a short count would be an error of the caller. *)
Fixpoint write_chunks (chunks : list (list byte))
    : St (EncryptedFile * World) unit :=
  match chunks with
  | [] => ret tt
  | p :: rest =>
      n <- Handle.Write p ;;
      if (n =? length p)%nat then write_chunks rest
      else fail (Msg "short write")
  end.

Section Writes.
Context `{Primitives}.
Variable fs : GrainFS.

Lemma Write_more (name t : string) (nonce data p : list byte) (w : World) :
  Handle.Write p (written_handle fs name t nonce data, w)
  = (Ok (length p), (written_handle fs name t nonce (data ++ p), w)).
Proof. reflexivity. Qed.

Lemma write_chunks_more (name t : string) (nonce : list byte) (w : World)
    (chunks : list (list byte)) :
  forall data,
    write_chunks chunks (written_handle fs name t nonce data, w)
    = (Ok tt, (written_handle fs name t nonce (data ++ concat chunks), w)).
Proof.
  induction chunks as [|p chunks IH]; intros data.
  - cbn [write_chunks concat]. rewrite app_nil_r. reflexivity.
  - cbn [write_chunks concat]. unfold bind. rewrite Write_more.
    rewrite Nat.eqb_refl, IH, app_assoc. reflexivity.
Qed.

End Writes.

(** X7.  Whatever the number of [Write] calls on a new file, one nonce is
    drawn, at the first of them, and it is all that reaches the backend
    before [Close]; [Close] then seals the concatenation of everything
    written as one message. *)
Theorem writes_are_sealed_together `{Primitives}
    (fs : GrainFS) (name t : string) (chunks : list (list byte)) (w : World) :
  backend w !! [t] = Some (File []) ->
  aes_key_ok (masterKey fs) = true ->
  NonceSize <= length (entropy w) ->
  chunks <> [] ->
  let nonce := firstn NonceSize (entropy w) in
  exists s1 s2,
    write_chunks chunks (write_handle fs name t, w) = (Ok tt, s1) /\
    backend (snd s1) !! [t] = Some (File nonce) /\
    Handle.Close s1 = (Ok tt, s2) /\
    backend (snd s2) !! [t]
    = Some (File (sealed (masterKey fs) nonce (concat chunks))) /\
    entropy (snd s2) = skipn NonceSize (entropy w).
Proof.
  intros Hb Hk He Hne nonce.
  destruct chunks as [|p chunks]; [congruence|].
  assert (Hn : length nonce = NonceSize)
    by (unfold nonce; rewrite length_firstn; lia).
  eexists. eexists. split.
  { cbn [write_chunks]. unfold bind at 1.
    rewrite (Write_first fs name t p w Hb Hk He), Nat.eqb_refl.
    apply write_chunks_more. }
  cbn [snd backend]. split; [apply lookup_insert_eq|].
  split.
  { apply (Close_written fs name t nonce _ _ (lookup_insert_eq _ _ _) Hn). }
  cbn [snd backend set_backend entropy].
  split; [apply lookup_insert_eq|reflexivity].
Qed.

Lemma writes_are_sealed_together_witness :
  exists s1 s2,
    write_chunks [bytes_of "Hello, "; bytes_of "GrainFS!"]
      (hello_handle, snd hello_created) = (Ok tt, s1) /\
    @Handle.Close Ref.prims s1 = (Ok tt, s2) /\
    backend (snd s2) !! [@token Ref.prims (pw_volume 56) "hello.txt"]
    = backend (snd (snd hello_closed))
        !! [@token Ref.prims (pw_volume 56) "hello.txt"].
Proof.
  destruct (@writes_are_sealed_together Ref.prims (pw_volume 56) "hello.txt"
              (@token Ref.prims (pw_volume 56) "hello.txt")
              [bytes_of "Hello, "; bytes_of "GrainFS!"] (snd hello_created))
    as (s1 & s2 & Hw & _ & Hc & Hb & _).
  - vm_compute. reflexivity.
  - reflexivity.
  - vm_compute. lia.
  - discriminate.
  - exists s1, s2. split; [exact Hw|]. split; [exact Hc|].
    rewrite Hb. vm_compute. reflexivity.
Defined.

(** ** Seek, Stat, Truncate and ReadAt on a file that holds an envelope *)

Section OnEnvelope.
Context `{Primitives}.
Variable fs : GrainFS.

Lemma Seek_rewind (name t : string) (endpos : nat) (nonce data : list byte)
    (pos : nat) (w : World) :
  Handle.Seek 0 true (ready_handle fs name t endpos nonce data pos, w)
  = (Ok 0, (read_handle fs name t, w)).
Proof. reflexivity. Qed.

Lemma Read_start (name t : string) (nonce data : list byte) (w : World) (n : nat) :
  backend w !! [t] = Some (File (sealed (masterKey fs) nonce data)) ->
  length nonce = NonceSize -> aes_key_ok (masterKey fs) = true ->
  fst (Handle.Read n (read_handle fs name t, w))
  = if (length data =? 0)%nat then Err EOF else Ok (firstn n data).
Proof.
  intros Hb Hn Hk.
  rewrite (Read_fresh fs name t nonce data w n Hb Hn Hk), Read_ready.
  rewrite Nat.sub_0_r, drop_0.
  destruct (length data =? 0)%nat; [reflexivity|].
  cbv zeta. cbn [fst].
  destruct (Nat.ltb_spec (length data) n) as [Hlt|Hge]; [|reflexivity].
  rewrite !firstn_all2 by lia. reflexivity.
Qed.

Lemma ReadAt_fresh (name t : string) (nonce data : list byte) (w : World)
    (n : nat) (off : Z) :
  backend w !! [t] = Some (File (sealed (masterKey fs) nonce data)) ->
  length nonce = NonceSize -> aes_key_ok (masterKey fs) = true ->
  fst (Handle.ReadAt n off (read_handle fs name t, w))
  = if (off <? 0)%Z then Err (Msg "negative offset")
    else if (Z.of_nat (length data) <=? off)%Z then Err EOF
    else Ok (firstn n (skipn (Z.to_nat off) data),
             (length data - Z.to_nat off <? n)%nat).
Proof.
  intros Hb Hn Hk. unfold Handle.ReadAt, bind at 1, get at 1.
  cbn [fst snd read_handle closed isWriteMode].
  fold (read_handle fs name t).
  unfold bind at 1. rewrite (ensure_reader_sealed fs name t nonce data w Hb Hn Hk).
  destruct (off <? 0)%Z; [reflexivity|].
  unfold bind, get.
  cbn [fst snd ready_handle decryptingReader dr_initialized dr_decrypted negb].
  destruct (Z.of_nat (length data) <=? off)%Z; [reflexivity|].
  unfold ret. cbn [fst]. f_equal. f_equal.
  destruct (Nat.ltb_spec (length data - Z.to_nat off) n) as [Hlt|Hge];
    [|reflexivity].
  rewrite !firstn_all2 by (rewrite length_skipn; lia). reflexivity.
Qed.

Lemma Stat_read_handle (name t : string) (c : list byte) (w : World) :
  components t = [t] -> backend w !! [t] = Some (File c) ->
  File.Stat (read_handle fs name t, w)
  = (Ok (mkEncryptedFileInfo (mkFileInfo t (length c) false) (length c) name),
     (read_handle fs name t, w)).
Proof.
  intros Hc Hb. unfold File.Stat, bind at 1, get.
  cbn [fst snd read_handle closed obfuscated].
  unfold bind, on_world, Backend.Stat. cbn [fst snd].
  rewrite Hc, Hb. reflexivity.
Qed.

Lemma Stat_ready_handle (name t : string) (endpos : nat) (nonce data c : list byte)
    (pos : nat) (w : World) :
  components t = [t] -> backend w !! [t] = Some (File c) ->
  File.Stat (ready_handle fs name t endpos nonce data pos, w)
  = (Ok (mkEncryptedFileInfo (mkFileInfo t (length c) false) (length data) name),
     (ready_handle fs name t endpos nonce data pos, w)).
Proof.
  intros Hc Hb. unfold File.Stat, bind at 1, get.
  cbn [fst snd ready_handle closed obfuscated].
  unfold bind, on_world, Backend.Stat. cbn [fst snd].
  rewrite Hc, Hb. reflexivity.
Qed.

Lemma Truncate_written (name t : string) (nonce data c : list byte) (w : World) :
  backend w !! [t] = Some (File c) ->
  File.Truncate 0 (written_handle fs name t nonce data, w)
  = (Ok tt, (write_handle fs name t,
             set_backend (<[[t] := File []]> (backend w)) w)).
Proof.
  intros Hb. unfold File.Truncate, bind at 1, get.
  cbn [fst snd written_handle closed isWriteMode negb Z.eqb].
  unfold bind at 1, Handle.modify_file, modify. cbn [fst snd set_encryptingWriter
    underlying fs_of filename obfuscated flag isWriteMode isTempFile
    decryptingReader readInitialized closed].
  unfold bind at 1, Handle.on_underlying, zoom, Backend_Truncate,
    Backend.content_of.
  cbn [fst snd underlying u_flag u_key set_encryptingWriter written_handle].
  rewrite Hb. reflexivity.
Qed.

End OnEnvelope.

(** X8.  [Seek] only rewinds.  On a read handle [Seek(0, io.SeekStart)]
    drops the reader, so that the next [Read] starts again at the first
    byte of the plaintext; every other [Seek] of a read handle fails and
    changes nothing, and so does every [Seek] of a write handle that has
    been written to. *)
Theorem seek_only_rewinds `{Primitives}
    (fs : GrainFS) (name t : string) (nonce data : list byte) (w : World) :
  backend w !! [t] = Some (File (sealed (masterKey fs) nonce data)) ->
  length nonce = NonceSize -> aes_key_ok (masterKey fs) = true ->
  (forall endpos pos n,
      exists s1,
        Handle.Seek 0 true (ready_handle fs name t endpos nonce data pos, w)
        = (Ok 0, s1) /\
        fst (Handle.Read n s1)
        = if (length data =? 0)%nat then Err EOF else Ok (firstn n data)) /\
  (forall f off start,
      closed f = false -> isWriteMode f = false ->
      (off =? 0)%Z && start = false ->
      Handle.Seek off start (f, w)
      = (Err (Msg "seeking not fully supported for encrypted files"), (f, w))) /\
  (forall f ew off start,
      closed f = false -> isWriteMode f = true ->
      encryptingWriter f = Some ew ->
      Handle.Seek off start (f, w)
      = (Err (Msg "seeking not supported after writing to encrypted file"),
         (f, w))).
Proof.
  intros Hb Hn Hk. split; [|split].
  - intros endpos pos n. eexists. split; [apply Seek_rewind|].
    apply (Read_start fs name t nonce data w n Hb Hn Hk).
  - intros f off start Hc Hm Hoff.
    unfold Handle.Seek, bind, get. cbn [fst snd]. rewrite Hc, Hm, Hoff.
    reflexivity.
  - intros f ew off start Hc Hm Hew.
    unfold Handle.Seek, bind, get. cbn [fst snd]. rewrite Hc, Hm, Hew.
    reflexivity.
Qed.

(** The handle that [Open] gives for "hello.txt", and its token. *)
Definition hello_token : string := @token Ref.prims (pw_volume 56) "hello.txt".
Definition hello_reader : EncryptedFile :=
  read_handle (pw_volume 56) "hello.txt" hello_token.
Definition hello_nonce : list byte :=
  firstn NonceSize (entropy (snd hello_created)).

Lemma hello_envelope :
  backend (snd hello_opened) !! [hello_token]
  = Some (File (@sealed Ref.prims (masterKey (pw_volume 56)) hello_nonce hello)).
Proof. vm_compute. reflexivity. Qed.

Lemma seek_only_rewinds_witness :
  exists s1,
    Handle.Seek 0 true
      (ready_handle (pw_volume 56) "hello.txt" hello_token 43 hello_nonce hello 7,
       snd hello_opened) = (Ok 0, s1) /\
    fst (@Handle.Read Ref.prims 5 s1) = Ok (bytes_of "Hello") /\
    Handle.Seek 7 true (hello_reader, snd hello_opened)
    = (Err (Msg "seeking not fully supported for encrypted files"),
       (hello_reader, snd hello_opened)).
Proof.
  destruct (@seek_only_rewinds Ref.prims (pw_volume 56) "hello.txt" hello_token
              hello_nonce hello (snd hello_opened))
    as (Hrewind & Hother & _).
  - exact hello_envelope.
  - reflexivity.
  - reflexivity.
  - destruct (Hrewind 43 7 5) as (s1 & Hseek & Hread).
    exists s1. split; [exact Hseek|]. split; [exact Hread|].
    apply Hother; reflexivity.
Defined.

(** X9.  [Stat] of a read handle reports the name the file was opened
    under, and a size that depends on the reader: before the first read it
    is the size of the backend file, 28 bytes more than the plaintext;
    once a [Read] has set up the reader it is the size of the plaintext. *)
Theorem stat_size_follows_reader `{Primitives}
    (fs : GrainFS) (name t : string) (nonce data : list byte) (w : World)
    (n : nat) :
  components t = [t] ->
  backend w !! [t] = Some (File (sealed (masterKey fs) nonce data)) ->
  length nonce = NonceSize -> aes_key_ok (masterKey fs) = true ->
  exists before after,
    File.Stat (read_handle fs name t, w)
    = (Ok before, (read_handle fs name t, w)) /\
    actualSize before = NonceSize + length data + TagSize /\
    efi_originalName before = name /\
    File.Stat (snd (Handle.Read n (read_handle fs name t, w)))
    = (Ok after, snd (Handle.Read n (read_handle fs name t, w))) /\
    actualSize after = length data /\
    efi_originalName after = name /\
    fi_size (efi_info after) = NonceSize + length data + TagSize.
Proof.
  intros Hc Hb Hn Hk.
  pose proof (sealed_length (masterKey fs) nonce data Hn) as Hlen.
  eexists. eexists.
  split; [apply (Stat_read_handle fs name t _ w Hc Hb)|].
  cbn [actualSize efi_originalName]. split; [exact Hlen|].
  split; [reflexivity|].
  rewrite (Read_fresh fs name t nonce data w n Hb Hn Hk), Read_ready.
  destruct (length data - 0 =? 0)%nat; cbv zeta; cbn [snd];
    (split; [apply (Stat_ready_handle fs name t _ nonce data _ _ w Hc Hb)|]);
    cbn [actualSize efi_originalName efi_info fi_size];
    (split; [reflexivity|]); (split; [reflexivity|exact Hlen]).
Qed.

Lemma stat_size_follows_reader_witness :
  exists before after,
    File.Stat (hello_reader, snd hello_opened)
    = (Ok before, (hello_reader, snd hello_opened)) /\
    actualSize before = 43 /\
    File.Stat
      (snd (@Handle.Read Ref.prims 4 (hello_reader, snd hello_opened)))
    = (Ok after, snd (@Handle.Read Ref.prims 4 (hello_reader, snd hello_opened))) /\
    actualSize after = 15.
Proof.
  destruct (@stat_size_follows_reader Ref.prims (pw_volume 56) "hello.txt"
              hello_token hello_nonce hello (snd hello_opened) 4)
    as (before & after & Hs1 & Hb1 & _ & Hs2 & Hb2 & _).
  - vm_compute. reflexivity.
  - exact hello_envelope.
  - reflexivity.
  - reflexivity.
  - exists before, after. split; [exact Hs1|]. split; [exact Hb1|].
    split; [exact Hs2|exact Hb2].
Defined.

(** X10.  [Truncate] empties.  On a write handle that has been written to,
    [Truncate(0)] drops the buffered data and the nonce on the backend;
    what is written afterwards is sealed under a new nonce, and [Close]
    leaves the envelope of that alone.  A size other than zero is
    refused, and so is every [Truncate] of a read handle. *)
Theorem truncate_discards `{Primitives}
    (fs : GrainFS) (name t : string) (nonce data c p : list byte) (w : World) :
  backend w !! [t] = Some (File c) ->
  aes_key_ok (masterKey fs) = true -> NonceSize <= length (entropy w) ->
  (exists s1 s2 s3,
      File.Truncate 0 (written_handle fs name t nonce data, w) = (Ok tt, s1) /\
      backend (snd s1) !! [t] = Some (File []) /\
      Handle.Write p s1 = (Ok (length p), s2) /\
      Handle.Close s2 = (Ok tt, s3) /\
      backend (snd s3) !! [t]
      = Some (File (sealed (masterKey fs) (firstn NonceSize (entropy w)) p))) /\
  (forall f size,
      closed f = false -> isWriteMode f = true -> size <> 0%Z ->
      File.Truncate size (f, w)
      = (Err (Msg "truncation to non-zero size not supported for encrypted files"),
         (f, w))) /\
  (forall f size,
      closed f = false -> isWriteMode f = false ->
      File.Truncate size (f, w)
      = (Err (Msg "file not opened for writing"), (f, w))).
Proof.
  intros Hb Hk He. split; [|split].
  - assert (Hn : length (firstn NonceSize (entropy w)) = NonceSize)
      by (rewrite length_firstn; lia).
    eexists. eexists. eexists.
    split; [apply (Truncate_written fs name t nonce data c w Hb)|].
    cbn [snd backend set_backend]. split; [apply lookup_insert_eq|].
    split.
    { apply (Write_first fs name t p
               (set_backend (<[[t] := File []]> (backend w)) w)
               (lookup_insert_eq _ _ _) Hk He). }
    split.
    { apply (Close_written fs name t _ p _ (lookup_insert_eq _ _ _) Hn). }
    cbn [snd backend set_backend]. apply lookup_insert_eq.
  - intros f size Hc Hm Hs. apply Z.eqb_neq in Hs.
    unfold File.Truncate, bind, get. cbn [fst snd]. rewrite Hc, Hm, Hs.
    reflexivity.
  - intros f size Hc Hm.
    unfold File.Truncate, bind, get. cbn [fst snd]. rewrite Hc, Hm.
    reflexivity.
Qed.

(** The state after the first write of "hello.txt", with twelve more
    bytes of randomness. *)
Definition hello_rewritable : EncryptedFile * World :=
  (written_handle (pw_volume 56) "hello.txt" hello_token hello_nonce hello,
   set_entropy (repeat x09 12) (snd (snd hello_written))).

Lemma truncate_discards_witness :
  exists s1 s2 s3,
    File.Truncate 0 hello_rewritable = (Ok tt, s1) /\
    Handle.Write (bytes_of "again") s1 = (Ok 5, s2) /\
    @Handle.Close Ref.prims s2 = (Ok tt, s3) /\
    exists envelope,
      backend (snd s3) !! [hello_token] = Some (File envelope) /\
      @decryptData Ref.prims (masterKey (pw_volume 56)) envelope
      = Ok (bytes_of "again").
Proof.
  destruct (@truncate_discards Ref.prims (pw_volume 56) "hello.txt" hello_token
              hello_nonce hello hello_nonce (bytes_of "again")
              (snd hello_rewritable))
    as ((s1 & s2 & s3 & Ht & _ & Hwr & Hc & Hb) & _ & _).
  - vm_compute. reflexivity.
  - reflexivity.
  - vm_compute. lia.
  - exists s1, s2, s3. split; [exact Ht|].
    split; [exact Hwr|]. split; [exact Hc|].
    eexists. split; [exact Hb|].
    apply decryptData_sealed; [reflexivity|vm_compute; reflexivity].
Defined.

(** X11.  [ReadAt] on a file that holds the envelope of some data returns
    the slice of the data at the offset: as many bytes as the buffer
    takes, or those that are left together with [io.EOF]; an offset at or
    past the end gives [io.EOF] alone, and a negative offset an error. *)
Theorem ReadAt_returns_slice `{Primitives}
    (fs : GrainFS) (name t : string) (nonce data : list byte) (w : World)
    (n : nat) (off : Z) :
  backend w !! [t] = Some (File (sealed (masterKey fs) nonce data)) ->
  length nonce = NonceSize -> aes_key_ok (masterKey fs) = true ->
  fst (Handle.ReadAt n off (read_handle fs name t, w))
  = (if (off <? 0)%Z then Err (Msg "negative offset")
     else if (Z.of_nat (length data) <=? off)%Z then Err EOF
     else Ok (firstn n (skipn (Z.to_nat off) data),
              (length data - Z.to_nat off <? n)%nat)) /\
  snd (snd (Handle.ReadAt n off (read_handle fs name t, w))) = w.
Proof.
  intros Hb Hn Hk. split; [apply (ReadAt_fresh fs name t nonce data w n off Hb Hn Hk)|].
  unfold Handle.ReadAt, bind at 1, get at 1.
  cbn [fst snd read_handle closed isWriteMode].
  fold (read_handle fs name t).
  unfold bind at 1. rewrite (ensure_reader_sealed fs name t nonce data w Hb Hn Hk).
  destruct (off <? 0)%Z; [reflexivity|].
  unfold bind, get.
  cbn [fst snd ready_handle decryptingReader dr_initialized dr_decrypted negb].
  destruct (Z.of_nat (length data) <=? off)%Z; reflexivity.
Qed.

Lemma ReadAt_returns_slice_witness :
  fst (@Handle.ReadAt Ref.prims 5 7 (hello_reader, snd hello_opened))
  = Ok (bytes_of "Grain", false) /\
  fst (@Handle.ReadAt Ref.prims 5 12 (hello_reader, snd hello_opened))
  = Ok (bytes_of "FS!", true) /\
  fst (@Handle.ReadAt Ref.prims 5 15 (hello_reader, snd hello_opened))
  = Err EOF.
Proof.
  assert (Hat : forall n off,
             fst (@Handle.ReadAt Ref.prims n off (hello_reader, snd hello_opened))
             = (if (off <? 0)%Z then Err (Msg "negative offset")
                else if (Z.of_nat (length hello) <=? off)%Z then Err EOF
                else Ok (firstn n (skipn (Z.to_nat off) hello),
                         (length hello - Z.to_nat off <? n)%nat))).
  { intros n off.
    apply (@ReadAt_returns_slice Ref.prims (pw_volume 56) "hello.txt"
             hello_token hello_nonce hello (snd hello_opened) n off).
    - exact hello_envelope.
    - reflexivity.
    - reflexivity. }
  rewrite !Hat. repeat split.
Defined.

(** * More of config.go and of New *)

Section Mount.
Context `{Primitives}.

(** [loadConfig] on a backend that has a configuration file: the file is
    read and checked, and the backend is left as it was. *)
Lemma loadConfig_file (fuel : nat) (w : World) (data : list byte) :
  backend w !! config_key = Some (File data) ->
  loadConfig (S fuel) w
  = (match json_Decode data with
     | None => Err (Wrap "failed to decode config" (Msg "json: syntax error"))
     | Some c =>
         if negb (length (Salt c) =? SaltSize)%nat
         then Err (Msg "invalid salt size")
         else if (Iterations c <=? 0)%Z then Err (Msg "invalid iterations")
         else Ok c
     end, w).
Proof.
  intros Hl. cbn [loadConfig].
  change (Join [GrainFSDir; ConfigFile]) with ".grainfs/config.json".
  assert (Hk : components ".grainfs/config.json" = config_key) by reflexivity.
  unfold bind at 1. rewrite attempt_eq.
  rewrite (Backend_Open_file _ _ data); rewrite Hk; [|discriminate|exact Hl].
  cbn [fst snd]. unfold bind at 1. rewrite attempt_eq.
  rewrite (with_file_ReadAll_file _ _ data);
    [|reflexivity|cbn [u_key backend set_backend]; apply lookup_insert_eq].
  cbn [fst snd u_pos]. rewrite drop_0.
  assert (Hw : set_backend (<[config_key := File data]> (backend w)) w = w).
  { rewrite (insert_id _ _ _ Hl). destruct w; reflexivity. }
  rewrite Hw.
  destruct (json_Decode data) as [c|]; [|reflexivity].
  destruct (negb (length (Salt c) =? SaltSize)%nat); [reflexivity|].
  destruct (Iterations c <=? 0)%Z; reflexivity.
Qed.

End Mount.

(** X12.  A mount never rewrites a configuration that is there.  With a
    configuration file on the backend, [New] reads it and leaves the
    backend as it is: it fails when the file does not decode, when the
    salt has not 32 bytes or when the iteration count is not positive,
    and otherwise derives the keys from what it read and starts with an
    empty cache. *)
Theorem mount_reads_existing_config `{Primitives}
    (fuel : nat) (password : string) (w : World) (data : list byte) :
  password <> "" ->
  backend w !! config_key = Some (File data) ->
  Facade.New (S fuel) password w
  = match json_Decode data with
    | None =>
        (Err (Wrap "failed to load config"
                (Wrap "failed to decode config" (Msg "json: syntax error"))), w)
    | Some c =>
        if negb (length (Salt c) =? SaltSize)%nat
        then (Err (Wrap "failed to load config" (Msg "invalid salt size")), w)
        else if (Iterations c <=? 0)%Z
        then (Err (Wrap "failed to load config" (Msg "invalid iterations")), w)
        else (Ok (mkGrainFS
                    (fst (deriveKeys password (Salt c) (Iterations c)))
                    (snd (deriveKeys password (Salt c) (Iterations c))) "."),
              set_cache ∅ w)
    end.
Proof.
  intros Hpw Hl. unfold Facade.New.
  apply String.eqb_neq in Hpw. rewrite Hpw.
  unfold bind at 1, wrap. rewrite (loadConfig_file fuel w data Hl).
  destruct (json_Decode data) as [c|]; [|reflexivity].
  destruct (negb (length (Salt c) =? SaltSize)%nat); [reflexivity|].
  destruct (Iterations c <=? 0)%Z; reflexivity.
Qed.

(** A world whose backend holds a configuration with a salt of 8 bytes. *)
Definition short_salt_world : World :=
  mkWorld
    (<[config_key := File (@json_Encode Ref.prims
                             (mkConfig (repeat x01 8) 100000 "1.0"))]>
       (<[sidecar_key := Directory]> ∅))
    ∅ (repeat x07 64).

Lemma mount_reads_existing_config_witness :
  @Facade.New Ref.prims 1 "pw" short_salt_world
  = (Err (Wrap "failed to load config" (Msg "invalid salt size")),
     short_salt_world) /\
  exists fs, @Facade.New Ref.prims 1 "pw" (pw_world 32)
             = (Ok fs, set_cache ∅ (pw_world 32)).
Proof.
  split.
  - rewrite (@mount_reads_existing_config Ref.prims 0 "pw" short_salt_world
               (@json_Encode Ref.prims (mkConfig (repeat x01 8) 100000 "1.0")));
      [|discriminate|vm_compute; reflexivity].
    rewrite (@json_Decode_Encode Ref.prims). reflexivity.
  - eexists.
    rewrite (@mount_reads_existing_config Ref.prims 0 "pw" (pw_world 32)
               (@json_Encode Ref.prims (first_config (entropy (empty_world 32)))));
      [|discriminate|vm_compute; reflexivity].
    rewrite (@json_Decode_Encode Ref.prims). reflexivity.
Defined.

(** X13.  The first mount.  On an empty backend [New] draws a salt of 32
    random bytes and writes the sidecar directory and a configuration file
    with the salt, the default iteration count and the version, and
    nothing else; both keys have 32 bytes and are derived from the
    password and what the file holds, and they are not stored.  With the
    empty password nothing is read or written, and without 32 bytes of
    randomness the mount fails before anything is written. *)
Theorem first_mount_writes_config `{Primitives}
    (k : nat) (password : string) (w : World) :
  backend w = ∅ ->
  (password = "" ->
   Facade.New k password w = (Err (Msg "password cannot be empty"), w)) /\
  (password <> "" -> SaltSize <= length (entropy w) ->
   exists fs w',
     Facade.New (S (S k)) password w = (Ok fs, w') /\
     let c := mkConfig (firstn SaltSize (entropy w)) DefaultIterations
                ConfigVersion in
     backend w' = <[config_key := File (json_Encode c)]>
                    (<[sidecar_key := Directory]> ∅) /\
     (masterKey fs, filenameKey fs)
     = deriveKeys password (Salt c) (Iterations c) /\
     length (masterKey fs) = KeySize /\
     length (filenameKey fs) = FilenameKeySize /\
     cache w' = ∅ /\ entropy w' = skipn SaltSize (entropy w)) /\
  (password <> "" -> length (entropy w) < SaltSize ->
   exists e, Facade.New (S k) password w = (Err e, w)).
Proof.
  intros Hb. split; [|split].
  - intros ->. reflexivity.
  - intros Hpw He. eexists. eexists.
    split; [apply (New_empty k password w Hpw Hb He)|].
    cbv zeta. split; [reflexivity|].
    split; [unfold first_volume; cbn [masterKey filenameKey first_config Salt Iterations];
            destruct (deriveKeys _ _ _); reflexivity|].
    unfold first_volume, deriveKeys. cbn [masterKey filenameKey fst snd].
    rewrite !pbkdf2_length. repeat split.
  - intros Hpw He. unfold Facade.New.
    apply String.eqb_neq in Hpw. rewrite Hpw.
    cbn [loadConfig].
    change (Join [GrainFSDir; ConfigFile]) with ".grainfs/config.json".
    unfold bind at 1, wrap at 1, bind at 1. rewrite attempt_eq.
    unfold Backend.Open, Backend.OpenFile.
    change (components ".grainfs/config.json") with config_key.
    rewrite Hb, lookup_empty, has_flag_RDONLY.
    cbn [config_key fst snd IsNotExist].
    unfold bind at 1, wrap at 1, initializeConfig, bind at 1, wrap at 1,
      rand_Read.
    apply Nat.ltb_lt in He. rewrite He.
    eexists. reflexivity.
Qed.

Lemma first_mount_writes_config_witness :
  exists fs w',
    @Facade.New Ref.prims 2 "pw" (empty_world 32) = (Ok fs, w') /\
    length (masterKey fs) = 32 /\ entropy w' = [] /\
    exists e, @Facade.New Ref.prims 1 "pw" (empty_world 31)
              = (Err e, empty_world 31).
Proof.
  destruct (@first_mount_writes_config Ref.prims 0 "pw" (empty_world 32) eq_refl)
    as (_ & Hok & _).
  destruct (@first_mount_writes_config Ref.prims 0 "pw" (empty_world 31) eq_refl)
    as (_ & _ & Hshort).
  destruct Hok as (fs & w' & Hnew & _ & _ & Hm & _ & _ & He);
    [discriminate|vm_compute; lia|].
  exists fs, w'. split; [exact Hnew|]. split; [exact Hm|].
  split; [rewrite He; reflexivity|].
  apply Hshort; [discriminate|vm_compute; lia].
Defined.

(** * More of filemap.go *)

(** [invalidateFilemapCache]. *)
Definition invalidateFilemapCache (dir : string) : M unit :=
  modify (fun w => set_cache (delete dir (cache w)) w).

Section UserPath.
Context `{Primitives}.
Variable fs : GrainFS.
Variable fuel : nat.

(** The loop of [getUserPath]: every component is looked up in the filemap
    of the directory made of the components before it, as they are on the
    backend. *)
Fixpoint gup_loop (parts : list string) (currentDir : string)
    (userParts : list string) : M (list string) :=
  match parts with
  | [] => ret userParts
  | part :: rest =>
      if String.eqb part "" || String.eqb part "."
      then gup_loop rest currentDir userParts
      else
        userPart <- wrap "failed to deobfuscate path component"
                      (Fs.deobfuscateFilename fs fuel currentDir part) ;;
        let currentDir :=
          match rest with
          | [] => currentDir
          | _ => Join [currentDir; part]
          end in
        gup_loop rest currentDir (userParts ++ [userPart])
  end.

Definition getUserPath (obfuscatedPath : string) : M string :=
  if String.eqb obfuscatedPath "" || String.eqb obfuscatedPath "." then ret "."
  else
    let obfuscatedPath := Clean obfuscatedPath in
    let parts := Split obfuscatedPath in
    userParts <- gup_loop parts "." [] ;;
    match userParts with
    | [] => ret "."
    | _ => ret (Join userParts)
    end.

End UserPath.

Section RootTokens.
Context `{Primitives}.
Variable fs : GrainFS.
Variable gop : string -> M string.
Hypothesis gop_root : forall w, gop "." w = (Ok ".", w).

(** A successful [obfuscateFilename] in the root, taken apart: the run of
    the collision loop on the filemap it found, and the filemap it
    leaves, which has grown by at most the new mapping. *)
Lemma obfuscate_root_run (fuel : nat) (name t : string) (w w1 : World) :
  Fs.is_sidecar name = false ->
  Fs.obfuscateFilename_at fs gop fuel "." name w = (Ok t, w1) ->
  exists T m0 m1 b,
    obfuscateFilename (filenameKey fs) name = Ok T /\
    loop_pure fuel m0 name T T 1 = Ok (t, b) /\
    (forall m, cache w !! "." = Some m -> m = m0) /\
    cache w1 !! "." = Some m1 /\ m0 ⊆ m1 /\ m1 !! t = Some name /\
    token_like t = true.
Proof.
  intros Hside Hob. pose proof Hob as Hpost.
  apply obfuscateFilename_post in Hpost
    as (Hne & [(Hs & _)|(_ & Ht & m' & Hc' & Hm')]); [congruence|].
  unfold Fs.obfuscateFilename_at in Hob.
  apply String.eqb_neq in Hne. rewrite Hne, Hside in Hob.
  apply bind_Ok_inv in Hob as (T & w0 & HT & Hob).
  apply wrap_Ok_inv in HT. unfold lift in HT. injection HT as HT <-.
  apply bind_Ok_inv in Hob as ([t' b] & wl & Hloop & Hob).
  apply obfuscate_loop_inv in Hloop as (m & Hload & Hc & Hpure).
  pose proof (loop_pure_found _ _ _ _ _ _ _ _ Hpure) as Hfound.
  cbn [fst snd] in Hob.
  assert (Hsub : t' = t /\ m ⊆ m').
  { destruct b.
    - injection Hob as <- <-. split; [reflexivity|].
      rewrite Hc in Hc'. injection Hc' as <-. reflexivity.
    - apply bind_Ok_inv in Hob as ([] & w2 & Hupd & Hob).
      injection Hob as <- <-. split; [reflexivity|].
      apply wrap_Ok_inv in Hupd.
      apply (updateFilemap_root_inv fs gop gop_root _ _ _ _ _ Hc) in Hupd.
      rewrite Hupd in Hc'. injection Hc' as <-.
      apply insert_subseteq, Hfound. }
  destruct Hsub as [-> Hsub].
  exists T, m, m', b. repeat (split; [assumption|]).
  split; [|auto].
  intros m0 Hc0. rewrite (loadFilemap_hit fs gop _ _ _ Hc0) in Hload.
  injection Hload as ->. reflexivity.
Qed.

Lemma obfuscate_root_rerun (gop' : string -> M string) (fuel : nat)
    (name T t : string) (m0 m3 : FilenameMap) (b : bool) (w3 : World) :
  name <> "" -> Fs.is_sidecar name = false ->
  obfuscateFilename (filenameKey fs) name = Ok T ->
  loop_pure fuel m0 name T T 1 = Ok (t, b) ->
  cache w3 !! "." = Some m3 -> m0 ⊆ m3 -> m3 !! t = Some name ->
  Fs.obfuscateFilename_at fs gop' fuel "." name w3 = (Ok t, w3).
Proof.
  intros Hne Hside HT Hpure Hc Hsub Hm.
  unfold Fs.obfuscateFilename_at.
  apply String.eqb_neq in Hne. rewrite Hne, Hside.
  unfold bind at 1, lift. rewrite HT. unfold wrap at 1.
  unfold bind at 1.
  rewrite (obfuscate_loop_hit fs gop' _ _ _ _ _ _ w3 m3 Hc).
  rewrite (loop_pure_rerun _ _ _ _ _ _ _ _ _ Hpure Hsub Hm).
  reflexivity.
Qed.

End RootTokens.

Section RootTranslation.
Context `{Primitives}.
Variable fs : GrainFS.
Variable n : nat.

(** The translation of a name of one component, taken apart. *)
Lemma getObfuscatedPath_simple_inv (name p : string) (w w1 : World) :
  simple name = true ->
  Fs.getObfuscatedPath fs (S n) name w = (Ok p, w1) ->
  Fs.obfuscateFilename_at fs (Fs.getObfuscatedPath fs n) (S n) "." name w
  = (Ok p, w1) /\ simple p = true.
Proof.
  intros Hs Hgop. rewrite (getObfuscatedPath_simple fs n name w Hs) in Hgop.
  destruct (Fs.obfuscateFilename_at _ _ _ _ _ _) as [[t|e] w'] eqn:Hob;
    [|discriminate].
  destruct (obfuscate_root_again fs _ (getObfuscatedPath_dot fs n)
              _ _ _ _ _ Hs Hob) as ((Hst & _) & _).
  rewrite (Join_single_simple _ Hst) in Hgop. injection Hgop as <- <-.
  auto.
Qed.

Lemma getUserPath_simple (p name : string) (w : World) :
  simple p = true -> simple name = true ->
  Fs.deobfuscateFilename fs (S n) "." p w = (Ok name, w) ->
  getUserPath fs (S n) p w = (Ok name, w).
Proof.
  intros Hp Hs Hde. pose proof (simple_inv _ Hp) as (H1 & H2 & H3).
  unfold getUserPath. apply String.eqb_neq in H1, H2. rewrite H1, H2.
  cbn [orb]. rewrite (Clean_simple _ Hp), (Split_no_slash _ H3).
  cbn [gup_loop]. rewrite H1, H2. cbn [orb].
  unfold bind at 1. unfold bind at 1. rewrite (wrap_Ok _ _ _ _ _ Hde).
  unfold ret at 1. cbn [app].
  rewrite (Join_single_simple _ Hs). reflexivity.
Qed.

End RootTranslation.

(** X14.  [getUserPath] takes the translation of a name of one component
    back to the name, and changes nothing. *)
Theorem getUserPath_inverts_translation `{Primitives}
    (fs : GrainFS) (n : nat) (name p : string) (w w1 : World) :
  simple name = true ->
  Fs.getObfuscatedPath fs (S n) name w = (Ok p, w1) ->
  getUserPath fs (S n) p w1 = (Ok name, w1).
Proof.
  intros Hs Hgop.
  destruct (getObfuscatedPath_simple_inv fs n name p w w1 Hs Hgop) as [Hob Hp].
  apply (getUserPath_simple fs n p name w1 Hp Hs).
  unfold Fs.deobfuscateFilename.
  apply obfuscateFilename_post in Hob
    as (Hne & [(Hside & -> & ->)|(_ & Ht & m & Hc & Hm)]).
  - unfold Fs.deobfuscateFilename_at.
    apply String.eqb_neq in Hne. rewrite Hne, Hside. reflexivity.
  - apply (deobfuscateFilename_hit _ _ _ _ _ _ _ Ht Hc Hm).
Qed.

Lemma getUserPath_inverts_translation_witness :
  exists p,
    @Fs.getObfuscatedPath Ref.prims (pw_volume 44) 1 "notes.txt" (pw_world 44)
    = (Ok p, snd (@Fs.getObfuscatedPath Ref.prims (pw_volume 44) 1 "notes.txt"
                    (pw_world 44))) /\
    @getUserPath Ref.prims (pw_volume 44) 1 p
      (snd (@Fs.getObfuscatedPath Ref.prims (pw_volume 44) 1 "notes.txt"
              (pw_world 44)))
    = (Ok "notes.txt",
       snd (@Fs.getObfuscatedPath Ref.prims (pw_volume 44) 1 "notes.txt"
              (pw_world 44))).
Proof.
  destruct (run_ok (@Fs.getObfuscatedPath Ref.prims (pw_volume 44) 1 "notes.txt"
                      (pw_world 44))) as (p & Hrun);
    [vm_compute; reflexivity|].
  exists p. split; [exact Hrun|].
  apply (@getUserPath_inverts_translation Ref.prims (pw_volume 44) 0
           "notes.txt" p (pw_world 44) _ eq_refl Hrun).
Defined.

(** X15.  The filemap of the root is written through: what [saveFilemap]
    saves is what the cache holds, and after [invalidateFilemapCache] the
    next [loadFilemap] reads the same map back from the sidecar file,
    provided its names are valid UTF-8, the strings that [encoding/json]
    writes as they are. *)
Theorem saved_filemap_is_reloaded `{Primitives}
    (fs : GrainFS) (n : nat) (fm : FilenameMap) (w : World) :
  utf8_filemap fm ->
  aes_key_ok (masterKey fs) = true ->
  backend w !! sidecar_key = Some Directory ->
  backend w !! root_filemap_key <> Some Directory ->
  NonceSize <= length (entropy w) ->
  exists w1 w2 w3,
    Fs.saveFilemap fs n "." fm w = (Ok tt, w1) /\
    cache w1 !! "." = Some fm /\
    invalidateFilemapCache "." w1 = (Ok tt, w2) /\
    cache w2 !! "." = None /\
    Fs.loadFilemap fs n "." w2 = (Ok fm, w3) /\
    cache w3 !! "." = Some fm /\
    backend w3 = backend w1.
Proof.
  intros Hu Hk Hs Hf He.
  assert (Hr : root_ready fs w) by (split; [exact Hk|split; assumption]).
  assert (Hn : length (firstn NonceSize (entropy w)) = NonceSize)
    by (rewrite length_firstn; lia).
  set (w1 := saved_world fs w fm).
  set (w2 := set_cache (delete "." (cache w1)) w1).
  assert (Hb2 : backend w2 !! root_filemap_key
                = Some (File (sealed (masterKey fs)
                                (firstn NonceSize (entropy w))
                                (json_Marshal fm)))).
  { unfold w2, w1. cbn [backend set_cache saved_world].
    apply lookup_insert_eq. }
  assert (Hc2 : cache w2 !! "." = None).
  { unfold w2. cbn [cache set_cache]. apply lookup_delete_eq. }
  assert (Hload : Fs.loadFilemap fs n "." w2
                  = (Ok fm, set_cache (<["." := fm]> (cache w2)) w2)).
  { unfold Fs.loadFilemap, Fs.loadFilemap_at, bind at 1, Fs.cache_lookup.
    rewrite Hc2. unfold bind at 1.
    rewrite (wrap_Ok _ _ _ _ _ (getObfuscatedPath_dot fs n w2)).
    change (Join ["."; GrainFSDir; FilemapFile]) with ".grainfs/filemap.json".
    unfold bind at 1. rewrite attempt_eq.
    assert (Hne : components ".grainfs/filemap.json" <> []) by discriminate.
    rewrite (Backend_Open_file _ _ _ Hne Hb2).
    cbn [fst snd]. unfold bind at 1.
    rewrite (wrap_Ok _ _ _ _ _ (read_back _ _ _ _)).
    unfold bind at 1, lift.
    rewrite (decryptData_sealed _ _ _ Hk Hn). unfold wrap at 1.
    rewrite (json_Unmarshal_Marshal _ Hu). unfold bind. rewrite cache_store_eq.
    unfold ret. f_equal.
    change (components ".grainfs/filemap.json") with root_filemap_key.
    rewrite (insert_id _ _ _ Hb2).
    unfold set_cache, set_backend. reflexivity. }
  exists w1, w2, (set_cache (<["." := fm]> (cache w2)) w2).
  split; [apply (saveFilemap_root fs _ (getObfuscatedPath_dot fs n) w fm Hr He)|].
  split; [apply lookup_insert_eq|]. split; [reflexivity|].
  split; [exact Hc2|]. split; [exact Hload|].
  split; [apply lookup_insert_eq|reflexivity].
Qed.

Lemma saved_filemap_is_reloaded_witness :
  exists w1 w2 w3,
    @Fs.saveFilemap Ref.prims (pw_volume 44) 1 "." {["tok" := "name"]}
      (pw_world 44) = (Ok tt, w1) /\
    invalidateFilemapCache "." w1 = (Ok tt, w2) /\
    @Fs.loadFilemap Ref.prims (pw_volume 44) 1 "." w2
    = (Ok {["tok" := "name"]}, w3).
Proof.
  destruct (@saved_filemap_is_reloaded Ref.prims (pw_volume 44) 1
              {["tok" := "name"]} (pw_world 44))
    as (w1 & w2 & w3 & Hs & _ & Hi & _ & Hl & _).
  - apply map_Forall_singleton. reflexivity.
  - reflexivity.
  - vm_compute. reflexivity.
  - vm_compute. discriminate.
  - vm_compute. lia.
  - exists w1, w2, w3. split; [exact Hs|]. split; [exact Hi|exact Hl].
Defined.

(** X16.  In the root the token of a name is kept: once a name of one
    component has been translated, translating it again, also after other
    names have been translated, returns the same path and changes
    nothing; and two names that get the same path are the same name. *)
Theorem root_tokens_are_kept `{Primitives}
    (fs : GrainFS) (n : nat) (name1 name2 p1 p2 : string) (w w1 w2 : World) :
  simple name1 = true -> simple name2 = true ->
  Fs.getObfuscatedPath fs (S n) name1 w = (Ok p1, w1) ->
  Fs.getObfuscatedPath fs (S n) name2 w1 = (Ok p2, w2) ->
  Fs.getObfuscatedPath fs (S n) name1 w1 = (Ok p1, w1) /\
  Fs.getObfuscatedPath fs (S n) name1 w2 = (Ok p1, w2) /\
  (p1 = p2 -> name1 = name2).
Proof.
  intros Hs1 Hs2 Hg1 Hg2.
  destruct (getObfuscatedPath_simple_inv fs n name1 p1 w w1 Hs1 Hg1)
    as [Hob1 Hp1].
  destruct (getObfuscatedPath_simple_inv fs n name2 p2 w1 w2 Hs2 Hg2)
    as [Hob2 Hp2].
  pose proof (simple_inv _ Hs1) as (Hne1 & _).
  pose proof (getObfuscatedPath_dot fs n) as Hdot.
  destruct (Fs.is_sidecar name1) eqn:Hside1.
  - (* the sidecar name passes through *)
    pose proof (simple_sidecar _ Hs1 Hside1) as ->.
    assert (Hpass : forall v, Fs.getObfuscatedPath fs (S n) GrainFSDir v
                              = (Ok GrainFSDir, v)).
    { intros v. apply (getObfuscatedPath_simple_Ok fs n); reflexivity. }
    rewrite Hpass in Hg1. injection Hg1 as <- <-.
    split; [apply Hpass|]. split; [apply Hpass|].
    intros <-. destruct (Fs.is_sidecar name2) eqn:Hside2.
    + symmetry. apply (simple_sidecar _ Hs2 Hside2).
    + destruct (obfuscate_root_run fs _ Hdot _ _ _ _ _ Hside2 Hob2)
        as (_ & _ & _ & _ & _ & _ & _ & _ & _ & _ & Hlike).
      discriminate Hlike.
  - destruct (obfuscate_root_run fs _ Hdot _ _ _ _ _ Hside1 Hob1)
      as (T & m0 & m1 & b & HT & Hpure & _ & Hc1 & Hsub1 & Hm1 & Hlike1).
    assert (Hagain : forall v m, cache v !! "." = Some m -> m1 ⊆ m ->
                       Fs.getObfuscatedPath fs (S n) name1 v = (Ok p1, v)).
    { intros v m Hcv Hsub.
      apply (getObfuscatedPath_simple_Ok fs n _ _ _ _ Hs1); [|exact Hp1].
      apply (obfuscate_root_rerun fs _ (S n) name1 T p1 m0 m b v Hne1 Hside1
               HT Hpure Hcv).
      - transitivity m1; assumption.
      - apply (lookup_weaken _ _ _ _ Hm1 Hsub). }
    assert (Hgrow : exists m2, cache w2 !! "." = Some m2 /\ m1 ⊆ m2 /\
                      (Fs.is_sidecar name2 = false -> m2 !! p2 = Some name2)).
    { destruct (Fs.is_sidecar name2) eqn:Hside2.
      - apply obfuscateFilename_post in Hob2
          as (_ & [(_ & _ & ->)|(Hf & _)]); [|congruence].
        exists m1. split; [exact Hc1|]. split; [reflexivity|discriminate].
      - destruct (obfuscate_root_run fs _ Hdot _ _ _ _ _ Hside2 Hob2)
          as (T2 & m0' & m2 & b2 & _ & _ & Hm0 & Hc2 & Hsub2 & Hm2 & _).
        rewrite <- (Hm0 _ Hc1) in Hsub2.
        exists m2. auto. }
    destruct Hgrow as (m2 & Hc2 & Hsub2 & Hm2).
    split; [apply (Hagain w1 m1 Hc1); reflexivity|].
    split; [apply (Hagain w2 m2 Hc2 Hsub2)|].
    intros <-. destruct (Fs.is_sidecar name2) eqn:Hside2.
    + pose proof (simple_sidecar _ Hs2 Hside2) as ->.
      apply obfuscateFilename_post in Hob2
        as (_ & [(_ & -> & _)|(Hf & _)]); [|discriminate Hf].
      discriminate Hlike1.
    + specialize (Hm2 eq_refl).
      rewrite (lookup_weaken _ _ _ _ Hm1 Hsub2) in Hm2. congruence.
Qed.

Lemma root_tokens_are_kept_witness :
  exists p1 p2 w1 w2,
    @Fs.getObfuscatedPath Ref.prims (pw_volume 56) 1 "a.txt" (pw_world 56)
    = (Ok p1, w1) /\
    @Fs.getObfuscatedPath Ref.prims (pw_volume 56) 1 "b.txt" w1 = (Ok p2, w2) /\
    @Fs.getObfuscatedPath Ref.prims (pw_volume 56) 1 "a.txt" w2 = (Ok p1, w2) /\
    p1 <> p2.
Proof.
  destruct (run_ok (@Fs.getObfuscatedPath Ref.prims (pw_volume 56) 1 "a.txt"
                      (pw_world 56))) as (p1 & H1);
    [vm_compute; reflexivity|].
  destruct (run_ok (@Fs.getObfuscatedPath Ref.prims (pw_volume 56) 1 "b.txt"
                      (snd (@Fs.getObfuscatedPath Ref.prims (pw_volume 56) 1
                              "a.txt" (pw_world 56))))) as (p2 & H2);
    [vm_compute; reflexivity|].
  destruct (@root_tokens_are_kept Ref.prims (pw_volume 56) 0 "a.txt" "b.txt"
              p1 p2 (pw_world 56) _ _ eq_refl eq_refl H1 H2)
    as (_ & Hkept & Hinj).
  eexists p1, p2, _, _. split; [exact H1|]. split; [exact H2|].
  split; [exact Hkept|].
  intros Heq. specialize (Hinj Heq). discriminate Hinj.
Defined.

(** * More of grainfs.go *)

Section FacadeMore.
Context `{Primitives}.
Variable fs : GrainFS.
Variable n : nat.

(** [Remove] of a file of the root. *)
Lemma Remove_state (name T : string) (c : list byte) (w : World)
    (m : FilenameMap) (files : gmap string node) :
  root_state fs w m files -> token_of fs name T ->
  m !! T = Some name -> files !! T = Some (File c) ->
  NonceSize <= length (entropy w) ->
  exists w', Facade.Remove fs (S n) name w = (Ok tt, w') /\
             root_state fs w' (delete T m) (delete T files) /\
             entropy w' = skipn NonceSize (entropy w).
Proof.
  intros Hst Htok Hm Hf He. pose proof (token_of_like fs _ _ Htok) as Hlike.
  destruct (gop_state_mapped fs n name T w m files Hst Htok Hm)
    as (w1 & Hgop & Hst1 & He1).
  set (w2 := set_backend (delete [T] (backend w1)) w1).
  assert (Hst2 : root_state fs w2 m (delete T files))
    by (apply (root_state_remove fs w1 _ _ files T Hst1 Hlike); reflexivity).
  destruct (removeFromFilemap_state fs n T w2 _ _ Hst2)
    as (w3 & Hrem & Hst3 & He3).
  { unfold w2. cbn [entropy set_backend]. rewrite He1. exact He. }
  exists w3. split; [|split; [exact Hst3|]].
  - unfold Facade.Remove. destruct Htok as (Hs & _).
    pose proof (simple_inv _ Hs) as (Hne & _).
    apply String.eqb_neq in Hne. rewrite Hne.
    unfold bind at 1. rewrite (wrap_Ok _ _ _ _ _ Hgop).
    rewrite (dir_of_simple _ Hs), (Base_simple _ (token_like_simple _ Hlike)).
    assert (Hrm : Backend.Remove T w1 = (Ok tt, w2)).
    { unfold Backend.Remove. rewrite (components_token _ Hlike).
      destruct Hst1 as (_ & _ & Hfiles). rewrite (Hfiles _ Hlike), Hf.
      reflexivity. }
    unfold bind. rewrite Hrm. exact Hrem.
  - rewrite He3. unfold w2. cbn [entropy set_backend]. rewrite He1.
    reflexivity.
Qed.

(** [Remove] of a name that the root does not have. *)
Lemma Remove_state_missing (name T : string) (w : World) (m : FilenameMap)
    (files : gmap string node) :
  root_state fs w m files -> token_of fs name T ->
  m !! T = None -> files !! T = None ->
  NonceSize <= length (entropy w) ->
  exists w', Facade.Remove fs (S n) name w = (Err ErrNotExist, w') /\
             root_state fs w' (<[T := name]> m) files.
Proof.
  intros Hst Htok Hm Hf He. pose proof (token_of_like fs _ _ Htok) as Hlike.
  destruct (gop_state_fresh fs n name T w m files Hst Htok Hm He)
    as (w1 & Hgop & Hst1 & _).
  exists w1. split; [|exact Hst1].
  unfold Facade.Remove. destruct Htok as (Hs & _).
  pose proof (simple_inv _ Hs) as (Hne & _).
  apply String.eqb_neq in Hne. rewrite Hne.
  unfold bind at 1. rewrite (wrap_Ok _ _ _ _ _ Hgop).
  unfold bind, Backend.Remove. rewrite (components_token _ Hlike).
  destruct Hst1 as (_ & _ & Hfiles). rewrite (Hfiles _ Hlike), Hf.
  reflexivity.
Qed.

(** [Stat] of a node of the root. *)
Lemma Stat_state (name T : string) (nd : node) (w : World)
    (m : FilenameMap) (files : gmap string node) :
  root_state fs w m files -> token_of fs name T ->
  m !! T = Some name -> files !! T = Some nd ->
  exists w', Facade.Stat fs (S n) name w
             = (Ok (mkFileInfoWrapper (Backend.info_of [T] nd) name), w') /\
             root_state fs w' m files /\ entropy w' = entropy w.
Proof.
  intros Hst Htok Hm Hf. pose proof (token_of_like fs _ _ Htok) as Hlike.
  destruct (gop_state_mapped fs n name T w m files Hst Htok Hm)
    as (w1 & Hgop & Hst1 & He1).
  exists w1. split; [|auto].
  rewrite Stat_eq, Hgop. unfold Backend.Stat.
  rewrite (components_token _ Hlike).
  destruct Hst1 as (_ & _ & Hfiles). rewrite (Hfiles _ Hlike), Hf.
  destruct Htok as (Hs & _). rewrite (Base_simple _ Hs). reflexivity.
Qed.

(** [Create] of a name that the root has as a file. *)
Lemma Create_state_existing (name T : string) (c : list byte) (w : World)
    (m : FilenameMap) (files : gmap string node) :
  root_state fs w m files -> token_of fs name T ->
  m !! T = Some name -> files !! T = Some (File c) ->
  exists w', Facade.Create fs (S n) name w = (Ok (write_handle fs name T), w') /\
             root_state fs w' m (<[T := File []]> files) /\
             entropy w' = entropy w.
Proof.
  intros Hst Htok Hm Hf. pose proof (token_of_like fs _ _ Htok) as Hlike.
  destruct Htok as (Hs & Hside & HT).
  destruct (obfuscate_state_mapped fs _ (getObfuscatedPath_dot fs (S n))
              n name T w m files Hst Hside HT Hm) as (w1 & Hob & Hst1 & He1).
  exists (set_backend (<[[T] := File []]> (backend w1)) w1).
  split; [|split].
  - rewrite (Create_simple fs n name T w w1 Hs Hob (token_like_simple _ Hlike)).
    pose proof (Backend_Create_file T w1) as Hc.
    rewrite (components_token _ Hlike) in Hc. rewrite Hc; [reflexivity|..].
    + discriminate.
    + destruct Hst1 as (_ & _ & Hfiles). rewrite (Hfiles _ Hlike), Hf.
      discriminate.
    + reflexivity.
  - apply (root_state_put fs w1 _ _ _ T (File []) Hst1 Hlike); reflexivity.
  - exact He1.
Qed.

End FacadeMore.

(** A volume made on an empty backend, with one file written in its root:
    the steps, and the state of the root after them. *)
Lemma fresh_volume_written `{Primitives} (k : nat) (password name : string)
    (data : list byte) (w0 : World) :
  password <> "" -> backend w0 = ∅ -> root_name name = true ->
  SaltSize + 2 * NonceSize <= length (entropy w0) ->
  exists f w1 s2 s3 nonce,
    Facade.New (S (S k)) password w0
    = (Ok (first_volume password (entropy w0)),
       set_cache ∅ (initialized_world w0)) /\
    Facade.Create (first_volume password (entropy w0)) (S k) name
      (set_cache ∅ (initialized_world w0)) = (Ok f, w1) /\
    Handle.Write data (f, w1) = (Ok (length data), s2) /\
    Handle.Close s2 = (Ok tt, s3) /\
    length nonce = NonceSize /\
    token_of (first_volume password (entropy w0)) name
      (token (first_volume password (entropy w0)) name) /\
    root_state (first_volume password (entropy w0)) (snd s3)
      (<[token (first_volume password (entropy w0)) name := name]> ∅)
      (<[token (first_volume password (entropy w0)) name
         := File (sealed (masterKey (first_volume password (entropy w0)))
                    nonce data)]> ∅) /\
    length (entropy (snd s3))
    = length (entropy w0) - SaltSize - 2 * NonceSize.
Proof.
  intros Hpw Hb Hname He.
  set (fs := first_volume password (entropy w0)).
  set (w := set_cache ∅ (initialized_world w0)).
  assert (Hk : aes_key_ok (filenameKey fs) = true) by apply deriveKeys_ok.
  pose proof (token_of_token fs name Hk Hname) as Htok.
  assert (Hew : length (entropy w) = length (entropy w0) - SaltSize).
  { unfold w. cbn [set_cache initialized_world entropy].
    apply length_skipn. }
  unfold NonceSize in He.
  destruct (Create_state fs k name (token fs name) w ∅ ∅
              (first_volume_state password w0) Htok)
    as (w1 & Hcreate & Hst1 & He1);
    [apply lookup_empty|apply lookup_empty|unfold NonceSize; lia|].
  destruct (Write_Close_state fs name (token fs name) data w1 _ _ Hst1
              (token_of_like fs _ _ Htok))
    as (s2 & s3 & Hwrite & Hclose & Hst3 & He3);
    [apply lookup_insert_eq
    |rewrite He1, length_skipn; unfold NonceSize; lia|].
  exists (write_handle fs name (token fs name)), w1, s2, s3,
    (firstn NonceSize (entropy w1)).
  split; [apply New_empty; [exact Hpw|exact Hb|lia]|].
  split; [exact Hcreate|]. split; [exact Hwrite|]. split; [exact Hclose|].
  split; [rewrite length_firstn, He1, length_skipn; unfold NonceSize; lia|].
  split; [exact Htok|]. split.
  - rewrite insert_insert_eq in Hst3. exact Hst3.
  - rewrite He3, length_skipn, He1, length_skipn, Hew. unfold NonceSize. lia.
Qed.

(** X17.  On a volume made on an empty backend: after a file of the root
    has been created, written and closed, [Remove] of its name succeeds;
    the backend then has no node under the token of the name and the
    filemap of the root is empty again, and [Open] and [Stat] of the name
    report that the file does not exist.  [Remove] of a name that was never
    created fails with the backend's error that the file does not exist. *)
Theorem remove_deletes_file_and_mapping `{Primitives}
    (k : nat) (password name : string) (data : list byte) (w0 : World) :
  password <> "" -> backend w0 = ∅ -> root_name name = true ->
  SaltSize + 4 * NonceSize <= length (entropy w0) ->
  exists fs w f w1 s2 s3 w4 w5 w6 w7 w8,
    Facade.New (S (S k)) password w0 = (Ok fs, w) /\
    Facade.Remove fs (S k) name w = (Err ErrNotExist, w8) /\
    Facade.Create fs (S k) name w = (Ok f, w1) /\
    Handle.Write data (f, w1) = (Ok (length data), s2) /\
    Handle.Close s2 = (Ok tt, s3) /\
    Facade.Remove fs (S k) name (snd s3) = (Ok tt, w4) /\
    backend w4 !! [token fs name] = None /\
    Fs.loadFilemap fs (S k) "." w4 = (Ok ∅, w5) /\
    Facade.Open fs (S k) name w4 = (Err ErrNotExist, w6) /\
    Facade.Stat fs (S k) name w4 = (Err ErrNotExist, w7).
Proof.
  intros Hpw Hb Hname He. unfold NonceSize in He.
  destruct (fresh_volume_written k password name data w0 Hpw Hb Hname)
    as (f & w1 & s2 & s3 & nonce & Hnew & Hcreate & Hwrite & Hclose & Hn
        & Htok & Hst3 & He3); [unfold NonceSize; lia|].
  set (fs := first_volume password (entropy w0)) in *.
  set (w := set_cache ∅ (initialized_world w0)) in *.
  pose proof (token_of_like fs _ _ Htok) as Hlike.
  destruct (Remove_state_missing fs k name (token fs name) w ∅ ∅
              (first_volume_state password w0) Htok)
    as (w8 & Hmiss & _);
    [apply lookup_empty|apply lookup_empty| |].
  { unfold w. cbn [set_cache initialized_world entropy].
    rewrite length_skipn. unfold NonceSize. lia. }
  destruct (Remove_state fs k name (token fs name)
              (sealed (masterKey fs) nonce data) (snd s3) _ _ Hst3 Htok)
    as (w4 & Hremove & Hst4 & He4);
    [apply lookup_insert_eq|apply lookup_insert_eq
    |rewrite He3; unfold NonceSize; lia|].
  rewrite !delete_insert_eq, !delete_empty in Hst4.
  assert (He4' : NonceSize <= length (entropy w4)).
  { rewrite He4, length_skipn, He3. unfold NonceSize. lia. }
  destruct (root_state_load fs _ (getObfuscatedPath_dot fs (S k)) _ _ _ Hst4)
    as (w5 & Hload & _).
  destruct (Open_state_missing fs k name (token fs name) w4 ∅ ∅ Hst4 Htok)
    as (w6 & Hopen & _); [apply lookup_empty|apply lookup_empty|exact He4'|].
  destruct (Stat_state_missing fs k name (token fs name) w4 ∅ ∅ Hst4 Htok)
    as (w7 & Hstat & _); [apply lookup_empty|apply lookup_empty|exact He4'|].
  exists fs, w, f, w1, s2, s3, w4, w5, w6, w7, w8.
  split; [exact Hnew|]. split; [exact Hmiss|]. split; [exact Hcreate|].
  split; [exact Hwrite|]. split; [exact Hclose|]. split; [exact Hremove|].
  split; [|split; [exact Hload|split; [exact Hopen|exact Hstat]]].
  destruct Hst4 as (_ & _ & Hfiles). rewrite (Hfiles _ Hlike).
  apply lookup_empty.
Qed.

Lemma remove_deletes_file_and_mapping_witness :
  exists fs (s3 : EncryptedFile * World) w4 w6,
    @Facade.Remove Ref.prims fs 1 "hello.txt" (snd s3) = (Ok tt, w4) /\
    backend w4 !! [@token Ref.prims fs "hello.txt"] = None /\
    @Facade.Open Ref.prims fs 1 "hello.txt" w4 = (Err ErrNotExist, w6).
Proof.
  destruct (@remove_deletes_file_and_mapping Ref.prims 0 "pw" "hello.txt"
              hello (empty_world 80))
    as (fs & w & f & w1 & s2 & s3 & w4 & w5 & w6 & w7 & w8 & _ & _ & _ & _
        & _ & Hremove & Hgone & _ & Hopen & _).
  - discriminate.
  - reflexivity.
  - reflexivity.
  - vm_compute. lia.
  - exists fs, s3, w4, w6.
    split; [exact Hremove|]. split; [exact Hgone|exact Hopen].
Defined.

(** X18.  On a volume made on an empty backend: [Stat] of a file of the
    root that was created, written with [data] and closed returns the name
    the user gave, not a directory, and as its size the size of the backend
    file: the length of the data and the 28 bytes of the nonce and the tag.
    The wrapped backend record still carries the token of the name. *)
Theorem stat_reports_name_and_sealed_size `{Primitives}
    (k : nat) (password name : string) (data : list byte) (w0 : World) :
  password <> "" -> backend w0 = ∅ -> root_name name = true ->
  SaltSize + 2 * NonceSize <= length (entropy w0) ->
  exists fs w f w1 s2 s3 info w4,
    Facade.New (S (S k)) password w0 = (Ok fs, w) /\
    Facade.Create fs (S k) name w = (Ok f, w1) /\
    Handle.Write data (f, w1) = (Ok (length data), s2) /\
    Handle.Close s2 = (Ok tt, s3) /\
    Facade.Stat fs (S k) name (snd s3) = (Ok info, w4) /\
    originalName info = name /\
    fi_size (wrapped info) = NonceSize + length data + TagSize /\
    fi_isDir (wrapped info) = false /\
    fi_name (wrapped info) = token fs name.
Proof.
  intros Hpw Hb Hname He.
  destruct (fresh_volume_written k password name data w0 Hpw Hb Hname He)
    as (f & w1 & s2 & s3 & nonce & Hnew & Hcreate & Hwrite & Hclose & Hn
        & Htok & Hst3 & He3).
  set (fs := first_volume password (entropy w0)) in *.
  destruct (Stat_state fs k name (token fs name)
              (File (sealed (masterKey fs) nonce data)) (snd s3) _ _ Hst3 Htok)
    as (w4 & Hstat & _); [apply lookup_insert_eq|apply lookup_insert_eq|].
  eexists fs, _, f, w1, s2, s3, _, w4.
  split; [exact Hnew|]. split; [exact Hcreate|]. split; [exact Hwrite|].
  split; [exact Hclose|]. split; [exact Hstat|].
  cbn [originalName wrapped Backend.info_of fi_size fi_isDir fi_name List.last].
  split; [reflexivity|]. split; [apply (sealed_length _ _ _ Hn)|].
  split; reflexivity.
Qed.

Lemma stat_reports_name_and_sealed_size_witness :
  exists fs (s3 : EncryptedFile * World) info w4,
    @Facade.Stat Ref.prims fs 1 "hello.txt" (snd s3) = (Ok info, w4) /\
    originalName info = "hello.txt" /\
    fi_size (wrapped info) = 43.
Proof.
  destruct (@stat_reports_name_and_sealed_size Ref.prims 0 "pw" "hello.txt"
              hello (empty_world 56))
    as (fs & w & f & w1 & s2 & s3 & info & w4 & _ & _ & _ & _ & Hstat
        & Hname & Hsize & _).
  - discriminate.
  - reflexivity.
  - reflexivity.
  - vm_compute. lia.
  - exists fs, s3, info, w4.
    split; [exact Hstat|]. split; [exact Hname|exact Hsize].
Defined.

(** X19.  On a volume made on an empty backend: [Create] of a name that is
    already a file of the root empties the backend file at once and draws
    no new token; after the second content is written and the handle
    closed, the name reads back as the second content alone. *)
Theorem create_again_replaces_content `{Primitives}
    (k : nat) (password name : string) (d1 d2 : list byte) (w0 : World) :
  password <> "" -> backend w0 = ∅ -> root_name name = true ->
  SaltSize + 3 * NonceSize <= length (entropy w0) ->
  exists fs w f w1 s2 s3 g w4 s5 s6 f' w7,
    Facade.New (S (S k)) password w0 = (Ok fs, w) /\
    Facade.Create fs (S k) name w = (Ok f, w1) /\
    Handle.Write d1 (f, w1) = (Ok (length d1), s2) /\
    Handle.Close s2 = (Ok tt, s3) /\
    Facade.Create fs (S k) name (snd s3) = (Ok g, w4) /\
    backend w4 !! [token fs name] = Some (File []) /\
    entropy w4 = entropy (snd s3) /\
    Handle.Write d2 (g, w4) = (Ok (length d2), s5) /\
    Handle.Close s5 = (Ok tt, s6) /\
    Facade.Open fs (S k) name (snd s6) = (Ok f', w7) /\
    forall sizes, Forall (fun b => 1 <= b) sizes ->
                  length d2 < length sizes ->
                  exists f'', Handle.ReadAll sizes [] (f', w7)
                              = (Ok d2, (f'', w7)).
Proof.
  intros Hpw Hb Hname He. unfold NonceSize in He.
  destruct (fresh_volume_written k password name d1 w0 Hpw Hb Hname)
    as (f & w1 & s2 & s3 & nonce & Hnew & Hcreate & Hwrite & Hclose & Hn
        & Htok & Hst3 & He3); [unfold NonceSize; lia|].
  set (fs := first_volume password (entropy w0)) in *.
  pose proof (token_of_like fs _ _ Htok) as Hlike.
  destruct (Create_state_existing fs k name (token fs name)
              (sealed (masterKey fs) nonce d1) (snd s3) _ _ Hst3 Htok)
    as (w4 & Hagain & Hst4 & He4);
    [apply lookup_insert_eq|apply lookup_insert_eq|].
  rewrite insert_insert_eq in Hst4.
  assert (He4' : NonceSize <= length (entropy w4))
    by (rewrite He4, He3; unfold NonceSize; lia).
  destruct (Write_Close_state fs name (token fs name) d2 w4 _ _ Hst4 Hlike)
    as (s5 & s6 & Hwrite2 & Hclose2 & Hst6 & He6);
    [apply lookup_insert_eq|exact He4'|].
  rewrite insert_insert_eq in Hst6.
  destruct (Open_state fs k name (token fs name)
              (sealed (masterKey fs) (firstn NonceSize (entropy w4)) d2)
              (snd s6) _ _ Hst6 Htok)
    as (w7 & Hopen & _ & _ & Hb7);
    [apply lookup_insert_eq|apply lookup_insert_eq|].
  eexists fs, _, f, w1, s2, s3, _, w4, s5, s6, _, w7.
  split; [exact Hnew|]. split; [exact Hcreate|]. split; [exact Hwrite|].
  split; [exact Hclose|]. split; [exact Hagain|]. split.
  { destruct Hst4 as (_ & _ & Hfiles). rewrite (Hfiles _ Hlike).
    apply lookup_insert_eq. }
  split; [exact He4|]. split; [exact Hwrite2|]. split; [exact Hclose2|].
  split; [exact Hopen|].
  intros sizes Hall Hlen.
  apply (ReadAll_fresh fs name (token fs name)
           (firstn NonceSize (entropy w4)) d2 w7 sizes Hb7); auto.
  - rewrite length_firstn. lia.
  - apply Hst3.
Qed.

Lemma create_again_replaces_content_witness :
  exists fs (s6 : EncryptedFile * World) f' w7 f'',
    @Facade.Open Ref.prims fs 1 "hello.txt" (snd s6) = (Ok f', w7) /\
    @Handle.ReadAll Ref.prims (repeat 4 16) [] (f', w7)
    = (Ok hello, (f'', w7)).
Proof.
  destruct (@create_again_replaces_content Ref.prims 0 "pw" "hello.txt"
              [x58] hello (empty_world 68))
    as (fs & w & f & w1 & s2 & s3 & g & w4 & s5 & s6 & f' & w7 & _ & _ & _
        & _ & _ & _ & _ & _ & _ & Hopen & Hread).
  - discriminate.
  - reflexivity.
  - reflexivity.
  - vm_compute. lia.
  - destruct (Hread (repeat 4 16)) as (f'' & Hr).
    + repeat constructor.
    + vm_compute. lia.
    + exists fs, s6, f', w7, f''. split; [exact Hopen|exact Hr].
Defined.

(** X20.  On a volume made on an empty backend: [Rename] of a written file
    of the root to a new name moves the backend file from the token of the
    old name to the token of the new one and leaves the filemap of the
    root with the one entry of the new name; the new name then reads back
    as the data. *)
Theorem rename_moves_file_and_mapping `{Primitives}
    (k : nat) (password old new : string) (data : list byte) (w0 : World) :
  password <> "" -> backend w0 = ∅ ->
  root_name old = true -> root_name new = true -> old <> new ->
  SaltSize + 4 * NonceSize <= length (entropy w0) ->
  exists fs w f w1 s2 s3 w4 w5 f' w6,
    Facade.New (S (S k)) password w0 = (Ok fs, w) /\
    Facade.Create fs (S k) old w = (Ok f, w1) /\
    Handle.Write data (f, w1) = (Ok (length data), s2) /\
    Handle.Close s2 = (Ok tt, s3) /\
    Facade.Rename fs (S k) old new (snd s3) = (Ok tt, w4) /\
    backend w4 !! [token fs old] = None /\
    backend w4 !! [token fs new] = backend (snd s3) !! [token fs old] /\
    Fs.loadFilemap fs (S k) "." w4 = (Ok {[token fs new := new]}, w5) /\
    Facade.Open fs (S k) new w4 = (Ok f', w6) /\
    forall sizes, Forall (fun b => 1 <= b) sizes ->
                  length data < length sizes ->
                  exists f'', Handle.ReadAll sizes [] (f', w6)
                              = (Ok data, (f'', w6)).
Proof.
  intros Hpw Hb Hold Hnew Hne He. unfold NonceSize in He.
  destruct (fresh_volume_written k password old data w0 Hpw Hb Hold)
    as (f & w1 & s2 & s3 & nonce & Hnew0 & Hcreate & Hwrite & Hclose & Hn
        & Hto & Hst3 & He3); [unfold NonceSize; lia|].
  set (fs := first_volume password (entropy w0)) in *.
  assert (Hk : aes_key_ok (filenameKey fs) = true) by apply deriveKeys_ok.
  pose proof (token_of_token fs new Hk Hnew) as Htn.
  pose proof (token_of_inj fs _ _ _ _ Hto Htn Hne) as Htne.
  pose proof (token_of_like fs _ _ Hto) as Hlo.
  pose proof (token_of_like fs _ _ Htn) as Hln.
  set (c := sealed (masterKey fs) nonce data) in *.
  destruct (Rename_state fs k old new (token fs old) (token fs new) c (snd s3)
              _ _ Hst3 Hto Htn Hne)
    as (w4 & Hrename & Hst4 & He4);
    [apply lookup_insert_eq
    |rewrite lookup_insert_ne by exact Htne; apply lookup_empty
    |apply lookup_insert_eq
    |rewrite He3; unfold NonceSize; lia|].
  assert (Hm : delete (token fs old)
                 (<[token fs new := new]> (<[token fs old := old]> ∅))
               = ({[token fs new := new]} : FilenameMap)).
  { rewrite delete_insert_ne by exact Htne.
    rewrite delete_insert_eq, delete_empty. reflexivity. }
  rewrite Hm in Hst4.
  destruct (root_state_load fs _ (getObfuscatedPath_dot fs (S k)) _ _ _ Hst4)
    as (w5 & Hload & _).
  destruct (Open_state fs k new (token fs new) c w4 _ _ Hst4 Htn)
    as (w6 & Hopen & _ & _ & Hb6);
    [apply lookup_insert_eq|apply lookup_insert_eq|].
  eexists fs, _, f, w1, s2, s3, w4, w5, _, w6.
  split; [exact Hnew0|]. split; [exact Hcreate|]. split; [exact Hwrite|].
  split; [exact Hclose|]. split; [exact Hrename|].
  destruct Hst4 as (Hr4 & _ & Hfiles4). destruct Hst3 as (Hr3 & _ & Hfiles3).
  split.
  { rewrite (Hfiles4 _ Hlo), lookup_insert_ne by (apply not_eq_sym, Htne).
    apply lookup_delete_eq. }
  split.
  { rewrite (Hfiles4 _ Hln), (Hfiles3 _ Hlo), !lookup_insert_eq.
    reflexivity. }
  split; [exact Hload|]. split; [exact Hopen|].
  intros sizes Hall Hlen.
  apply (ReadAll_fresh fs new (token fs new) nonce data w6 sizes Hb6); auto.
  apply Hr3.
Qed.

Lemma rename_moves_file_and_mapping_witness :
  exists fs (s3 : EncryptedFile * World) w4 w5,
    @Facade.Rename Ref.prims fs 1 "old.txt" "new.txt" (snd s3) = (Ok tt, w4) /\
    backend w4 !! [@token Ref.prims fs "old.txt"] = None /\
    @Fs.loadFilemap Ref.prims fs 1 "." w4
    = (Ok {[@token Ref.prims fs "new.txt" := "new.txt"]}, w5).
Proof.
  destruct (@rename_moves_file_and_mapping Ref.prims 0 "pw" "old.txt" "new.txt"
              hello (empty_world 80))
    as (fs & w & f & w1 & s2 & s3 & w4 & w5 & f' & w6 & _ & _ & _ & _
        & Hrename & Hgone & _ & Hload & _).
  - discriminate.
  - reflexivity.
  - reflexivity.
  - reflexivity.
  - discriminate.
  - vm_compute. lia.
  - exists fs, s3, w4, w5.
    split; [exact Hrename|]. split; [exact Hgone|exact Hload].
Defined.

(** ** Directories of the root *)

Lemma Split_slash (a b : string) :
  no_slash a = true -> Split (a +:+ "/" +:+ b) = a :: Split b.
Proof.
  induction a as [|c a IH]; [reflexivity|]. simpl.
  intros Hn. apply andb_prop in Hn as [Hc Hn].
  apply negb_true_iff in Hc. rewrite Hc. simpl in IH. rewrite (IH Hn).
  reflexivity.
Qed.

(** The sidecar directory of a directory of the root, as [ensureGrainFSDir]
    names it and as the backend addresses it. *)
Lemma token_sidecar_path (t : string) :
  token_like t = true ->
  Join [t; GrainFSDir] = t +:+ "/.grainfs" /\
  components (t +:+ "/.grainfs") = [t; GrainFSDir].
Proof.
  intros Ht. pose proof (token_like_simple _ Ht) as Hs.
  pose proof (simple_inv _ Hs) as (H1 & H2 & H3).
  assert (Hdd : t <> "..") by (intros ->; discriminate Ht).
  apply String.eqb_neq in H1, H2, Hdd.
  assert (Hsplit : Split (t +:+ "/.grainfs") = [t; ".grainfs"])
    by apply (Split_slash t ".grainfs" H3).
  assert (Hloop : forall r, clean_loop r [t; ".grainfs"] [] = [t; ".grainfs"]).
  { intros r. cbn [clean_loop]. rewrite H1, H2, Hdd. reflexivity. }
  assert (Hroot : is_rooted (t +:+ "/.grainfs") = false).
  { destruct t as [|c t]; [discriminate|]. simpl in H3 |- *.
    apply andb_prop in H3 as [Hc _]. by apply negb_true_iff in Hc. }
  split.
  - unfold Join. cbn [List.filter]. rewrite H1. cbn [negb].
    change (String.eqb GrainFSDir "") with false. cbn [negb join_sep].
    change (t +:+ "/" +:+ GrainFSDir) with (t +:+ "/.grainfs").
    unfold Clean. rewrite Hroot, Hsplit, Hloop. cbn [join_sep].
    change (t +:+ "/" +:+ ".grainfs") with (t +:+ "/.grainfs").
    destruct t; [discriminate|reflexivity].
  - unfold components. rewrite Hsplit. apply Hloop.
Qed.

Section Directories.
Context `{Primitives}.
Variable fs : GrainFS.
Variable n : nat.

(** The backend nodes of the root directory and of the sidecar directories
    one level below stay as they are when the filemap of the root is
    saved. *)
Lemma gop_state_fresh_frame (name T : string) (w : World) (m : FilenameMap)
    (files : gmap string node) :
  root_state fs w m files -> token_of fs name T -> m !! T = None ->
  NonceSize <= length (entropy w) ->
  exists w', Fs.getObfuscatedPath fs (S n) name w = (Ok T, w') /\
             root_state fs w' (<[T := name]> m) files /\
             cache w' !! "." = Some (<[T := name]> m) /\
             entropy w' = skipn NonceSize (entropy w) /\
             forall key, key <> root_filemap_key ->
                         backend w' !! key = backend w !! key.
Proof.
  intros Hst Htok Hm He. pose proof (token_of_like fs _ _ Htok) as Hlike.
  destruct Htok as (Hs & Hside & HT).
  pose proof (getObfuscatedPath_dot fs n) as Hdot.
  assert (Hload : exists wl,
             Fs.loadFilemap_at fs (Fs.getObfuscatedPath fs n) "." w = (Ok m, wl)
             /\ root_state fs wl m files /\ entropy wl = entropy w
             /\ backend wl = backend w).
  { destruct Hst as (Hr & [Hc|(Hc & Hb & ->)] & Hfiles).
    - exists w. split; [apply loadFilemap_hit, Hc|].
      split; [split; auto|auto].
    - exists (set_cache (<["." := ∅]> (cache w)) w).
      split; [apply (loadFilemap_root_absent _ _ Hdot _ Hc Hb)|].
      split; [|split; reflexivity].
      split; [exact Hr|]. split; [left; apply lookup_insert_eq|exact Hfiles]. }
  destruct Hload as (wl & Hload & Hstl & Hel & Hbl).
  exists (saved_world fs wl (<[T := name]> m)).
  split; [|split; [|split; [|split]]].
  - apply (getObfuscatedPath_simple_Ok fs n _ _ _ _ Hs);
      [|apply token_like_simple, Hlike].
    apply (obfuscate_root_fresh fs _ Hdot _ _ _ _ _ _ Hside HT Hload Hm).
    + apply Hstl.
    + rewrite Hel. exact He.
  - apply (root_state_saved _ _ _ _ _ Hstl).
  - apply lookup_insert_eq.
  - cbn [saved_world entropy]. rewrite Hel. reflexivity.
  - intros key Hkey. cbn [saved_world backend].
    rewrite lookup_insert_ne by (apply not_eq_sym, Hkey).
    rewrite Hbl. reflexivity.
Qed.

Lemma gop_cached (name T : string) (w : World) (m : FilenameMap) :
  token_of fs name T -> cache w !! "." = Some m -> m !! T = Some name ->
  Fs.getObfuscatedPath fs (S n) name w = (Ok T, w).
Proof.
  intros Htok Hc Hm. pose proof (token_of_like fs _ _ Htok) as Hlike.
  destruct Htok as (Hs & Hside & HT).
  apply (getObfuscatedPath_simple_Ok fs n _ _ _ _ Hs);
    [|apply token_like_simple, Hlike].
  apply (obfuscate_root_mapped fs _ n name T w m Hside HT Hc Hm).
Qed.

Lemma mkdirAll_simple (name : string) (w : World) :
  simple name = true ->
  Facade.MkdirAll fs (S n) name w
  = (obfuscatedPath <- wrap "failed to get obfuscated path"
                         (Fs.getObfuscatedPath fs (S n) name) ;;
     wrap "failed to create directory" (Backend.MkdirAll obfuscatedPath) ;;;
     wrap "failed to ensure .grainfs directory"
       (Fs.ensureGrainFSDir fs (S n) name) ;;;
     ret tt) w.
Proof.
  intros Hs. pose proof (simple_inv _ Hs) as (H1 & H2 & H3).
  unfold Facade.MkdirAll, Facade.mkdirAllInternal.
  apply String.eqb_neq in H1, H2. rewrite H1, H2. cbn [orb].
  rewrite (Clean_simple _ Hs), (Split_no_slash _ H3).
  cbn [Facade.mkdirAll_loop]. rewrite H1, H2. cbn [orb].
  reflexivity.
Qed.

(** [MkdirAll] of a name that the root does not have. *)
Lemma MkdirAll_state (name T : string) (w : World) (m : FilenameMap)
    (files : gmap string node) :
  root_state fs w m files -> token_of fs name T ->
  m !! T = None -> files !! T = None ->
  backend w !! [T; GrainFSDir] = None ->
  NonceSize <= length (entropy w) ->
  exists w', Facade.MkdirAll fs (S n) name w = (Ok tt, w') /\
             root_state fs w' (<[T := name]> m) (<[T := Directory]> files) /\
             cache w' !! "." = Some (<[T := name]> m) /\
             backend w' !! [T; GrainFSDir] = Some Directory /\
             entropy w' = skipn NonceSize (entropy w).
Proof.
  intros Hst Htok Hm Hf Hside He.
  pose proof (token_of_like fs _ _ Htok) as Hlike.
  destruct (gop_state_fresh_frame name T w m files Hst Htok Hm He)
    as (w1 & Hgop & Hst1 & Hc1 & He1 & Hframe).
  destruct (token_sidecar_path T Hlike) as [Hjoin Hcomp].
  set (w2 := set_backend (<[[T] := Directory]> (backend w1)) w1).
  set (w3 := set_backend (<[[T; GrainFSDir] := Directory]> (backend w2)) w2).
  assert (Hb1 : backend w1 !! [T] = None).
  { destruct Hst1 as (_ & _ & Hfiles). rewrite (Hfiles _ Hlike). exact Hf. }
  assert (Hmk : Backend.MkdirAll T w1 = (Ok tt, w2)).
  { unfold Backend.MkdirAll. rewrite (components_token _ Hlike).
    cbn [Backend.proper_prefixes app Backend.mk_dirs]. rewrite Hb1.
    reflexivity. }
  assert (Hens : Fs.ensureGrainFSDir fs (S n) name w2 = (Ok tt, w3)).
  { unfold Fs.ensureGrainFSDir, Fs.ensureGrainFSDir_at, bind.
    rewrite (wrap_Ok _ _ _ _ _ (gop_cached name T w2 _ Htok Hc1
                                  (lookup_insert_eq _ _ _))).
    rewrite Hjoin. unfold Backend.MkdirAll. rewrite Hcomp.
    cbn [Backend.proper_prefixes List.map app Backend.mk_dirs].
    unfold w2 at 1 2. cbn [backend set_backend].
    rewrite lookup_insert_eq, lookup_insert_ne by discriminate.
    rewrite (Hframe [T; GrainFSDir]) by discriminate. rewrite Hside.
    reflexivity. }
  exists w3. split; [|split; [|split; [|split]]].
  - destruct Htok as (Hs & _). rewrite (mkdirAll_simple _ _ Hs).
    unfold bind at 1. rewrite (wrap_Ok _ _ _ _ _ Hgop).
    unfold bind at 1. rewrite (wrap_Ok _ _ _ _ _ Hmk).
    unfold bind. rewrite (wrap_Ok _ _ _ _ _ Hens). reflexivity.
  - assert (Hst2 : root_state fs w2 (<[T := name]> m) (<[T := Directory]> files))
      by (apply (root_state_put fs w1 _ _ _ T Directory Hst1 Hlike);
          reflexivity).
    destruct Hst2 as ((Hk & Hs2 & Hf2) & Hc2 & Hfiles2).
    split; [split; [exact Hk|split]|split].
    + unfold w3. cbn [backend set_backend].
      rewrite lookup_insert_ne by discriminate. exact Hs2.
    + unfold w3. cbn [backend set_backend].
      rewrite lookup_insert_ne by discriminate. exact Hf2.
    + unfold w3. cbn [backend set_backend cache].
      rewrite lookup_insert_ne by discriminate. exact Hc2.
    + intros t Ht. unfold w3. cbn [backend set_backend].
      rewrite lookup_insert_ne by discriminate. apply Hfiles2, Ht.
  - exact Hc1.
  - apply lookup_insert_eq.
  - exact He1.
Qed.

(** [MkdirAll] of a directory of the root whose sidecar directory is
    there: nothing changes. *)
Lemma MkdirAll_again (name T : string) (w : World) (m : FilenameMap) :
  token_of fs name T -> cache w !! "." = Some m -> m !! T = Some name ->
  backend w !! [T] = Some Directory ->
  backend w !! [T; GrainFSDir] = Some Directory ->
  Facade.MkdirAll fs (S n) name w = (Ok tt, w).
Proof.
  intros Htok Hc Hm Hd Hside.
  pose proof (token_of_like fs _ _ Htok) as Hlike.
  destruct (token_sidecar_path T Hlike) as [Hjoin Hcomp].
  pose proof (gop_cached name T w m Htok Hc Hm) as Hgop.
  assert (Hw : set_backend (backend w) w = w) by (destruct w; reflexivity).
  assert (Hmk : Backend.MkdirAll T w = (Ok tt, w)).
  { unfold Backend.MkdirAll. rewrite (components_token _ Hlike).
    cbn [Backend.proper_prefixes app Backend.mk_dirs]. rewrite Hd, Hw.
    reflexivity. }
  assert (Hens : Fs.ensureGrainFSDir fs (S n) name w = (Ok tt, w)).
  { unfold Fs.ensureGrainFSDir, Fs.ensureGrainFSDir_at, bind.
    rewrite (wrap_Ok _ _ _ _ _ Hgop), Hjoin.
    unfold Backend.MkdirAll. rewrite Hcomp.
    cbn [Backend.proper_prefixes List.map app Backend.mk_dirs].
    rewrite Hd, Hside, Hw. reflexivity. }
  destruct Htok as (Hs & _). rewrite (mkdirAll_simple _ _ Hs).
  unfold bind at 1. rewrite (wrap_Ok _ _ _ _ _ Hgop).
  unfold bind at 1. rewrite (wrap_Ok _ _ _ _ _ Hmk).
  unfold bind. rewrite (wrap_Ok _ _ _ _ _ Hens). reflexivity.
Qed.

End Directories.

(** X21.  On a volume made on an empty backend: [MkdirAll] of a name of
    one component makes, on the backend, a directory under the token of
    the name and the sidecar directory inside it, and records the name in
    the filemap of the root.  [Stat] of the name then reports a directory
    under the name the user gave, and a second [MkdirAll] of the name
    succeeds and changes nothing. *)
Theorem mkdirall_makes_directory_and_sidecar `{Primitives}
    (k : nat) (password name : string) (w0 : World) :
  password <> "" -> backend w0 = ∅ -> root_name name = true ->
  SaltSize + NonceSize <= length (entropy w0) ->
  exists fs w w1 info,
    Facade.New (S (S k)) password w0 = (Ok fs, w) /\
    Facade.MkdirAll fs (S k) name w = (Ok tt, w1) /\
    backend w1 !! [token fs name] = Some Directory /\
    backend w1 !! [token fs name; GrainFSDir] = Some Directory /\
    Fs.loadFilemap fs (S k) "." w1 = (Ok {[token fs name := name]}, w1) /\
    Facade.Stat fs (S k) name w1 = (Ok info, w1) /\
    originalName info = name /\ fi_isDir (wrapped info) = true /\
    Facade.MkdirAll fs (S k) name w1 = (Ok tt, w1).
Proof.
  intros Hpw Hb Hname He. unfold NonceSize in He.
  set (fs := first_volume password (entropy w0)).
  set (w := set_cache ∅ (initialized_world w0)).
  assert (Hk : aes_key_ok (filenameKey fs) = true) by apply deriveKeys_ok.
  pose proof (token_of_token fs name Hk Hname) as Htok.
  pose proof (token_of_like fs _ _ Htok) as Hlike.
  destruct (MkdirAll_state fs k name (token fs name) w ∅ ∅
              (first_volume_state password w0) Htok)
    as (w1 & Hmk & Hst1 & Hc1 & Hside1 & _).
  { apply lookup_empty. }
  { apply lookup_empty. }
  { unfold w. cbn [set_cache initialized_world backend].
    rewrite !lookup_insert_ne by discriminate. apply lookup_empty. }
  { unfold w. cbn [set_cache initialized_world entropy].
    rewrite length_skipn. unfold NonceSize. lia. }
  assert (Hd1 : backend w1 !! [token fs name] = Some Directory).
  { destruct Hst1 as (_ & _ & Hfiles). rewrite (Hfiles _ Hlike).
    apply lookup_insert_eq. }
  pose proof (gop_cached fs k name (token fs name) w1 _ Htok Hc1
                (lookup_insert_eq _ _ _)) as Hgop.
  exists fs, w, w1,
    (mkFileInfoWrapper (Backend.info_of [token fs name] Directory) name).
  split; [apply New_empty; [exact Hpw|exact Hb|lia]|].
  split; [exact Hmk|]. split; [exact Hd1|]. split; [exact Hside1|].
  split; [apply loadFilemap_hit, Hc1|]. split.
  { rewrite Stat_eq, Hgop. unfold Backend.Stat.
    rewrite (components_token _ Hlike), Hd1.
    destruct Htok as (Hs & _). rewrite (Base_simple _ Hs). reflexivity. }
  split; [reflexivity|]. split; [reflexivity|].
  apply (MkdirAll_again fs k name (token fs name) w1 _ Htok Hc1
           (lookup_insert_eq _ _ _) Hd1 Hside1).
Qed.

Lemma mkdirall_makes_directory_and_sidecar_witness :
  exists fs w w1 info,
    @Facade.MkdirAll Ref.prims fs 1 "docs" w = (Ok tt, w1) /\
    backend w1 !! [@token Ref.prims fs "docs"; GrainFSDir] = Some Directory /\
    @Facade.Stat Ref.prims fs 1 "docs" w1 = (Ok info, w1) /\
    originalName info = "docs" /\ fi_isDir (wrapped info) = true.
Proof.
  destruct (@mkdirall_makes_directory_and_sidecar Ref.prims 0 "pw" "docs"
              (empty_world 44))
    as (fs & w & w1 & info & _ & Hmk & _ & Hside & _ & Hstat & Hname & Hdir
        & _).
  - discriminate.
  - reflexivity.
  - reflexivity.
  - vm_compute. lia.
  - exists fs, w, w1, info. split; [exact Hmk|]. split; [exact Hside|].
    split; [exact Hstat|]. split; [exact Hname|exact Hdir].
Defined.

(** X22.  The empty name.  [Create], [Open], [OpenFile] and [Remove] refuse
    it with "filename cannot be empty", [Rename] refuses it on either side
    with "paths cannot be empty", and none of them touches the backend or
    the filemaps; [MkdirAll] of the empty name and of the dot succeeds and
    does nothing; [Stat] of the empty name answers for the root directory
    of the backend, under the name ".". *)
Theorem empty_name_is_refused_or_root `{Primitives}
    (fs : GrainFS) (fuel : nat) (name : string) (flag : Z) (w : World) :
  Facade.Create fs fuel "" w = (Err (Msg "filename cannot be empty"), w) /\
  Facade.Open fs fuel "" w = (Err (Msg "filename cannot be empty"), w) /\
  Facade.OpenFile fs fuel "" flag w
  = (Err (Msg "filename cannot be empty"), w) /\
  Facade.Remove fs fuel "" w = (Err (Msg "filename cannot be empty"), w) /\
  Facade.Rename fs fuel "" name w = (Err (Msg "paths cannot be empty"), w) /\
  Facade.Rename fs fuel name "" w = (Err (Msg "paths cannot be empty"), w) /\
  Facade.MkdirAll fs fuel "" w = (Ok tt, w) /\
  Facade.MkdirAll fs fuel "." w = (Ok tt, w) /\
  Facade.Stat fs fuel "" w
  = (Ok (mkFileInfoWrapper (mkFileInfo "." 0 true) "."), w).
Proof.
  repeat split; try reflexivity.
  - unfold Facade.Rename. rewrite orb_true_r. reflexivity.
  - rewrite Stat_eq. destruct fuel; reflexivity.
Qed.

(** ** A damaged filemap *)

(** The error of a load of a filemap file that is too short to hold a
    nonce and a tag. *)
Definition short_filemap_error : error :=
  Wrap "failed to load filemap"
    (Wrap "failed to decrypt filemap" (Msg "ciphertext too short")).

Section DamagedFilemap.
Context `{Primitives}.
Variable fs : GrainFS.
Variable n : nat.

Lemma loadFilemap_short (gop : string -> M string) (c : list byte) (w : World) :
  (forall v, gop "." v = (Ok ".", v)) ->
  cache w !! "." = None ->
  backend w !! root_filemap_key = Some (File c) ->
  length c < NonceSize + TagSize ->
  Fs.loadFilemap_at fs gop "." w
  = (Err (Wrap "failed to decrypt filemap" (Msg "ciphertext too short")), w).
Proof.
  intros Hdot Hc Hb Hlen.
  unfold Fs.loadFilemap_at, bind at 1, Fs.cache_lookup. rewrite Hc.
  unfold bind at 1. rewrite (wrap_Ok _ _ _ _ _ (Hdot w)).
  change (Join ["."; GrainFSDir; FilemapFile]) with ".grainfs/filemap.json".
  unfold bind at 1. rewrite attempt_eq.
  assert (Hne : components ".grainfs/filemap.json" <> []) by discriminate.
  rewrite (Backend_Open_file _ _ _ Hne Hb).
  cbn [fst snd]. unfold bind at 1.
  rewrite (wrap_Ok _ _ _ _ _ (read_back _ _ _ _)).
  unfold bind at 1, lift, decryptData.
  replace (length c <? NonceSize + TagSize)%nat with true
    by (symmetry; apply Nat.ltb_lt, Hlen).
  unfold wrap. f_equal.
  change (components ".grainfs/filemap.json") with root_filemap_key.
  rewrite (insert_id _ _ _ Hb). destruct w; reflexivity.
Qed.

Lemma obfuscateFilename_short (fuel : nat) (name T : string) (c : list byte)
    (w : World) :
  token_of fs name T ->
  cache w !! "." = None ->
  backend w !! root_filemap_key = Some (File c) ->
  length c < NonceSize + TagSize ->
  Fs.obfuscateFilename_at fs (Fs.getObfuscatedPath fs fuel) (S n) "." name w
  = (Err short_filemap_error, w).
Proof.
  intros (Hs & Hside & HT) Hc Hb Hlen. unfold Fs.obfuscateFilename_at.
  pose proof (simple_inv _ Hs) as (Hne & _).
  apply String.eqb_neq in Hne. rewrite Hne, Hside.
  unfold bind at 1, lift. rewrite HT. unfold wrap at 1.
  apply bind_Err. cbn [Fs.obfuscate_loop]. apply bind_Err, wrap_Err.
  apply (loadFilemap_short _ c w (getObfuscatedPath_dot fs fuel) Hc Hb Hlen).
Qed.

End DamagedFilemap.

(** X23.  When the filemap file of the root is too short to hold a nonce
    and a tag (fewer than 28 bytes) and the filemap is not in the cache,
    no name of the root can be reached: [Create], [Open], [Stat] and
    [Remove] of every name of one component (of at most 102 bytes, not the
    sidecar), on a usable filename key, fail on loading the filemap,
    with "ciphertext too short" at the bottom of the error, and leave the
    backend, the cache and the entropy as they were. *)
Theorem short_filemap_blocks_the_root `{Primitives}
    (fs : GrainFS) (n : nat) (name : string) (c : list byte) (w : World) :
  aes_key_ok (filenameKey fs) = true -> root_name name = true ->
  cache w !! "." = None ->
  backend w !! root_filemap_key = Some (File c) ->
  length c < NonceSize + TagSize ->
  Facade.Create fs (S n) name w
  = (Err (Wrap "failed to obfuscate filename" short_filemap_error), w) /\
  Facade.Open fs (S n) name w
  = (Err (Wrap "failed to get obfuscated path"
            (Wrap "failed to obfuscate path component" short_filemap_error)),
     w) /\
  Facade.Stat fs (S n) name w
  = (Err (Wrap "failed to get obfuscated path"
            (Wrap "failed to obfuscate path component" short_filemap_error)),
     w) /\
  Facade.Remove fs (S n) name w
  = (Err (Wrap "failed to get obfuscated path"
            (Wrap "failed to obfuscate path component" short_filemap_error)),
     w).
Proof.
  intros Hk Hname Hc Hb Hlen.
  pose proof (token_of_token fs name Hk Hname) as Htok.
  pose proof Htok as (Hs & _). pose proof (simple_inv _ Hs) as (Hne & _).
  assert (Hgop : Fs.getObfuscatedPath fs (S n) name w
                 = (Err (Wrap "failed to obfuscate path component"
                           short_filemap_error), w)).
  { rewrite (getObfuscatedPath_simple fs n name w Hs).
    rewrite (obfuscateFilename_short fs n n name _ c w Htok Hc Hb Hlen).
    reflexivity. }
  split; [|split; [|split]].
  - unfold Facade.Create, Facade.OpenFile, Facade.openFileInternal.
    fold create_flags.
    pose proof Hne as Hne'. apply String.eqb_neq in Hne'. rewrite Hne'.
    change (has_flag create_flags O_CREATE) with true. cbv iota.
    rewrite (dir_of_simple _ Hs), (Base_simple _ Hs).
    change (negb (String.eqb "." ".")) with false. cbv iota.
    apply bind_Err. unfold bind at 1, ret at 1.
    unfold bind at 1.
    rewrite (wrap_Ok _ _ _ _ _ (getObfuscatedPath_dot _ _ _)).
    apply bind_Err, wrap_Err. unfold Fs.obfuscateFilename.
    apply (obfuscateFilename_short fs n (S n) name _ c w Htok Hc Hb Hlen).
  - rewrite (Open_eq _ _ _ _ Hne), Hgop. reflexivity.
  - rewrite Stat_eq, Hgop. reflexivity.
  - unfold Facade.Remove.
    apply String.eqb_neq in Hne. rewrite Hne.
    apply bind_Err, wrap_Err, Hgop.
Qed.

(** A mounted volume whose root filemap file has been emptied. *)
Definition emptied_filemap_world : World :=
  set_backend (<[root_filemap_key := File []]> (backend (pw_world 44)))
    (pw_world 44).

Lemma short_filemap_blocks_the_root_witness :
  @Facade.Open Ref.prims (pw_volume 44) 1 "notes.txt" emptied_filemap_world
  = (Err (Wrap "failed to get obfuscated path"
            (Wrap "failed to obfuscate path component" short_filemap_error)),
     emptied_filemap_world).
Proof.
  apply (@short_filemap_blocks_the_root Ref.prims (pw_volume 44) 0 "notes.txt"
           [] emptied_filemap_world).
  - reflexivity.
  - reflexivity.
  - reflexivity.
  - apply lookup_insert_eq.
  - vm_compute. lia.
Defined.

(** * More of the reader *)

(** X24.  Successive reads walk the plaintext.  On a handle opened for
    reading on a file that holds the envelope of a non-empty [data], the
    first [Read] into a buffer of [a] bytes returns the first [a] bytes of
    the data (all of it when the buffer is larger) and the next [Read],
    into [b] bytes, continues where the first stopped; once the data is
    used up [Read] returns [io.EOF], whatever the buffer.  No read changes
    the backend, the filemaps or the entropy. *)
Theorem reads_walk_the_plaintext `{Primitives}
    (fs : GrainFS) (name t : string) (nonce data : list byte) (a b : nat)
    (w : World) :
  backend w !! [t] = Some (File (sealed (masterKey fs) nonce data)) ->
  length nonce = NonceSize -> aes_key_ok (masterKey fs) = true ->
  data <> [] ->
  exists f1,
    Handle.Read a (read_handle fs name t, w) = (Ok (firstn a data), (f1, w)) /\
    (a < length data ->
     exists f2, Handle.Read b (f1, w)
                = (Ok (firstn b (skipn a data)), (f2, w))) /\
    (length data <= a -> Handle.Read b (f1, w) = (Err EOF, (f1, w))).
Proof.
  intros Hb Hn Hk Hdata.
  assert (Hlen : length data <> 0) by (destruct data; [congruence|discriminate]).
  rewrite (Read_fresh fs name t nonce data w a Hb Hn Hk), Read_ready.
  rewrite Nat.sub_0_r. apply Nat.eqb_neq in Hlen as Hz. rewrite Hz.
  cbv zeta. cbn [Nat.add skipn]. rewrite drop_0.
  set (n' := if (length data <? a)%nat then length data else a).
  assert (Hfirst : firstn n' data = firstn a data).
  { unfold n'. destruct (Nat.ltb_spec (length data) a); [|reflexivity].
    rewrite !firstn_all2 by lia. reflexivity. }
  eexists. split; [rewrite Hfirst; reflexivity|]. split.
  - intros Ha. rewrite Read_ready.
    assert (Hn' : n' = a)
      by (unfold n'; destruct (Nat.ltb_spec (length data) a); lia).
    rewrite Hn'.
    replace (length data - a =? 0)%nat with false
      by (symmetry; apply Nat.eqb_neq; lia).
    cbv zeta. eexists. f_equal. f_equal.
    destruct (Nat.ltb_spec (length data - a) b); [|reflexivity].
    rewrite !firstn_all2 by (rewrite length_skipn; lia). reflexivity.
  - intros Ha. rewrite Read_ready.
    assert (Hn' : n' = length data)
      by (unfold n'; destruct (Nat.ltb_spec (length data) a); lia).
    rewrite Hn', Nat.sub_diag. reflexivity.
Qed.

Lemma reads_walk_the_plaintext_witness :
  exists f1 f2,
    @Handle.Read Ref.prims 7 (hello_reader, snd hello_opened)
    = (Ok (bytes_of "Hello, "), (f1, snd hello_opened)) /\
    @Handle.Read Ref.prims 100 (f1, snd hello_opened)
    = (Ok (bytes_of "GrainFS!"), (f2, snd hello_opened)).
Proof.
  destruct (@reads_walk_the_plaintext Ref.prims (pw_volume 56) "hello.txt"
              hello_token hello_nonce hello 7 100 (snd hello_opened))
    as (f1 & Hfirst & Hnext & _).
  - exact hello_envelope.
  - reflexivity.
  - reflexivity.
  - discriminate.
  - destruct Hnext as (f2 & Hsecond); [vm_compute; lia|].
    exists f1, f2. split; [exact Hfirst|exact Hsecond].
Defined.

(** * The collision loop *)

(** X25.  When the filemap of the root already gives the token of a name
    to another original, [obfuscateFilename] gives the name the token with
    the suffix ".1", provided that one is free, and saves the new entry;
    asked again it returns the suffixed token and changes nothing, and
    [deobfuscateFilename] takes the suffixed token back to the name. *)
Theorem taken_token_gets_suffix `{Primitives}
    (fs : GrainFS) (fuel : nat) (name other T : string) (m : FilenameMap)
    (w : World) :
  aes_key_ok (masterKey fs) = true ->
  backend w !! sidecar_key = Some Directory ->
  backend w !! root_filemap_key <> Some Directory ->
  NonceSize <= length (entropy w) ->
  cache w !! "." = Some m ->
  Fs.is_sidecar name = false ->
  obfuscateFilename (filenameKey fs) name = Ok T ->
  m !! T = Some other -> other <> name ->
  m !! Sprintf_s_d T 1 = None ->
  exists w',
    Fs.obfuscateFilename fs (S (S fuel)) "." name w
    = (Ok (Sprintf_s_d T 1), w') /\
    cache w' !! "." = Some (<[Sprintf_s_d T 1 := name]> m) /\
    Fs.loadFilemap fs (S (S fuel)) "." w'
    = (Ok (<[Sprintf_s_d T 1 := name]> m), w') /\
    Fs.obfuscateFilename fs (S (S fuel)) "." name w'
    = (Ok (Sprintf_s_d T 1), w') /\
    Fs.deobfuscateFilename fs (S (S fuel)) "." (Sprintf_s_d T 1) w'
    = (Ok name, w').
Proof.
  intros Hk Hs Hf He Hc Hside HT Hm Hne Hfree.
  assert (Hr : root_ready fs w) by (split; [exact Hk|split; assumption]).
  pose proof (getObfuscatedPath_dot fs (S (S fuel))) as Hdot.
  pose proof (obfuscateFilename_inv _ _ _ HT) as (Hnn & _).
  apply String.eqb_neq in Hnn. apply String.eqb_neq in Hne.
  set (m' := <[Sprintf_s_d T 1 := name]> m).
  assert (Hlike : token_like (Sprintf_s_d T 1) = true)
    by apply token_like_Sprintf, (token_is_token_like _ _ _ HT).
  assert (Hrun : forall v mv,
             cache v !! "." = Some mv -> mv !! T = Some other ->
             Fs.obfuscate_loop fs (Fs.getObfuscatedPath fs (S (S fuel)))
               (S (S fuel)) "." name T T 1 v
             = (match mv !! Sprintf_s_d T 1 with
                | Some existing =>
                    if String.eqb existing name
                    then Ok (Sprintf_s_d T 1, true)
                    else loop_pure fuel mv name T (Sprintf_s_d T 2) 3
                | None => Ok (Sprintf_s_d T 1, false)
                end, v)).
  { intros v mv Hcv Hmv.
    rewrite (obfuscate_loop_hit fs _ _ _ _ _ _ _ _ _ Hcv).
    cbn [loop_pure]. rewrite Hmv, Hne. reflexivity. }
  exists (saved_world fs w m').
  assert (Hc' : cache (saved_world fs w m') !! "." = Some m')
    by apply lookup_insert_eq.
  split; [|split; [exact Hc'|split; [apply loadFilemap_hit, Hc'|split]]].
  - unfold Fs.obfuscateFilename, Fs.obfuscateFilename_at.
    rewrite Hnn, Hside. unfold bind at 1, lift. rewrite HT. unfold wrap at 1.
    unfold bind at 1. rewrite (Hrun w m Hc Hm), Hfree. cbn [fst snd].
    unfold bind.
    rewrite (wrap_Ok _ _ _ _ _
               (updateFilemap_root fs _ Hdot w m name _ Hr He Hc)).
    reflexivity.
  - unfold Fs.obfuscateFilename, Fs.obfuscateFilename_at.
    rewrite Hnn, Hside. unfold bind at 1, lift. rewrite HT. unfold wrap at 1.
    unfold bind at 1.
    assert (HmT : m' !! T = Some other).
    { unfold m'. rewrite lookup_insert_ne; [exact Hm|].
      intros Heq. rewrite Heq, Hm in Hfree. discriminate. }
    rewrite (Hrun _ m' Hc' HmT).
    unfold m' at 1. rewrite lookup_insert_eq, String.eqb_refl. reflexivity.
  - apply (deobfuscateFilename_hit fs _ _ _ _ _ m' Hlike Hc').
    apply lookup_insert_eq.
Qed.

(** The mounted volume with a filemap of the root that gives the token of
    "hello.txt" to another name. *)
Definition taken_token_world : World :=
  set_cache {["." := {[hello_token := "other.txt"]}]} (pw_world 56).

Lemma taken_token_gets_suffix_witness :
  exists w',
    @Fs.obfuscateFilename Ref.prims (pw_volume 56) 2 "." "hello.txt"
      taken_token_world
    = (Ok (Sprintf_s_d hello_token 1), w') /\
    @Fs.deobfuscateFilename Ref.prims (pw_volume 56) 2 "."
      (Sprintf_s_d hello_token 1) w'
    = (Ok "hello.txt", w').
Proof.
  destruct (@taken_token_gets_suffix Ref.prims (pw_volume 56) 0 "hello.txt"
              "other.txt" hello_token {[hello_token := "other.txt"]}
              taken_token_world)
    as (w' & Hob & _ & _ & _ & Hde).
  - reflexivity.
  - vm_compute. reflexivity.
  - vm_compute. discriminate.
  - vm_compute. lia.
  - apply lookup_insert_eq.
  - reflexivity.
  - vm_compute. reflexivity.
  - apply lookup_insert_eq.
  - discriminate.
  - apply lookup_singleton_ne. vm_compute. discriminate.
  - exists w'. split; [exact Hob|exact Hde].
Defined.
